(* ===== verification/_CoqProject ===== *)
-Q . S2P
Prelude.v
JsPrim.v
Version.v
NodePath.v
Contracts.v
ArchiveFilter.v
Utf8.v
Utf16.v
Json.v
JsonParse.v
PackageJson.v
MessagesTransform.v
FileSystem.v
Extractor.v
CodebaseTransformer.v
Cache.v
CacheSteps.v
Build.v
CacheRace.v
Main.v
Console.v
