(* ===== verification/Prelude.v ===== *)
(** * A verification development of keycloakify/email-native

    The repository has one script, [src/scripts/build.ts], which builds the
    npm package of the Keycloak base email theme:

    - it reads and validates [package.json] with zod (lines 18-60);
    - it decodes the Keycloak version packed in the npm major version
      (lines 62-66: "260005.0.0" means Keycloak 26.0.5);
    - it downloads the [keycloak-themes] jar from Maven Central through the
      tool [downloadAndExtractArchive] (lines 68-87), whose cache lives in
      [node_modules/.cache/scripts]; its [onArchiveFile] callback keeps the
      entries under [theme/base/email] and renames them relative to that
      directory with [path.relative];
    - it copies the extracted tree into [dist/keycloak-theme/email] through
      the tool [transformCodebase] (lines 91-134); its [transformSourceCode]
      callback prepends a comment banner to
      [messages/messages_<locale>.properties];
    - it writes a trimmed [dist/package.json] and copies README and LICENSE
      (lines 136-164) and prints a message (line 166).

    The tools are not under [src/]: the cache store, the fetcher, the
    extractor, the orchestrator and the codebase transformer are modelled
    from the specification (sections 3-7), against two interfaces that the
    script's callbacks implement ([Contracts.EntryFilter] for
    [onArchiveFile], [Contracts.FileTransform] for [transformSourceCode]).
    The library functions the script calls are modelled from their
    definitions: the JavaScript operators, Node's POSIX [path] module,
    the UTF-8 codec of [Buffer] and chalk's [green] style.

    ** Files (in dependency order)

    - [Prelude]: this header, the scope [kc_scope], the hint databases
      [kc] and [kc_rw], the tactics [lia_div], [kc_simp] and [zcases], the
      JavaScript string helpers ([str_split] is [String.prototype.split] on
      a one-character separator, [str_join] is [Array.prototype.join],
      [str_starts_with], [str_ends_with]) and generic list lemmas.
    - [JsPrim]: the primitives of line 65: string indexing ([undefined] out
      of range), [+] on string-or-undefined operands, [parseInt]
      (ECMA-262, with its trimming, sign, [0x] prefix and NaN as [None]) and
      the printing of a number in a template literal.
    - [Version] (module [KeycloakVersion]): [keycloakVersion] of lines
      62-66 and the URL of line 69.
    - [NodePath]: [path.join]/[normalize] on characters as in Node's
      [lib/path.js], [path.resolve] and [relative] on segment lists with the
      working directory explicit, [dirname] and [basename] as the scans of
      [lib/path.js].
    - [Contracts]: the error kinds of section 7, the result monad, the
      filter decision and the two callback interfaces.
    - [ArchiveFilter]: [onArchiveFile] (lines 75-86), an [EntryFilter].
    - [Utf8]: [buffer.toString("utf8")] as the WHATWG decoder (a state
      record, U+FFFD for every maximal invalid subsequence, the byte that
      ends one reprocessed) and [Buffer.from(s, "utf8")] on code points.
    - [MessagesTransform]: [transformSourceCode] (lines 94-133), a
      [FileTransform]: the labelled block as nested conditionals, the regular
      expression as a structural matcher proved equivalent to it
      ([match_locale_correct]), the assert as a [CallbackError].
    - [FileSystem]: the world, a [gmap] from paths (segment lists) to nodes
      and the list of URLs requested; the state-and-error monad [io] in
      which a failure keeps the writes made before it; [mkdir_p],
      [write_file], [read_file] with Node's errors; the invariant [fs_wf]
      (the parent of every node is a directory) and its preservation.
    - [Extractor]: the archive extractor of section 4.3 and the scoped
      [writeFile] of section 4.4; [ArchiveFormat] is the container format.
    - [CodebaseTransformer]: [transformCodebase] of section 4.5.
    - [Cache]: the cache store (a directory per key and a sentinel file
      beside it), the [Fetcher] and the orchestrator
      [downloadAndExtractArchive] of sections 4.1, 4.2 and 4.4.
    - [Utf16]: JavaScript strings as UTF-16 code units;
      [Buffer.toString("utf8")] (line 53) and [Buffer.from(s, "utf8")]
      (line 155) between bytes and code units through [Utf8].
    - [Json]: [JSON.parse] (line 51) as a recursive-descent parser over
      code units, mutual on values, elements and members with a fuel
      argument, and [JSON.stringify(v, null, 2)] (line 139) with
      [Number::toString] and [QuoteJSONString]; objects keep ECMA-262's
      property enumeration order (array-index keys ascending, then the
      other keys in creation order; a repeated key replaces the value);
      a number is an exact decimal or -0, and [num_safe] / [json_safe]
      name the numbers a double holds as the same decimal.
    - [JsonParse]: the parser consumes its input, the fuel suffices and
      does not matter, every parsed value is well formed, and a printed
      well-formed value with safe numbers is read back.
    - [PackageJson]: the zod schema of lines 32-40 and its check (line 55),
      [parsedPackageJson.version] for line 63, the object literal of lines
      140-151 and its bytes.
    - [CacheSteps]: the orchestrator as a process that makes one
      file-system call at a time ([proc_step]: the sentinel check, the
      removal, the mkdir, the request, one entry, the commit), the
      interleaving of several invocations on one world ([cstep],
      [run_schedule]); for the proofs, an abstraction of the calls that
      keeps only the entry's files and completion flag ([astep],
      [acstep], [refines]), which mirrors every interleaved run.
    - [Build]: lines 62-134 put together ([downloadJar], [transformTheme],
      [build]) with the repository root and the working directory as
      parameters, and a run on a small jar.
    - [CacheRace]: concurrent builds of the script racing on the entry
      [extract_email_theme] (section 5): an invariant of the abstraction
      with ghost segments (what each invocation extracted since
      the last removal), and the theorems below.
    - [Main]: the whole script (lines 17-164): read and validate
      [package.json], [build], write [dist/package.json], copy README and
      LICENSE with [fs.cpSync]; a run on a small repository.
    - [Console]: the message of line 166 and the process: standard
      output as a trace beside the world (the monad [cio] over [io]),
      [console.log], [chalk.green] as chalk's [applyStyle] at a colour
      level given as a parameter (its reopening after inner close codes
      and its wrapping of line breaks), and the async function of lines
      17-167 with the exit code of an unhandled rejection.

    ** What the theorems show

    - The callbacks ([ArchiveFilter], [MessagesTransform]): a kept jar
      entry lies inside [theme/base/email] and is written at its path
      relative to it; an ordinary entry of the email theme is kept; an
      entry whose name starts with ".." (such as [..data]) is dropped;
      a messages file gets exactly the banner, a blank line and its
      original bytes when they are UTF-8, a non-UTF-8 byte is replaced by
      EF BF BD, and a badly named messages file makes the build fail.
    - The pipeline ([Extractor], [CodebaseTransformer], [Cache]), for any
      filter and transform: extraction changes nothing outside its root,
      writes only the accepted entries' bytes at their targets, creates
      the directories above each file, and rejects targets outside the
      root; the transformer puts every source file, transformed, at the
      same path, copies byte for byte under the identity transform, writes
      only below the destination, leaves stale files, and writes the same
      files whatever the order of the walk; the orchestrator
      is idempotent per key, commits only after success, makes at most one
      request, and the entry of a miss holds only the accepted entries.
    - The script ([Build]): end to end, after a build that missed the
      cache every email-theme entry of the jar is in
      [dist/keycloak-theme/email] at its relative path, transformed by
      [transformSourceCode]; and the guarantees above for the jar download
      and the theme transformation as [build.ts] configures them, among
      them that the cache key does not depend on the Keycloak version.
    - The primitives ([Version], [Utf8]): the decoding of line 65 inverts
      the packing of x.y.z (each below 100), its fields are NaN or between
      -9 and 99, a short major gives NaN, and only the first six
      characters of the major count; UTF-8 decoding inverts encoding
      on scalar values and yields only scalar values; a string of scalar
      values survives [Buffer.from] then [toString].
    - Concurrency ([CacheSteps], [CacheRace]): when all the builds racing
      on the entry have returned successfully, whatever the interleaving,
      the entry holds at each path the last entry of the jar written
      there, and nothing else, as a single download leaves it.
    - JSON ([JsonParse]): [JSON.parse] returns well-formed values (keys
      distinct and in enumeration order) and reads back what
      [JSON.stringify(v, null, 2)] prints, for values without -0 whose
      numbers are safe.
    - The whole script ([Main]): a [package.json] that is not JSON (also
      one that starts with a UTF-8 byte order mark) stops it with a
      [SyntaxError], one that does not fit the schema with a [ZodError],
      both before any request or write; a run makes at most one request;
      after a successful run [dist/package.json] parses to the seven fields
      of [package.json] and [publishConfig] (when the numbers of its
      [repository] are safe), and [dist/README.md] and
      [dist/LICENSE] are the repository's files.
    - The process ([Console]): it changes the file system as [main] does;
      it exits with 0 and prints one line, the message of line 166 with
      the Keycloak version (read without escape codes, at any colour
      level), when [main] succeeds, and exits with 1 printing nothing
      when [main] fails.

    ** Bounds and modelling choices

    Every recursion but the JSON parser's is structural (on strings,
    lists of bytes, entries and paths), and every definition computes; the
    examples and witnesses run by [vm_compute].  The parser takes fuel:
    each call consumes a character or goes down one level, so
    [json_parse] gives it [2 * length s + 1], and [json_parse_terminates]
    shows this never runs out and that any fuel that does not run out
    gives the same answer.  A single invocation run call by call
    ([CacheSteps.run_proc]) takes fuel too; [proc_rank] (three calls, the
    request, one call per entry and the commit) is enough
    ([run_proc_downloadAndExtractArchive]).  Bytes are
    [Byte.byte], code points [Z] kept in
    range by the lemmas of [Utf8].  In the path and version code a
    JavaScript string is an Ascii string (the version read from
    [package.json] is mapped unit by unit, see
    [PackageJson.ascii_of_unit]); in the JSON code it is a list of UTF-16
    code units.  Numbers of line 65 are integers or NaN.  A JSON number
    is the exact decimal [m * 10^e] it denotes (or -0), not its nearest
    double: the two agree on the numbers [Json.num_safe] admits (at most
    15 significant digits, normal range), and the printer writes the
    shortest form [Number::toString] gives for such a decimal.  On
    other numbers the model differs from Node ("1e400" is Infinity in
    Node, printed "null"), so the theorems that read a printed value
    back ([Main.main_dist_package_json], [JsonParse.json_parse_stringify])
    are stated for safe numbers.
    Directory entries of the jar are not given to the callback (the
    directories are created from the files' paths); the cache key alone
    identifies an entry (section 3); the theorems on the transformation
    assume the destination directory exists.

    ** Not modelled

    - What Node prints on standard error for the unhandled rejection
      of a failed run, and how chalk detects the colour level (the level
      is a parameter of [Console.run_script]).
    - [getThisCodebaseRootDirPath]: the repository root is a parameter.
    - The rounding of JSON numbers to doubles: numbers are exact
      decimals (see above).
    - The zip container format and HTTP with its proxy
      ([getProxyFetchOptions]): interfaces ([ArchiveFormat], [Fetcher]).
    - Interleavings inside one file-system call: [fs.mkdirSync] with
      [recursive], [fs.rmSync] and the write of one entry are single
      steps, as Node performs each as one synchronous call; a crash in
      the middle of a call is not modelled.
    - Symbolic links and permissions in the file system. *)

From Stdlib Require Export ZArith Ascii String Strings.Byte.
From stdpp Require Export base list gmap strings.

Declare Scope kc_scope.
Delimit Scope kc_scope with kc.

Create HintDb kc discriminated.
Create Rewrite HintDb kc_rw.

(** stdpp makes string append opaque to [simpl]; the models here compute
    with it, so let [simpl] unfold it on a constructor. *)
Arguments String.append : simpl nomatch.
(** Character comparisons stay folded; proofs case on [Ascii.eqb_spec]. *)
Arguments Ascii.eqb : simpl never.
Arguments ascii_dec : simpl never.

(** ** JavaScript string helpers *)

(** [s.split(sep)] for a one-character separator: never empty. *)
Fixpoint str_split (sep : ascii) (s : string) : list string :=
  match s with
  | EmptyString => [EmptyString]
  | String c s' =>
      let rest := str_split sep s' in
      if Ascii.eqb c sep then EmptyString :: rest
      else match rest with
           | r :: rs => String c r :: rs
           | [] => [String c EmptyString]
           end
  end.

(** [l.join(sep)]. *)
Fixpoint str_join (sep : string) (l : list string) : string :=
  match l with
  | [] => EmptyString
  | [x] => x
  | x :: l' => x +:+ sep +:+ str_join sep l'
  end.

(** [s.startsWith(p)]. *)
Definition str_starts_with (s p : string) : bool := String.prefix p s.

(** [s.endsWith(x)]: compare the last [length x] characters. *)
Definition str_ends_with (s x : string) : bool :=
  (String.length x <=? String.length s)%nat &&
  String.eqb (String.substring (String.length s - String.length x)
                               (String.length x) s) x.

(** Membership of a character in a string. *)
Fixpoint str_mem (c : ascii) (s : string) : bool :=
  match s with
  | EmptyString => false
  | String d s' => Ascii.eqb d c || str_mem c s'
  end.

Notation "s '.split' c" := (str_split c%char s)
  (at level 20, only parsing) : kc_scope.

(** ** Tactics *)

(** Linear arithmetic with [Z.div] and [Z.modulo] by constants. *)
Ltac lia_div := Z.to_euclidean_division_equations; lia.

(** Unfold, rewrite with the [kc] database, and close easy goals. *)
Ltac kc_simp :=
  repeat progress (simpl in *; autorewrite with kc_rw in *);
  try done.

(** Case analysis on the boolean comparisons of [Z] in the goal. *)
Ltac zcases :=
  repeat match goal with
  | |- context [(?a <=? ?b)%Z] => destruct (Z.leb_spec a b); try lia
  | |- context [(?a <? ?b)%Z] => destruct (Z.ltb_spec a b); try lia
  | |- context [(?a =? ?b)%Z] => destruct (Z.eqb_spec a b); try lia
  end; cbn [andb orb negb]; try done.

(** ** Lemmas *)

Lemma str_app_assoc (a b c : string) : (a +:+ b) +:+ c = a +:+ (b +:+ c).
Proof. induction a; simpl; congruence. Qed.

Lemma str_app_nil_r (a : string) : a +:+ EmptyString = a.
Proof. induction a; simpl; congruence. Qed.

Lemma str_length_app (a b : string) :
  String.length (a +:+ b) = (String.length a + String.length b)%nat.
Proof. induction a; simpl; auto. Qed.

Lemma str_split_cons sep s : exists r rs, str_split sep s = r :: rs.
Proof.
  destruct s as [|c s]; simpl; [by eauto|].
  destruct (Ascii.eqb c sep); [by eauto|].
  destruct (str_split sep s); eauto.
Qed.

Lemma str_join_cons_cons sep x y l :
  str_join sep (x :: y :: l) = x +:+ sep +:+ str_join sep (y :: l).
Proof. done. Qed.

Lemma str_join_cons_head sep c r rs :
  str_join sep (String c r :: rs) = String c (str_join sep (r :: rs)).
Proof. by destruct rs. Qed.

(** [s.split(c).join(c) === s]. *)
Lemma str_join_split sep s : str_join (String sep EmptyString) (str_split sep s) = s.
Proof.
  induction s as [|c s IH]; simpl; [done|].
  destruct (str_split_cons sep s) as (r & rs & Hs). rewrite Hs in IH |- *.
  destruct (Ascii.eqb c sep) eqn:E.
  - apply Ascii.eqb_eq in E as ->. by rewrite str_join_cons_cons, IH.
  - by rewrite str_join_cons_head, IH.
Qed.

Lemma str_mem_app c a b : str_mem c (a +:+ b) = str_mem c a || str_mem c b.
Proof. induction a as [|d a IH]; simpl; [done|]. by rewrite IH, orb_assoc. Qed.

(** A string without the separator is one piece. *)
Lemma str_split_no_sep sep s : str_mem sep s = false -> str_split sep s = [s].
Proof.
  induction s as [|c s IH]; simpl; [done|].
  intros [Hc Hs]%orb_false_iff. rewrite IH by done.
  by rewrite Hc.
Qed.

(** Splitting at the first separator. *)
Lemma str_split_app sep a b :
  str_mem sep a = false ->
  str_split sep (a +:+ String sep b) = a :: str_split sep b.
Proof.
  induction a as [|c a IH]; simpl.
  - by rewrite Ascii.eqb_refl.
  - intros [Hc Ha]%orb_false_iff. rewrite IH by done.
    by rewrite Hc.
Qed.

Lemma str_starts_with_app s p : str_starts_with (p +:+ s) p = true.
Proof.
  unfold str_starts_with. induction p as [|c p IH]; simpl.
  - by destruct s.
  - destruct (ascii_dec c c); [exact IH | congruence].
Qed.

Lemma str_starts_with_app_l s r p :
  str_starts_with s p = true -> str_starts_with (s +:+ r) p = true.
Proof.
  unfold str_starts_with. revert s. induction p as [|c p IH]; intros [|d s]; simpl; try done.
  - intros _. by destruct r.
  - destruct (ascii_dec c d); [apply IH | done].
Qed.

Lemma str_substring_app_r a x :
  String.substring (String.length a) (String.length x) (a +:+ x) = x.
Proof.
  induction a as [|c a IH]; simpl; [|done].
  induction x as [|d x IH]; simpl; [done | by rewrite IH].
Qed.

Lemma str_ends_with_app a x : str_ends_with (a +:+ x) x = true.
Proof.
  unfold str_ends_with. rewrite str_length_app.
  replace (String.length a + String.length x - String.length x)%nat
    with (String.length a) by lia.
  rewrite str_substring_app_r, String.eqb_refl.
  apply andb_true_intro; split; [apply Nat.leb_le; lia | done].
Qed.

Lemma str_get_ge i s : (String.length s <= i)%nat -> String.get i s = None.
Proof.
  revert i. induction s as [|c s IH]; intros [|i] Hi; simpl in *; auto; [lia|].
  apply IH. lia.
Qed.

Lemma str_join_head sep x l : exists rest, str_join sep (x :: l) = x +:+ rest.
Proof.
  destruct l as [|y l]; [exists EmptyString; by rewrite str_app_nil_r|].
  rewrite str_join_cons_cons. eauto.
Qed.

(** [l.join(c).split(c)] gives back a non-empty list of pieces free of [c]. *)
Lemma str_split_join sep l :
  l <> [] -> Forall (fun x => str_mem sep x = false) l ->
  str_split sep (str_join (String sep EmptyString) l) = l.
Proof.
  induction l as [|x l IH]; intros Hne Hl; [done|]. inversion Hl as [|? ? Hx Hl']; subst.
  destruct l as [|y l].
  - by apply str_split_no_sep.
  - rewrite str_join_cons_cons.
    change (String sep EmptyString +:+ ?j) with (String sep j).
    rewrite str_split_app by done. by rewrite IH.
Qed.

(** *** Lists *)

(** [omap] keeps a list without duplicates when equal results come from
    elements with the same key and the keys have no duplicates. *)
Lemma NoDup_omap_key {A B K} (f : A -> option B) (g : A -> K) (l : list A) :
  NoDup (g <$> l) ->
  (forall x y b, x ∈ l -> y ∈ l -> f x = Some b -> f y = Some b -> g x = g y) ->
  NoDup (omap f l).
Proof.
  induction l as [|x l IH]; intros Hnd Hinj; [constructor|].
  rewrite fmap_cons, NoDup_cons in Hnd. destruct Hnd as [Hx Hnd].
  assert (IH' : NoDup (omap f l)).
  { apply IH; [done|]. intros x' y' b ???. apply (Hinj x' y' b); rewrite ?elem_of_cons; auto. }
  simpl. destruct (f x) as [b|] eqn:Hfx; [|done]. constructor; [|done].
  intros (y & Hy & Hfy)%list_elem_of_omap. apply Hx.
  rewrite (Hinj x y b); rewrite ?elem_of_cons; auto. by apply list_elem_of_fmap_2.
Qed.

(** A pair is its first component, once known, with its second. *)
Lemma pair_eta_fst {A B} (x : A * B) (a : A) : x.1 = a -> x = (a, x.2).
Proof. destruct x. simpl. by intros ->. Qed.

Lemma forallb_rev {A} (f : A -> bool) l : forallb f (rev l) = forallb f l.
Proof.
  induction l as [|x l IH]; simpl; [done|]. rewrite forallb_app, IH. simpl.
  by rewrite andb_true_r, andb_comm.
Qed.

Lemma forallb_suffix {A} (f : A -> bool) t s : t `suffix_of` s -> forallb f s = true -> forallb f t = true.
Proof. intros [p ->]. rewrite forallb_app. by intros [_ ?]%andb_prop. Qed.

Lemma Forall_of_forallb {A} (f : A -> bool) l : forallb f l = true -> Forall (fun x => f x = true) l.
Proof. induction l as [|x l IH]; simpl; [constructor|]. intros [? ?]%andb_prop. constructor; auto. Qed.

Lemma Forall_mp {A} (P Q : A -> Prop) l : Forall (fun x => P x -> Q x) l -> Forall P l -> Forall Q l.
Proof. induction 1; intros HP; [constructor|]. apply Forall_cons in HP as []. constructor; auto. Qed.

#[export] Hint Rewrite str_app_assoc str_app_nil_r str_join_split : kc_rw.
#[export] Hint Resolve str_starts_with_app str_ends_with_app : kc.

