(* ===== verification/JsPrim.v ===== *)
(** JavaScript primitives used by [build.ts] line 65: string indexing,
    the binary [+] on string-or-undefined operands, [parseInt] with no
    radix (ECMA-262, sec. 21.1.2.13) and [ToString] of numbers.

    Numbers are the integers [parseInt] can return, as [option Z] with
    [None] for NaN.  Two simplifications, harmless for the script: -0 is
    identified with 0 (the script only prints it, and [ToString(-0)] is
    "0"), and the integer value of a digit string is exact (the script
    parses at most two characters).  Strings are Rocq strings, one
    [ascii] per UTF-16 code unit below 256. *)

From S2P Require Import Prelude.
From Stdlib Require Import DecimalString.

(** The values that occur in the expression of line 65. *)
Inductive jsval :=
| JsUndefined
| JsString (s : string)
| JsNumber (n : option Z).

(** [ToString] of a number: "NaN" or the decimal integer. *)
Definition js_number_to_string (n : option Z) : string :=
  match n with
  | None => "NaN"
  | Some z => NilZero.string_of_int (Z.to_int z)
  end.

Definition js_to_string (v : jsval) : string :=
  match v with
  | JsUndefined => "undefined"
  | JsString s => s
  | JsNumber n => js_number_to_string n
  end.

(** [ToNumber] of a non-string operand ([undefined] is NaN). *)
Definition js_to_number (v : jsval) : option Z :=
  match v with
  | JsNumber n => n
  | _ => None
  end.

(** [a + b]: concatenation as soon as one side is a string. *)
Definition js_add (a b : jsval) : jsval :=
  match a, b with
  | JsString _, _ | _, JsString _ => JsString (js_to_string a +:+ js_to_string b)
  | _, _ =>
      JsNumber (match js_to_number a, js_to_number b with
                | Some x, Some y => Some (x + y)%Z
                | _, _ => None
                end)
  end.

(** [s[i]]: a one-character string, or [undefined] out of range. *)
Definition js_index (s : string) (i : nat) : jsval :=
  match String.get i s with
  | Some c => JsString (String c EmptyString)
  | None => JsUndefined
  end.

(** ** parseInt *)

(** WhiteSpace and LineTerminator code units below 256. *)
Definition js_is_space (c : ascii) : bool :=
  match nat_of_ascii c with
  | 9 | 10 | 11 | 12 | 13 | 32 | 160 => true
  | _ => false
  end.

Fixpoint js_trim_start (s : string) : string :=
  match s with
  | String c s' => if js_is_space c then js_trim_start s' else s
  | EmptyString => EmptyString
  end.

(** The value of a character as a digit in radix up to 36. *)
Definition digit_value (c : ascii) : option nat :=
  let n := nat_of_ascii c in
  if (48 <=? n) && (n <=? 57) then Some (n - 48)
  else if (97 <=? n) && (n <=? 122) then Some (n - 87)
  else if (65 <=? n) && (n <=? 90) then Some (n - 55)
  else None.

(** The longest prefix of radix-[r] digits. *)
Fixpoint digits_prefix (r : nat) (s : string) : list nat :=
  match s with
  | String c s' =>
      match digit_value c with
      | Some d => if d <? r then d :: digits_prefix r s' else []
      | None => []
      end
  | EmptyString => []
  end.

Definition digits_value (r : nat) (ds : list nat) : Z :=
  fold_left (fun acc d => acc * Z.of_nat r + Z.of_nat d)%Z ds 0%Z.

(** Steps 3-4 of the algorithm: the sign. *)
Definition js_parse_sign (s : string) : Z * string :=
  match s with
  | String c s' =>
      if Ascii.eqb c "-" then (-1, s')%Z
      else if Ascii.eqb c "+" then (1, s')%Z
      else (1, s)%Z
  | EmptyString => (1, s)%Z
  end.

(** Steps 6-10: with no radix argument, a "0x" or "0X" prefix selects 16. *)
Definition js_parse_radix (s : string) : nat * string :=
  match s with
  | String z (String x s') =>
      if Ascii.eqb z "0" && (Ascii.eqb x "x" || Ascii.eqb x "X")
      then (16, s') else (10, s)
  | _ => (10, s)
  end.

Definition js_parseInt (v : jsval) : option Z :=
  let '(sign, s1) := js_parse_sign (js_trim_start (js_to_string v)) in
  let '(r, s2) := js_parse_radix s1 in
  match digits_prefix r s2 with
  | [] => None
  | ds => Some (sign * digits_value r ds)%Z
  end.

(** The digit character of [d < 10]. *)
Definition digit_char (d : nat) : ascii := ascii_of_nat (48 + d).
Arguments digit_char : simpl never.

(** ** Lemmas *)

Lemma digits_value_fold r ds acc :
  fold_left (fun acc d => acc * Z.of_nat r + Z.of_nat d)%Z ds acc =
  (acc * Z.of_nat r ^ Z.of_nat (length ds) + digits_value r ds)%Z.
Proof.
  unfold digits_value. revert acc.
  induction ds as [|d ds IH]; intros acc; simpl; [lia|].
  rewrite IH, (IH (0 * Z.of_nat r + Z.of_nat d)%Z).
  rewrite Nat2Z.inj_succ, Z.pow_succ_r by lia. lia.
Qed.

Lemma digits_value_cons r d ds :
  digits_value r (d :: ds) =
  (Z.of_nat d * Z.of_nat r ^ Z.of_nat (length ds) + digits_value r ds)%Z.
Proof. unfold digits_value at 1. simpl. rewrite digits_value_fold. lia. Qed.

(** A digit string of length [k] in radix [r] denotes a value below [r^k]. *)
Lemma digits_value_bound r ds :
  Forall (fun d => d < r) ds ->
  (0 <= digits_value r ds < Z.of_nat r ^ Z.of_nat (length ds))%Z.
Proof.
  induction 1 as [|d ds Hd _ IH]; [unfold digits_value; cbn; lia|].
  rewrite digits_value_cons. simpl length.
  rewrite Nat2Z.inj_succ, Z.pow_succ_r by lia.
  assert (Z.of_nat d + 1 <= Z.of_nat r)%Z by lia.
  set (P := (Z.of_nat r ^ Z.of_nat (length ds))%Z) in *.
  assert ((Z.of_nat d + 1) * P <= Z.of_nat r * P)%Z
    by (apply Z.mul_le_mono_nonneg_r; lia).
  nia.
Qed.

Lemma digits_prefix_lt r s : Forall (fun d => d < r) (digits_prefix r s).
Proof.
  induction s as [|c s IH]; simpl; [constructor|].
  destruct (digit_value c) as [d|]; [|constructor].
  destruct (Nat.ltb_spec d r); constructor; auto.
Qed.

Lemma digits_prefix_length r s : length (digits_prefix r s) <= String.length s.
Proof.
  induction s as [|c s IH]; simpl; [lia|].
  destruct (digit_value c); [destruct (_ <? _)|]; simpl; lia.
Qed.

Lemma js_trim_start_length s : String.length (js_trim_start s) <= String.length s.
Proof. induction s as [|c s IH]; simpl; [lia|]. destruct (js_is_space c); simpl; lia. Qed.

Lemma js_parse_sign_cases s :
  let '(sg, s1) := js_parse_sign s in
  (sg = 1%Z /\ String.length s1 <= String.length s) \/
  (sg = (-1)%Z /\ String.length s1 < String.length s).
Proof.
  destruct s as [|c s]; simpl; [auto|].
  destruct (Ascii.eqb c "-"); [|destruct (Ascii.eqb c "+")]; simpl; [right|left|left]; lia.
Qed.

Lemma js_parse_radix_cases s :
  let '(r, s2) := js_parse_radix s in
  (r = 10 /\ s2 = s) \/ (r = 16 /\ String.length s2 + 2 = String.length s).
Proof.
  destruct s as [|z [|x s]]; simpl; auto.
  destruct (_ && _); [right | left]; simpl; split; auto; lia.
Qed.

(** Facts about the ten digit characters, checked one by one. *)
Lemma digit_char_facts d :
  d < 10 ->
  js_is_space (digit_char d) = false /\ digit_value (digit_char d) = Some d /\
  Ascii.eqb (digit_char d) "-" = false /\ Ascii.eqb (digit_char d) "+" = false /\
  Ascii.eqb (digit_char d) "x" = false /\ Ascii.eqb (digit_char d) "X" = false.
Proof. intros Hd. do 10 (destruct d as [|d]; [vm_compute; repeat split|]). lia. Qed.

(** [parseInt] of a string that starts with a decimal digit. *)
Lemma js_parseInt_digit d s :
  d < 10 ->
  (forall c s', s = String c s' -> Ascii.eqb c "x" = false /\ Ascii.eqb c "X" = false) ->
  js_parseInt (JsString (String (digit_char d) s)) =
  Some (digits_value 10 (d :: digits_prefix 10 s)).
Proof.
  intros Hd Hs. destruct (digit_char_facts d Hd) as (Hsp & Hv & Hm & Hp & _).
  unfold js_parseInt. cbn [js_to_string js_trim_start].
  rewrite Hsp. unfold js_parse_sign. rewrite Hm, Hp. cbn beta iota.
  assert (Hr : js_parse_radix (String (digit_char d) s) = (10, String (digit_char d) s)).
  { destruct s as [|c s']; [done|]. destruct (Hs c s' eq_refl) as [Hx HX].
    cbn [js_parse_radix]. by rewrite Hx, HX, andb_false_r. }
  rewrite Hr. cbn beta iota. cbn [digits_prefix]. rewrite Hv.
  destruct (Nat.ltb_spec d 10); [|lia]. f_equal. lia.
Qed.

(** The shape of a successful [parseInt]. *)
Lemma js_parseInt_Some v z :
  js_parseInt v = Some z ->
  exists sg s1 r s2,
    js_parse_sign (js_trim_start (js_to_string v)) = (sg, s1) /\
    js_parse_radix s1 = (r, s2) /\ digits_prefix r s2 <> [] /\
    z = (sg * digits_value r (digits_prefix r s2))%Z.
Proof.
  unfold js_parseInt.
  destruct (js_parse_sign _) as [sg s1] eqn:E1, (js_parse_radix s1) as [r s2] eqn:E2.
  destruct (digits_prefix r s2) eqn:E3; [done|]. intros [= <-].
  exists sg, s1, r, s2. by rewrite E3.
Qed.

Lemma pow10_le_100 k : k <= 2 -> (10 ^ Z.of_nat k <= 100)%Z.
Proof. intros Hk. destruct k as [|[|[|k]]]; cbn; lia. Qed.

(** [parseInt] of at most two characters lies in [-9, 99]. *)
Lemma js_parseInt_two_chars_bound s z :
  String.length s <= 2 -> js_parseInt (JsString s) = Some z -> (-9 <= z <= 99)%Z.
Proof.
  intros Hlen (sg & s1 & r & s2 & E1 & E2 & Hne & ->)%js_parseInt_Some.
  cbn [js_to_string] in E1.
  pose proof (js_trim_start_length s) as Ht.
  pose proof (js_parse_sign_cases (js_trim_start s)) as Hs. rewrite E1 in Hs.
  pose proof (js_parse_radix_cases s1) as Hr. rewrite E2 in Hr.
  pose proof (digits_prefix_length r s2) as Hd.
  pose proof (digits_value_bound r _ (digits_prefix_lt r s2)) as Hv.
  destruct Hr as [[-> ->] | [-> Hr]].
  - pose proof (pow10_le_100 (length (digits_prefix 10 s1))).
    destruct Hs as [[-> Hs] | [-> Hs]].
    + cbn in Hv. lia.
    + pose proof (pow10_le_100 1).
      assert (10 ^ Z.of_nat (length (digits_prefix 10 s1)) <= 10 ^ Z.of_nat 1)%Z
        by (apply Z.pow_le_mono_r; lia).
      cbn in *. lia.
  - destruct (digits_prefix 16 s2) eqn:E; [done|]. simpl in Hd. lia.
Qed.

Lemma digits_prefix_cons r c s :
  digits_prefix r (String c s) =
  match digit_value c with
  | Some d => if d <? r then d :: digits_prefix r s else []
  | None => []
  end.
Proof. done. Qed.

Lemma digits_prefix_undefined : digits_prefix 10 "undefined" = [].
Proof. reflexivity. Qed.

(** [parseInt(c + undefined)] reads at most the one character [c]. *)
Lemma js_parseInt_undefined_suffix_bound c z :
  js_parseInt (JsString (String c "undefined")) = Some z -> (0 <= z <= 9)%Z.
Proof.
  intros (sg & s1 & r & s2 & E1 & E2 & Hne & ->)%js_parseInt_Some.
  cbn [js_to_string js_trim_start] in E1.
  destruct (js_is_space c); [vm_compute in E1; simplify_eq; vm_compute in E2; simplify_eq; by vm_compute in Hne|].
  unfold js_parse_sign in E1.
  destruct (Ascii.eqb c "-"); [simplify_eq; vm_compute in E2; simplify_eq; by vm_compute in Hne|].
  destruct (Ascii.eqb c "+"); [simplify_eq; vm_compute in E2; simplify_eq; by vm_compute in Hne|].
  simplify_eq. cbn [js_parse_radix] in E2.
  replace (Ascii.eqb "u" "x" || Ascii.eqb "u" "X") with false in E2
    by reflexivity.
  rewrite andb_false_r in E2. simplify_eq.
  pose proof (digits_value_bound 10 _ (digits_prefix_lt 10 (String c "undefined"))) as Hv.
  rewrite digits_prefix_cons, digits_prefix_undefined in Hne, Hv |- *.
  destruct (digit_value c) as [d|]; [|done].
  destruct (d <? 10); [|done]. rewrite digits_value_cons in Hv |- *.
  cbn in Hv |- *. lia.
Qed.
