(* ===== verification/Version.v ===== *)
(** The Keycloak version packed in the npm version ([build.ts] lines 62-66)
    and the Maven URL of the theme jar (line 69).  The npm major version
    holds three two-digit fields: "260005.0.0" is Keycloak 26.0.5.  The
    theorems show that the decoding inverts that packing, that each field
    prints as NaN or an integer in [-9, 99] whatever the input, and that a
    major version shorter than six characters prints NaN fields. *)

From S2P Require Import Prelude JsPrim.

Module KeycloakVersion.

(** [parsedPackageJson.version.split(".")[0]] (line 63). *)
Definition major_of (version : string) : string :=
  match str_split "." version with
  | m :: _ => m
  | [] => EmptyString
  end.

(** [parseInt(major[i] + major[i + 1])] (line 65). *)
Definition field (major : string) (i : nat) : option Z :=
  js_parseInt (js_add (js_index major i) (js_index major (S i))).

(** The three fields of line 65, before printing. *)
Definition keycloakVersionFields (version : string) : option Z * option Z * option Z :=
  let major := major_of version in
  (field major 0, field major 2, field major 4).

(** The template literal of line 65. *)
Definition keycloakVersion (version : string) : string :=
  let '(a, b, c) := keycloakVersionFields version in
  js_number_to_string a +:+ "." +:+ js_number_to_string b +:+ "." +:+
  js_number_to_string c.

(** The URL of line 69. *)
Definition themesJarUrl (keycloakVersion : string) : string :=
  "https://repo1.maven.org/maven2/org/keycloak/keycloak-themes/" +:+
  keycloakVersion +:+ "/keycloak-themes-" +:+ keycloakVersion +:+ ".jar".

(** The packing that the decoding inverts: a field [n < 100] as two
    decimal digits. *)
Definition pad2 (n : nat) : string :=
  String (digit_char (n / 10)) (String (digit_char (n mod 10)) EmptyString).

Definition pack_major (x y z : nat) : string := pad2 x +:+ pad2 y +:+ pad2 z.

(** ** Lemmas *)

(** A field printed by the template literal. *)
Definition field_ok (o : option Z) : Prop :=
  match o with None => True | Some z => (-9 <= z <= 99)%Z end.

Lemma get_None_succ i s : String.get i s = None -> String.get (S i) s = None.
Proof. revert s. induction i as [|i IH]; intros [|c s] H; simpl in *; try discriminate; auto. Qed.

(** A field is NaN or the value of at most two characters. *)
Lemma field_cases major i :
  (exists c1 c2, field major i = js_parseInt (JsString (String c1 (String c2 EmptyString)))) \/
  (exists c, field major i = js_parseInt (JsString (String c "undefined"))) \/
  field major i = None.
Proof.
  unfold field, js_index.
  destruct (String.get i major) as [c1|] eqn:E1.
  - destruct (String.get (S i) major) as [c2|]; [left; eauto | right; left; eauto].
  - rewrite (get_None_succ _ _ E1). by right; right.
Qed.

Lemma digit_char_x_false d :
  d < 10 -> Ascii.eqb (digit_char d) "x" = false /\ Ascii.eqb (digit_char d) "X" = false.
Proof. intros Hd. destruct (digit_char_facts d Hd) as (_ & _ & _ & _ & ?). done. Qed.

Lemma field_pad2 n rest :
  n < 100 -> field (pad2 n +:+ rest) 0 = Some (Z.of_nat n).
Proof.
  intros Hn. unfold field, pad2. cbn [js_index String.get String.append js_add js_to_string].
  assert (n / 10 < 10) by (apply Nat.Div0.div_lt_upper_bound; lia).
  assert (n mod 10 < 10) by (apply Nat.mod_upper_bound; lia).
  rewrite js_parseInt_digit by (done || (intros ?? [= <- _]; by apply digit_char_x_false)).
  rewrite digits_prefix_cons. destruct (digit_char_facts (n mod 10)) as (_ & -> & _); [lia|].
  destruct (Nat.ltb_spec (n mod 10) 10); [|lia]. f_equal.
  change (digits_prefix 10 "") with (@nil nat). rewrite !digits_value_cons. change (digits_value 10 []) with 0%Z. cbn [length].
  pose proof (Nat.div_mod_eq n 10).
  set (a := n / 10) in *. set (b := n mod 10) in *. clearbody a b. subst n.
  change (Z.of_nat 1) with 1%Z. change (Z.of_nat 0) with 0%Z.
  rewrite Z.pow_1_r, Z.pow_0_r. lia.
Qed.

Lemma get_app_r a b i : String.get (String.length a + i) (a +:+ b) = String.get i b.
Proof. induction a as [|c a IH]; simpl; auto. Qed.

Lemma field_app a b i : field (a +:+ b) (String.length a + i) = field b i.
Proof.
  unfold field, js_index. rewrite get_app_r.
  replace (S (String.length a + i)) with (String.length a + S i) by lia.
  by rewrite get_app_r.
Qed.

Lemma str_mem_pad2 n : n < 100 -> str_mem "." (pad2 n) = false.
Proof.
  intros Hn. unfold pad2. cbn [str_mem].
  assert (n / 10 < 10) by (apply Nat.Div0.div_lt_upper_bound; lia).
  assert (n mod 10 < 10) by (apply Nat.mod_upper_bound; lia).
  remember (n / 10) as a. remember (n mod 10) as b. clear Heqa Heqb Hn.
  do 10 (destruct a as [|a]; [do 10 (destruct b as [|b]; [reflexivity|]); lia|]). lia.
Qed.

(** The major part starts with a dot-free prefix of the version. *)
Lemma major_of_app a b :
  str_mem "." a = false -> exists t, major_of (a +:+ b) = a +:+ t.
Proof.
  unfold major_of. induction a as [|c a IH]; simpl.
  - intros _. destruct (str_split "." b); eauto.
  - intros [Hc Ha]%orb_false_iff. rewrite Hc.
    destruct (str_split_cons "." (a +:+ b)) as (m & ms & E). rewrite E in IH |- *.
    destruct (IH Ha) as [t Ht]. exists t. by rewrite Ht.
Qed.

Lemma field_major_prefix a t i :
  i + 1 < String.length a -> field (a +:+ t) i = field a i.
Proof.
  intros Hi. unfold field, js_index.
  rewrite <- !append_correct1 by lia. done.
Qed.

Lemma pad2_length n : String.length (pad2 n) = 2.
Proof. done. Qed.

Lemma str_mem_pack_major x y z :
  x < 100 -> y < 100 -> z < 100 -> str_mem "." (pack_major x y z) = false.
Proof. intros. unfold pack_major. by rewrite !str_mem_app, !str_mem_pad2. Qed.

Lemma field_after_pad2 n r i : field (pad2 n +:+ r) (S (S i)) = field r i.
Proof. exact (field_app (pad2 n) r i). Qed.

Lemma field_ok_field major i : field_ok (field major i).
Proof.
  destruct (field_cases major i) as [(c1 & c2 & ->) | [(c & ->) | ->]]; [| |done].
  - destruct (js_parseInt _) eqn:E; [|done]. cbn.
    by apply (js_parseInt_two_chars_bound (String c1 (String c2 EmptyString))).
  - destruct (js_parseInt _) eqn:E; [|done]. cbn.
    apply js_parseInt_undefined_suffix_bound in E. lia.
Qed.

(** The characters [major[0]] to [major[5]] are all line 65 reads. *)
Lemma field_substring major i : i < 5 -> field (String.substring 0 6 major) i = field major i.
Proof.
  intros Hi. unfold field, js_index.
  rewrite !(String.substring_correct1 major 0 6), !Nat.add_0_r by lia. reflexivity.
Qed.

(** ** Theorems *)

(** C18: the decoding of line 65 inverts the packing of the npm version:
    whatever follows the six digits, the fields are the packed numbers. *)
Theorem keycloakVersion_pack x y z tail :
  x < 100 -> y < 100 -> z < 100 ->
  keycloakVersionFields (pack_major x y z +:+ tail) =
  (Some (Z.of_nat x), Some (Z.of_nat y), Some (Z.of_nat z)).
Proof.
  intros Hx Hy Hz. unfold keycloakVersionFields.
  destruct (major_of_app (pack_major x y z) tail) as [t ->];
    [by apply str_mem_pack_major|].
  unfold pack_major. rewrite !str_app_assoc.
  by rewrite !field_after_pad2, !field_pad2.
Qed.

Lemma keycloakVersion_pack_witness :
  keycloakVersionFields (pack_major 26 0 5 +:+ ".0.0") = (Some 26%Z, Some 0%Z, Some 5%Z) /\
  keycloakVersion "260005.0.0" = "26.0.5".
Proof.
  split; [apply (keycloakVersion_pack 26 0 5 ".0.0"); lia | reflexivity].
Defined.

(** C19: whatever the version string, each field of line 65 is NaN or an
    integer in [-9, 99]: the decoding never yields a larger number. *)
Theorem keycloakVersionFields_bounded version :
  let '(a, b, c) := keycloakVersionFields version in
  field_ok a /\ field_ok b /\ field_ok c.
Proof. unfold keycloakVersionFields. repeat split; apply field_ok_field. Qed.

(** C20: a major version of at most four characters (a version such as
    "1.2.3") makes the last field NaN: the script then asks Maven for a
    Keycloak version ending in ".NaN". *)
Theorem keycloakVersion_short_major version :
  String.length (major_of version) <= 4 ->
  str_ends_with (keycloakVersion version) ".NaN" = true.
Proof.
  intros Hlen. unfold keycloakVersion, keycloakVersionFields.
  assert (Hn : field (major_of version) 4 = None).
  { unfold field, js_index.
    rewrite !str_get_ge by lia.
    reflexivity. }
  rewrite Hn. cbn [js_number_to_string].
  change ("." +:+ "NaN") with ".NaN". rewrite <- !str_app_assoc. apply str_ends_with_app.
Qed.

(** C21: the Keycloak version depends on the first six characters of
    the npm major version only: line 65 reads [major[0]] to [major[5]],
    so further digits are ignored ("2600051.0.0" gives 26.0.5, as
    "260005.0.0" does). *)
Theorem keycloakVersion_six_chars version version' :
  String.substring 0 6 (major_of version) = String.substring 0 6 (major_of version') ->
  keycloakVersion version = keycloakVersion version'.
Proof.
  intros E. unfold keycloakVersion, keycloakVersionFields.
  rewrite <- !(field_substring (major_of version)), <- !(field_substring (major_of version')), E by lia.
  reflexivity.
Qed.

Lemma keycloakVersion_short_major_witness :
  String.length (major_of "1.2.3") <= 4 /\ keycloakVersion "1.2.3" = "1.NaN.NaN" /\
  str_ends_with (keycloakVersion "1.2.3") ".NaN" = true.
Proof.
  split; [vm_compute; lia|]. split; [reflexivity|].
  apply keycloakVersion_short_major. vm_compute. lia.
Defined.

Lemma keycloakVersion_six_chars_witness :
  String.substring 0 6 (major_of "2600051.0.0") = String.substring 0 6 (major_of "260005.0.0") /\
  keycloakVersion "2600051.0.0" = "26.0.5" /\
  keycloakVersion "2600051.0.0" = keycloakVersion "260005.0.0".
Proof.
  assert (H : String.substring 0 6 (major_of "2600051.0.0") = String.substring 0 6 (major_of "260005.0.0"))
    by reflexivity.
  split_and!; [exact H|reflexivity|exact (keycloakVersion_six_chars _ _ H)].
Defined.

End KeycloakVersion.
