(* ===== verification/NodePath.v ===== *)
(** Node's POSIX [path] module as [build.ts] uses it: [join] (lines 77,
    52, 70, 89, 93), [relative] (line 76), [dirname] (line 96) and
    [basename] (line 100).

    [normalize], [join], [dirname] and [basename] follow Node's
    [lib/path.js] on the characters of the path.  [resolve] and [relative]
    work on segment lists: Node's [relative] compares the two resolved
    paths character by character but cuts at separators, which is the
    longest common sequence of whole segments computed here.  The current
    directory of the process is explicit ([cwd], a list of segments), since
    [relative] resolves both arguments against it. *)

From S2P Require Import Prelude.

Module NodePath.

(** The pieces of a path between slashes. *)
Definition segments (p : string) : list string := str_split "/" p.

(** A segment that names a child: not empty, not "." or "..", no slash. *)
Definition seg_ok (s : string) : bool :=
  negb (String.eqb s "") && negb (String.eqb s ".") && negb (String.eqb s "..") &&
  negb (str_mem "/" s).

(** One segment of [normalizeString] with [allowAboveRoot] (relative
    paths): the stack is reversed. *)
Definition norm_step (acc : list string) (seg : string) : list string :=
  if String.eqb seg "" || String.eqb seg "." then acc
  else if String.eqb seg ".." then
    match acc with
    | s :: acc' => if String.eqb s ".." then ".." :: acc else acc'
    | [] => [".."]
    end
  else seg :: acc.

(** One segment of [normalizeString] without [allowAboveRoot] (absolute
    paths): ".." at the root stays at the root. *)
Definition abs_step (acc : list string) (seg : string) : list string :=
  if String.eqb seg "" || String.eqb seg "." then acc
  else if String.eqb seg ".." then tail acc
  else seg :: acc.

(** [path.normalize]. *)
Definition normalize (p : string) : string :=
  if String.eqb p "" then "." else
  let is_abs := str_starts_with p "/" in
  let trailing := str_ends_with p "/" in
  let body := str_join "/" (rev (fold_left (if is_abs then abs_step else norm_step)
                                          (segments p) [])) in
  if String.eqb body "" then
    (if is_abs then "/" else if trailing then "./" else ".")
  else
    let body := if trailing then body +:+ "/" else body in
    if is_abs then "/" +:+ body else body.

(** [path.join(...args)]: the non-empty arguments joined by "/", then
    normalized. *)
Definition join (args : list string) : string :=
  match filter (fun a => negb (String.eqb a "")) args with
  | [] => "."
  | parts => normalize (str_join "/" parts)
  end.

(** [path.resolve(p)] against the working directory, as a segment list
    from the root. *)
Definition resolve (cwd : list string) (p : string) : list string :=
  let start := if str_starts_with p "/" then [] else rev cwd in
  rev (fold_left abs_step (segments p) start).

(** The common prefix of two segment lists, removed. *)
Fixpoint strip_common (f t : list string) : list string * list string :=
  match f, t with
  | x :: f', y :: t' => if String.eqb x y then strip_common f' t' else (f, t)
  | _, _ => (f, t)
  end.

(** [path.relative(from, to)]: one ".." per remaining segment of [from],
    then the remaining segments of [to]. *)
Definition relative (cwd : list string) (from to : string) : string :=
  let '(f, t) := strip_common (resolve cwd from) (resolve cwd to) in
  str_join "/" (repeat ".." (length f) ++ t).

(** [path.dirname]: the scan from the last character down to index 1. *)
Fixpoint dn_scan (r : list ascii) (matched_slash : bool) : option nat :=
  match r with
  | [] => None
  | c :: r' =>
      if Ascii.eqb c "/" then
        (if matched_slash then dn_scan r' true else Some (S (length r')))
      else dn_scan r' false
  end.

Definition dirname (p : string) : string :=
  match p with
  | EmptyString => "."
  | String c rest =>
      let has_root := Ascii.eqb c "/" in
      match dn_scan (rev (list_ascii_of_string rest)) true with
      | None => if has_root then "/" else "."
      | Some e => if has_root && (e =? 1) then "//" else String.substring 0 e p
      end
  end.

(** [path.basename] with no suffix: the scan from the last character down
    to index 0, [e] being the end of the last non-slash run. *)
Fixpoint bn_scan (r : list ascii) (e : option nat) : nat * option nat :=
  match r with
  | [] => (0, e)
  | c :: r' =>
      if Ascii.eqb c "/" then
        match e with
        | Some _ => (S (length r'), e)
        | None => bn_scan r' None
        end
      else
        match e with
        | None => bn_scan r' (Some (S (length r')))
        | Some _ => bn_scan r' e
        end
  end.

Definition basename (p : string) : string :=
  match bn_scan (rev (list_ascii_of_string p)) None with
  | (_, None) => EmptyString
  | (st, Some e) => String.substring st (e - st) p
  end.

Definition no_slash (l : list ascii) : Prop := Forall (fun c => Ascii.eqb c "/" = false) l.

Example join_theme : join ["theme"; "base"; "email"] = "theme/base/email".
Proof. reflexivity. Qed.
Example normalize_dots : normalize "a/./b/../../../c/" = "../c/".
Proof. reflexivity. Qed.
Example relative_in :
  relative ["w"] "theme/base/email" "theme/base/email/messages/m.properties"
  = "messages/m.properties".
Proof. reflexivity. Qed.
Example relative_out :
  relative ["w"] "theme/base/email" "theme/base/login/x.ftl" = "../login/x.ftl".
Proof. reflexivity. Qed.
Example relative_above_cwd :
  relative ["w"] "theme/base/email" "../../etc/passwd" = "../../../../etc/passwd".
Proof. reflexivity. Qed.
Example dirname_ex : dirname "messages/messages_en.properties" = "messages" /\
  dirname "a//b" = "a/" /\ dirname "/a" = "/" /\ dirname "x" = "." /\ dirname "a/b/" = "a".
Proof. repeat split; reflexivity. Qed.
Example basename_ex : basename "messages/messages_en.properties" = "messages_en.properties" /\
  basename "a/b/" = "b" /\ basename "/" = "" /\ basename "x" = "x".
Proof. repeat split; reflexivity. Qed.

(** ** Lemmas *)

Lemma seg_ok_spec s :
  seg_ok s = true <->
  s <> "" /\ s <> "." /\ s <> ".." /\ str_mem "/" s = false.
Proof.
  unfold seg_ok. rewrite !andb_true_iff, !negb_true_iff, !String.eqb_neq.
  split; intros; destruct_and!; repeat split; auto using not_true_is_false.
  all: destruct (str_mem "/" s); congruence.
Qed.

Lemma abs_step_ok acc s : seg_ok s = true -> abs_step acc s = s :: acc.
Proof.
  intros (H1 & H2 & H3 & _)%seg_ok_spec. unfold abs_step.
  apply String.eqb_neq in H1, H2, H3. by rewrite H1, H2, H3.
Qed.

Lemma fold_abs_step_ok segs acc :
  Forall (fun s => seg_ok s = true) segs ->
  fold_left abs_step segs acc = rev segs ++ acc.
Proof.
  intros Hs. revert acc. induction Hs as [|s segs Hs _ IH]; intros acc; [done|].
  simpl. rewrite abs_step_ok, IH by done. by rewrite <- app_assoc.
Qed.

Lemma str_split_no_slash sep s : Forall (fun x => str_mem sep x = false) (str_split sep s).
Proof.
  induction s as [|c s IH]; simpl; [by repeat constructor|].
  destruct (str_split_cons sep s) as (r & rs & E). rewrite E in IH |- *.
  destruct (Ascii.eqb c sep) eqn:Ec; [by constructor|].
  inversion IH; subst. constructor; [|done]. simpl. by rewrite Ec.
Qed.

(** [abs_step] only ever pushes ordinary segments. *)
Lemma abs_step_keeps_ok acc s :
  str_mem "/" s = false ->
  Forall (fun x => seg_ok x = true) acc ->
  Forall (fun x => seg_ok x = true) (abs_step acc s).
Proof.
  intros Hs Hacc. unfold abs_step.
  destruct (String.eqb s "") eqn:E1; [done|].
  destruct (String.eqb s ".") eqn:E2; [done|]. simpl.
  destruct (String.eqb s "..") eqn:E3.
  - destruct Hacc; simpl; auto.
  - constructor; [|done]. unfold seg_ok. by rewrite E1, E2, E3, Hs.
Qed.

(** Every segment of a resolved path names a child. *)
Lemma resolve_ok cwd p :
  Forall (fun x => seg_ok x = true) cwd ->
  Forall (fun x => seg_ok x = true) (resolve cwd p).
Proof.
  intros Hcwd. unfold resolve. apply Forall_rev.
  assert (Hstart : Forall (fun x => seg_ok x = true)
                     (if str_starts_with p "/" then [] else rev cwd))
    by (destruct (str_starts_with p "/"); [constructor | by apply Forall_rev]).
  revert Hstart. generalize (if str_starts_with p "/" then [] else rev cwd).
  pose proof (str_split_no_slash "/" p) as Hp. unfold segments.
  induction Hp as [|s segs Hs _ IH]; intros acc Hacc; simpl; [done|].
  apply IH. by apply abs_step_keeps_ok.
Qed.

Lemma str_starts_with_slash_ok s rest :
  seg_ok s = true -> str_starts_with (s +:+ rest) "/" = false.
Proof.
  intros (Hne & _ & _ & Hm)%seg_ok_spec. destruct s as [|c s]; [done|].
  unfold str_starts_with. simpl in *. apply orb_false_iff in Hm as [Hc _].
  destruct (ascii_dec "/" c) as [<-|]; [by rewrite Ascii.eqb_refl in Hc | done].
Qed.

(** Resolving a relative path made of ordinary segments appends them. *)
Lemma resolve_join_ok cwd segs :
  segs <> [] -> Forall (fun x => seg_ok x = true) segs ->
  resolve cwd (str_join "/" segs) = cwd ++ segs.
Proof.
  intros Hne Hok. unfold resolve, segments.
  assert (Hslash : Forall (fun x => str_mem "/" x = false) segs).
  { eapply Forall_impl; [exact Hok|]. intros x (_ & _ & _ & ?)%seg_ok_spec. done. }
  rewrite str_split_join by done.
  destruct segs as [|s segs']; [done|].
  replace (str_starts_with (str_join "/" (s :: segs')) "/") with false.
  2:{ symmetry. destruct (str_join_head "/" s segs') as [rest ->].
      apply str_starts_with_slash_ok. exact (Forall_inv Hok). }
  rewrite fold_abs_step_ok by done. by rewrite rev_app_distr, !rev_involutive.
Qed.

Lemma strip_common_app l a b : strip_common (l ++ a) (l ++ b) = strip_common a b.
Proof. induction l as [|x l IH]; simpl; [done|]. by rewrite String.eqb_refl. Qed.

Lemma strip_common_nil_l t : strip_common [] t = ([], t).
Proof. by destruct t. Qed.

(** Nothing left of [from]: [to] extends it. *)
Lemma strip_common_prefix f t t' : strip_common f t = ([], t') -> t = f ++ t'.
Proof.
  revert t. induction f as [|x f IH]; intros t H.
  - rewrite strip_common_nil_l in H. by simplify_eq.
  - destruct t as [|y t]; simpl in H; [done|].
    destruct (String.eqb_spec x y) as [->|]; [|done].
    simpl. f_equal. by apply IH.
Qed.

Lemma str_starts_with_dotdot_join k t :
  0 < k -> str_starts_with (str_join "/" (repeat ".." k ++ t)) ".." = true.
Proof.
  intros Hk. destruct k as [|k]; [lia|].
  change (repeat ".." (S k) ++ t) with (".." :: (repeat ".." k ++ t)).
  destruct (str_join_head "/" ".." (repeat ".." k ++ t)) as [rest ->].
  apply str_starts_with_app.
Qed.

(** *** [dirname] and [basename] of [a/b] *)

Lemma list_ascii_of_string_app a b :
  list_ascii_of_string (a +:+ b) = list_ascii_of_string a ++ list_ascii_of_string b.
Proof. induction a as [|c a IH]; simpl; [done|]. by rewrite IH. Qed.

Lemma length_list_ascii_of_string a : length (list_ascii_of_string a) = String.length a.
Proof. induction a as [|c a IH]; simpl; auto. Qed.

Lemma no_slash_of_str_mem a :
  str_mem "/" a = false -> no_slash (list_ascii_of_string a).
Proof.
  induction a as [|c a IH]; simpl; [constructor|].
  intros [Hc Ha]%orb_false_iff. constructor; [done | by apply IH].
Qed.

Lemma rev_cons1 {A} (x : A) l : rev (x :: l) = rev l ++ [x].
Proof. done. Qed.

Lemma dn_scan_skip l r m : no_slash l -> l <> [] -> dn_scan (l ++ r) m = dn_scan r false.
Proof.
  intros Hl. revert m. induction Hl as [|c l Hc Hl IH]; intros m Hne; [done|].
  simpl. rewrite Hc. destruct l; [done | apply IH; done].
Qed.

Lemma bn_scan_skip l r e : no_slash l -> e <> None -> bn_scan (l ++ r) e = bn_scan r e.
Proof.
  intros Hl He. induction Hl as [|c l Hc Hl IH]; [done|].
  simpl. rewrite Hc. by destruct e.
Qed.

Lemma substring_prefix a b : String.substring 0 (String.length a) (a +:+ b) = a.
Proof. induction a as [|c a IH]; simpl; [by destruct b | by rewrite IH]. Qed.

Lemma substring_suffix a b :
  String.substring (String.length a) (String.length b) (a +:+ b) = b.
Proof. apply str_substring_app_r. Qed.

(** [path.dirname("a/b") === "a"] for names [a] and [b] without slash. *)
Lemma dirname_child a b :
  a <> "" -> str_mem "/" a = false -> b <> "" -> str_mem "/" b = false ->
  dirname (a +:+ String "/" b) = a.
Proof.
  intros Ha Hsa Hb Hsb. destruct a as [|c a']; [done|].
  simpl in Hsa. apply orb_false_iff in Hsa as [Hc Ha'].
  unfold dirname. cbn [String.append]. rewrite Hc. cbn [andb].
  rewrite list_ascii_of_string_app, rev_app_distr. cbn [list_ascii_of_string].
  rewrite rev_cons1, <- app_assoc. cbn [app].
  rewrite dn_scan_skip.
  - cbn [dn_scan]. rewrite Ascii.eqb_refl, length_rev, length_list_ascii_of_string.
    change (S (String.length a')) with (String.length (String c a')).
    change (String c (a' +:+ String "/" b)) with (String c a' +:+ String "/" b).
    apply substring_prefix.
  - apply Forall_rev. by apply no_slash_of_str_mem.
  - destruct b; [done|]. simpl. intros Hn. by apply app_eq_nil in Hn as [_ ?].
Qed.

Lemma bn_scan_first l r :
  no_slash l -> l <> [] ->
  bn_scan (l ++ "/"%char :: r) None = (S (length r), Some (length (l ++ "/"%char :: r))).
Proof.
  intros Hl Hne. destruct Hl as [|c l Hc Hl]; [done|]. cbn [app bn_scan]. rewrite Hc.
  rewrite bn_scan_skip by done. cbn [bn_scan]. by rewrite Ascii.eqb_refl.
Qed.

Lemma list_ascii_of_string_nil b : b <> "" -> list_ascii_of_string b <> [].
Proof. by destruct b. Qed.

(** [path.basename("a/b") === "b"] for a name [b] without slash. *)
Lemma basename_child a b :
  b <> "" -> str_mem "/" b = false -> basename (a +:+ String "/" b) = b.
Proof.
  intros Hb Hsb. unfold basename.
  rewrite list_ascii_of_string_app, rev_app_distr. cbn [list_ascii_of_string].
  rewrite rev_cons1, <- app_assoc. cbn [app].
  rewrite bn_scan_first.
  2:{ apply Forall_rev. by apply no_slash_of_str_mem. }
  2:{ intros Hn. apply (f_equal (@length _)) in Hn. rewrite length_rev in Hn.
      apply length_zero_iff_nil in Hn. by apply (list_ascii_of_string_nil b). }
  rewrite !length_app. cbn [length]. rewrite !length_rev, !length_list_ascii_of_string.
  replace (String.length b + S (String.length a) - S (String.length a))
    with (String.length b) by lia.
  replace (S (String.length a)) with (String.length (a +:+ "/"))
    by (rewrite str_length_app; simpl; lia).
  replace (a +:+ String "/" b) with ((a +:+ "/") +:+ b) by (rewrite str_app_assoc; done).
  apply substring_suffix.
Qed.

Lemma resolve_empty cwd : resolve cwd "" = cwd.
Proof. unfold resolve. simpl. apply rev_involutive. Qed.

Lemma strip_common_self l : strip_common l l = ([], []).
Proof. rewrite <- (app_nil_r l) at 1 2. by rewrite strip_common_app. Qed.

End NodePath.
