(* ===== verification/Contracts.v ===== *)
(** The interfaces between the script and the pipeline (specification,
    sections 3, 7 and 9): the decision of a per-entry filter, the outcome
    of a per-file transform, the error kinds, and the result monad in which
    the pipeline's operations are written.  [build.ts] implements the two
    callbacks ([ArchiveFilter], [MessagesTransform]); the pipeline files are
    proved against the classes [EntryFilter] and [FileTransform]. *)

From S2P Require Import Prelude.

(** Why a file-system operation failed (ENOTDIR, EISDIR, ENOENT). *)
Inductive io_reason := NotADirectory | IsADirectory | NoSuchEntry.

(** The error taxonomy of section 7, and the two exceptions the script
    itself can raise before the pipeline runs: [JSON.parse]'s
    [SyntaxError] (line 51) and zod's [ZodError] (line 55). *)
Inductive pipeline_error :=
| NetworkError
| ArchiveFormatError
| PathTraversalError (target : string)
| CallbackError (message : string)
| IOError (path : list string) (reason : io_reason)
| SyntaxError
| ZodError.

Inductive result (A : Type) :=
| Ok (a : A)
| Err (e : pipeline_error).
Arguments Ok {A} a.
Arguments Err {A} e.

Definition bind {A B} (m : result A) (k : A -> result B) : result B :=
  match m with
  | Ok a => k a
  | Err e => Err e
  end.

Notation "x <- m ;; k" := (bind m (fun x => k))
  (at level 100, m at next level, right associativity) : kc_scope.
Open Scope kc_scope.

(** What the [onArchiveFile] callback does with an entry: nothing, or one
    call of [writeFile({ fileRelativePath: target })]. *)
Inductive FilterDecision :=
| Skip
| WriteAt (target : string).

#[export] Instance FilterDecision_eq_dec : EqDecision FilterDecision.
Proof. solve_decision. Defined.

(** The per-entry filter, given the entry's path in the archive. *)
Class EntryFilter := on_entry : string -> FilterDecision.

(** The per-file transform, given the path relative to the source root and
    the bytes; it returns the bytes to write, or fails (an exception thrown
    by the callback). *)
Class FileTransform := transform_file : string -> list byte -> result (list byte).

(** ** Lemmas *)

Lemma bind_Ok_inv {A B} (m : result A) (k : A -> result B) b :
  bind m k = Ok b -> exists a, m = Ok a /\ k a = Ok b.
Proof. destruct m; simpl; [eauto | done]. Qed.

Lemma bind_Err_inv {A B} (m : result A) (k : A -> result B) e :
  bind m k = Err e -> m = Err e \/ exists a, m = Ok a /\ k a = Err e.
Proof. destruct m; simpl; [right; eauto | intros [= ->]; by left]. Qed.

#[export] Hint Resolve bind_Ok_inv : kc.
