(* ===== verification/ArchiveFilter.v ===== *)
(** The [onArchiveFile] callback of [build.ts] (lines 75-86): an entry of
    the jar is kept when its path relative to [theme/base/email] does not
    start with "..", and is written under that relative path.

    The theorems: every kept entry lies inside [theme/base/email] and is
    written at its normalized path relative to it (so a crafted entry name
    cannot escape the extraction directory); every ordinary entry below
    that directory is kept; and an entry whose first name below the
    directory starts with ".." (such as [..data]) is dropped as well,
    because the test is on characters, not on the ".." segment. *)

From S2P Require Import Prelude NodePath Contracts.

Module ArchiveFilter.
Import NodePath.

(** [pathJoin("theme", "base", "email")] (line 77). *)
Definition emailThemeDir : string := NodePath.join ["theme"; "base"; "email"].

(** Lines 75-86, in the working directory [cwd]. *)
Definition onArchiveFile (cwd : list string) (fileRelativePath : string) : FilterDecision :=
  let fileRelativePath_target := NodePath.relative cwd emailThemeDir fileRelativePath in
  if str_starts_with fileRelativePath_target ".." then Skip
  else WriteAt fileRelativePath_target.

#[export] Instance onArchiveFile_filter (cwd : list string) : EntryFilter :=
  onArchiveFile cwd.

Definition email_segments : list string := ["theme"; "base"; "email"].

(** ** Lemmas *)

Lemma email_segments_ok : Forall (fun x => seg_ok x = true) email_segments.
Proof. repeat constructor. Qed.

Lemma resolve_emailThemeDir cwd : resolve cwd emailThemeDir = cwd ++ email_segments.
Proof.
  change emailThemeDir with (str_join "/" email_segments).
  apply resolve_join_ok; [done | apply email_segments_ok].
Qed.

Lemma join_email_side rest :
  Forall (fun x => seg_ok x = true) rest ->
  email_segments ++ rest <> [] /\ Forall (fun x => seg_ok x = true) (email_segments ++ rest).
Proof. split; [done | apply Forall_app; split; [apply email_segments_ok | done]]. Qed.

(** The path of an entry below the directory, relative to it. *)
Lemma relative_email cwd rest :
  Forall (fun x => seg_ok x = true) rest ->
  relative cwd emailThemeDir (str_join "/" (email_segments ++ rest)) = str_join "/" rest.
Proof.
  intros Hok. unfold relative.
  rewrite resolve_emailThemeDir, resolve_join_ok by (destruct (join_email_side _ Hok); done).
  rewrite app_assoc, <- (app_nil_r (cwd ++ email_segments)) at 1.
  by rewrite strip_common_app, strip_common_nil_l.
Qed.

Lemma onArchiveFile_WriteAt cwd p t :
  onArchiveFile cwd p = WriteAt t ->
  exists rest, resolve cwd p = cwd ++ email_segments ++ rest /\ t = str_join "/" rest.
Proof.
  unfold onArchiveFile, relative. rewrite resolve_emailThemeDir.
  destruct (strip_common _ (resolve cwd p)) as [f rest] eqn:E.
  destruct f as [|x f].
  - apply strip_common_prefix in E. rewrite <- app_assoc in E.
    simpl. destruct (str_starts_with _ ".."); [done|]. intros [= <-]. by exists rest.
  - rewrite str_starts_with_dotdot_join by (simpl; lia). done.
Qed.

(** A kept entry lies below the directory, at a path of ordinary segments. *)
Lemma onArchiveFile_WriteAt_ok cwd p t :
  Forall (fun x => seg_ok x = true) cwd ->
  onArchiveFile cwd p = WriteAt t ->
  exists rest,
    resolve cwd p = cwd ++ email_segments ++ rest /\
    t = str_join "/" rest /\ Forall (fun x => seg_ok x = true) rest.
Proof.
  intros Hcwd (rest & Hr & ->)%onArchiveFile_WriteAt.
  exists rest. split_and!; [done | done |].
  pose proof (resolve_ok cwd p Hcwd) as Hok. rewrite Hr in Hok.
  apply Forall_app in Hok as [_ Hok]. by apply Forall_app in Hok as [_ Hok].
Qed.

(** ** Theorems *)

(** C1: every entry the callback keeps lies inside [theme/base/email] and
    is written at its path relative to that directory, made of ordinary
    segments (no "", ".", ".." or slash): a crafted entry name such as
    [theme/base/email/../../../x] cannot make the extractor write outside
    its directory.  The working directory is a normalized absolute path. *)
Theorem onArchiveFile_writes_inside cwd p t :
  Forall (fun x => seg_ok x = true) cwd ->
  onArchiveFile cwd p = WriteAt t ->
  exists rest,
    resolve cwd p = cwd ++ ["theme"; "base"; "email"] ++ rest /\
    t = str_join "/" rest /\ Forall (fun x => seg_ok x = true) rest.
Proof. apply onArchiveFile_WriteAt_ok. Qed.

Lemma onArchiveFile_writes_inside_witness :
  Forall (fun x => seg_ok x = true) ["w"] /\
  onArchiveFile ["w"] "theme/base/email/messages/messages_en.properties" =
    WriteAt "messages/messages_en.properties" /\
  exists rest,
    resolve ["w"] "theme/base/email/messages/messages_en.properties" =
      ["w"] ++ ["theme"; "base"; "email"] ++ rest /\
    "messages/messages_en.properties" = str_join "/" rest /\
    Forall (fun x => seg_ok x = true) rest.
Proof.
  split; [repeat constructor|]. split; [reflexivity|].
  apply (onArchiveFile_writes_inside ["w"] _ _); [repeat constructor | reflexivity].
Defined.

(** C2: an entry [theme/base/email/s1/.../sn] made of ordinary segments
    whose first segment does not start with ".." is kept and written at
    [s1/.../sn], whatever the working directory. *)
Theorem onArchiveFile_keeps_email_entries cwd rest :
  rest <> [] -> Forall (fun x => seg_ok x = true) rest ->
  str_starts_with (str_join "/" rest) ".." = false ->
  onArchiveFile cwd (str_join "/" (["theme"; "base"; "email"] ++ rest)) =
  WriteAt (str_join "/" rest).
Proof.
  intros Hne Hok Hdot. unfold onArchiveFile.
  rewrite relative_email by done. by rewrite Hdot.
Qed.

Lemma onArchiveFile_keeps_email_entries_witness :
  onArchiveFile ["w"] "theme/base/email/html/email-test.ftl" = WriteAt "html/email-test.ftl".
Proof.
  apply (onArchiveFile_keeps_email_entries ["w"] ["html"; "email-test.ftl"]);
    [done | repeat constructor | reflexivity].
Defined.

(** C3: an entry directly below [theme/base/email] whose name starts with
    ".." but is an ordinary name (such as [..data]) is dropped: the test of
    line 81 is [startsWith("..")] on characters, so it rejects more than
    the entries outside the directory. *)
Theorem onArchiveFile_drops_dotdot_names cwd s rest :
  Forall (fun x => seg_ok x = true) (s :: rest) ->
  str_starts_with s ".." = true ->
  onArchiveFile cwd (str_join "/" (["theme"; "base"; "email"] ++ s :: rest)) = Skip.
Proof.
  intros Hok Hs. unfold onArchiveFile. rewrite relative_email by done.
  destruct (str_join_head "/" s rest) as [r ->]. by rewrite str_starts_with_app_l.
Qed.

Lemma onArchiveFile_drops_dotdot_names_witness :
  onArchiveFile ["w"] "theme/base/email/..data" = Skip.
Proof.
  apply (onArchiveFile_drops_dotdot_names ["w"] "..data" []);
    [repeat constructor | reflexivity].
Defined.

End ArchiveFilter.
