(* ===== verification/Utf8.v ===== *)
(** UTF-8 as [Buffer] implements it, used by [build.ts] lines 115-128:
    [sourceCode.toString("utf8")] decodes the bytes of a messages file and
    [Buffer.from(..., "utf8")] encodes the new text.

    The decoder is the WHATWG "UTF-8 decoder" (Encoding Standard, 4.1),
    which V8 follows for [toString]: a byte that cannot continue a sequence
    yields U+FFFD and is read again, and a truncated sequence at the end
    yields one U+FFFD.  A JavaScript string is modelled as its list of code
    points ([Z]); the decoder never produces a lone surrogate, and the
    encoder writes U+FFFD for one, as V8 does.

    The theorems: decoding the encoding of scalar values gives them back,
    so re-encoding a valid UTF-8 file is the identity; every decoded value
    is a scalar value; and a byte that is not UTF-8 is replaced. *)

From S2P Require Import Prelude.

Module Utf8.

(** Bytes as integers in [0, 256). *)
Definition byte_to_Z (b : byte) : Z := Z.of_N (Byte.to_N b).

Definition byte_of_Z (z : Z) : byte :=
  match Byte.of_N (Z.to_N (z mod 256)) with
  | Some b => b
  | None => Byte.x00
  end.

(** A Unicode scalar value: a code point that is not a surrogate. *)
Definition is_scalar (c : Z) : bool :=
  (0 <=? c)%Z && (c <=? 0x10FFFF)%Z && negb ((0xD800 <=? c)%Z && (c <=? 0xDFFF)%Z).

(** ** The decoder *)

(** The decoder's variables: bytes needed, bytes seen, the code point so
    far and the bounds of the next byte. *)
Record dstate := DState {
  needed : nat;
  seen : nat;
  cp : Z;
  lower : Z;
  upper : Z;
}.

Definition dinit : dstate := DState 0 0 0 0x80 0xBF.

(** The first byte of a sequence. *)
Definition start_byte (b : Z) : dstate * list Z :=
  if (b <=? 0x7F)%Z then (dinit, [b])
  else if (0xC2 <=? b)%Z && (b <=? 0xDF)%Z then
    (DState 1 0 (Z.land b 0x1F) 0x80 0xBF, [])
  else if (0xE0 <=? b)%Z && (b <=? 0xEF)%Z then
    (DState 2 0 (Z.land b 0xF) (if (b =? 0xE0)%Z then 0xA0 else 0x80)
            (if (b =? 0xED)%Z then 0x9F else 0xBF), [])
  else if (0xF0 <=? b)%Z && (b <=? 0xF4)%Z then
    (DState 3 0 (Z.land b 0x7) (if (b =? 0xF0)%Z then 0x90 else 0x80)
            (if (b =? 0xF4)%Z then 0x8F else 0xBF), [])
  else (dinit, [0xFFFD%Z]).

(** One byte: start a sequence, or continue the current one; a byte out of
    bounds ends it with U+FFFD and starts again. *)
Definition decode_step (st : dstate) (b : Z) : dstate * list Z :=
  if needed st =? 0 then start_byte b
  else if negb ((lower st <=? b)%Z && (b <=? upper st)%Z) then
    let '(st', out) := start_byte b in (st', 0xFFFD%Z :: out)
  else
    let c := Z.lor (Z.shiftl (cp st) 6) (Z.land b 0x3F) in
    if S (seen st) =? needed st then (dinit, [c])
    else (DState (needed st) (S (seen st)) c 0x80 0xBF, []).

Fixpoint decode_from (st : dstate) (bs : list byte) : list Z :=
  match bs with
  | [] => if needed st =? 0 then [] else [0xFFFD%Z]
  | b :: bs' =>
      let '(st', out) := decode_step st (byte_to_Z b) in out ++ decode_from st' bs'
  end.

(** [buf.toString("utf8")]. *)
Definition utf8_decode (bs : list byte) : list Z := decode_from dinit bs.

(** ** The encoder *)

Definition encode_cp (c : Z) : list Z :=
  if (c <? 0x80)%Z then [c]
  else if (c <? 0x800)%Z then
    [Z.lor 0xC0 (Z.shiftr c 6); Z.lor 0x80 (Z.land c 0x3F)]
  else if (c <? 0x10000)%Z then
    if (0xD800 <=? c)%Z && (c <=? 0xDFFF)%Z then [0xEF; 0xBF; 0xBD]%Z
    else [Z.lor 0xE0 (Z.shiftr c 12); Z.lor 0x80 (Z.land (Z.shiftr c 6) 0x3F);
          Z.lor 0x80 (Z.land c 0x3F)]
  else
    [Z.lor 0xF0 (Z.shiftr c 18); Z.lor 0x80 (Z.land (Z.shiftr c 12) 0x3F);
     Z.lor 0x80 (Z.land (Z.shiftr c 6) 0x3F); Z.lor 0x80 (Z.land c 0x3F)].

(** [Buffer.from(s, "utf8")]. *)
Definition utf8_encode (cps : list Z) : list byte :=
  map byte_of_Z (concat (map encode_cp cps)).

(** The bytes of a well-formed UTF-8 text. *)
Definition valid_utf8 (bs : list byte) : Prop :=
  exists cps, Forall (fun c => is_scalar c = true) cps /\ bs = utf8_encode cps.

(** ** The decoder's invariant *)

Definition pow64 (k : nat) : Z := (64 ^ Z.of_nat k)%Z.

(** The least and greatest code point a sequence in progress can still
    produce. *)
Definition span_lo (st : dstate) : Z :=
  let k := needed st - seen st in
  (cp st * pow64 k + (lower st - 0x80) * pow64 (k - 1))%Z.

Definition span_hi (st : dstate) : Z :=
  let k := needed st - seen st in
  (cp st * pow64 k + (upper st - 0x80) * pow64 (k - 1) + (pow64 (k - 1) - 1))%Z.

(** Between sequences the state is [dinit]; within one, every value it can
    still produce is a scalar value. *)
Definition dinv (st : dstate) : Prop :=
  st = dinit \/
  (seen st < needed st <= 3 /\ (0 <= cp st)%Z /\
   (0x80 <= lower st <= upper st)%Z /\ (upper st <= 0xBF)%Z /\
   (0 <= span_lo st)%Z /\ (span_hi st <= 0x10FFFF)%Z /\
   (span_hi st < 0xD800 \/ 0xDFFF < span_lo st)%Z).

Example decode_latin1 : utf8_decode [Byte.xe9] = [0xFFFD%Z].
Proof. reflexivity. Qed.
Example decode_e9_two : utf8_decode [Byte.xc3; Byte.xa9] = [0xE9%Z].
Proof. reflexivity. Qed.
Example decode_truncated : utf8_decode [Byte.xe2; Byte.x82; Byte.x41] = [0xFFFD; 0x41]%Z.
Proof. reflexivity. Qed.
Example encode_euro : utf8_encode [0x20AC%Z] = [Byte.xe2; Byte.x82; Byte.xac].
Proof. reflexivity. Qed.

(** ** Lemmas on bytes and bits *)

Lemma byte_to_Z_range b : (0 <= byte_to_Z b < 256)%Z.
Proof. unfold byte_to_Z. pose proof (Byte.to_N_bounded b). lia. Qed.

Lemma byte_to_of_Z z : (0 <= z < 256)%Z -> byte_to_Z (byte_of_Z z) = z.
Proof.
  intros Hz. unfold byte_of_Z, byte_to_Z. rewrite Z.mod_small by lia.
  destruct (Byte.of_N (Z.to_N z)) as [b|] eqn:E.
  - apply Byte.to_of_N in E. rewrite E. lia.
  - apply Byte.of_N_None_iff in E. lia.
Qed.

Lemma byte_of_to_Z b : byte_of_Z (byte_to_Z b) = b.
Proof.
  unfold byte_of_Z, byte_to_Z. pose proof (Byte.to_N_bounded b).
  rewrite Z.mod_small by lia. rewrite N2Z.id. by rewrite Byte.of_to_N.
Qed.

(** A [lor] of disjoint bit ranges is a sum. *)
Lemma lor_low_bits a x n :
  (0 <= n)%Z -> (0 <= x < 2 ^ n)%Z -> Z.lor (a * 2 ^ n) x = (a * 2 ^ n + x)%Z.
Proof.
  intros Hn Hx.
  assert (Hd : Z.land (a * 2 ^ n) x = 0%Z).
  { apply Z.bits_inj'. intros i Hi. rewrite Z.land_spec, Z.bits_0.
    destruct (Z.lt_ge_cases i n).
    - rewrite <- Z.shiftl_mul_pow2, Z.shiftl_spec_low by lia. done.
    - rewrite <- (Z.mod_small x (2 ^ n)) by lia.
      rewrite Z.mod_pow2_bits_high by lia. apply andb_false_r. }
  rewrite <- Z.lxor_lor by done. by rewrite <- Z.add_nocarry_lxor.
Qed.

Lemma land_ones_mod b n : (0 <= n)%Z -> Z.land b (Z.ones n) = (b mod 2 ^ n)%Z.
Proof. intros. by apply Z.land_ones. Qed.

Lemma land_63 x : Z.land x 0x3F = (x mod 64)%Z.
Proof. exact (Z.land_ones x 6 ltac:(lia)). Qed.

Lemma lor_128 y : (0 <= y < 64)%Z -> Z.lor 0x80 y = (128 + y)%Z.
Proof. intros. exact (lor_low_bits 2 y 6 ltac:(lia) H). Qed.
Lemma lor_192 y : (0 <= y < 32)%Z -> Z.lor 0xC0 y = (192 + y)%Z.
Proof. intros. exact (lor_low_bits 6 y 5 ltac:(lia) H). Qed.
Lemma lor_224 y : (0 <= y < 16)%Z -> Z.lor 0xE0 y = (224 + y)%Z.
Proof. intros. exact (lor_low_bits 14 y 4 ltac:(lia) H). Qed.
Lemma lor_240 y : (0 <= y < 8)%Z -> Z.lor 0xF0 y = (240 + y)%Z.
Proof. intros. exact (lor_low_bits 30 y 3 ltac:(lia) H). Qed.

Lemma shiftr_div c k : (0 <= k)%Z -> Z.shiftr c k = (c / 2 ^ k)%Z.
Proof. apply Z.shiftr_div_pow2. Qed.

(** The continuation step: six more bits. *)
Lemma shift_in a b :
  Z.lor (Z.shiftl a 6) (Z.land b 0x3F) = (a * 64 + b mod 64)%Z.
Proof.
  rewrite Z.shiftl_mul_pow2, land_63 by lia.
  exact (lor_low_bits a (b mod 64) 6 ltac:(lia) (Z.mod_pos_bound b 64 ltac:(lia))).
Qed.

Lemma is_scalar_spec c :
  is_scalar c = true <-> (0 <= c <= 0x10FFFF /\ ~ (0xD800 <= c <= 0xDFFF))%Z.
Proof.
  unfold is_scalar. rewrite !andb_true_iff, negb_true_iff, andb_false_iff, !Z.leb_le,
    !Z.leb_gt. lia.
Qed.

(** The encoding of a scalar value, as arithmetic. *)
Lemma encode_cp_arith c :
  is_scalar c = true ->
  encode_cp c =
  if (c <? 0x80)%Z then [c]
  else if (c <? 0x800)%Z then [192 + c / 64; 128 + c mod 64]%Z
  else if (c <? 0x10000)%Z then
    [224 + c / 4096; 128 + (c / 64) mod 64; 128 + c mod 64]%Z
  else [240 + c / 262144; 128 + (c / 4096) mod 64; 128 + (c / 64) mod 64;
        128 + c mod 64]%Z.
Proof.
  intros Hs%is_scalar_spec. unfold encode_cp.
  rewrite !shiftr_div, !land_63 by lia.
  change (2 ^ 6)%Z with 64%Z. change (2 ^ 12)%Z with 4096%Z.
  change (2 ^ 18)%Z with 262144%Z.
  zcases; cbn [andb]; try done;
    repeat match goal with
    | |- (_ :: _) = (_ :: _) => f_equal
    | |- Z.lor _ _ = _ => first [apply lor_128 | apply lor_192 | apply lor_224 | apply lor_240]; lia_div
    end.
Qed.

(** ** The decoder on well-formed sequences *)

Lemma land_31 b : Z.land b 0x1F = (b mod 32)%Z.
Proof. exact (Z.land_ones b 5 ltac:(lia)). Qed.
Lemma land_15 b : Z.land b 0xF = (b mod 16)%Z.
Proof. exact (Z.land_ones b 4 ltac:(lia)). Qed.
Lemma land_7 b : Z.land b 0x7 = (b mod 8)%Z.
Proof. exact (Z.land_ones b 3 ltac:(lia)). Qed.

Lemma decode_from_byte st b rest :
  (0 <= b < 256)%Z ->
  decode_from st (byte_of_Z b :: rest) =
  let '(st', out) := decode_step st b in out ++ decode_from st' rest.
Proof. intros. simpl. by rewrite byte_to_of_Z. Qed.

Lemma decode_step_init b : decode_step dinit b = start_byte b.
Proof. done. Qed.

Lemma start_one b : (0 <= b <= 0x7F)%Z -> start_byte b = (dinit, [b]).
Proof. intros. unfold start_byte. zcases. Qed.

Lemma start_two b :
  (0xC2 <= b <= 0xDF)%Z -> start_byte b = (DState 1 0 (b mod 32) 0x80 0xBF, []).
Proof. intros. unfold start_byte. rewrite land_31. zcases. Qed.

Lemma start_three b :
  (0xE0 <= b <= 0xEF)%Z ->
  start_byte b = (DState 2 0 (b mod 16) (if (b =? 0xE0)%Z then 0xA0 else 0x80)
                         (if (b =? 0xED)%Z then 0x9F else 0xBF), []).
Proof. intros. unfold start_byte. rewrite land_15. zcases. Qed.

Lemma start_four b :
  (0xF0 <= b <= 0xF4)%Z ->
  start_byte b = (DState 3 0 (b mod 8) (if (b =? 0xF0)%Z then 0x90 else 0x80)
                         (if (b =? 0xF4)%Z then 0x8F else 0xBF), []).
Proof. intros. unfold start_byte. rewrite land_7. zcases. Qed.

Lemma step_cont n s a lo hi b :
  n <> 0 -> (lo <= b <= hi)%Z ->
  decode_step (DState n s a lo hi) b =
  if S s =? n then (dinit, [a * 64 + b mod 64]%Z)
  else (DState n (S s) (a * 64 + b mod 64) 0x80 0xBF, []).
Proof.
  intros Hn Hb. unfold decode_step. cbn [needed seen cp lower upper].
  destruct (Nat.eqb_spec n 0); [lia|]. rewrite shift_in. zcases.
Qed.

(** One step of the decoder on a byte of a well-formed sequence. *)
Ltac dec_byte :=
  rewrite decode_from_byte by lia_div;
  first [ rewrite decode_step_init, start_one by lia_div
        | rewrite decode_step_init, start_two by lia_div
        | rewrite decode_step_init, start_three by lia_div
        | rewrite decode_step_init, start_four by lia_div
        | rewrite step_cont by (try lia; zcases; lia_div) ];
  cbn [app Nat.eqb].

(** The decoder reads back the encoding of one scalar value. *)
Lemma decode_encode_cp c rest :
  is_scalar c = true ->
  decode_from dinit (map byte_of_Z (encode_cp c) ++ rest) = c :: decode_from dinit rest.
Proof.
  intros Hs. pose proof Hs as Hr%is_scalar_spec. rewrite encode_cp_arith by done.
  destruct (Z.ltb_spec c 0x80); [|destruct (Z.ltb_spec c 0x800);
    [|destruct (Z.ltb_spec c 0x10000)]]; cbn [map app]; repeat dec_byte;
    f_equal; lia_div.
Qed.

Lemma utf8_encode_cons c cps :
  utf8_encode (c :: cps) = map byte_of_Z (encode_cp c) ++ utf8_encode cps.
Proof. unfold utf8_encode. by rewrite map_cons, concat_cons, map_app. Qed.

Lemma utf8_encode_app a b : utf8_encode (a ++ b) = utf8_encode a ++ utf8_encode b.
Proof. unfold utf8_encode. by rewrite map_app, concat_app, map_app. Qed.

Lemma decode_from_encode cps rest :
  Forall (fun c => is_scalar c = true) cps ->
  decode_from dinit (utf8_encode cps ++ rest) = cps ++ decode_from dinit rest.
Proof.
  induction 1 as [|c cps Hc _ IH]; [done|].
  rewrite utf8_encode_cons, <- app_assoc, decode_encode_cp by done. by rewrite IH.
Qed.

Lemma scalar_FFFD : is_scalar 0xFFFD = true.
Proof. done. Qed.

Lemma start_inv b :
  (0 <= b < 256)%Z ->
  dinv (start_byte b).1 /\ Forall (fun c => is_scalar c = true) (start_byte b).2.
Proof.
  intros Hb. unfold start_byte. rewrite land_31, land_15, land_7.
  zcases; (split; [try (left; done); right | repeat constructor; apply is_scalar_spec; lia]);
    unfold span_lo, span_hi, pow64; cbn -[Z.mul Z.add Z.sub Z.modulo]; lia_div.
Qed.

Lemma step_inv st b :
  dinv st -> (0 <= b < 256)%Z ->
  dinv (decode_step st b).1 /\ Forall (fun c => is_scalar c = true) (decode_step st b).2.
Proof.
  intros [-> | (Hs & Hcp & Hlo & Hhi & Hmin & Hmax & Hsur)] Hb;
    [by apply start_inv|].
  unfold decode_step. destruct (Nat.eqb_spec (needed st) 0) as [|Hn0]; [lia|].
  destruct (_ && _) eqn:Hin; cbn [negb].
  - apply andb_true_iff in Hin as [Hl Hu]. apply Z.leb_le in Hl, Hu.
    rewrite shift_in. unfold span_lo, span_hi, pow64 in *.
    destruct st as [n sn a lo hi]; cbn [needed seen cp lower upper] in *.
    destruct (Nat.eqb_spec (S sn) n) as [<-|Hne].
    + split; [by left | repeat constructor; apply is_scalar_spec].
      replace (S sn - sn) with 1 in * by lia. cbn in *. lia_div.
    + split; [right | constructor]. unfold span_lo, span_hi, pow64.
      cbn [needed seen cp lower upper].
      destruct n as [|[|[|[|n]]]]; try lia; destruct sn as [|[|[|sn]]]; try lia;
        cbn in *; lia_div.
  - destruct (start_inv b Hb) as [H1 H2].
    destruct (start_byte b) as [st' out]. split; [done | by constructor].
Qed.

Lemma decode_from_scalar st bs :
  dinv st -> Forall (fun c => is_scalar c = true) (decode_from st bs).
Proof.
  revert st. induction bs as [|b bs IH]; intros st Hst; simpl.
  - destruct (needed st =? 0); repeat constructor.
  - pose proof (step_inv st (byte_to_Z b) Hst (byte_to_Z_range b)) as [H1 H2].
    destruct (decode_step st (byte_to_Z b)) as [st' out]. apply Forall_app. auto.
Qed.

Lemma decode_encode cps :
  Forall (fun c => is_scalar c = true) cps -> utf8_decode (utf8_encode cps) = cps.
Proof.
  intros H. unfold utf8_decode. rewrite <- (app_nil_r (utf8_encode cps)).
  rewrite decode_from_encode by done. apply app_nil_r.
Qed.

(** Re-encoding a well-formed UTF-8 text gives the same bytes. *)
Lemma utf8_reencode_valid bs :
  valid_utf8 bs -> utf8_encode (utf8_decode bs) = bs.
Proof. intros (cps & Hs & ->). by rewrite decode_encode. Qed.

Lemma decode_stray_byte b c rest :
  (0x80 <= byte_to_Z b)%Z -> (byte_to_Z c <= 0x7F)%Z ->
  utf8_decode (b :: c :: rest) = 0xFFFD%Z :: byte_to_Z c :: utf8_decode rest.
Proof.
  intros Hb Hc. pose proof (byte_to_Z_range b). pose proof (byte_to_Z_range c).
  unfold utf8_decode. cbn [decode_from]. rewrite decode_step_init.
  assert (Hsc : start_byte (byte_to_Z c) = (dinit, [byte_to_Z c])) by (apply start_one; lia).
  unfold start_byte at 1. rewrite land_31, land_15, land_7.
  zcases; unfold decode_step; cbn [needed lower upper Nat.eqb]; zcases;
    rewrite ?Hsc; cbn; try rewrite Hsc; done.
Qed.

Lemma decode_scalar bs : Forall (fun c => is_scalar c = true) (utf8_decode bs).
Proof. apply decode_from_scalar. by left. Qed.

(** ** Theorems *)

(** C22: decoding the UTF-8 encoding of a list of scalar values gives the
    list back ([Buffer.from(s, "utf8").toString("utf8") === s] for a string
    without lone surrogates). *)
Theorem utf8_decode_encode cps :
  Forall (fun c => is_scalar c = true) cps -> utf8_decode (utf8_encode cps) = cps.
Proof. apply decode_encode. Qed.

Lemma utf8_decode_encode_witness :
  Forall (fun c => is_scalar c = true) [0x6B; 0x3D; 0xE9; 0x20AC; 0x1F600]%Z /\
  utf8_decode (utf8_encode [0x6B; 0x3D; 0xE9; 0x20AC; 0x1F600]%Z) =
    [0x6B; 0x3D; 0xE9; 0x20AC; 0x1F600]%Z.
Proof.
  assert (H : Forall (fun c => is_scalar c = true) [0x6B; 0x3D; 0xE9; 0x20AC; 0x1F600]%Z)
    by repeat constructor.
  split; [exact H | exact (utf8_decode_encode _ H)].
Defined.

(** C23: whatever the bytes, every value the decoder produces is a Unicode
    scalar value: [toString("utf8")] never yields a surrogate or a value
    above U+10FFFF, so the encoder's lone-surrogate branch is never taken
    on decoded text. *)
Theorem utf8_decode_scalar bs : Forall (fun c => is_scalar c = true) (utf8_decode bs).
Proof. apply decode_scalar. Qed.

(** C24: a non-ASCII byte followed by an ASCII byte, such as an ISO-8859-1
    "é" (0xE9) before "=", is not UTF-8: the decoder yields U+FFFD in its
    place and reads the ASCII byte normally, so re-encoding replaces the
    byte by the three bytes EF BF BD. *)
Theorem utf8_decode_stray_byte b c rest :
  (0x80 <= byte_to_Z b)%Z -> (byte_to_Z c <= 0x7F)%Z ->
  utf8_decode (b :: c :: rest) = 0xFFFD%Z :: byte_to_Z c :: utf8_decode rest.
Proof. apply decode_stray_byte. Qed.

Lemma utf8_decode_stray_byte_witness :
  utf8_decode [Byte.xe9; Byte.x3d; Byte.x65] = [0xFFFD; 0x3D; 0x65]%Z /\
  utf8_encode (utf8_decode [Byte.xe9; Byte.x3d]) = [Byte.xef; Byte.xbf; Byte.xbd; Byte.x3d].
Proof.
  split; [|reflexivity].
  exact (utf8_decode_stray_byte Byte.xe9 Byte.x3d [Byte.x65] ltac:(vm_compute; done)
                                ltac:(vm_compute; done)).
Defined.

End Utf8.
