(* ===== verification/Utf16.v ===== *)
(** JavaScript strings as sequences of UTF-16 code units, for the parts of
    [build.ts] that work on a string unit by unit: [JSON.parse] at lines
    51-53, [split] and indexing at line 63-65, [JSON.stringify] at lines
    139-156.  [Buffer.toString("utf8")] gives the code points of the
    decoder ([Utf8.utf8_decode]) as code units, astral ones as a surrogate
    pair; [Buffer.from(s, "utf8")] reads the code points back out of the
    units (ECMA-262 [CodePointAt]: a lone surrogate stands for itself) and
    encodes them ([Utf8.utf8_encode] writes U+FFFD for a lone surrogate).

    The theorems: reading code points back from the units of scalar values
    gives them back, so for decoded text the code-unit view and the
    code-point view of [MessagesTransform] agree. *)

From S2P Require Import Prelude.
From S2P Require Import Utf8.

Module Utf16.
Import Utf8.

(** A JavaScript string: its code units, each in [0, 0x10000). *)
Definition jstr := list Z.

Definition is_high (u : Z) : bool := (0xD800 <=? u)%Z && (u <=? 0xDBFF)%Z.
Definition is_low (u : Z) : bool := (0xDC00 <=? u)%Z && (u <=? 0xDFFF)%Z.

(** [UTF16EncodeCodePoint]. *)
Definition utf16_encode_cp (c : Z) : list Z :=
  if (c <? 0x10000)%Z then [c]
  else [0xD800 + (c - 0x10000) / 0x400; 0xDC00 + (c - 0x10000) mod 0x400]%Z.

Definition utf16_of_cps (cps : list Z) : jstr := concat (map utf16_encode_cp cps).

(** [StringToCodePoints]: a high surrogate followed by a low one is one
    code point; any other surrogate is its own code point. *)
Fixpoint cps_of_utf16 (s : jstr) : list Z :=
  match s with
  | [] => []
  | u :: s' =>
      if is_high u then
        match s' with
        | u2 :: s'' =>
            if is_low u2 then (0x10000 + (u - 0xD800) * 0x400 + (u2 - 0xDC00))%Z :: cps_of_utf16 s''
            else u :: cps_of_utf16 s'
        | [] => [u]
        end
      else u :: cps_of_utf16 s'
  end.

(** A code unit. *)
Definition unit_ok (u : Z) : bool := (0 <=? u)%Z && (u <? 0x10000)%Z.

(** [buf.toString("utf8")] and [Buffer.from(s, "utf8")]. *)
Definition buffer_to_string (bs : list byte) : jstr := utf16_of_cps (utf8_decode bs).
Definition buffer_from_string (s : jstr) : list byte := utf8_encode (cps_of_utf16 s).

(** A well-formed UTF-16 string: the units of scalar values (no lone
    surrogate). *)
Definition utf16_wf (s : jstr) : Prop :=
  exists cps, Forall (fun c => is_scalar c = true) cps /\ s = utf16_of_cps cps.

(** A unit that stands for itself: below 0x10000 and not a surrogate. *)
Definition bmp_unit (u : Z) : bool :=
  (0 <=? u)%Z && (u <? 0x10000)%Z && negb ((0xD800 <=? u)%Z && (u <=? 0xDFFF)%Z).

(** ** Lemmas *)

Lemma utf16_encode_cp_bmp c : (c < 0x10000)%Z -> utf16_encode_cp c = [c].
Proof. intros. unfold utf16_encode_cp. by rewrite (proj2 (Z.ltb_lt _ _) H). Qed.

Lemma cps_of_utf16_cons_bmp u s :
  is_high u = false -> cps_of_utf16 (u :: s) = u :: cps_of_utf16 s.
Proof. intros H. simpl. by rewrite H. Qed.

(** The units of one scalar value, read back, followed by any units. *)
Lemma cps_of_utf16_encode_cp c s :
  is_scalar c = true -> cps_of_utf16 (utf16_encode_cp c ++ s) = c :: cps_of_utf16 s.
Proof.
  intros Hc. apply is_scalar_spec in Hc. unfold utf16_encode_cp.
  destruct (Z.ltb_spec c 0x10000).
  - simpl. unfold is_high. destruct (Z.leb_spec 0xD800 c), (Z.leb_spec c 0xDBFF);
      simpl; auto; lia.
  - simpl. unfold is_high, is_low.
    assert (0 <= (c - 0x10000) mod 0x400 < 0x400)%Z by (apply Z.mod_pos_bound; lia).
    assert (0 <= (c - 0x10000) / 0x400 < 0x400)%Z by (split; [apply Z.div_pos | apply Z.div_lt_upper_bound]; lia).
    rewrite (proj2 (Z.leb_le _ _)), (proj2 (Z.leb_le _ _)) by lia. simpl.
    rewrite (proj2 (Z.leb_le _ _)), (proj2 (Z.leb_le _ _)) by lia. simpl.
    f_equal. pose proof (Z.div_mod (c - 0x10000) 0x400). lia.
Qed.

Lemma cps_of_utf16_of_cps cps :
  Forall (fun c => is_scalar c = true) cps -> cps_of_utf16 (utf16_of_cps cps) = cps.
Proof.
  induction 1 as [|c cps Hc _ IH]; [done|].
  unfold utf16_of_cps. simpl. rewrite cps_of_utf16_encode_cp by done. f_equal. exact IH.
Qed.

(** Every unit of an encoded scalar is a 16-bit value. *)
Lemma utf16_of_cps_units cps :
  Forall (fun c => is_scalar c = true) cps ->
  Forall (fun u => 0 <= u < 0x10000)%Z (utf16_of_cps cps).
Proof.
  induction 1 as [|c cps Hc _ IH]; [constructor|].
  unfold utf16_of_cps. simpl. apply Forall_app. split; [|exact IH].
  apply is_scalar_spec in Hc. unfold utf16_encode_cp.
  destruct (Z.ltb_spec c 0x10000); repeat constructor; try lia.
  - apply Z.le_trans with 0xD800%Z; [lia|]. assert (0 <= (c - 0x10000) / 0x400)%Z by (apply Z.div_pos; lia). lia.
  - assert ((c - 0x10000) / 0x400 < 0x400)%Z by (apply Z.div_lt_upper_bound; lia). lia.
  - assert (0 <= (c - 0x10000) mod 0x400)%Z by (apply Z.mod_pos_bound; lia). lia.
  - assert ((c - 0x10000) mod 0x400 < 0x400)%Z by (apply Z.mod_pos_bound; lia). lia.
Qed.

(** [Buffer.from(buf.toString("utf8"), "utf8")] is the code-point view:
    the bytes [MessagesTransform] writes through code points are the bytes
    the code-unit string gives. *)
Lemma buffer_from_to_string bs :
  buffer_from_string (buffer_to_string bs) = utf8_encode (utf8_decode bs).
Proof.
  unfold buffer_from_string, buffer_to_string. f_equal.
  apply cps_of_utf16_of_cps, decode_scalar.
Qed.

(** Every code point of a string of code units is below 0x110000, and
    encoding them again gives the units back. *)
Lemma cps_of_utf16_range s :
  forallb unit_ok s = true -> Forall (fun c => 0 <= c <= 0x10FFFF)%Z (cps_of_utf16 s).
Proof.
  remember (length s) as n eqn:En. assert (Hn : (length s <= n)%nat) by lia. clear En.
  revert s Hn. induction n as [|n IH]; intros s Hn Hs; [destruct s; [constructor|simpl in Hn; lia]|].
  destruct s as [|u s]; [constructor|]. simpl in Hs |- *. apply andb_prop in Hs as [Hu Hs].
  unfold unit_ok in Hu. apply andb_prop in Hu as [Hu1 Hu2]. apply Z.leb_le in Hu1. apply Z.ltb_lt in Hu2.
  simpl in Hn. destruct (is_high u) eqn:Eh.
  - destruct s as [|u2 s'].
    + repeat constructor; lia.
    + simpl in Hs. apply andb_prop in Hs as [Hu2' Hs'].
      destruct (is_low u2) eqn:El.
      * unfold is_high, is_low in *. apply andb_prop in Eh as [Eh1 Eh2]. apply andb_prop in El as [El1 El2].
        apply Z.leb_le in Eh1, Eh2, El1, El2. constructor; [lia|]. apply IH; simpl in Hn; [lia|done].
      * constructor; [lia|]. apply IH; simpl in *; [lia|]. by rewrite Hu2', Hs'.
  - constructor; [lia|]. apply IH; [lia|done].
Qed.

Lemma utf16_of_cps_of_utf16 s : forallb unit_ok s = true -> utf16_of_cps (cps_of_utf16 s) = s.
Proof.
  remember (length s) as n eqn:En. assert (Hn : (length s <= n)%nat) by lia. clear En.
  revert s Hn. induction n as [|n IH]; intros s Hn Hs; [destruct s; [done|simpl in Hn; lia]|].
  destruct s as [|u s]; [done|]. simpl in Hs |- *. apply andb_prop in Hs as [Hu Hs].
  unfold unit_ok in Hu. apply andb_prop in Hu as [Hu1 Hu2]. apply Z.leb_le in Hu1. apply Z.ltb_lt in Hu2.
  simpl in Hn. unfold utf16_of_cps in *.
  destruct (is_high u) eqn:Eh.
  - destruct s as [|u2 s'].
    + simpl. by rewrite utf16_encode_cp_bmp.
    + simpl in Hs. apply andb_prop in Hs as [Hu2' Hs'].
      destruct (is_low u2) eqn:El.
      * unfold is_high, is_low in *. apply andb_prop in Eh as [Eh1 Eh2]. apply andb_prop in El as [El1 El2].
        apply Z.leb_le in Eh1, Eh2, El1, El2. simpl.
        rewrite IH by (simpl in Hn; lia || done).
        unfold utf16_encode_cp. rewrite (proj2 (Z.ltb_ge _ _)) by lia. simpl.
        f_equal; [lia_div|]. f_equal. lia_div.
      * simpl. rewrite utf16_encode_cp_bmp by done. simpl. f_equal.
        apply (IH (u2 :: s')); simpl in *; [lia|]. by rewrite Hu2', Hs'.
  - simpl. rewrite utf16_encode_cp_bmp by done. simpl. f_equal. apply IH; [lia|done].
Qed.

Lemma utf16_of_cps_app a b : utf16_of_cps (a ++ b) = utf16_of_cps a ++ utf16_of_cps b.
Proof. unfold utf16_of_cps. by rewrite map_app, concat_app. Qed.

Lemma utf16_wf_app a b : utf16_wf a -> utf16_wf b -> utf16_wf (a ++ b).
Proof.
  intros (ca & Ha & ->) (cb & Hb & ->). exists (ca ++ cb).
  split; [by apply Forall_app|]. by rewrite utf16_of_cps_app.
Qed.

Lemma utf16_wf_nil : utf16_wf [].
Proof. by exists []. Qed.

Lemma utf16_wf_bmp s : forallb bmp_unit s = true -> utf16_wf s.
Proof.
  intros H. exists s. split.
  - apply Forall_forall. intros u Hu%list_elem_of_In.
    pose proof (proj1 (forallb_forall _ _) H u Hu) as Hb. unfold bmp_unit in Hb.
    apply is_scalar_spec. apply andb_prop in Hb as [Hb Hs]. apply andb_prop in Hb as [H1 H2].
    apply Z.leb_le in H1. apply Z.ltb_lt in H2. apply negb_true_iff, andb_false_iff in Hs.
    destruct Hs as [Hs|Hs]; [apply Z.leb_gt in Hs|apply Z.leb_gt in Hs]; lia.
  - induction s as [|u s IH]; [done|]. simpl in H. apply andb_prop in H as [Hu H].
    unfold utf16_of_cps in *. simpl. rewrite <- IH by done.
    unfold bmp_unit in Hu. apply andb_prop in Hu as [Hu _]. apply andb_prop in Hu as [_ Hu].
    apply Z.ltb_lt in Hu. by rewrite utf16_encode_cp_bmp.
Qed.

Lemma utf16_wf_cp c : is_scalar c = true -> utf16_wf (utf16_encode_cp c).
Proof. intros Hc. exists [c]. split; [by repeat constructor|]. unfold utf16_of_cps. simpl. by rewrite app_nil_r. Qed.

Lemma utf16_wf_concat l : Forall utf16_wf l -> utf16_wf (concat l).
Proof. induction 1; simpl; [apply utf16_wf_nil|by apply utf16_wf_app]. Qed.

(** [Buffer.from(s, "utf8").toString("utf8") === s] for a well-formed
    string. *)
Lemma buffer_to_from_string s : utf16_wf s -> buffer_to_string (buffer_from_string s) = s.
Proof.
  intros (cps & Hc & ->). unfold buffer_to_string, buffer_from_string.
  by rewrite cps_of_utf16_of_cps, decode_encode.
Qed.

#[export] Hint Resolve utf16_wf_app utf16_wf_nil utf16_wf_bmp utf16_wf_cp : kc.

(** The string of a buffer is made of code units. *)
Lemma buffer_to_string_units bs : forallb unit_ok (buffer_to_string bs) = true.
Proof.
  unfold buffer_to_string. pose proof (utf16_of_cps_units _ (decode_scalar bs)) as H.
  apply forallb_forall. intros u Hu. rewrite Forall_forall in H.
  apply list_elem_of_In, H in Hu. unfold unit_ok. apply andb_true_iff.
  split; [apply Z.leb_le|apply Z.ltb_lt]; lia.
Qed.

(** A UTF-8 byte order mark decodes to U+FEFF. *)
Lemma buffer_to_string_bom rest :
  buffer_to_string (Byte.xef :: Byte.xbb :: Byte.xbf :: rest) = 0xFEFF%Z :: buffer_to_string rest.
Proof.
  unfold buffer_to_string, utf8_decode.
  change (Byte.xef :: Byte.xbb :: Byte.xbf :: rest) with (map byte_of_Z (encode_cp 0xFEFF) ++ rest).
  by rewrite decode_encode_cp.
Qed.

(** ** Theorems *)

(** C32: the two conversions of [build.ts] between buffers and strings
    ([Buffer.toString("utf8")] at line 53, [Buffer.from(s, "utf8")] at
    line 156) are inverse where they can be: a string of scalar values
    written out and read back is the same string; the string of any buffer
    is such a string; and a buffer read and written back is its decoding
    re-encoded, with each invalid sequence replaced by U+FFFD. *)
Theorem buffer_string_roundtrip s bs :
  utf16_wf s ->
  buffer_to_string (buffer_from_string s) = s /\
  utf16_wf (buffer_to_string bs) /\
  buffer_from_string (buffer_to_string bs) = utf8_encode (utf8_decode bs).
Proof.
  intros Hs. split_and!; [by apply buffer_to_from_string| |apply buffer_from_to_string].
  exists (utf8_decode bs). split; [apply decode_scalar|done].
Qed.

(** ** Witnesses *)

Lemma buffer_string_roundtrip_witness :
  utf16_wf [0x61; 0xD83D; 0xDE00]%Z /\
  buffer_to_string (buffer_from_string [0x61; 0xD83D; 0xDE00]%Z) = [0x61; 0xD83D; 0xDE00]%Z /\
  utf16_wf (buffer_to_string [Byte.x61; Byte.xff]) /\
  buffer_from_string (buffer_to_string [Byte.x61; Byte.xff]) = utf8_encode (utf8_decode [Byte.x61; Byte.xff]).
Proof.
  assert (H : utf16_wf [0x61; 0xD83D; 0xDE00]%Z).
  { exists [0x61; 0x1F600]%Z. split; [repeat constructor|reflexivity]. }
  split; [exact H|exact (buffer_string_roundtrip _ [Byte.x61; Byte.xff] H)].
Defined.

End Utf16.
