(* ===== verification/Json.v ===== *)
(** [JSON.parse] and [JSON.stringify(value, null, 2)] as ECMA-262 defines
    them (25.5.1 and 25.5.2), on strings of UTF-16 code units: [build.ts]
    parses [package.json] at lines 51-53 and writes the dist
    [package.json] at lines 139-156.

    A JSON value is [json]; an object keeps its properties in the order a
    JavaScript object enumerates them ([OrdinaryOwnPropertyKeys]): array
    index keys first in ascending order, then the other keys in the order
    they were created; a repeated key in the text replaces the value and
    keeps the position ([CreateDataProperty]).  A number is a decimal
    [m * 10^e], normalised, or -0 ([JNegZero], what the text "-0" denotes,
    which [JSON.stringify] prints as "0"); [Number::toString] prints a
    decimal with the rules of 6.1.6.1.20.

    The decimal is exact where JavaScript rounds to the nearest double:
    the two agree on the numbers [num_safe] admits (at most 15
    significant digits, within the normal range of doubles), for which
    the nearest double prints back as the same decimal.  Outside them
    the model differs from Node: "1e400" is [JNum 1 400] where Node reads
    [Infinity] (printed "null"), and a number of 16 or more digits keeps
    digits Node rounds away.  The theorems that compare a value with what
    is read back are stated for values whose numbers are safe
    ([json_safe]).

    [parse_value] is the parser of a JSON value, with fuel; [OutOfFuel] is
    kept apart from a syntax error so that the theorems can show that the
    fuel [JSON.parse] is given is always enough. *)

From S2P Require Import Prelude.
From S2P Require Import Utf16.

Module Json.
Import Utf16.

#[warnings="-register-all"]
Inductive json :=
| JNull
| JBool (b : bool)
| JNum (m e : Z)
| JNegZero
| JStr (s : jstr)
| JArr (vs : list json)
| JObj (ps : list (jstr * json)).

(** The induction principle through the nested lists. *)
Section json_ind'.
Variable P : json -> Prop.
Hypothesis HNull : P JNull.
Hypothesis HBool : forall b, P (JBool b).
Hypothesis HNum : forall m e, P (JNum m e).
Hypothesis HNegZero : P JNegZero.
Hypothesis HStr : forall s, P (JStr s).
Hypothesis HArr : forall vs, Forall P vs -> P (JArr vs).
Hypothesis HObj : forall ps, Forall (fun kv => P kv.2) ps -> P (JObj ps).

Fixpoint json_ind' (v : json) : P v :=
  match v with
  | JNull => HNull
  | JBool b => HBool b
  | JNum m e => HNum m e
  | JNegZero => HNegZero
  | JStr s => HStr s
  | JArr vs =>
      HArr vs ((fix go (l : list json) : Forall P l :=
                  match l with
                  | [] => List.Forall_nil _
                  | v :: l' => List.Forall_cons _ _ _ (json_ind' v) (go l')
                  end) vs)
  | JObj ps =>
      HObj ps ((fix go (l : list (jstr * json)) : Forall (fun kv => P kv.2) l :=
                  match l with
                  | [] => List.Forall_nil _
                  | kv :: l' => List.Forall_cons _ _ _ (json_ind' kv.2) (go l')
                  end) ps)
  end.
End json_ind'.

(** The code units of an Ascii literal. *)
Definition lit (s : string) : jstr :=
  map (fun c => Z.of_nat (nat_of_ascii c)) (list_ascii_of_string s).

(** ** Lexical parts *)

Definition is_ws (u : Z) : bool := (u =? 9)%Z || (u =? 10)%Z || (u =? 13)%Z || (u =? 32)%Z.

Fixpoint skip_ws (s : jstr) : jstr :=
  match s with
  | u :: s' => if is_ws u then skip_ws s' else s
  | [] => []
  end.

Fixpoint take_lit (l s : jstr) : option jstr :=
  match l with
  | [] => Some s
  | c :: l' => match s with
               | d :: s' => if (c =? d)%Z then take_lit l' s' else None
               | [] => None
               end
  end.

Definition is_digit (u : Z) : bool := (0x30 <=? u)%Z && (u <=? 0x39)%Z.

Fixpoint span_digits (s : jstr) : jstr * jstr :=
  match s with
  | u :: s' => if is_digit u then let '(ds, r) := span_digits s' in (u :: ds, r) else ([], s)
  | [] => ([], [])
  end.

(** The value of a list of decimal digits. *)
Definition dvalue (ds : jstr) : Z := fold_left (fun acc d => acc * 10 + (d - 0x30))%Z ds 0%Z.

(** The trailing zero digits of a digit list, removed and counted. *)
Fixpoint drop_zeros (r : jstr) : jstr * nat :=
  match r with
  | u :: r' => if (u =? 0x30)%Z then let '(r'', z) := drop_zeros r' in (r'', S z) else (r, O)
  | [] => ([], O)
  end.

Definition strip_zeros (ds : jstr) : jstr * nat :=
  let '(r, z) := drop_zeros (rev ds) in (rev r, z).

(** The JSON number [-? int frac? exp?] as a normalised decimal. *)
Definition mk_num (neg : bool) (ds : jstr) (x : Z) : json :=
  let '(ds', z) := strip_zeros ds in
  let m := dvalue ds' in
  if (m =? 0)%Z then (if neg then JNegZero else JNum 0 0) else JNum (if neg then - m else m)%Z (x + Z.of_nat z)%Z.

Definition parse_int (s : jstr) : option (jstr * jstr) :=
  match s with
  | u :: s' => if (u =? 0x30)%Z then Some ([u], s')
               else if is_digit u then Some (span_digits s) else None
  | [] => None
  end.

Definition parse_frac (s : jstr) : option (jstr * jstr) :=
  match s with
  | u :: s' =>
      if (u =? 0x2E)%Z then
        match span_digits s' with
        | ([], _) => None
        | (ds, r) => Some (ds, r)
        end
      else Some ([], s)
  | [] => Some ([], [])
  end.

Definition parse_exp (s : jstr) : option (Z * jstr) :=
  match s with
  | u :: s' =>
      if (u =? 0x65)%Z || (u =? 0x45)%Z then
        let '(neg, s2) :=
          match s' with
          | v :: s'' => if (v =? 0x2D)%Z then (true, s'')
                        else if (v =? 0x2B)%Z then (false, s'') else (false, s')
          | [] => (false, [])
          end in
        match span_digits s2 with
        | ([], _) => None
        | (ds, r) => Some (if neg then - dvalue ds else dvalue ds, r)%Z
        end
      else Some (0%Z, s)
  | [] => Some (0%Z, [])
  end.

Definition parse_sign (s : jstr) : bool * jstr :=
  match s with
  | u :: s' => if (u =? 0x2D)%Z then (true, s') else (false, s)
  | [] => (false, [])
  end.

Definition parse_number (s : jstr) : option (json * jstr) :=
  let '(neg, s1) := parse_sign s in
  match parse_int s1 with
  | None => None
  | Some (di, s2) =>
      match parse_frac s2 with
      | None => None
      | Some (df, s3) =>
          match parse_exp s3 with
          | None => None
          | Some (x, s4) => Some (mk_num neg (di ++ df) (x - Z.of_nat (length df))%Z, s4)
          end
      end
  end.

(** [JSONString]: the code units between the quotes, escapes decoded. *)
Definition hex_val (u : Z) : option Z :=
  if is_digit u then Some (u - 0x30)%Z
  else if (0x61 <=? u)%Z && (u <=? 0x66)%Z then Some (u - 0x57)%Z
  else if (0x41 <=? u)%Z && (u <=? 0x46)%Z then Some (u - 0x37)%Z
  else None.

Definition simple_escape (u : Z) : option Z :=
  if (u =? 0x22)%Z then Some 0x22%Z else if (u =? 0x5C)%Z then Some 0x5C%Z
  else if (u =? 0x2F)%Z then Some 0x2F%Z else if (u =? 0x62)%Z then Some 8%Z
  else if (u =? 0x66)%Z then Some 12%Z else if (u =? 0x6E)%Z then Some 10%Z
  else if (u =? 0x72)%Z then Some 13%Z else if (u =? 0x74)%Z then Some 9%Z
  else None.

Fixpoint parse_chars (s : jstr) : option (jstr * jstr) :=
  match s with
  | [] => None
  | u :: s' =>
      if (u =? 0x22)%Z then Some ([], s')
      else if (u =? 0x5C)%Z then
        match s' with
        | e :: s'' =>
            match simple_escape e with
            | Some c =>
                match parse_chars s'' with Some (r, t) => Some (c :: r, t) | None => None end
            | None =>
                if (e =? 0x75)%Z then
                  match s'' with
                  | h1 :: h2 :: h3 :: h4 :: s3 =>
                      match hex_val h1, hex_val h2, hex_val h3, hex_val h4 with
                      | Some a, Some b, Some c, Some d =>
                          match parse_chars s3 with
                          | Some (r, t) => Some ((((a * 16 + b) * 16 + c) * 16 + d)%Z :: r, t)
                          | None => None
                          end
                      | _, _, _, _ => None
                      end
                  | _ => None
                  end
                else None
            end
        | [] => None
        end
      else if (u <? 0x20)%Z then None
      else match parse_chars s' with Some (r, t) => Some (u :: r, t) | None => None end
  end.

(** ** Objects in enumeration order *)

(** [CanonicalNumericIndexString] of an array index: ["0"] or a digit
    string without a leading zero, below [2^32 - 1]. *)
Definition array_index (k : jstr) : option Z :=
  match k with
  | [] => None
  | u :: k' =>
      if forallb is_digit k && (negb (u =? 0x30)%Z || match k' with [] => true | _ => false end) then
        let i := dvalue k in if (i <? 4294967295)%Z then Some i else None
      else None
  end.

Definition key_in (k : jstr) (ps : list (jstr * json)) : bool :=
  existsb (fun kv => bool_decide (kv.1 = k)) ps.

Definition obj_replace (ps : list (jstr * json)) (k : jstr) (v : json) : list (jstr * json) :=
  map (fun kv => if bool_decide (kv.1 = k) then (k, v) else kv) ps.

(** A new index key goes before the first key that is not an index or is
    a larger one (an equal index is the same key, which [obj_set] has
    already replaced). *)
Fixpoint insert_index (ps : list (jstr * json)) (k : jstr) (i : Z) (v : json) :=
  match ps with
  | [] => [(k, v)]
  | (k', v') :: ps' =>
      match array_index k' with
      | Some j => if (j <=? i)%Z then (k', v') :: insert_index ps' k i v else (k, v) :: ps
      | None => (k, v) :: ps
      end
  end.

(** [CreateDataProperty(obj, k, v)] on an ordinary object. *)
Definition obj_set (ps : list (jstr * json)) (k : jstr) (v : json) : list (jstr * json) :=
  if key_in k ps then obj_replace ps k v
  else match array_index k with
       | Some i => insert_index ps k i v
       | None => ps ++ [(k, v)]
       end.

(** ** The parser *)

Inductive presult (A : Type) :=
| Parsed (a : A) (rest : jstr)
| Fail
| OutOfFuel.
Arguments Parsed {A}.
Arguments Fail {A}.
Arguments OutOfFuel {A}.

Definition pmap {A B} (f : A -> B) (r : presult A) : presult B :=
  match r with
  | Parsed a t => Parsed (f a) t
  | Fail => Fail
  | OutOfFuel => OutOfFuel
  end.

Fixpoint parse_value (n : nat) (s : jstr) {struct n} : presult json :=
  match n with
  | O => OutOfFuel
  | S n' =>
      match s with
      | [] => Fail
      | u :: s' =>
          if (u =? 0x7B)%Z then
            match skip_ws s' with
            | v :: s2 => if (v =? 0x7D)%Z then Parsed (JObj []) s2
                         else pmap JObj (parse_members n' (skip_ws s') [])
            | [] => Fail
            end
          else if (u =? 0x5B)%Z then
            match skip_ws s' with
            | v :: s2 => if (v =? 0x5D)%Z then Parsed (JArr []) s2
                         else pmap JArr (parse_elems n' (skip_ws s') [])
            | [] => Fail
            end
          else if (u =? 0x22)%Z then
            match parse_chars s' with Some (r, t) => Parsed (JStr r) t | None => Fail end
          else if (u =? 0x6E)%Z then
            match take_lit (lit "ull") s' with Some t => Parsed JNull t | None => Fail end
          else if (u =? 0x74)%Z then
            match take_lit (lit "rue") s' with Some t => Parsed (JBool true) t | None => Fail end
          else if (u =? 0x66)%Z then
            match take_lit (lit "alse") s' with Some t => Parsed (JBool false) t | None => Fail end
          else match parse_number s with Some (j, t) => Parsed j t | None => Fail end
      end
  end
with parse_elems (n : nat) (s : jstr) (acc : list json) {struct n} : presult (list json) :=
  match n with
  | O => OutOfFuel
  | S n' =>
      match parse_value n' s with
      | Parsed v t =>
          match skip_ws t with
          | u :: t' => if (u =? 0x2C)%Z then parse_elems n' (skip_ws t') (acc ++ [v])
                       else if (u =? 0x5D)%Z then Parsed (acc ++ [v]) t' else Fail
          | [] => Fail
          end
      | Fail => Fail
      | OutOfFuel => OutOfFuel
      end
  end
with parse_members (n : nat) (s : jstr) (acc : list (jstr * json)) {struct n}
    : presult (list (jstr * json)) :=
  match n with
  | O => OutOfFuel
  | S n' =>
      match s with
      | u :: s1 =>
          if (u =? 0x22)%Z then
            match parse_chars s1 with
            | Some (k, t) =>
                match skip_ws t with
                | c :: t1 =>
                    if (c =? 0x3A)%Z then
                      match parse_value n' (skip_ws t1) with
                      | Parsed v t2 =>
                          match skip_ws t2 with
                          | d :: t3 =>
                              if (d =? 0x2C)%Z then parse_members n' (skip_ws t3) (obj_set acc k v)
                              else if (d =? 0x7D)%Z then Parsed (obj_set acc k v) t3 else Fail
                          | [] => Fail
                          end
                      | Fail => Fail
                      | OutOfFuel => OutOfFuel
                      end
                    else Fail
                | [] => Fail
                end
            | None => Fail
            end
          else Fail
      | [] => Fail
      end
  end.

(** [JSON.parse(text)]: whitespace, one value, whitespace, the end.  The
    fuel is twice the length of the text and one. *)
Definition json_parse (s : jstr) : option json :=
  match parse_value (S (2 * length s)) (skip_ws s) with
  | Parsed v t => match skip_ws t with [] => Some v | _ => None end
  | _ => None
  end.

(** ** The printer *)

(** The decimal digits of a natural number, most significant first; the
    fuel is the bit length, which bounds the number of decimal digits. *)
Fixpoint digits_go (f : nat) (n : Z) (acc : jstr) : jstr :=
  match f with
  | O => acc
  | S f' => if (n <? 10)%Z then (0x30 + n)%Z :: acc
            else digits_go f' (n / 10) ((0x30 + n mod 10)%Z :: acc)
  end.

Definition dec (n : Z) : jstr := digits_go (S (Z.to_nat (Z.log2 n))) n [].

Definition zeros (k : Z) : jstr := repeat 0x30%Z (Z.to_nat k).

(** [Number::toString(x)] for [x = a * 10^e], [a > 0] without trailing
    zero digits: [k] digits, decimal exponent [n = e + k]. *)
Definition num_abs (a e : Z) : jstr :=
  let D := dec a in
  let k := Z.of_nat (length D) in
  let n := (e + k)%Z in
  if (k <=? n)%Z && (n <=? 21)%Z then D ++ zeros (n - k)
  else if (0 <? n)%Z && (n <=? 21)%Z then
    firstn (Z.to_nat n) D ++ [0x2E%Z] ++ skipn (Z.to_nat n) D
  else if (-6 <? n)%Z && (n <=? 0)%Z then [0x30; 0x2E]%Z ++ zeros (- n) ++ D
  else
    let x := (n - 1)%Z in
    let es := [0x65%Z; if (x <? 0)%Z then 0x2D%Z else 0x2B%Z] ++ dec (Z.abs x) in
    match D with
    | [d] => [d] ++ es
    | d :: D' => [d; 0x2E%Z] ++ D' ++ es
    | [] => es
    end.

Definition num_to_string (m e : Z) : jstr :=
  if (m =? 0)%Z then [0x30%Z]
  else if (m <? 0)%Z then 0x2D%Z :: num_abs (- m) e
  else num_abs m e.

(** [UnicodeEscape]: four lower-case hexadecimal digits. *)
Definition hex_digit (d : Z) : Z := if (d <? 10)%Z then (0x30 + d)%Z else (0x57 + d)%Z.

Definition hex4 (c : Z) : jstr :=
  [hex_digit (c / 4096); hex_digit ((c / 256) mod 16); hex_digit ((c / 16) mod 16);
   hex_digit (c mod 16)]%Z.

(** [QuoteJSONString], one code point. *)
Definition quote_cp (c : Z) : jstr :=
  if (c =? 8)%Z then [0x5C; 0x62]%Z
  else if (c =? 9)%Z then [0x5C; 0x74]%Z
  else if (c =? 10)%Z then [0x5C; 0x6E]%Z
  else if (c =? 12)%Z then [0x5C; 0x66]%Z
  else if (c =? 13)%Z then [0x5C; 0x72]%Z
  else if (c =? 0x22)%Z then [0x5C; 0x22]%Z
  else if (c =? 0x5C)%Z then [0x5C; 0x5C]%Z
  else if (c <? 0x20)%Z || ((0xD800 <=? c)%Z && (c <=? 0xDFFF)%Z) then 0x5C%Z :: 0x75%Z :: hex4 c
  else utf16_encode_cp c.

Definition quote (s : jstr) : jstr := 0x22%Z :: concat (map quote_cp (cps_of_utf16 s)) ++ [0x22%Z].

(** [parts.join(sep)], the join of SerializeJSONArray and SerializeJSONObject. *)
Fixpoint ser_join (sep : jstr) (parts : list jstr) : jstr :=
  match parts with
  | [] => []
  | [x] => x
  | x :: parts' => x ++ sep ++ ser_join sep parts'
  end.

(** [SerializeJSONProperty] with gap ["  "]: [ind] is the current indent. *)
Fixpoint ser (ind : jstr) (v : json) : jstr :=
  match v with
  | JNull => lit "null"
  | JBool b => if b then lit "true" else lit "false"
  | JNum m e => num_to_string m e
  | JNegZero => [0x30%Z]
  | JStr s => quote s
  | JArr vs =>
      match vs with
      | [] => lit "[]"
      | _ => let ind' := ind ++ lit "  " in
             [0x5B; 10]%Z ++ ind' ++ ser_join ([0x2C; 10]%Z ++ ind') (map (ser ind') vs)
               ++ [10%Z] ++ ind ++ [0x5D%Z]
      end
  | JObj ps =>
      match ps with
      | [] => lit "{}"
      | _ => let ind' := ind ++ lit "  " in
             [0x7B; 10]%Z ++ ind'
               ++ ser_join ([0x2C; 10]%Z ++ ind')
                       (map (fun kv => quote kv.1 ++ [0x3A; 0x20]%Z ++ ser ind' kv.2) ps)
               ++ [10%Z] ++ ind ++ [0x7D%Z]
      end
  end.

(** [JSON.stringify(value, null, 2)]. *)
Definition stringify (v : json) : jstr := ser [] v.

(** ** Well-formed values *)

(** The keys of an object in enumeration order: distinct, the index keys
    first and ascending. *)
Fixpoint keys_order (prev : option Z) (named : bool) (ks : list jstr) : bool :=
  match ks with
  | [] => true
  | k :: ks' =>
      match array_index k with
      | Some i => negb named && match prev with Some j => (j <=? i)%Z | None => true end
                  && keys_order (Some i) false ks'
      | None => keys_order prev true ks'
      end
  end.

Definition keys_canon (ks : list jstr) : bool := bool_decide (NoDup ks) && keys_order None false ks.

Definition num_ok (m e : Z) : bool := if (m =? 0)%Z then (e =? 0)%Z else negb (m mod 10 =? 0)%Z.

(** What [JSON.parse] can return: normalised numbers, strings of code
    units, objects with their keys in enumeration order. *)
Fixpoint json_wf (v : json) : bool :=
  match v with
  | JNull | JBool _ | JNegZero => true
  | JNum m e => num_ok m e
  | JStr s => forallb unit_ok s
  | JArr vs => forallb json_wf vs
  | JObj ps => keys_canon (map fst ps) && forallb (fun kv => forallb unit_ok kv.1 && json_wf kv.2) ps
  end.

(** The numbers a double holds as the same decimal: zero, or at most
    15 significant digits with a magnitude in the normal range of doubles
    ([10^-307 <= |m * 10^e| < 10^308]). *)
Definition num_safe (m e : Z) : bool :=
  (m =? 0)%Z ||
  ((Z.abs m <? 10 ^ 15)%Z &&
   (if (0 <=? e)%Z then (Z.abs m * 10 ^ e <? 10 ^ 308)%Z else true) &&
   (if (-307 <=? e)%Z then true else (10 ^ (- e - 307) <=? Z.abs m)%Z)).

(** The values [JSON.stringify] then [JSON.parse] give back in Node: no
    -0 (printed "0", read back as 0) and only safe numbers. *)
Fixpoint json_safe (v : json) : bool :=
  match v with
  | JNull | JBool _ | JStr _ => true
  | JNum m e => num_safe m e
  | JNegZero => false
  | JArr vs => forallb json_safe vs
  | JObj ps => forallb (fun kv => json_safe kv.2) ps
  end.

(** ** Notions the proofs below use *)

Definition ws_free (s : jstr) : bool :=
  match s with u :: _ => negb (is_ws u) | [] => true end.

(** A digit list followed by something that is not a digit. *)
Definition digit_free (s : jstr) : bool :=
  match s with u :: _ => negb (is_digit u) | [] => true end.

(** The digits [digits_go] produces, when the fuel covers them. *)
Definition digits_of (n : Z) (ds : jstr) : Prop :=
  ds <> [] /\ forallb is_digit ds = true /\ dvalue ds = n /\
  ((0 < n)%Z -> hd 0%Z ds <> 0x30%Z).

Definition last_nz (q : jstr) : bool :=
  match rev q with d :: _ => negb (d =? 0x30)%Z | [] => false end.

(** The parts of a JSON number as the printer writes them. *)
Definition int_ok (di : jstr) : bool :=
  forallb is_digit di && match di with [] => false | [_] => true | u :: _ => negb (u =? 0x30)%Z end.

Definition frac_part (df : jstr) : jstr := match df with [] => [] | _ => 0x2E%Z :: df end.

Definition exp_part (x : option Z) : jstr :=
  match x with
  | None => []
  | Some x => [0x65%Z; if (x <? 0)%Z then 0x2D%Z else 0x2B%Z] ++ dec (Z.abs x)
  end.

(** What may follow a number: not a digit, a point or an exponent. *)
Definition num_stop (rest : jstr) : bool :=
  match rest with
  | u :: _ => negb (is_digit u || (u =? 0x2E)%Z || (u =? 0x65)%Z || (u =? 0x45)%Z)
  | [] => true
  end.

(** The printed forms of [Number::toString] are numbers of the grammar
    whose digits are those of [a], then zeros. *)
Definition num_form (a e : Z) (out : jstr) : Prop :=
  exists di df x q z,
    out = di ++ frac_part df ++ exp_part x /\ int_ok di = true /\
    forallb is_digit df = true /\ di ++ df = q ++ zeros z /\ last_nz q = true /\
    dvalue q = a /\ (default 0%Z x - Z.of_nat (length df) + Z.of_nat (Z.to_nat z))%Z = e.

Definition step (acc : list (jstr * json)) (kv : jstr * json) := obj_set acc kv.1 kv.2.

(** The quote character, for the examples. *)
Definition quote_mark : jstr := [0x22%Z].

Example stringify_ex :
  stringify (JObj [(lit "a", JArr [JNum 15 (-1); JStr (lit "x" ++ quote_mark ++ [10%Z])]); (lit "b", JObj [])])
  = lit "{" ++ [10%Z] ++ lit "  " ++ quote_mark ++ lit "a" ++ quote_mark ++ lit ": [" ++ [10%Z] ++ lit "    1.5," ++ [10%Z]
      ++ lit "    " ++ quote_mark ++ lit "x\" ++ quote_mark ++ lit "\n" ++ quote_mark ++ [10%Z] ++ lit "  ]," ++ [10%Z]
      ++ lit "  " ++ quote_mark ++ lit "b" ++ quote_mark ++ lit ": {}" ++ [10%Z] ++ lit "}".
Proof. vm_compute. reflexivity. Qed.

(** ** Lemmas on the lexical parts *)

Lemma skip_ws_free s : ws_free s = true -> skip_ws s = s.
Proof. destruct s as [|u s]; simpl; [done|]. by destruct (is_ws u). Qed.

Lemma skip_ws_app w s : forallb is_ws w = true -> skip_ws (w ++ s) = skip_ws s.
Proof.
  induction w as [|u w IH]; simpl; [done|]. intros [-> Hw]%andb_prop. by apply IH.
Qed.

Lemma skip_ws_length s : (length (skip_ws s) <= length s)%nat.
Proof. induction s as [|u s IH]; simpl; [lia|]. destruct (is_ws u); simpl; lia. Qed.

Lemma take_lit_app l s : take_lit l (l ++ s) = Some s.
Proof. induction l as [|c l IH]; simpl; [done|]. by rewrite Z.eqb_refl. Qed.

Lemma span_digits_app ds s :
  forallb is_digit ds = true -> digit_free s = true -> span_digits (ds ++ s) = (ds, s).
Proof.
  intros Hd Hs. induction ds as [|u ds IH]; simpl in *.
  - destruct s as [|u s]; simpl in *; [done|]. by destruct (is_digit u).
  - apply andb_prop in Hd as [-> Hd]. by rewrite IH.
Qed.

Lemma fold_dvalue ds acc :
  fold_left (fun acc d => acc * 10 + (d - 0x30))%Z ds acc = (acc * 10 ^ Z.of_nat (length ds) + dvalue ds)%Z.
Proof.
  unfold dvalue. revert acc. induction ds as [|d ds IH]; intros acc; cbn [fold_left length]; [lia|].
  rewrite (IH (acc * 10 + (d - 0x30))%Z), (IH (0 * 10 + (d - 0x30))%Z), Nat2Z.inj_succ, Z.pow_succ_r by lia.
  lia.
Qed.

Lemma dvalue_app a b : dvalue (a ++ b) = (dvalue a * 10 ^ Z.of_nat (length b) + dvalue b)%Z.
Proof. unfold dvalue at 1. by rewrite fold_left_app, fold_dvalue. Qed.

Lemma dvalue_cons d ds : dvalue (d :: ds) = ((d - 0x30) * 10 ^ Z.of_nat (length ds) + dvalue ds)%Z.
Proof. change (d :: ds) with ([d] ++ ds). rewrite dvalue_app. unfold dvalue at 1. simpl. lia. Qed.

Lemma dvalue_zeros k : dvalue (zeros k) = 0%Z.
Proof.
  unfold zeros. induction (Z.to_nat k) as [|n IH]; [done|].
  cbn [repeat]. rewrite dvalue_cons, IH. lia.
Qed.

Lemma dvalue_zeros_l k ds : dvalue (zeros k ++ ds) = dvalue ds.
Proof. rewrite dvalue_app, dvalue_zeros. lia. Qed.

Lemma zeros_digits k : forallb is_digit (zeros k) = true.
Proof. unfold zeros. induction (Z.to_nat k); simpl; auto. Qed.

Lemma zeros_length k : (0 <= k)%Z -> Z.of_nat (length (zeros k)) = k.
Proof. intros. unfold zeros. rewrite repeat_length. lia. Qed.

#[export] Hint Resolve take_lit_app zeros_digits : kc.

Lemma digits_of_small n : (0 <= n < 10)%Z -> digits_of n [(0x30 + n)%Z].
Proof.
  intros Hn. unfold digits_of, is_digit. simpl. split_and!; [done| |unfold dvalue; simpl; lia|lia].
  rewrite andb_true_r. apply andb_true_iff; split; apply Z.leb_le; lia.
Qed.

Lemma digits_go_S f n acc :
  digits_go (S f) n acc =
  if (n <? 10)%Z then (0x30 + n)%Z :: acc else digits_go f (n / 10) ((0x30 + n mod 10)%Z :: acc).
Proof. done. Qed.

Lemma digits_go_spec f n acc :
  (0 <= n < 10 ^ Z.of_nat (S f))%Z ->
  exists ds, digits_go (S f) n acc = ds ++ acc /\ digits_of n ds.
Proof.
  revert n acc. induction f as [|f IH]; intros n acc Hn; rewrite digits_go_S;
    destruct (Z.ltb_spec n 10); try (exists [(0x30 + n)%Z]; split; [reflexivity|apply digits_of_small; lia]).
  - simpl in Hn. lia.
  - rewrite Nat2Z.inj_succ, Z.pow_succ_r in Hn by lia.
    destruct (IH (n / 10)%Z ((0x30 + n mod 10)%Z :: acc)) as (ds & Hds & Hne & Hd & Hv & Hh);
      [split; [apply Z.div_pos | apply Z.div_lt_upper_bound]; lia|].
    rewrite Hds. exists (ds ++ [(0x30 + n mod 10)%Z]). rewrite <- app_assoc. split; [done|].
    assert (0 <= n mod 10 < 10)%Z by (apply Z.mod_pos_bound; lia).
    destruct (digits_of_small (n mod 10)) as (_ & Hd1 & Hv1 & _); [done|].
    unfold digits_of. split_and!.
    + by destruct ds.
    + by rewrite forallb_app, Hd, Hd1.
    + rewrite dvalue_app, Hv, Hv1. simpl. lia_div.
    + intros _. destruct ds as [|d ds]; [done|]. apply Hh.
      apply Z.div_str_pos. lia.
Qed.

Lemma dec_spec n : (0 <= n)%Z -> digits_of n (dec n).
Proof.
  intros Hn. unfold dec.
  destruct (digits_go_spec (Z.to_nat (Z.log2 n)) n []) as (ds & -> & H); [|by rewrite app_nil_r].
  split; [done|]. destruct (Z.eq_dec n 0%Z) as [->|]; [simpl; lia|].
  pose proof (Z.log2_spec n ltac:(lia)) as [_ Hlt]. pose proof (Z.log2_nonneg n).
  eapply Z.lt_le_trans; [exact Hlt|].
  rewrite Nat2Z.inj_succ, Z2Nat.id, <- Z.add_1_r by lia.
  apply Z.pow_le_mono_l. lia.
Qed.

(** ** Numbers read back *)

Lemma drop_zeros_nz r : last_nz (rev r) = true -> drop_zeros r = (r, O).
Proof.
  unfold last_nz. rewrite rev_involutive. destruct r as [|d r]; simpl; [done|].
  by destruct (d =? 0x30)%Z.
Qed.

Lemma drop_zeros_repeat k r : drop_zeros (repeat 0x30%Z k ++ r) = ((drop_zeros r).1, (k + (drop_zeros r).2)%nat).
Proof.
  induction k as [|k IH]; simpl; [by destruct (drop_zeros r)|].
  rewrite IH. done.
Qed.

Lemma strip_zeros_spec q z :
  last_nz q = true -> strip_zeros (q ++ zeros z) = (q, Z.to_nat z).
Proof.
  intros Hq. unfold strip_zeros, zeros.
  rewrite rev_app_distr, rev_repeat, drop_zeros_repeat, drop_zeros_nz
    by (by rewrite rev_involutive).
  simpl. by rewrite rev_involutive, Nat.add_0_r.
Qed.

Lemma mk_num_spec (neg : bool) q z x :
  last_nz q = true -> dvalue q <> 0%Z ->
  mk_num neg (q ++ zeros z) x = JNum (if neg then - dvalue q else dvalue q)%Z (x + Z.of_nat (Z.to_nat z))%Z.
Proof.
  intros Hq Hv. unfold mk_num. rewrite strip_zeros_spec by done.
  by rewrite (proj2 (Z.eqb_neq _ _) Hv).
Qed.

Lemma dec_last a : (0 < a)%Z -> (a mod 10 <> 0)%Z -> last_nz (dec a) = true.
Proof.
  intros Ha Hm. destruct (dec_spec a ltac:(lia)) as (Hne & Hd & Hv & _).
  destruct (exists_last Hne) as (D & d & HD). rewrite HD in Hd, Hv |- *.
  unfold last_nz. rewrite rev_app_distr. simpl.
  rewrite forallb_app in Hd. simpl in Hd. rewrite andb_true_r in Hd.
  apply andb_prop in Hd as [_ Hd]. unfold is_digit in Hd.
  apply andb_prop in Hd as [H1 H2]. apply Z.leb_le in H1, H2.
  rewrite dvalue_app in Hv. simpl in Hv. unfold dvalue in Hv. simpl in Hv.
  apply negb_true_iff, Z.eqb_neq. intros ->. apply Hm. rewrite <- Hv. lia_div.
Qed.

Lemma num_stop_digit_free rest : num_stop rest = true -> digit_free rest = true.
Proof. destruct rest as [|u r]; simpl; [done|]. by destruct (is_digit u). Qed.

Lemma parse_exp_app x rest :
  num_stop rest = true -> parse_exp (exp_part x ++ rest) = Some (default 0%Z x, rest).
Proof.
  intros Hr. destruct x as [x|]; simpl.
  - destruct (dec_spec (Z.abs x) ltac:(lia)) as (Hne & Hd & Hv & _).
    destruct (Z.ltb_spec x 0); simpl;
      rewrite span_digits_app by auto using num_stop_digit_free;
      destruct (dec (Z.abs x)); try done; rewrite <- ?Hv; f_equal; f_equal; lia.
  - destruct rest as [|u r]; simpl in *; [done|].
    destruct (u =? 0x65)%Z, (u =? 0x45)%Z; simpl in *; try done; by rewrite orb_true_r in Hr.
Qed.

Lemma exp_part_free x rest :
  num_stop rest = true ->
  digit_free (exp_part x ++ rest) = true /\ hd 0%Z (exp_part x ++ rest) <> 0x2E%Z.
Proof.
  intros Hr. destruct x; simpl; [done|].
  destruct rest as [|u r]; simpl in *; [done|]. split; [by destruct (is_digit u)|].
  intros ->. done.
Qed.

Lemma parse_frac_app df t :
  forallb is_digit df = true -> digit_free t = true -> hd 0%Z t <> 0x2E%Z ->
  parse_frac (frac_part df ++ t) = Some (df, t).
Proof.
  intros Hd Ht Hh. destruct df as [|d df].
  - destruct t as [|u t]; simpl in *; [done|]. by rewrite (proj2 (Z.eqb_neq _ _) Hh).
  - cbn [frac_part app parse_frac]. rewrite Z.eqb_refl.
    change (d :: df ++ t) with ((d :: df) ++ t). by rewrite span_digits_app.
Qed.

Lemma parse_int_app di t :
  int_ok di = true -> digit_free t = true -> parse_int (di ++ t) = Some (di, t).
Proof.
  intros Hi Ht. unfold int_ok in Hi. apply andb_prop in Hi as [Hd Hz].
  destruct di as [|u [|u' di]]; [done| |].
  - simpl in Hd. rewrite andb_true_r in Hd. cbn [parse_int app].
    destruct (Z.eqb_spec u 0x30); [by subst|]. rewrite Hd.
    change (u :: t) with ([u] ++ t). rewrite span_digits_app; [done| |done]. simpl. by rewrite Hd.
  - apply negb_true_iff in Hz. cbn [parse_int app]. rewrite Hz.
    simpl in Hd. apply andb_prop in Hd as [Hu Hd']. rewrite Hu.
    change (u :: u' :: di ++ t) with ((u :: u' :: di) ++ t).
    rewrite span_digits_app; [done| |done]. simpl. by rewrite Hu.
Qed.

Lemma frac_part_free df t : df <> [] -> digit_free (frac_part df ++ t) = true.
Proof. by destruct df. Qed.

Lemma parse_number_app (neg : bool) di df x rest :
  int_ok di = true -> forallb is_digit df = true -> num_stop rest = true ->
  parse_number ((if neg then [0x2D%Z] else []) ++ di ++ frac_part df ++ exp_part x ++ rest)
  = Some (mk_num neg (di ++ df) (default 0%Z x - Z.of_nat (length df))%Z, rest).
Proof.
  intros Hi Hf Hr. destruct (exp_part_free x rest Hr) as [He1 He2].
  assert (Hs : parse_sign ((if neg then [0x2D%Z] else []) ++ di ++ frac_part df ++ exp_part x ++ rest)
               = (neg, di ++ frac_part df ++ exp_part x ++ rest)).
  { destruct neg; [done|]. destruct di as [|u di]; [done|]. simpl.
    unfold int_ok in Hi. simpl in Hi. apply andb_prop in Hi as [Hi _].
    apply andb_prop in Hi as [Hu _]. unfold is_digit in Hu.
    apply andb_prop in Hu as [Hu _]. apply Z.leb_le in Hu.
    by rewrite (proj2 (Z.eqb_neq u 0x2D)) by lia. }
  unfold parse_number. rewrite Hs.
  rewrite parse_int_app; [|done|destruct df; [exact He1|by apply frac_part_free]].
  rewrite parse_frac_app by done. by rewrite parse_exp_app.
Qed.

Lemma forallb_firstn {A} (f : A -> bool) n l : forallb f l = true -> forallb f (firstn n l) = true.
Proof. rewrite <- (firstn_skipn n l) at 1. rewrite forallb_app. by intros [-> _]%andb_prop. Qed.

Lemma forallb_skipn {A} (f : A -> bool) n l : forallb f l = true -> forallb f (skipn n l) = true.
Proof. rewrite <- (firstn_skipn n l) at 1. rewrite forallb_app. by intros [_ ->]%andb_prop. Qed.

Lemma last_nz_app q r : r <> [] -> last_nz (q ++ r) = last_nz r.
Proof.
  intros Hr. unfold last_nz. rewrite rev_app_distr.
  destruct (rev r) eqn:E; [|done]. apply (f_equal (@rev _)) in E.
  rewrite rev_involutive in E. by subst.
Qed.

Section NumForms.
Variable a e : Z.
Hypothesis Ha : (0 < a)%Z.
Hypothesis Hm : (a mod 10 <> 0)%Z.

Let D := dec a.
Let k := Z.of_nat (length D).

Lemma dec_facts :
  D <> [] /\ forallb is_digit D = true /\ dvalue D = a /\ last_nz D = true /\ int_ok D = true.
Proof.
  destruct (dec_spec a ltac:(lia)) as (Hne & Hd & Hv & Hh). specialize (Hh Ha).
  split_and!; try done; [by apply dec_last|].
  unfold int_ok. fold D in Hd, Hh, Hne |- *. rewrite Hd.
  destruct D as [|u [|u' D']]; [done|done|]. simpl in Hh. by apply negb_true_iff, Z.eqb_neq.
Qed.

Lemma num_form_int : (k <= e + k)%Z -> num_form a e (D ++ zeros (e + k - k)).
Proof.
  intros Hn. destruct dec_facts as (Hne & Hd & Hv & Hl & Hi).
  exists (D ++ zeros (e + k - k)), [], None, D, (e + k - k)%Z.
  rewrite !app_nil_r. split_and!; try done; [|simpl; lia].
  unfold int_ok in *. rewrite forallb_app, zeros_digits.
  apply andb_prop in Hi as [-> Hi]. destruct D as [|u [|u' D']]; try done; simpl.
  destruct (zeros _); done.
Qed.

Lemma num_form_point :
  (0 < e + k)%Z -> (e + k < k)%Z ->
  num_form a e (firstn (Z.to_nat (e + k)) D ++ [0x2E%Z] ++ skipn (Z.to_nat (e + k)) D).
Proof.
  intros H1 H2. destruct dec_facts as (Hne & Hd & Hv & Hl & Hi).
  assert (Hs : skipn (Z.to_nat (e + k)) D <> []).
  { intros E. apply (f_equal length) in E. rewrite length_skipn in E. simpl in E.
    subst k. lia. }
  exists (firstn (Z.to_nat (e + k)) D), (skipn (Z.to_nat (e + k)) D), None, D, 0%Z.
  split_and!.
  - cbn [exp_part]. rewrite app_nil_r. destruct (drop _ D); [congruence|done].
  - unfold int_ok in *. apply andb_prop in Hi as [Hd' Hh]. rewrite forallb_firstn by done.
    destruct D as [|u D']; [done|]. destruct (Z.to_nat (e + k)) as [|n] eqn:En; [lia|].
    simpl. destruct n, D'; simpl in *; auto.
  - by apply forallb_skipn.
  - by rewrite firstn_skipn, app_nil_r.
  - done.
  - done.
  - rewrite length_skipn. simpl. subst k. lia.
Qed.

Lemma num_form_small :
  (e + k <= 0)%Z -> num_form a e ([0x30; 0x2E]%Z ++ zeros (- (e + k)) ++ D).
Proof.
  intros Hn. destruct dec_facts as (Hne & Hd & Hv & Hl & Hi).
  exists [0x30%Z], (zeros (- (e + k)) ++ D), None, (0x30%Z :: zeros (- (e + k)) ++ D), 0%Z.
  assert (Hz : zeros (- (e + k)) ++ D <> []) by (intros E; apply app_eq_nil in E as [_ E]; done).
  split_and!.
  - cbn [exp_part]. rewrite app_nil_r. simpl. by destruct (zeros _ ++ D).
  - done.
  - by rewrite forallb_app, zeros_digits.
  - by rewrite app_nil_r.
  - change (0x30%Z :: zeros (- (e + k)) ++ D) with (([0x30%Z] ++ zeros (- (e + k))) ++ D).
    by rewrite last_nz_app.
  - by rewrite dvalue_cons, dvalue_zeros_l, Hv, Z.sub_diag.
  - rewrite length_app, Nat2Z.inj_add, zeros_length by lia. simpl. subst k. lia.
Qed.

Lemma exp_part_some x : [0x65%Z; if (x <? 0)%Z then 0x2D%Z else 0x2B%Z] ++ dec (Z.abs x) = exp_part (Some x).
Proof. done. Qed.

Lemma num_form_exp :
  let es := [0x65%Z; if (e + k - 1 <? 0)%Z then 0x2D%Z else 0x2B%Z] ++ dec (Z.abs (e + k - 1)) in
  num_form a e (match D with [d] => [d] ++ es | d :: D' => [d; 0x2E%Z] ++ D' ++ es | [] => es end).
Proof.
  intros es. destruct dec_facts as (Hne & Hd & Hv & Hl & Hi). unfold es. rewrite exp_part_some.
  subst k. destruct D as [|d [|d' D']] eqn:ED; [done| |].
  - exists [d], [], (Some (e + 1 - 1)%Z), [d], 0%Z. simpl. split_and!; try done; lia.
  - exists [d], (d' :: D'), (Some (e + Z.of_nat (length (d :: d' :: D')) - 1)%Z), (d :: d' :: D'), 0%Z.
    simpl in Hd |- *. apply andb_prop in Hd as [Hd1 Hd2].
    split_and!; try done; [unfold int_ok; simpl; by rewrite Hd1|simpl; by rewrite app_nil_r|lia].
Qed.

End NumForms.

Lemma num_abs_form a e : (0 < a)%Z -> (a mod 10 <> 0)%Z -> num_form a e (num_abs a e).
Proof.
  intros Ha Hm. unfold num_abs. set (k := Z.of_nat (length (dec a))).
  destruct ((k <=? e + k)%Z && (e + k <=? 21)%Z) eqn:E1.
  { apply andb_prop in E1 as [E1 _]. apply Z.leb_le in E1. by apply num_form_int. }
  destruct ((0 <? e + k)%Z && (e + k <=? 21)%Z) eqn:E2.
  { apply andb_prop in E2 as [E2 E3]. apply Z.ltb_lt in E2. apply Z.leb_le in E3.
    apply andb_false_iff in E1 as [E1|E1]; [apply Z.leb_gt in E1|apply Z.leb_gt in E1; lia].
    by apply num_form_point. }
  destruct ((-6 <? e + k)%Z && (e + k <=? 0)%Z) eqn:E4.
  { apply andb_prop in E4 as [_ E4]. apply Z.leb_le in E4. by apply num_form_small. }
  by apply num_form_exp.
Qed.

(** [Number::toString] is read back by the JSON number grammar. *)
Lemma parse_number_to_string m e rest :
  num_ok m e = true -> num_stop rest = true ->
  parse_number (num_to_string m e ++ rest) = Some (JNum m e, rest).
Proof.
  intros Hok Hr. unfold num_ok, num_to_string in *.
  destruct (Z.eqb_spec m 0) as [->|Hm0].
  - apply Z.eqb_eq in Hok as ->.
    pose proof (parse_number_app false [0x30%Z] [] None rest eq_refl eq_refl Hr) as H.
    exact H.
  - apply negb_true_iff, Z.eqb_neq in Hok.
    assert (Ha : (0 < Z.abs m)%Z) by lia.
    assert (Hm : (Z.abs m mod 10 <> 0)%Z).
    { intros E. apply Hok. destruct (Z.abs_spec m) as [[_ Em]|[_ Em]]; rewrite Em in E; [done|].
      rewrite <- (Z.opp_involutive m). apply Z.mod_opp_l_z; lia. }
    destruct (num_abs_form _ e Ha Hm) as (di & df & x & q & z & Hf & Hi & Hd & Hq & Hl & Hv & He).
    destruct (Z.ltb_spec m 0).
    + rewrite Zabs_non_eq in Hf, Hv by lia. rewrite Hf. cbn [app]. rewrite <- !app_assoc.
      etransitivity; [exact (parse_number_app true di df x rest Hi Hd Hr)|].
      rewrite Hq, mk_num_spec, Hv by (done || lia). do 3 f_equal; lia.
    + rewrite Z.abs_eq in Hf, Hv by lia. rewrite Hf, <- !app_assoc.
      etransitivity; [exact (parse_number_app false di df x rest Hi Hd Hr)|].
      rewrite Hq, mk_num_spec, Hv by (done || lia). do 3 f_equal; lia.
Qed.

(** ** Strings read back *)

Lemma hex_val_digit d : (0 <= d < 16)%Z -> hex_val (hex_digit d) = Some d.
Proof.
  intros Hd. unfold hex_val, hex_digit, is_digit.
  destruct (Z.ltb_spec d 10); zcases; f_equal; lia.
Qed.

Lemma hex4_value c : (0 <= c < 0x10000)%Z ->
  ((((c / 4096) * 16 + (c / 256) mod 16) * 16 + (c / 16) mod 16) * 16 + c mod 16 = c)%Z.
Proof. intros. lia_div. Qed.

Lemma parse_chars_unit u t :
  (0x20 <= u)%Z -> u <> 0x22%Z -> u <> 0x5C%Z ->
  parse_chars (u :: t) = option_map (fun rt => (u :: rt.1, rt.2)) (parse_chars t).
Proof.
  intros H1 H2 H3. simpl. rewrite (proj2 (Z.eqb_neq _ _) H2), (proj2 (Z.eqb_neq _ _) H3).
  rewrite (proj2 (Z.ltb_ge _ _) H1). by destruct (parse_chars t) as [[r t']|].
Qed.

Lemma parse_chars_escape e c t :
  simple_escape e = Some c ->
  parse_chars (0x5C%Z :: e :: t) = option_map (fun rt => (c :: rt.1, rt.2)) (parse_chars t).
Proof. intros He. simpl. rewrite He. by destruct (parse_chars t) as [[r t']|]. Qed.

Lemma parse_chars_hex c t :
  (0 <= c < 0x10000)%Z ->
  parse_chars (0x5C%Z :: 0x75%Z :: hex4 c ++ t) = option_map (fun rt => (c :: rt.1, rt.2)) (parse_chars t).
Proof.
  intros Hc. unfold hex4. simpl.
  rewrite !hex_val_digit by (split; [apply Z.div_pos || apply Z.mod_pos_bound | apply Z.div_lt_upper_bound || apply Z.mod_pos_bound]; lia).
  rewrite hex4_value by done. by destruct (parse_chars t) as [[r t']|].
Qed.

(** One code point of [QuoteJSONString] reads back as its code units. *)
Lemma parse_chars_quote_cp c t :
  (0 <= c <= 0x10FFFF)%Z ->
  parse_chars (quote_cp c ++ t) = option_map (fun rt => (utf16_encode_cp c ++ rt.1, rt.2)) (parse_chars t).
Proof.
  intros Hc. unfold quote_cp.
  destruct (Z.eqb_spec c 8); [subst; by apply parse_chars_escape|].
  destruct (Z.eqb_spec c 9); [subst; by apply parse_chars_escape|].
  destruct (Z.eqb_spec c 10); [subst; by apply parse_chars_escape|].
  destruct (Z.eqb_spec c 12); [subst; by apply parse_chars_escape|].
  destruct (Z.eqb_spec c 13); [subst; by apply parse_chars_escape|].
  destruct (Z.eqb_spec c 0x22); [subst; by apply parse_chars_escape|].
  destruct (Z.eqb_spec c 0x5C); [subst; by apply parse_chars_escape|].
  destruct ((c <? 0x20)%Z || ((0xD800 <=? c)%Z && (c <=? 0xDFFF)%Z)) eqn:Eu.
  - assert (c < 0xE000)%Z by (apply orb_true_iff in Eu as [E|E]; [apply Z.ltb_lt in E|
      apply andb_prop in E as [_ E]; apply Z.leb_le in E]; lia).
    rewrite utf16_encode_cp_bmp by lia. cbn [app]. rewrite parse_chars_hex by lia. done.
  - apply orb_false_iff in Eu as [E1 E2]. apply Z.ltb_ge in E1.
    unfold utf16_encode_cp. destruct (Z.ltb_spec c 0x10000).
    + simpl app. by apply parse_chars_unit.
    + simpl app.
      assert (0 <= (c - 0x10000) / 0x400)%Z by (apply Z.div_pos; lia).
      assert (0 <= (c - 0x10000) mod 0x400)%Z by (apply Z.mod_pos_bound; lia).
      rewrite parse_chars_unit by lia. rewrite parse_chars_unit by lia.
      by destruct (parse_chars t) as [[r t']|].
Qed.

Lemma parse_chars_quote_cps cps rest :
  Forall (fun c => 0 <= c <= 0x10FFFF)%Z cps ->
  parse_chars (concat (map quote_cp cps) ++ 0x22%Z :: rest) = Some (utf16_of_cps cps, rest).
Proof.
  induction 1 as [|c cps Hc _ IH]; [done|].
  simpl. rewrite <- app_assoc, parse_chars_quote_cp, IH by done. done.
Qed.

(** [JSON.parse] reads back the quoted form of a string of code units. *)
Lemma parse_chars_quote s rest :
  forallb unit_ok s = true -> parse_chars (tail (quote s) ++ rest) = Some (s, rest).
Proof.
  intros Hs. unfold quote. simpl. rewrite <- app_assoc. simpl.
  rewrite parse_chars_quote_cps by (by apply cps_of_utf16_range).
  by rewrite utf16_of_cps_of_utf16.
Qed.

(** ** Objects in enumeration order *)

Lemma key_in_spec k ps : key_in k ps = true <-> k ∈ map fst ps.
Proof.
  unfold key_in. rewrite existsb_exists. split.
  - intros (kv & Hin & Hk). apply bool_decide_eq_true_1 in Hk. subst.
    apply list_elem_of_fmap. exists kv. split; [done|]. by apply list_elem_of_In.
  - intros (kv & -> & Hin)%list_elem_of_fmap. exists kv. split; [by apply list_elem_of_In|].
    by apply bool_decide_eq_true_2.
Qed.

Lemma obj_replace_keys ps k v : map fst (obj_replace ps k v) = map fst ps.
Proof.
  induction ps as [|[k' v'] ps IH]; simpl; [done|]. rewrite IH.
  case_bool_decide; by subst.
Qed.

Lemma obj_replace_elem ps k v kv :
  kv ∈ obj_replace ps k v -> kv ∈ ps \/ kv = (k, v).
Proof.
  unfold obj_replace. intros (kv' & -> & Hin)%list_elem_of_fmap.
  case_bool_decide; auto.
Qed.

Lemma insert_index_elem ps k i v kv :
  kv ∈ insert_index ps k i v -> kv ∈ ps \/ kv = (k, v).
Proof.
  induction ps as [|[k' v'] ps IH]; simpl.
  - intros ->%list_elem_of_singleton. by right.
  - intros Hin. destruct (array_index k') as [j|]; [destruct (j <=? i)%Z|].
    + apply elem_of_cons in Hin as [->|Hin]; [left; by left|].
      destruct (IH Hin); [left; by right|by right].
    + apply elem_of_cons in Hin as [->|Hin]; [by right|by left].
    + apply elem_of_cons in Hin as [->|Hin]; [by right|by left].
Qed.

(** [CreateDataProperty] adds or replaces only the property it is given. *)
Lemma obj_set_elem ps k v kv : kv ∈ obj_set ps k v -> kv ∈ ps \/ kv = (k, v).
Proof.
  unfold obj_set. destruct (key_in k ps); [apply obj_replace_elem|].
  destruct (array_index k); [apply insert_index_elem|].
  intros [Hin | ->%list_elem_of_singleton]%elem_of_app; auto.
Qed.

(** An index key comes after no name and after smaller indices only. *)
Lemma keys_order_later prev named ks1 k ks2 i :
  keys_order prev named (ks1 ++ k :: ks2) = true -> array_index k = Some i ->
  named = false /\ (forall j, prev = Some j -> (j <= i)%Z).
Proof.
  revert prev named. induction ks1 as [|k1 ks1 IH]; intros prev named H Hk; simpl in H.
  - rewrite Hk in H. apply andb_prop in H as [H _]. apply andb_prop in H as [H1 H2].
    apply negb_true_iff in H1. split; [done|]. intros j ->. by apply Z.leb_le.
  - destruct (array_index k1) as [j1|].
    + apply andb_prop in H as [H H3]. apply andb_prop in H as [H1 H2].
      destruct (IH _ _ H3 Hk) as [_ Hj]. specialize (Hj j1 eq_refl).
      apply negb_true_iff in H1. split; [done|]. intros j ->. apply Z.leb_le in H2. lia.
    + by destruct (IH _ _ H Hk).
Qed.

Lemma keys_order_before prev named ks1 k ks2 i :
  keys_order prev named (ks1 ++ k :: ks2) = true -> array_index k = Some i ->
  Forall (fun k' => exists j, array_index k' = Some j /\ (j <= i)%Z) ks1.
Proof.
  revert prev named. induction ks1 as [|k1 ks1 IH]; intros prev named H Hk; [constructor|].
  simpl in H. destruct (array_index k1) as [j1|] eqn:Ej.
  - apply andb_prop in H as [_ H]. constructor; [|by eapply IH].
    exists j1. split; [done|]. by apply (keys_order_later _ _ _ _ _ _ H Hk).
  - by destruct (keys_order_later _ _ _ _ _ _ H Hk).
Qed.

Lemma insert_index_last ps k i v :
  Forall (fun k' => exists j, array_index k' = Some j /\ (j <= i)%Z) (map fst ps) ->
  insert_index ps k i v = ps ++ [(k, v)].
Proof.
  induction ps as [|[k' v'] ps IH]; intros H; [done|]. simpl in H |- *.
  apply Forall_cons in H as [(j & -> & Hj) H]. rewrite (proj2 (Z.leb_le _ _) Hj).
  by rewrite IH.
Qed.

(** Creating the properties of an object in enumeration order, one after
    the other, builds that object. *)
Lemma fold_obj_set pre post :
  keys_canon (map fst (pre ++ post)) = true -> fold_left step post pre = pre ++ post.
Proof.
  revert pre. induction post as [|[k v] post IH]; intros pre H; simpl; [by rewrite app_nil_r|].
  pose proof H as Hc. unfold keys_canon in H. apply andb_prop in H as [Hnd Ho]. apply bool_decide_eq_true_1 in Hnd.
  rewrite map_app in Hnd, Ho. simpl in Hnd, Ho.
  assert (Hs : step pre (k, v) = pre ++ [(k, v)]).
  { unfold step, obj_set. simpl.
    assert (key_in k pre = false) as ->.
    { apply not_true_iff_false. rewrite key_in_spec. intros Hin.
      apply NoDup_app in Hnd as (_ & Hd & _). by apply (Hd k); [|left]. }
    destruct (array_index k) as [i|] eqn:Ei; [|done].
    apply insert_index_last. by eapply keys_order_before. }
  rewrite Hs, IH; [by rewrite <- app_assoc|]. by rewrite <- app_assoc.
Qed.

Lemma keys_order_named p q ks : keys_order p true ks = keys_order q true ks.
Proof.
  revert p q. induction ks as [|k ks IH]; intros p q; simpl; [done|].
  destruct (array_index k); [done|]. apply IH.
Qed.

Lemma keys_order_snoc p named ks k :
  keys_order p named ks = true -> array_index k = None -> keys_order p named (ks ++ [k]) = true.
Proof.
  revert p named. induction ks as [|k' ks IH]; intros p named H Hk; simpl in *.
  - by rewrite Hk.
  - destruct (array_index k'); [|by apply IH].
    apply andb_prop in H as [H1 H2]. rewrite H1. by apply IH.
Qed.

Lemma keys_order_insert prev ps k i v :
  keys_order prev false (map fst ps) = true -> (forall j, prev = Some j -> (j <= i)%Z) ->
  array_index k = Some i -> keys_order prev false (map fst (insert_index ps k i v)) = true.
Proof.
  revert prev. induction ps as [|[k' v'] ps IH]; intros prev H Hp Hk; simpl in *.
  - rewrite Hk. destruct prev as [j|]; [|done]. by rewrite (proj2 (Z.leb_le _ _) (Hp j eq_refl)).
  - assert (Hpi : match prev with Some j => (j <=? i)%Z | None => true end = true)
      by (destruct prev as [j|]; [apply Z.leb_le, Hp|]; done).
    destruct (array_index k') as [j|] eqn:Ej.
    + apply andb_prop in H as [H1 H2]. destruct (Z.leb_spec j i).
      * simpl. rewrite Ej, H1. apply IH; [done| |done]. intros j' [= <-]. done.
      * simpl. rewrite Hk, Hpi, Ej. simpl. rewrite (proj2 (Z.leb_le i j)) by lia. done.
    + simpl. rewrite Hk, Hpi. simpl. rewrite Ej. by rewrite (keys_order_named _ prev).
Qed.

Lemma insert_index_keys ps k i v : map fst (insert_index ps k i v) ≡ₚ k :: map fst ps.
Proof.
  induction ps as [|[k' v'] ps IH]; simpl; [done|].
  destruct (array_index k') as [j|]; [destruct (j <=? i)%Z|]; simpl; try done.
  rewrite IH. apply Permutation_swap.
Qed.

(** [CreateDataProperty] keeps an object in enumeration order. *)
Lemma obj_set_canon ps k v :
  keys_canon (map fst ps) = true -> keys_canon (map fst (obj_set ps k v)) = true.
Proof.
  unfold keys_canon, obj_set. intros [Hnd Ho]%andb_prop. apply bool_decide_eq_true_1 in Hnd.
  destruct (key_in k ps) eqn:Ek.
  { rewrite obj_replace_keys, Ho. by apply andb_true_iff; split; [apply bool_decide_eq_true_2|]. }
  apply not_true_iff_false in Ek. rewrite key_in_spec in Ek.
  apply andb_true_iff. destruct (array_index k) as [i|] eqn:Ei.
  - split.
    + apply bool_decide_eq_true_2. rewrite insert_index_keys. by constructor.
    + apply keys_order_insert; [done|discriminate|done].
  - split.
    + apply bool_decide_eq_true_2. rewrite map_app. simpl.
      apply NoDup_app. split_and!; [done| |by constructor; [set_solver|constructor]].
      intros x Hx ->%list_elem_of_singleton. contradiction.
    + rewrite map_app. by apply keys_order_snoc.
Qed.

End Json.
