(* ===== verification/JsonParse.v ===== *)
(** The theorems on [JSON.parse] and [JSON.stringify] of [Json]: the
    parser consumes its input, the fuel [json_parse] gives it is always
    enough, more fuel never changes a result, [JSON.parse] reads back
    what [JSON.stringify(v, null, 2)] writes for a value without -0 whose
    numbers a double holds exactly (round trip), and what it returns is
    a well-formed value (invariant). *)

From S2P Require Import Prelude.
From S2P Require Import Utf8 Utf16.
From S2P Require Import Json.

Module JsonParse.
Import Utf8 Utf16 Json.

(** ** Notions the proofs below use *)

(** A strict suffix: what is left after a token. *)
Definition ssuffix (t s : jstr) : Prop := t `suffix_of` s /\ (length t < length s)%nat.

(** A character that starts a number. *)
Definition num_start (u : Z) : bool := is_digit u || (u =? 0x2D)%Z.

Definition ser_start (u : Z) : bool :=
  negb (is_ws u) && negb (u =? 0x5D)%Z && negb (u =? 0x7D)%Z.

(** A value is read back from its printed form, whatever follows it that
    cannot continue a number. *)
Definition reads_back (v : json) : Prop :=
  forall ind rest, forallb is_ws ind = true -> num_stop rest = true ->
  exists n0, forall n, (n0 <= n)%nat -> parse_value n (ser ind v ++ rest) = Parsed v rest.

(** A printed member [key: value]. *)
Definition member (ind' : jstr) (kv : jstr * json) : jstr :=
  quote kv.1 ++ [0x3A; 0x20]%Z ++ ser ind' kv.2.

Definition obj_ok (ps : list (jstr * json)) : bool :=
  keys_canon (map fst ps) && forallb (fun kv => forallb unit_ok kv.1 && json_wf kv.2) ps.

Definition json_ex : json :=
  JObj [(lit "b", JNull);
        (lit "a", JArr [JNum 15 (-1); JStr [0x22; 0x5C; 0xD83D; 0xDE00; 0x0A]%Z; JBool true])].

(** ** The lexical parts consume their input *)

Lemma skip_ws_suffix s : skip_ws s `suffix_of` s.
Proof.
  induction s as [|u s IH]; simpl; [done|].
  destruct (is_ws u); [by apply suffix_cons_r|done].
Qed.

Lemma take_lit_suffix l s t : take_lit l s = Some t -> t `suffix_of` s.
Proof.
  revert s. induction l as [|c l IH]; intros s H; simpl in H; [by injection H as ->|].
  destruct s as [|d s]; [done|]. destruct (c =? d)%Z; [|done].
  apply suffix_cons_r. by apply IH.
Qed.

Lemma span_digits_app_eq s : (span_digits s).1 ++ (span_digits s).2 = s.
Proof.
  induction s as [|u s IH]; simpl; [done|].
  destruct (is_digit u); [|done]. destruct (span_digits s) as [ds r]. simpl in *. by rewrite IH.
Qed.

Lemma span_digits_suffix s : (span_digits s).2 `suffix_of` s.
Proof. rewrite <- (span_digits_app_eq s) at 2. apply suffix_app_r. done. Qed.

Lemma ssuffix_suffix_l t u s : t `suffix_of` u -> ssuffix u s -> ssuffix t s.
Proof.
  intros H1 [H2 H3]. split; [by trans u|]. apply suffix_length in H1. lia.
Qed.

Lemma ssuffix_suffix_r t u s : ssuffix t u -> u `suffix_of` s -> ssuffix t s.
Proof.
  intros [H1 H2] H3. split; [by trans u|]. apply suffix_length in H3. lia.
Qed.

Lemma ssuffix_cons t u s : t `suffix_of` s -> ssuffix t (u :: s).
Proof. intros H. split; [by apply suffix_cons_r|]. apply suffix_length in H. simpl. lia. Qed.

Lemma parse_chars_suffix s r t : parse_chars s = Some (r, t) -> ssuffix t s.
Proof.
  remember (length s) as n eqn:En. assert (Hn : (length s <= n)%nat) by lia. clear En.
  revert s r t Hn. induction n as [|n IH]; intros s r t Hn H; [destruct s; [done|simpl in Hn; lia]|].
  destruct s as [|u s']; [done|]. simpl in Hn, H.
  destruct (u =? 0x22)%Z; [injection H as <- <-; by apply ssuffix_cons|].
  destruct (u =? 0x5C)%Z.
  - destruct s' as [|e s'']; [done|]. destruct (simple_escape e).
    + destruct (parse_chars s'') as [[r' t']|] eqn:E; [|done]. injection H as <- <-.
      apply (ssuffix_suffix_r _ s''); [apply (IH _ r'); [simpl in Hn; lia|done]|].
      apply suffix_cons_r, suffix_cons_r. done.
    + destruct (e =? 0x75)%Z; [|done].
      destruct s'' as [|h1 [|h2 [|h3 [|h4 s3]]]]; try done.
      destruct (hex_val h1), (hex_val h2), (hex_val h3), (hex_val h4); try done.
      destruct (parse_chars s3) as [[r' t']|] eqn:E; [|done]. injection H as <- <-.
      apply (ssuffix_suffix_r _ s3); [apply (IH _ r'); [simpl in Hn; lia|done]|].
      do 6 apply suffix_cons_r. done.
  - destruct (u <? 0x20)%Z; [done|].
    destruct (parse_chars s') as [[r' t']|] eqn:E; [|done]. injection H as <- <-.
    apply (ssuffix_suffix_r _ s'); [apply (IH _ r'); [lia|done]|]. by apply suffix_cons_r.
Qed.

Lemma parse_number_suffix s j t : parse_number s = Some (j, t) -> ssuffix t s.
Proof.
  unfold parse_number. intros H.
  assert (Hs1 : (parse_sign s).2 `suffix_of` s).
  { destruct s as [|u s]; simpl; [done|]. destruct (u =? 0x2D)%Z; [by apply suffix_cons_r|done]. }
  destruct (parse_sign s) as [neg s1]. simpl in Hs1.
  destruct (parse_int s1) as [[di s2]|] eqn:Ei; [|done].
  assert (Hs2 : ssuffix s2 s1).
  { destruct s1 as [|u s1']; [done|]. simpl in Ei.
    destruct (u =? 0x30)%Z; [injection Ei as <- <-; by apply ssuffix_cons|].
    destruct (is_digit u) eqn:Eu; [|done].
    destruct (span_digits s1') as [ds r] eqn:Es. injection Ei as <- <-.
    apply ssuffix_cons. rewrite <- (span_digits_app_eq s1'), Es. by apply suffix_app_r. }
  destruct (parse_frac s2) as [[df s3]|] eqn:Ef; [|done].
  assert (Hs3 : s3 `suffix_of` s2).
  { destruct s2 as [|u s2']; simpl in Ef; [by injection Ef as <- <-|].
    destruct (u =? 0x2E)%Z; [|by injection Ef as <- <-].
    pose proof (span_digits_suffix s2') as Hsp.
    destruct (span_digits s2') as [[|d ds] r]; [done|]. injection Ef as <- <-.
    by apply suffix_cons_r. }
  destruct (parse_exp s3) as [[x s4]|] eqn:Ex; [|done]. injection H as <- <-.
  assert (Hs4 : s4 `suffix_of` s3).
  { destruct s3 as [|u s3']; simpl in Ex; [by injection Ex as <- <-|].
    destruct ((u =? 0x65)%Z || (u =? 0x45)%Z); [|by injection Ex as <- <-].
    assert (Hsg : forall b s2, (match s3' with
               | v :: s'' => if (v =? 0x2D)%Z then (true, s'') else if (v =? 0x2B)%Z then (false, s'') else (false, s3')
               | [] => (false, []) end) = (b, s2) -> s2 `suffix_of` s3').
    { intros b s2' E. destruct s3' as [|v s'']; [by injection E as _ <-|].
      destruct (v =? 0x2D)%Z; [injection E as _ <-; by apply suffix_cons_r|].
      destruct (v =? 0x2B)%Z; injection E as _ <-; [by apply suffix_cons_r|done]. }
    destruct (match s3' with
              | v :: s'' => if (v =? 0x2D)%Z then (true, s'') else if (v =? 0x2B)%Z then (false, s'') else (false, s3')
              | [] => (false, []) end) as [b s5] eqn:Esg.
    pose proof (span_digits_suffix s5) as Hsp.
    destruct (span_digits s5) as [[|d ds] r]; [done|]. injection Ex as _ <-.
    apply suffix_cons_r. trans s5; [done|]. by apply (Hsg b). }
  eapply ssuffix_suffix_l; [exact Hs4|]. eapply ssuffix_suffix_l; [exact Hs3|].
  by eapply ssuffix_suffix_r.
Qed.

Lemma skip_ws_cons_suffix s w t : skip_ws s = w :: t -> t `suffix_of` s.
Proof. intros E. trans (skip_ws s); [rewrite E; by apply suffix_cons_r|apply skip_ws_suffix]. Qed.

Create HintDb suffix discriminated.
#[local] Hint Resolve skip_ws_suffix skip_ws_cons_suffix suffix_cons_r ssuffix_cons : suffix.

(** ** The parser consumes its input *)

Section Consumes.
Variable n : nat.
Hypothesis IHv :
  forall s v t, parse_value n s = Parsed v t -> ssuffix t s.
Hypothesis IHe :
  forall s acc vs t, parse_elems n s acc = Parsed vs t -> ssuffix t s.
Hypothesis IHm :
  forall s acc ps t, parse_members n s acc = Parsed ps t -> ssuffix t s.

Lemma consumes_value s v t :
  parse_value (S n) s = Parsed v t -> ssuffix t s.
Proof.
  intros H. destruct s as [|u s']; [done|]. cbn [parse_value] in H.
  destruct (u =? 0x7B)%Z; [|destruct (u =? 0x5B)%Z].
  1, 2: destruct (skip_ws s') as [|w s2] eqn:Ew; [done|];
    match type of H with
    | (if (w =? ?c)%Z then _ else _) = _ =>
        destruct (w =? c)%Z; [injection H as _ <-; apply ssuffix_cons; by eapply skip_ws_cons_suffix|]
    end;
    rewrite <- Ew in H.
  + destruct (parse_members n (skip_ws s') []) as [ps t0| |] eqn:Em; try done.
    injection H as _ <-. apply IHm in Em. eapply ssuffix_suffix_r; [exact Em|]. auto with suffix.
  + destruct (parse_elems n (skip_ws s') []) as [vs t0| |] eqn:Em; try done.
    injection H as _ <-. apply IHe in Em. eapply ssuffix_suffix_r; [exact Em|]. auto with suffix.
  + destruct (u =? 0x22)%Z.
    { destruct (parse_chars s') as [[r t0]|] eqn:Ec; [|done]. injection H as _ <-.
      apply parse_chars_suffix in Ec. eapply ssuffix_suffix_r; [exact Ec|]. auto with suffix. }
    destruct (u =? 0x6E)%Z; [|destruct (u =? 0x74)%Z; [|destruct (u =? 0x66)%Z]].
    1-3: match type of H with context [take_lit ?l ?x] =>
           destruct (take_lit l x) as [t0|] eqn:El end; [|done]; injection H as _ <-;
         apply ssuffix_cons; by eapply take_lit_suffix.
    destruct (parse_number (u :: s')) as [[j t0]|] eqn:En; [|done]. injection H as _ <-.
    by eapply parse_number_suffix.
Qed.

Lemma consumes_elems s acc vs t :
  parse_elems (S n) s acc = Parsed vs t -> ssuffix t s.
Proof.
  intros H. cbn [parse_elems] in H.
  destruct (parse_value n s) as [v t0| |] eqn:Ev; try done. apply IHv in Ev.
  destruct (skip_ws t0) as [|w t1] eqn:Ew; [done|].
  assert (Ht1 : t1 `suffix_of` t0) by eauto with suffix.
  destruct (w =? 0x2C)%Z.
  + apply IHe in H. eapply ssuffix_suffix_r; [exact H|]. trans t1; [auto with suffix|].
    trans t0; [done|]. apply Ev.
  + destruct (w =? 0x5D)%Z; [|done]. injection H as _ <-. by eapply ssuffix_suffix_l.
Qed.

Lemma consumes_members s acc ps t :
  parse_members (S n) s acc = Parsed ps t -> ssuffix t s.
Proof.
  intros H. cbn [parse_members] in H. destruct s as [|u s1]; [done|].
  destruct (u =? 0x22)%Z; [|done].
  destruct (parse_chars s1) as [[k t0]|] eqn:Ec; [|done]. apply parse_chars_suffix in Ec.
  destruct (skip_ws t0) as [|c t1] eqn:Ew; [done|]. destruct (c =? 0x3A)%Z; [|done].
  destruct (parse_value n (skip_ws t1)) as [v t2| |] eqn:Ev; try done. apply IHv in Ev.
  destruct (skip_ws t2) as [|d t3] eqn:Ew2; [done|].
  assert (Hs : t3 `suffix_of` s1).
  { trans t2; [eauto with suffix|]. trans (skip_ws t1); [apply Ev|].
    trans t1; [auto with suffix|]. trans t0; [eauto with suffix|apply Ec]. }
  destruct (d =? 0x2C)%Z.
  + apply IHm in H. eapply ssuffix_suffix_r; [exact H|]. trans t3; [auto with suffix|].
    auto with suffix.
  + destruct (d =? 0x7D)%Z; [|done]. injection H as _ <-. by apply ssuffix_cons.
Qed.

End Consumes.

Lemma parse_consumes n :
  (forall s v t, parse_value n s = Parsed v t -> ssuffix t s) /\
  (forall s acc vs t, parse_elems n s acc = Parsed vs t -> ssuffix t s) /\
  (forall s acc ps t, parse_members n s acc = Parsed ps t -> ssuffix t s).
Proof.
  induction n as [|n (IHv & IHe & IHm)]; [done|].
  split_and!; intros *; [eapply consumes_value|eapply consumes_elems|eapply consumes_members]; eauto.
Qed.

Lemma skip_ws_cons_length s w t : skip_ws s = w :: t -> (length t < length s)%nat.
Proof. intros E. pose proof (skip_ws_length s) as H. rewrite E in H. simpl in H. lia. Qed.

Lemma ssuffix_length t s : ssuffix t s -> (length t < length s)%nat.
Proof. by intros [_ H]. Qed.

Lemma pmap_not_oof {A B} (f : A -> B) r : r <> OutOfFuel -> pmap f r <> OutOfFuel.
Proof. by destruct r. Qed.

Lemma pmap_oof {A B} (f : A -> B) r : pmap f r <> OutOfFuel -> r <> OutOfFuel.
Proof. intros H ->. done. Qed.

(** ** Fuel *)

(** Twice the length of the input is enough fuel: every value consumes a
    character, and each element or member costs two units. *)
Lemma parse_fuel n :
  (forall s, (2 * length s < n)%nat -> parse_value n s <> OutOfFuel) /\
  (forall s acc, (2 * length s + 1 < n)%nat -> parse_elems n s acc <> OutOfFuel) /\
  (forall s acc, (2 * length s + 1 < n)%nat -> parse_members n s acc <> OutOfFuel).
Proof.
  induction n as [|n (IHv & IHe & IHm)]; [split_and!; intros; lia|]. split_and!.
  - intros s Hn. destruct s as [|u s']; [done|]. cbn [parse_value]. simpl in Hn.
    pose proof (skip_ws_length s') as Hl.
    destruct (u =? 0x7B)%Z; [|destruct (u =? 0x5B)%Z].
    1, 2: destruct (skip_ws s') as [|w s2]; [done|];
      match goal with |- (if (w =? ?c)%Z then _ else _) <> _ => destruct (w =? c)%Z; [done|] end;
      apply pmap_not_oof; first [apply IHm | apply IHe]; simpl in *; lia.
    destruct (u =? 0x22)%Z; [by destruct (parse_chars s') as [[]|]|].
    destruct (u =? 0x6E)%Z; [by destruct (take_lit _ s')|].
    destruct (u =? 0x74)%Z; [by destruct (take_lit _ s')|].
    destruct (u =? 0x66)%Z; [by destruct (take_lit _ s')|].
    by destruct (parse_number _) as [[]|].
  - intros s acc Hn. cbn [parse_elems].
    destruct (parse_value n s) as [v t0| |] eqn:Ev; [|done|by destruct (IHv s); [lia|]].
    apply (proj1 (parse_consumes n)), ssuffix_length in Ev.
    destruct (skip_ws t0) as [|w t1] eqn:Ew; [done|]. apply skip_ws_cons_length in Ew.
    destruct (w =? 0x2C)%Z; [|by destruct (w =? 0x5D)%Z].
    apply IHe. pose proof (skip_ws_length t1). lia.
  - intros s acc Hn. cbn [parse_members]. destruct s as [|u s1]; [done|].
    destruct (u =? 0x22)%Z; [|done]. simpl in Hn.
    destruct (parse_chars s1) as [[k t0]|] eqn:Ec; [|done].
    apply parse_chars_suffix, ssuffix_length in Ec.
    destruct (skip_ws t0) as [|c t1] eqn:Ew; [done|]. apply skip_ws_cons_length in Ew.
    destruct (c =? 0x3A)%Z; [|done]. pose proof (skip_ws_length t1).
    destruct (parse_value n (skip_ws t1)) as [v t2| |] eqn:Ev; [|done|by destruct (IHv (skip_ws t1)); [lia|]].
    apply (proj1 (parse_consumes n)), ssuffix_length in Ev.
    destruct (skip_ws t2) as [|d t3] eqn:Ew2; [done|]. apply skip_ws_cons_length in Ew2.
    destruct (d =? 0x2C)%Z; [|by destruct (d =? 0x7D)%Z].
    apply IHm. pose proof (skip_ws_length t3). lia.
Qed.

(** More fuel does not change a result. *)
Lemma parse_mono n :
  (forall s, parse_value n s <> OutOfFuel -> parse_value (S n) s = parse_value n s) /\
  (forall s acc, parse_elems n s acc <> OutOfFuel -> parse_elems (S n) s acc = parse_elems n s acc) /\
  (forall s acc, parse_members n s acc <> OutOfFuel ->
                 parse_members (S n) s acc = parse_members n s acc).
Proof.
  induction n as [|n (IHv & IHe & IHm)]; [done|]. split_and!.
  - intros s H. destruct s as [|u s']; [done|]. cbn [parse_value] in H |- *.
    destruct (u =? 0x7B)%Z; [|destruct (u =? 0x5B)%Z]; [| |done].
    1, 2: destruct (skip_ws s') as [|w s2]; [done|];
      match goal with |- (if (w =? ?c)%Z then _ else _) = _ => destruct (w =? c)%Z; [done|] end;
      f_equal; first [apply IHm | apply IHe]; by eapply pmap_oof.
  - intros s acc H. cbn [parse_elems] in H |- *.
    assert (Hv : parse_value n s <> OutOfFuel) by (intros E; by rewrite E in H).
    rewrite (IHv s Hv). destruct (parse_value n s) as [v t0| |]; try done.
    destruct (skip_ws t0) as [|w t1]; [done|].
    destruct (w =? 0x2C)%Z; [by apply IHe|done].
  - intros s acc H. cbn [parse_members] in H |- *. destruct s as [|u s1]; [done|].
    destruct (u =? 0x22)%Z; [|done]. destruct (parse_chars s1) as [[k t0]|]; [|done].
    destruct (skip_ws t0) as [|c t1]; [done|]. destruct (c =? 0x3A)%Z; [|done].
    assert (Hv : parse_value n (skip_ws t1) <> OutOfFuel) by (intros E; by rewrite E in H).
    rewrite (IHv _ Hv). destruct (parse_value n (skip_ws t1)) as [v t2| |]; try done.
    destruct (skip_ws t2) as [|d t3]; [done|].
    destruct (d =? 0x2C)%Z; [by apply IHm|done].
Qed.

Lemma parse_value_mono n m s :
  (n <= m)%nat -> parse_value n s <> OutOfFuel -> parse_value m s = parse_value n s.
Proof.
  induction 1 as [|m Hle IH]; [done|]. intros H.
  rewrite (proj1 (parse_mono m)); [by apply IH|]. by rewrite IH.
Qed.

(** ** Reading back what the printer writes *)

Lemma parse_value_arr n s :
  parse_value (S n) (0x5B%Z :: s) =
  match skip_ws s with
  | v :: s2 => if (v =? 0x5D)%Z then Parsed (JArr []) s2 else pmap JArr (parse_elems n (skip_ws s) [])
  | [] => Fail
  end.
Proof. done. Qed.

Lemma parse_value_obj n s :
  parse_value (S n) (0x7B%Z :: s) =
  match skip_ws s with
  | v :: s2 => if (v =? 0x7D)%Z then Parsed (JObj []) s2 else pmap JObj (parse_members n (skip_ws s) [])
  | [] => Fail
  end.
Proof. done. Qed.

Lemma parse_value_str n s :
  parse_value (S n) (0x22%Z :: s) = match parse_chars s with Some (r, t) => Parsed (JStr r) t | None => Fail end.
Proof. done. Qed.

Lemma parse_value_num n u s :
  num_start u = true ->
  parse_value (S n) (u :: s) = match parse_number (u :: s) with Some (j, t) => Parsed j t | None => Fail end.
Proof.
  intros Hu. unfold num_start, is_digit in Hu. cbn [parse_value].
  destruct (Z.eqb_spec u 0x7B); [subst; done|]. destruct (Z.eqb_spec u 0x5B); [subst; done|].
  destruct (Z.eqb_spec u 0x22); [subst; done|]. destruct (Z.eqb_spec u 0x6E); [subst; done|].
  destruct (Z.eqb_spec u 0x74); [subst; done|]. destruct (Z.eqb_spec u 0x66); [subst; done|].
  done.
Qed.

Lemma num_to_string_head m e :
  num_ok m e = true -> exists u t, num_to_string m e = u :: t /\ num_start u = true.
Proof.
  intros Hok. unfold num_ok, num_to_string in *. destruct (Z.eqb_spec m 0); [by eexists _, _|].
  destruct (Z.ltb_spec m 0); [by eexists _, _|].
  apply negb_true_iff, Z.eqb_neq in Hok.
  destruct (num_abs_form m e) as (di & df & x & q & z & -> & Hi & _); [lia|done|].
  unfold int_ok in Hi. destruct di as [|u di]; [done|]. apply andb_prop in Hi as [Hi _].
  apply andb_prop in Hi as [Hu _]. exists u, (di ++ frac_part df ++ exp_part x).
  split; [done|]. unfold num_start. by rewrite Hu.
Qed.

Lemma num_start_ws u : num_start u = true -> is_ws u = false.
Proof. unfold num_start, is_digit, is_ws. intros H. zcases; try done; try discriminate. Qed.

Lemma quote_cons s : quote s = 0x22%Z :: tail (quote s).
Proof. done. Qed.

(** What the printer writes starts with the first character of a value. *)
Lemma ser_head ind v : json_wf v = true -> exists u t, ser ind v = u :: t /\ ser_start u = true.
Proof.
  intros Hwf. destruct v as [| [] | m e | | s | [|v vs] | [|kv ps]]; try by eexists _, _.
  simpl in Hwf. destruct (num_to_string_head m e Hwf) as (u & t & E & Hu).
  exists u, t. split; [done|]. unfold ser_start. rewrite num_start_ws by done.
  unfold num_start, is_digit in Hu. zcases; discriminate.
Qed.

Lemma join_cons_app sep a l : exists r, ser_join sep (a :: l) = a ++ r.
Proof. destruct l; [exists []; by rewrite app_nil_r|by eexists]. Qed.

(** Skipping an indentation before a value. *)
Lemma skip_ws_to_value w u t r :
  forallb is_ws w = true -> ser_start u = true -> skip_ws (w ++ (u :: t) ++ r) = u :: t ++ r.
Proof.
  intros Hw Hu. rewrite skip_ws_app by done. apply skip_ws_free. simpl.
  unfold ser_start in Hu. by destruct (is_ws u).
Qed.

Lemma spaces_ws ind : forallb is_ws ind = true -> forallb is_ws (ind ++ lit "  ") = true.
Proof. intros H. by rewrite forallb_app, H. Qed.

Lemma num_stop_ws w c rest :
  forallb is_ws w = true -> c = 0x5D%Z \/ c = 0x7D%Z \/ c = 0x2C%Z -> num_stop (w ++ c :: rest) = true.
Proof.
  intros Hw Hc. destruct w as [|u w]; simpl in *.
  - destruct Hc as [-> | [-> | ->]]; done.
  - apply andb_prop in Hw as [Hu _]. unfold is_ws, is_digit in *. zcases; discriminate.
Qed.

Lemma skip_ws_close w c rest :
  forallb is_ws w = true -> is_ws c = false -> skip_ws (w ++ c :: rest) = c :: rest.
Proof. intros Hw Hc. rewrite skip_ws_app by done. simpl. by rewrite Hc. Qed.

Lemma skip_ws_nonws u s : is_ws u = false -> skip_ws (u :: s) = u :: s.
Proof. intros H. simpl. by rewrite H. Qed.

Lemma skip_ws_ws u s : is_ws u = true -> skip_ws (u :: s) = skip_ws s.
Proof. intros H. simpl. by rewrite H. Qed.

Lemma join_map2 {A} sep (f : A -> jstr) a b l :
  ser_join sep (map f (a :: b :: l)) = f a ++ sep ++ ser_join sep (map f (b :: l)).
Proof. done. Qed.

Lemma join_map1 {A} sep (f : A -> jstr) a : ser_join sep (map f [a]) = f a.
Proof. done. Qed.

Lemma parse_elems_S n s acc :
  parse_elems (S n) s acc =
  match parse_value n s with
  | Parsed v t =>
      match skip_ws t with
      | u :: t' => if (u =? 0x2C)%Z then parse_elems n (skip_ws t') (acc ++ [v])
                   else if (u =? 0x5D)%Z then Parsed (acc ++ [v]) t' else Fail
      | [] => Fail
      end
  | Fail => Fail
  | OutOfFuel => OutOfFuel
  end.
Proof. done. Qed.

Lemma skip_ws_at_value w u t : forallb is_ws w = true -> ser_start u = true -> skip_ws (w ++ u :: t) = u :: t.
Proof.
  intros Hw Hu. rewrite skip_ws_app by done. apply skip_ws_free. simpl.
  unfold ser_start in Hu. by destruct (is_ws u).
Qed.

(** After a separator and an indentation, the next printed value. *)
Lemma skip_ws_to_join {A} sep ind' (f : A -> jstr) (a : A) l x :
  forallb is_ws ind' = true ->
  (exists u t, f a = u :: t /\ ser_start u = true) ->
  skip_ws (ind' ++ ser_join sep (map f (a :: l)) ++ x) = ser_join sep (map f (a :: l)) ++ x.
Proof.
  intros Hi (u & t & Eu & Hu).
  destruct (join_cons_app sep (f a) (map f l)) as [r Er]. cbn [map]. rewrite Er, Eu.
  cbn [app]. by apply skip_ws_at_value.
Qed.

Lemma elems_read_back ind' w vs acc rest :
  forallb is_ws ind' = true -> forallb is_ws w = true ->
  Forall reads_back vs -> Forall (fun v => json_wf v = true) vs -> vs <> [] ->
  exists n0, forall n, (n0 <= n)%nat ->
    parse_elems n (ser_join ([0x2C; 10]%Z ++ ind') (map (ser ind') vs) ++ w ++ 0x5D%Z :: rest) acc
    = Parsed (acc ++ vs) rest.
Proof.
  intros Hi Hw Hr. revert acc.
  induction Hr as [|v vs Hv Hr IH]; intros acc Hwf Hne; [done|]. apply Forall_cons in Hwf as [Hwv Hwf].
  destruct vs as [|v2 vs].
  - destruct (Hv ind' (w ++ 0x5D%Z :: rest) Hi) as [n0 Hn0]; [apply num_stop_ws; [done|by left]|].
    exists (S n0). intros [|n] Hn; [lia|]. rewrite join_map1, parse_elems_S, Hn0 by lia.
    by rewrite skip_ws_close.
  - destruct (IH (acc ++ [v]) Hwf ltac:(done)) as [n1 Hn1].
    set (tl := ser_join ([0x2C; 10]%Z ++ ind') (map (ser ind') (v2 :: vs)) ++ w ++ 0x5D%Z :: rest).
    destruct (Hv ind' ([0x2C; 10]%Z ++ ind' ++ tl) Hi) as [n0 Hn0]; [done|].
    exists (S (max n0 n1)). intros [|n] Hn; [lia|].
    rewrite join_map2, <- !app_assoc. fold tl. rewrite parse_elems_S, Hn0 by lia.
    cbn [app]. rewrite skip_ws_nonws by done. cbn iota. rewrite Z.eqb_refl, skip_ws_ws by done.
    unfold tl. rewrite skip_ws_to_join by (done || (apply ser_head; by apply Forall_cons in Hwf as [])).
    rewrite Hn1 by lia. by rewrite <- app_assoc.
Qed.

Lemma parse_members_S n u s acc :
  parse_members (S n) (u :: s) acc =
  if (u =? 0x22)%Z then
    match parse_chars s with
    | Some (k, t) =>
        match skip_ws t with
        | c :: t1 =>
            if (c =? 0x3A)%Z then
              match parse_value n (skip_ws t1) with
              | Parsed v t2 =>
                  match skip_ws t2 with
                  | d :: t3 =>
                      if (d =? 0x2C)%Z then parse_members n (skip_ws t3) (obj_set acc k v)
                      else if (d =? 0x7D)%Z then Parsed (obj_set acc k v) t3 else Fail
                  | [] => Fail
                  end
              | Fail => Fail
              | OutOfFuel => OutOfFuel
              end
            else Fail
        | [] => Fail
        end
    | None => Fail
    end
  else Fail.
Proof. done. Qed.

(** One member is read back, whatever follows it. *)
Lemma member_read_back ind' k v n R acc :
  forallb is_ws ind' = true -> forallb unit_ok k = true -> json_wf v = true ->
  (parse_value n (ser ind' v ++ R) = Parsed v R) ->
  parse_members (S n) (member ind' (k, v) ++ R) acc =
  match skip_ws R with
  | d :: t3 =>
      if (d =? 0x2C)%Z then parse_members n (skip_ws t3) (obj_set acc k v)
      else if (d =? 0x7D)%Z then Parsed (obj_set acc k v) t3 else Fail
  | [] => Fail
  end.
Proof.
  intros Hi Hk Hv HR. unfold member. simpl fst. simpl snd. rewrite quote_cons, <- !app_assoc.
  cbn [app]. rewrite parse_members_S, Z.eqb_refl, parse_chars_quote by done.
  cbn [app]. rewrite skip_ws_nonws by done. cbn iota. rewrite Z.eqb_refl, skip_ws_ws by done.
  destruct (ser_head ind' v Hv) as (u & t & Eu & Hu).
  rewrite Eu. cbn [app]. rewrite skip_ws_free
    by (simpl; unfold ser_start in Hu; by destruct (is_ws u)).
  change (u :: t ++ R) with ((u :: t) ++ R). rewrite <- Eu, HR. done.
Qed.

Lemma members_read_back ind' w ps acc rest :
  forallb is_ws ind' = true -> forallb is_ws w = true ->
  Forall (fun kv => reads_back kv.2) ps ->
  Forall (fun kv => forallb unit_ok kv.1 && json_wf kv.2 = true) ps -> ps <> [] ->
  exists n0, forall n, (n0 <= n)%nat ->
    parse_members n (ser_join ([0x2C; 10]%Z ++ ind') (map (member ind') ps) ++ w ++ 0x7D%Z :: rest) acc
    = Parsed (fold_left step ps acc) rest.
Proof.
  intros Hi Hw Hr. revert acc.
  induction Hr as [|[k v] ps Hv Hr IH]; intros acc Hwf Hne; [done|].
  apply Forall_cons in Hwf as [Hkv Hwf]. apply andb_prop in Hkv as [Hk Hwv]. simpl in Hv, Hk, Hwv.
  destruct ps as [|kv2 ps].
  - destruct (Hv ind' (w ++ 0x7D%Z :: rest) Hi) as [n0 Hn0]; [apply num_stop_ws; [done|by right; left]|].
    exists (S n0). intros [|n] Hn; [lia|]. rewrite join_map1.
    rewrite member_read_back by (done || apply Hn0; lia). by rewrite skip_ws_close.
  - destruct (IH (obj_set acc k v) Hwf ltac:(done)) as [n1 Hn1].
    set (tl := ser_join ([0x2C; 10]%Z ++ ind') (map (member ind') (kv2 :: ps)) ++ w ++ 0x7D%Z :: rest).
    destruct (Hv ind' ([0x2C; 10]%Z ++ ind' ++ tl) Hi) as [n0 Hn0]; [done|].
    exists (S (max n0 n1)). intros [|n] Hn; [lia|].
    rewrite join_map2, <- !app_assoc. fold tl.
    rewrite member_read_back by (done || apply Hn0; lia).
    cbn [app]. rewrite skip_ws_nonws by done. cbn iota. rewrite Z.eqb_refl, skip_ws_ws by done.
    unfold tl. rewrite skip_ws_to_join by (done || by eexists _, _).
    apply Hn1. lia.
Qed.

(** The first character after an opening bracket and an indentation. *)
Lemma open_container n c ind' J x k :
  forallb is_ws ind' = true -> (exists u t, J = u :: t /\ ser_start u = true) ->
  c = 0x5D%Z \/ c = 0x7D%Z ->
  match skip_ws (10%Z :: ind' ++ J ++ x) with
  | v :: s2 => if (v =? c)%Z then Parsed (k : json) s2 else n
  | [] => Fail
  end = n /\ skip_ws (10%Z :: ind' ++ J ++ x) = J ++ x.
Proof.
  intros Hi (u & t & -> & Hu) Hc. rewrite skip_ws_ws by done. cbn [app].
  rewrite skip_ws_at_value by done. split; [|done].
  unfold ser_start in Hu. apply andb_prop in Hu as [Hu H2]. apply andb_prop in Hu as [_ H1].
  apply negb_true_iff in H1, H2. by destruct Hc as [-> | ->]; [rewrite H1|rewrite H2].
Qed.

Lemma join_head {A} sep (f : A -> jstr) a l :
  (exists u t, f a = u :: t /\ ser_start u = true) ->
  exists u t, ser_join sep (map f (a :: l)) = u :: t /\ ser_start u = true.
Proof.
  intros (u & t & Eu & Hu). destruct (join_cons_app sep (f a) (map f l)) as [r Er].
  exists u, (t ++ r). cbn [map]. by rewrite Er, Eu.
Qed.

Lemma ser_obj_cons ind kv ps :
  ser ind (JObj (kv :: ps)) =
  [0x7B; 10]%Z ++ (ind ++ lit "  ")
    ++ ser_join ([0x2C; 10]%Z ++ (ind ++ lit "  ")) (map (member (ind ++ lit "  ")) (kv :: ps))
    ++ [10%Z] ++ ind ++ [0x7D%Z].
Proof. done. Qed.

(** Every well-formed value is read back from its printed form. *)
(** A non-empty array whose elements are read back is read back. *)
Lemma arr_read_back vs : vs <> [] -> Forall (fun v => json_wf v = true) vs -> Forall reads_back vs ->
  reads_back (JArr vs).
Proof.
  intros Hne Hwf IH ind rest Hi Hr. destruct vs as [|v1 vs]; [done|].
  set (ind' := ind ++ lit "  ").
  destruct (elems_read_back ind' ([10%Z] ++ ind) (v1 :: vs) [] rest) as [n0 Hn0];
    [by apply spaces_ws|by rewrite forallb_app, Hi|done|done|done|].
  exists (S n0). intros [|n] Hn; [lia|].
  cbn [ser]. fold ind'. rewrite <- !app_assoc. cbn [app].
  destruct (open_container (pmap JArr (parse_elems n (skip_ws (10%Z :: ind' ++
      ser_join ([0x2C; 10]%Z ++ ind') (map (ser ind') (v1 :: vs)) ++ [10%Z] ++ ind ++ 0x5D%Z :: rest)) []))
      0x5D%Z ind' (ser_join ([0x2C; 10]%Z ++ ind') (map (ser ind') (v1 :: vs)))
      ([10%Z] ++ ind ++ 0x5D%Z :: rest) (JArr [])) as [E1 E2];
    [by apply spaces_ws|apply join_head, ser_head; by apply Forall_cons in Hwf as []|by left|].
  cbn [app] in E1, E2, Hn0. rewrite parse_value_arr, E1, E2, Hn0 by lia. done.
Qed.

(** A non-empty object with canonical keys whose values are read back
    is read back. *)
Lemma obj_read_back ps : ps <> [] -> keys_canon (map fst ps) = true ->
  Forall (fun kv => forallb unit_ok kv.1 && json_wf kv.2 = true) ps -> Forall (fun kv => reads_back kv.2) ps ->
  reads_back (JObj ps).
Proof.
  intros Hne Hc Hwf IH ind rest Hi Hr. destruct ps as [|kv ps]; [done|].
  set (ind' := ind ++ lit "  ").
  destruct (members_read_back ind' ([10%Z] ++ ind) (kv :: ps) [] rest) as [n0 Hn0];
    [by apply spaces_ws|by rewrite forallb_app, Hi|done|done|done|].
  exists (S n0). intros [|n] Hn; [lia|].
  rewrite ser_obj_cons. fold ind'. rewrite <- !app_assoc. cbn [app].
  destruct (open_container (pmap JObj (parse_members n (skip_ws (10%Z :: ind' ++
      ser_join ([0x2C; 10]%Z ++ ind') (map (member ind') (kv :: ps)) ++ [10%Z] ++ ind ++ 0x7D%Z :: rest)) []))
      0x7D%Z ind' (ser_join ([0x2C; 10]%Z ++ ind') (map (member ind') (kv :: ps)))
      ([10%Z] ++ ind ++ 0x7D%Z :: rest) (JObj [])) as [E1 E2];
    [by apply spaces_ws|apply join_head; unfold member; rewrite quote_cons; by eexists _, _|by right|].
  cbn [app] in E1, E2, Hn0. rewrite parse_value_obj, E1, E2, Hn0 by lia.
  by rewrite (fold_obj_set [] (kv :: ps)).
Qed.

Lemma ser_read_back v : json_wf v = true -> json_safe v = true -> reads_back v.
Proof.
  induction v as [| b | m e | | s | vs IH | ps IH] using json_ind'; intros Hwf Hsafe; simpl in Hwf, Hsafe;
    try discriminate.
  1-4: intros ind rest Hi Hr.
  - exists 1%nat. intros [|n] Hn; [lia|]. done.
  - exists 1%nat. intros [|n] Hn; [lia|]. by destruct b.
  - destruct (num_to_string_head m e Hwf) as (u & t & E & Hu).
    exists 1%nat. intros [|n] Hn; [lia|]. cbn [ser]. rewrite E. cbn [app].
    rewrite parse_value_num by done. change (u :: t ++ rest) with ((u :: t) ++ rest).
    by rewrite <- E, parse_number_to_string.
  - exists 1%nat. intros [|n] Hn; [lia|]. cbn [ser]. rewrite quote_cons. cbn [app].
    by rewrite parse_value_str, parse_chars_quote.
  - destruct vs as [|v1 vs]; [intros ind rest _ _; exists 1%nat; intros [|n] Hn; [lia|done]|].
    apply Forall_of_forallb in Hwf, Hsafe. apply arr_read_back; [done|done|].
    eapply Forall_mp; [|exact Hsafe]. exact (Forall_mp _ _ _ IH Hwf).
  - destruct ps as [|kv ps]; [intros ind rest _ _; exists 1%nat; intros [|n] Hn; [lia|done]|].
    apply andb_prop in Hwf as [Hc Hwf]. apply Forall_of_forallb in Hwf, Hsafe.
    apply obj_read_back; [done|done|done|].
    eapply Forall_mp; [|exact Hsafe]. eapply Forall_mp; [|exact Hwf]; eapply Forall_impl; [exact IH|].
    intros [k v] Hk Hkv; apply andb_prop in Hkv as []; by apply Hk.
Qed.

(** ** What the parser returns is well formed *)

Lemma hex_val_range u d : hex_val u = Some d -> (0 <= d < 16)%Z.
Proof.
  unfold hex_val, is_digit. intros H.
  repeat match type of H with
  | context [(?a <=? ?b)%Z] => destruct (Z.leb_spec a b)
  end; simpl in H; try discriminate; injection H as <-; lia.
Qed.

Lemma simple_escape_ok e c : simple_escape e = Some c -> unit_ok c = true.
Proof.
  unfold simple_escape. intros H.
  repeat match type of H with
  | context [(?a =? ?b)%Z] => destruct (Z.eqb a b)
  end; try discriminate; injection H as <-; done.
Qed.

Lemma parse_chars_units s r t : forallb unit_ok s = true -> parse_chars s = Some (r, t) -> forallb unit_ok r = true.
Proof.
  remember (length s) as n eqn:En. assert (Hn : (length s <= n)%nat) by lia. clear En.
  revert s r t Hn. induction n as [|n IH]; intros s r t Hn Hs H; [destruct s; [done|simpl in Hn; lia]|].
  destruct s as [|u s']; [done|]. simpl in Hn, H, Hs. apply andb_prop in Hs as [Hu Hs].
  destruct (u =? 0x22)%Z; [by injection H as <- <-|].
  destruct (u =? 0x5C)%Z.
  - destruct s' as [|e s'']; [done|]. simpl in Hs. apply andb_prop in Hs as [_ Hs].
    destruct (simple_escape e) as [c|] eqn:Ee.
    + destruct (parse_chars s'') as [[r' t']|] eqn:E; [|done]. injection H as <- <-.
      simpl. rewrite (simple_escape_ok _ _ Ee). apply (IH s'' r' t'); [simpl in Hn; lia|done|exact E].
    + destruct (e =? 0x75)%Z; [|done].
      destruct s'' as [|h1 [|h2 [|h3 [|h4 s3]]]]; try done.
      destruct (hex_val h1) as [a|] eqn:E1, (hex_val h2) as [b|] eqn:E2,
               (hex_val h3) as [c|] eqn:E3, (hex_val h4) as [d|] eqn:E4; try done.
      apply hex_val_range in E1, E2, E3, E4.
      destruct (parse_chars s3) as [[r' t']|] eqn:E; [|done]. injection H as <- <-.
      simpl in Hs |- *. apply andb_true_iff. split.
      * unfold unit_ok. apply andb_true_iff. split; [apply Z.leb_le|apply Z.ltb_lt]; lia.
      * apply (IH s3 r' t'); [simpl in Hn; lia| |exact E]. by repeat (apply andb_prop in Hs as [_ Hs]).
  - destruct (u <? 0x20)%Z; [done|].
    destruct (parse_chars s') as [[r' t']|] eqn:E; [|done]. injection H as <- <-.
    simpl. rewrite Hu. apply (IH s' r' t'); [lia|done|exact E].
Qed.

Lemma span_digits_digits s : forallb is_digit (span_digits s).1 = true.
Proof.
  induction s as [|u s IH]; simpl; [done|]. destruct (is_digit u) eqn:Eu; [|done].
  destruct (span_digits s) as [ds r]. simpl in *. by rewrite Eu.
Qed.

Lemma drop_zeros_spec r :
  (drop_zeros r).1 `suffix_of` r /\
  match (drop_zeros r).1 with [] => True | d :: _ => d <> 0x30%Z end.
Proof.
  induction r as [|u r IH]; simpl; [done|].
  destruct (Z.eqb_spec u 0x30).
  - destruct (drop_zeros r) as [r' z]. simpl in *. destruct IH as [IH1 IH2].
    split; [by apply suffix_cons_r|done].
  - done.
Qed.

(** A parsed number is normalised. *)
Lemma mk_num_ok neg ds x : forallb is_digit ds = true -> json_wf (mk_num neg ds x) = true.
Proof.
  intros Hd. unfold mk_num, strip_zeros.
  destruct (drop_zeros_spec (rev ds)) as [Hs Hh].
  destruct (drop_zeros (rev ds)) as [r z]. simpl in *.
  destruct (Z.eqb_spec (dvalue (rev r)) 0) as [E|E]; [by destruct neg|]. simpl.
  destruct r as [|d r]; [done|].
  assert (Hdd : is_digit d = true).
  { apply (forallb_suffix is_digit) in Hs; [by apply andb_prop in Hs as []|].
    rewrite forallb_rev. done. }
  unfold is_digit in Hdd. apply andb_prop in Hdd as [H1 H2]. apply Z.leb_le in H1, H2.
  assert (Hm : (dvalue (rev (d :: r)) mod 10 <> 0)%Z).
  { simpl. rewrite dvalue_app. simpl. unfold dvalue at 2. simpl.
    rewrite Z.add_comm, Z.mod_add by lia. rewrite Z.mod_small by lia. lia. }
  unfold num_ok. rewrite (proj2 (Z.eqb_neq _ 0)).
  - apply negb_true_iff, Z.eqb_neq. destruct neg; [|done].
    intros E'. apply Hm. rewrite <- (Z.opp_involutive (dvalue _)). by apply Z.mod_opp_l_z.
  - destruct neg; lia.
Qed.

Lemma parse_number_wf s j t : parse_number s = Some (j, t) -> json_wf j = true.
Proof.
  unfold parse_number. destruct (parse_sign s) as [neg s1].
  destruct (parse_int s1) as [[di s2]|] eqn:Ei; [|done].
  destruct (parse_frac s2) as [[df s3]|] eqn:Ef; [|done].
  destruct (parse_exp s3) as [[x s4]|] eqn:Ex; [|done]. intros [= <- _].
  apply mk_num_ok. rewrite forallb_app. apply andb_true_iff. split.
  - destruct s1 as [|u s1']; [done|]. cbn [parse_int] in Ei. destruct (u =? 0x30)%Z eqn:E0.
    + injection Ei as <- _. simpl. apply Z.eqb_eq in E0. by subst.
    + destruct (is_digit u) eqn:Eu; [|done]. injection Ei as Ed.
      pose proof (span_digits_digits s1') as Hsd.
      destruct (span_digits s1') as [ds r]. rewrite Eu in Ed. injection Ed as <- _.
      simpl in *. by rewrite Eu, Hsd.
  - destruct s2 as [|u s2']; simpl in Ef; [by injection Ef as <- _|].
    destruct (u =? 0x2E)%Z; [|by injection Ef as <- _].
    pose proof (span_digits_digits s2') as Hsd.
    destruct (span_digits s2') as [[|d ds] r]; [done|]. by injection Ef as <- _.
Qed.

Lemma obj_set_ok ps k v :
  obj_ok ps = true -> forallb unit_ok k = true -> json_wf v = true -> obj_ok (obj_set ps k v) = true.
Proof.
  unfold obj_ok. intros [Hc Hps]%andb_prop Hk Hv. rewrite obj_set_canon by done. simpl.
  apply forallb_forall. intros kv Hin%list_elem_of_In.
  destruct (obj_set_elem ps k v kv Hin) as [Hin'| ->]; [|simpl; by rewrite Hk, Hv].
  apply list_elem_of_In in Hin'. by apply (proj1 (forallb_forall _ _) Hps).
Qed.

Section WellFormed.
Variable n : nat.
Hypothesis IHv :
  forall s v t, forallb unit_ok s = true -> parse_value n s = Parsed v t -> json_wf v = true.
Hypothesis IHe :
  forall s acc vs t, forallb unit_ok s = true -> forallb json_wf acc = true ->
     parse_elems n s acc = Parsed vs t -> forallb json_wf vs = true.
Hypothesis IHm :
  forall s acc ps t, forallb unit_ok s = true -> obj_ok acc = true ->
     parse_members n s acc = Parsed ps t -> obj_ok ps = true.

Lemma wf_value s v t :
  forallb unit_ok s = true -> parse_value (S n) s = Parsed v t -> json_wf v = true.
Proof.
  intros Hs H. destruct s as [|u s']; [done|]. cbn [parse_value] in H.
  simpl in Hs. apply andb_prop in Hs as [_ Hs].
  destruct (u =? 0x7B)%Z; [|destruct (u =? 0x5B)%Z].
  1, 2: destruct (skip_ws s') as [|w s2] eqn:Ew; [done|];
    match type of H with
    | (if (w =? ?c)%Z then _ else _) = _ => destruct (w =? c)%Z; [by injection H as <- _|]
    end; rewrite <- Ew in H.
  + destruct (parse_members n (skip_ws s') []) as [ps t0| |] eqn:Em; try done.
    injection H as <- _. apply IHm in Em; [|by eapply forallb_suffix; [apply skip_ws_suffix|]|done].
    apply andb_prop in Em as [Hc Hps]. simpl. by rewrite Hc, Hps.
  + destruct (parse_elems n (skip_ws s') []) as [vs t0| |] eqn:Em; try done.
    injection H as <- _. apply IHe in Em; [done|by eapply forallb_suffix; [apply skip_ws_suffix|]|done].
  + destruct (u =? 0x22)%Z.
    { destruct (parse_chars s') as [[r t0]|] eqn:Ec; [|done]. injection H as <- _.
      by apply parse_chars_units in Ec. }
    destruct (u =? 0x6E)%Z; [by destruct (take_lit _ s'); [injection H as <- _|]|].
    destruct (u =? 0x74)%Z; [by destruct (take_lit _ s'); [injection H as <- _|]|].
    destruct (u =? 0x66)%Z; [by destruct (take_lit _ s'); [injection H as <- _|]|].
    destruct (parse_number (u :: s')) as [[j t0]|] eqn:En; [|done]. injection H as <- _.
    by apply parse_number_wf in En.
Qed.

Lemma wf_elems s acc vs t :
  forallb unit_ok s = true -> forallb json_wf acc = true ->
     parse_elems (S n) s acc = Parsed vs t -> forallb json_wf vs = true.
Proof.
  intros Hs Hacc H. cbn [parse_elems] in H.
  destruct (parse_value n s) as [v t0| |] eqn:Ev; try done.
  pose proof (proj1 (parse_consumes n) _ _ _ Ev) as [Hsuf _]. apply IHv in Ev; [|done].
  assert (Hacc' : forallb json_wf (acc ++ [v]) = true) by (rewrite forallb_app, Hacc; simpl; by rewrite Ev).
  destruct (skip_ws t0) as [|w t1] eqn:Ew; [done|].
  destruct (w =? 0x2C)%Z.
  + apply IHe in H; [done| |done]. eapply forallb_suffix; [|exact Hs].
    trans t1; [apply skip_ws_suffix|]. trans t0; [by eapply skip_ws_cons_suffix|done].
  + destruct (w =? 0x5D)%Z; [|done]. by injection H as <- _.
Qed.

Lemma wf_members s acc ps t :
  forallb unit_ok s = true -> obj_ok acc = true ->
     parse_members (S n) s acc = Parsed ps t -> obj_ok ps = true.
Proof.
  intros Hs Hacc H. cbn [parse_members] in H. destruct s as [|u s1]; [done|].
  destruct (u =? 0x22)%Z; [|done]. simpl in Hs. apply andb_prop in Hs as [_ Hs].
  destruct (parse_chars s1) as [[k t0]|] eqn:Ec; [|done].
  pose proof (parse_chars_suffix _ _ _ Ec) as [Hs0 _]. apply parse_chars_units in Ec; [|done].
  destruct (skip_ws t0) as [|c t1] eqn:Ew; [done|]. destruct (c =? 0x3A)%Z; [|done].
  assert (Hs1 : skip_ws t1 `suffix_of` s1).
  { trans t1; [apply skip_ws_suffix|]. trans t0; [by eapply skip_ws_cons_suffix|done]. }
  destruct (parse_value n (skip_ws t1)) as [v t2| |] eqn:Ev; try done.
  pose proof (proj1 (parse_consumes n) _ _ _ Ev) as [Hs2 _].
  apply IHv in Ev; [|by eapply forallb_suffix].
  destruct (skip_ws t2) as [|d t3] eqn:Ew2; [done|].
  pose proof (obj_set_ok acc k v Hacc Ec Ev) as Hok.
  destruct (d =? 0x2C)%Z.
  + apply IHm in H; [done| |done]. eapply forallb_suffix; [|exact Hs].
    trans t3; [apply skip_ws_suffix|]. trans t2; [by eapply skip_ws_cons_suffix|].
    by trans (skip_ws t1).
  + destruct (d =? 0x7D)%Z; [|done]. by injection H as <- _.
Qed.

End WellFormed.

Lemma parse_wf n :
  (forall s v t, forallb unit_ok s = true -> parse_value n s = Parsed v t -> json_wf v = true) /\
  (forall s acc vs t, forallb unit_ok s = true -> forallb json_wf acc = true ->
     parse_elems n s acc = Parsed vs t -> forallb json_wf vs = true) /\
  (forall s acc ps t, forallb unit_ok s = true -> obj_ok acc = true ->
     parse_members n s acc = Parsed ps t -> obj_ok ps = true).
Proof.
  induction n as [|n (IHv & IHe & IHm)]; [done|].
  split_and!; intros *; [eapply wf_value|eapply wf_elems|eapply wf_members]; eauto.
Qed.

(** ** The printer writes well-formed UTF-16 *)

Lemma lit_bmp s : forallb bmp_unit (lit s) = true.
Proof.
  unfold lit. induction (list_ascii_of_string s) as [|a l IH]; [done|]. simpl. rewrite IH.
  pose proof (nat_ascii_bounded a). unfold bmp_unit. zcases.
Qed.

Lemma digit_bmp u : is_digit u = true -> bmp_unit u = true.
Proof. unfold is_digit, bmp_unit. intros [H1 H2]%andb_prop. apply Z.leb_le in H1, H2. zcases. Qed.

Lemma digits_bmp ds : forallb is_digit ds = true -> forallb bmp_unit ds = true.
Proof. induction ds; simpl; [done|]. intros [?%digit_bmp ?]%andb_prop. by apply andb_true_iff; auto. Qed.

Lemma frac_part_bmp df : forallb is_digit df = true -> forallb bmp_unit (frac_part df) = true.
Proof.
  destruct df as [|d df]; [done|]. intros H. change (frac_part (d :: df)) with ([0x2E%Z] ++ d :: df).
  by rewrite forallb_app, (digits_bmp (d :: df)).
Qed.

Lemma exp_part_bmp x : forallb bmp_unit (exp_part x) = true.
Proof.
  destruct x as [x|]; [|done]. simpl. rewrite digits_bmp by (apply dec_spec; lia).
  by destruct (x <? 0)%Z.
Qed.

Lemma num_to_string_bmp m e : num_ok m e = true -> forallb bmp_unit (num_to_string m e) = true.
Proof.
  intros Hok. unfold num_ok, num_to_string in *. destruct (Z.eqb_spec m 0); [done|].
  apply negb_true_iff, Z.eqb_neq in Hok.
  assert (Ha : forall a, (0 < a)%Z -> (a mod 10 <> 0)%Z -> forallb bmp_unit (num_abs a e) = true).
  { intros a Ha Hm. destruct (num_abs_form a e Ha Hm) as (di & df & x & q & z & -> & Hi & Hd & _).
    apply andb_prop in Hi as [Hi _].
    by rewrite !forallb_app, digits_bmp, frac_part_bmp, exp_part_bmp. }
  destruct (Z.ltb_spec m 0).
  - simpl. apply Ha; [lia|]. intros E. apply Hok. rewrite <- (Z.opp_involutive m). by apply Z.mod_opp_l_z.
  - apply Ha; lia.
Qed.

Lemma hex_digit_bmp d : (0 <= d < 16)%Z -> bmp_unit (hex_digit d) = true.
Proof. intros. unfold hex_digit, bmp_unit. destruct (Z.ltb_spec d 10); zcases. Qed.

Lemma quote_cp_wf c : (0 <= c <= 0x10FFFF)%Z -> utf16_wf (quote_cp c).
Proof.
  intros Hc. unfold quote_cp.
  repeat match goal with |- context [if (c =? ?k)%Z then _ else _] => destruct (Z.eqb c k); [by apply utf16_wf_bmp|] end.
  destruct ((c <? 0x20)%Z || ((0xD800 <=? c)%Z && (c <=? 0xDFFF)%Z)) eqn:E.
  - apply utf16_wf_bmp. unfold hex4. simpl.
    rewrite !hex_digit_bmp; try done; split; try apply Z.mod_pos_bound; try lia;
      try apply Z.div_pos; try lia; apply Z.div_lt_upper_bound; lia.
  - apply utf16_wf_cp, is_scalar_spec. apply orb_false_iff in E as [_ E].
    apply andb_false_iff in E as [E|E]; [apply Z.leb_gt in E|apply Z.leb_gt in E]; lia.
Qed.

Lemma quote_wf s : forallb unit_ok s = true -> utf16_wf (quote s).
Proof.
  intros Hs. unfold quote. change (0x22%Z :: ?x) with ([0x22%Z] ++ x).
  apply utf16_wf_app; [by apply utf16_wf_bmp|]. apply utf16_wf_app; [|by apply utf16_wf_bmp].
  apply utf16_wf_concat. apply Forall_fmap, (Forall_impl _ _ _ (cps_of_utf16_range s Hs)).
  apply quote_cp_wf.
Qed.

Lemma join_wf sep parts : utf16_wf sep -> Forall utf16_wf parts -> utf16_wf (ser_join sep parts).
Proof.
  intros Hs. induction 1 as [|x parts Hx _ IH]; [apply utf16_wf_nil|].
  destruct parts; [done|]. simpl. auto 6 with kc.
Qed.

Lemma ser_wf v : json_wf v = true -> forall ind, forallb bmp_unit ind = true -> utf16_wf (ser ind v).
Proof.
  induction v as [| b | m e | | s | vs IH | ps IH] using json_ind'; intros Hwf ind Hi; simpl in Hwf.
  - by apply utf16_wf_bmp.
  - destruct b; by apply utf16_wf_bmp.
  - by apply utf16_wf_bmp, num_to_string_bmp.
  - by apply utf16_wf_bmp.
  - by apply quote_wf.
  - destruct vs as [|v vs]; [by apply utf16_wf_bmp|]. cbn [ser].
    assert (Hi' : forallb bmp_unit (ind ++ lit "  ") = true) by (by rewrite forallb_app, Hi).
    repeat apply utf16_wf_app; try (apply utf16_wf_bmp; simpl; rewrite ?Hi, ?Hi'; done).
    apply join_wf; [apply utf16_wf_bmp; simpl; by rewrite Hi'|].
    apply Forall_fmap. eapply Forall_mp; [|exact (Forall_of_forallb _ _ Hwf)].
    eapply Forall_impl; [exact IH|]. intros x Hx Hxw. by apply Hx.
  - destruct ps as [|kv ps]; [by apply utf16_wf_bmp|]. cbn [ser].
    apply andb_prop in Hwf as [_ Hwf].
    assert (Hi' : forallb bmp_unit (ind ++ lit "  ") = true) by (by rewrite forallb_app, Hi).
    repeat apply utf16_wf_app; try (apply utf16_wf_bmp; simpl; rewrite ?Hi, ?Hi'; done).
    apply join_wf; [apply utf16_wf_bmp; simpl; by rewrite Hi'|].
    apply Forall_fmap. eapply Forall_mp; [|exact (Forall_of_forallb _ _ Hwf)].
    eapply Forall_impl; [exact IH|]. intros [k x] Hx [Hk Hxw]%andb_prop. cbn [fst snd] in *.
    apply utf16_wf_app; [by apply quote_wf|]. apply utf16_wf_app; [by apply utf16_wf_bmp|]. by apply Hx.
Qed.

(** The round trip, shared by the theorems on the dist descriptor. *)
Lemma stringify_read_back v : json_wf v = true -> json_safe v = true -> json_parse (stringify v) = Some v.
Proof.
  intros Hwf Hsafe. unfold json_parse, stringify.
  destruct (ser_head [] v Hwf) as (u & t & Eu & Hu).
  rewrite Eu, (skip_ws_at_value [] u t eq_refl Hu : skip_ws (u :: t) = u :: t).
  destruct (ser_read_back v Hwf Hsafe [] [] eq_refl eq_refl) as [n0 Hn0].
  rewrite app_nil_r, Eu in Hn0.
  set (F := S (2 * length (u :: t))).
  assert (HF : parse_value F (u :: t) <> OutOfFuel) by (apply (proj1 (parse_fuel _)); subst F; lia).
  rewrite <- (parse_value_mono F (max F n0)) by (done || lia).
  rewrite Hn0 by lia. done.
Qed.

Lemma parse_result_wf s v : forallb unit_ok s = true -> json_parse s = Some v -> json_wf v = true.
Proof.
  intros Hs. unfold json_parse.
  destruct (parse_value _ (skip_ws s)) as [v' t| |] eqn:E; try done.
  destruct (skip_ws t); [|done]. intros [= <-].
  eapply (proj1 (parse_wf _)); [|exact E]. eapply forallb_suffix; [apply skip_ws_suffix|exact Hs].
Qed.

(** ** Theorems *)

(** The fuel [json_parse] gives the parser is enough: it never runs out, and
    any fuel that does not run out gives the same result, so [json_parse]
    returning [None] is a syntax error of the text. *)
Lemma json_parse_terminates s :
  parse_value (S (2 * length s)) (skip_ws s) <> OutOfFuel /\
  (forall n, parse_value n (skip_ws s) <> OutOfFuel ->
             parse_value n (skip_ws s) = parse_value (S (2 * length s)) (skip_ws s)).
Proof.
  assert (HF : parse_value (S (2 * length s)) (skip_ws s) <> OutOfFuel).
  { apply (proj1 (parse_fuel _)). pose proof (skip_ws_length s). lia. }
  split; [done|]. intros n Hn.
  destruct (Nat.le_ge_cases n (S (2 * length s))) as [Hle|Hle].
  - by rewrite (parse_value_mono n (S (2 * length s))).
  - by rewrite (parse_value_mono (S (2 * length s)) n).
Qed.

(** C30: [JSON.parse(JSON.stringify(v, null, 2))] gives [v] back, for every
    value [JSON.parse] can produce whose numbers a double holds exactly
    and that has no -0 (which is printed "0"). *)
Theorem json_parse_stringify v :
  json_wf v = true -> json_safe v = true -> json_parse (stringify v) = Some v.
Proof. apply stringify_read_back. Qed.

(** C31: Whatever text it reads, [JSON.parse] returns a well-formed value:
    normalised numbers, strings of code units, objects with distinct keys
    in enumeration order. *)
Theorem json_parse_wf s v : forallb unit_ok s = true -> json_parse s = Some v -> json_wf v = true.
Proof. apply parse_result_wf. Qed.

(** ** Witnesses *)

Lemma json_parse_stringify_witness :
  json_wf json_ex = true /\ json_safe json_ex = true /\ json_parse (stringify json_ex) = Some json_ex.
Proof.
  assert (H : json_wf json_ex = true) by (vm_compute; reflexivity).
  assert (Hs : json_safe json_ex = true) by (vm_compute; reflexivity).
  split_and!; [exact H|exact Hs|exact (json_parse_stringify json_ex H Hs)].
Defined.

Lemma json_parse_wf_witness :
  forallb unit_ok (lit "[1, 2.50, -0.01e3, -0, true, {}]") = true /\
  json_parse (lit "[1, 2.50, -0.01e3, -0, true, {}]") =
    Some (JArr [JNum 1 0; JNum 25 (-1); JNum (-1) 1; JNegZero; JBool true; JObj []]) /\
  json_wf (JArr [JNum 1 0; JNum 25 (-1); JNum (-1) 1; JNegZero; JBool true; JObj []]) = true.
Proof.
  assert (H1 : forallb unit_ok (lit "[1, 2.50, -0.01e3, -0, true, {}]") = true) by (vm_compute; reflexivity).
  assert (H2 : json_parse (lit "[1, 2.50, -0.01e3, -0, true, {}]") =
                 Some (JArr [JNum 1 0; JNum 25 (-1); JNum (-1) 1; JNegZero; JBool true; JObj []]))
    by (vm_compute; reflexivity).
  split_and!; [exact H1|exact H2|exact (json_parse_wf _ _ H1 H2)].
Defined.

End JsonParse.
