(* ===== verification/PackageJson.v ===== *)
(** The [package.json] of the repository as [build.ts] reads and writes it:
    the zod schema [zParsedPackageJson] checked at line 55 (declared at
    lines 19-47), the [version] field handed to line 63, and the
    descriptor of the dist package written at lines 136-157.

    Line 57, [assert(is<ParsedPackageJson>(parsedPackageJson))], is
    tsafe's type-level assertion: it narrows the type and has no run-time
    effect, so it is not a step of the model.

    The lemmas: the schema accepts exactly the values of the TypeScript
    type [ParsedPackageJson] ([zParse_fields]); the descriptor carries
    the seven fields of the source and [publishConfig: { access:
    "public" }], and it is a well-formed JSON value, so [JSON.parse] reads
    it back when the numbers of [repository] are safe
    ([dist_read_back]). *)

From S2P Require Import Prelude.
From S2P Require Import Utf8 Contracts Utf16 Json JsonParse.

Module PackageJson.
Import Utf16 Json JsonParse.

(** [obj[k]] on the properties of an object. *)
Fixpoint obj_get (ps : list (jstr * json)) (k : jstr) : option json :=
  match ps with
  | [] => None
  | (k', v) :: ps' => if bool_decide (k' = k) then Some v else obj_get ps' k
  end.

(** [v.k]: a property of an object; anything else has none here. *)
Definition prop (v : json) (k : string) : option json :=
  match v with
  | JObj ps => obj_get ps (lit k)
  | _ => None
  end.

(** ** The schema (lines 32-40) *)

(** [z.string()]. *)
Definition z_string (v : option json) : bool :=
  match v with Some (JStr _) => true | _ => false end.

(** [z.record(z.unknown())]: an object, whatever its values (an array or
    [null] is not one). *)
Definition z_record_unknown (v : option json) : bool :=
  match v with Some (JObj _) => true | _ => false end.

(** [z.array(z.string())]. *)
Definition z_array_string (v : option json) : bool :=
  match v with Some (JArr vs) => forallb (fun x => z_string (Some x)) vs | _ => false end.

(** [zTargetType]: an object whose seven fields have the declared types;
    other fields are allowed. *)
Definition zTargetType (v : json) : bool :=
  match v with
  | JObj _ =>
      z_string (prop v "name") && z_string (prop v "version") &&
      z_record_unknown (prop v "repository") && z_string (prop v "license") &&
      z_string (prop v "author") && z_string (prop v "homepage") &&
      z_array_string (prop v "keywords")
  | _ => false
  end.

(** [zParsedPackageJson.parse(parsedPackageJson)] (line 55): throws a
    [ZodError] when the value does not fit; the parsed copy it returns is
    not used. *)
Definition zParse (v : json) : result unit :=
  if zTargetType v then Ok tt else Err ZodError.

(** ** The version (line 63) *)

(** The JavaScript white space of [parseInt] above U+00FF. *)
Definition is_wide_space (u : Z) : bool :=
  (u =? 0x1680)%Z || ((0x2000 <=? u)%Z && (u <=? 0x200A)%Z) || (u =? 0x2028)%Z ||
  (u =? 0x2029)%Z || (u =? 0x202F)%Z || (u =? 0x205F)%Z || (u =? 0x3000)%Z || (u =? 0xFEFF)%Z.

(** A code unit as the one-byte character [KeycloakVersion] reads: the
    same character below 256; above, a space for white space and ["?"]
    for anything else.  Lines 63-65 only split on ["."], index units, and
    read signs, white space, [0x] and ASCII digits, so the image keeps
    every unit's role. *)
Definition ascii_of_unit (u : Z) : ascii :=
  if (u <? 256)%Z then ascii_of_nat (Z.to_nat u)
  else if is_wide_space u then " "%char else "?"%char.

Definition ascii_of_jstr (s : jstr) : string := string_of_list_ascii (map ascii_of_unit s).

(** [parsedPackageJson.version]: a string once the schema has passed. *)
Definition version_of (pj : json) : string :=
  match prop pj "version" with
  | Some (JStr s) => ascii_of_jstr s
  | _ => EmptyString
  end.

(** ** The dist descriptor (lines 139-156) *)

Definition dist_fields : list string :=
  ["name"; "version"; "repository"; "license"; "author"; "homepage"; "keywords"].

(** The object literal of lines 140-152.  A field whose value is
    [undefined] is left out, as [JSON.stringify] leaves it out. *)
Definition distPackageJson (pj : json) : json :=
  JObj (omap (fun k => option_map (fun v => (lit k, v)) (prop pj k)) dist_fields ++
        [(lit "publishConfig", JObj [(lit "access", JStr (lit "public"))])]).

(** The bytes of line 138: [Buffer.from(JSON.stringify(..., null, 2), "utf8")]. *)
Definition distPackageJsonBytes (pj : json) : list byte :=
  buffer_from_string (stringify (distPackageJson pj)).

(** ** Examples *)

Definition package_json_ex : json :=
  JObj [(lit "name", JStr (lit "@keycloakify/email-native"));
        (lit "version", JStr (lit "260005.0.1"));
        (lit "repository", JObj [(lit "type", JStr (lit "git"))]);
        (lit "license", JStr (lit "MIT"));
        (lit "author", JStr (lit "u"));
        (lit "homepage", JStr (lit "https://keycloakify.dev"));
        (lit "keywords", JArr [JStr (lit "keycloak")]);
        (lit "scripts", JObj [])].

(** The fields the schema guarantees, with their values. *)
Definition pkg_fields (v : json) (name version : jstr) (repo : list (jstr * json))
    (license author homepage : jstr) (keywords : list jstr) : Prop :=
  prop v "name" = Some (JStr name) /\ prop v "version" = Some (JStr version) /\
  prop v "repository" = Some (JObj repo) /\ prop v "license" = Some (JStr license) /\
  prop v "author" = Some (JStr author) /\ prop v "homepage" = Some (JStr homepage) /\
  prop v "keywords" = Some (JArr (map JStr keywords)).

Example zParse_ex : zParse package_json_ex = Ok tt /\ zParse (JArr []) = Err ZodError.
Proof. split; vm_compute; reflexivity. Qed.

Example version_of_ex : version_of package_json_ex = "260005.0.1".
Proof. vm_compute. reflexivity. Qed.

(** ** Lemmas *)

Lemma z_string_spec o : z_string o = true <-> exists s, o = Some (JStr s).
Proof. split; [destruct o as [[]|]; try done; by eexists|by intros [s ->]]. Qed.

Lemma z_record_spec o : z_record_unknown o = true <-> exists ps, o = Some (JObj ps).
Proof. split; [destruct o as [[]|]; try done; by eexists|by intros [ps ->]]. Qed.

Lemma z_array_string_spec o : z_array_string o = true <-> exists l, o = Some (JArr (map JStr l)).
Proof.
  split.
  - destruct o as [[| | | | | vs |]|]; try done. simpl. intros H.
    induction vs as [|[] vs IH]; simpl in H; try done; [by exists []|].
    destruct (IH H) as [l [= ->]]. by exists (s :: l).
  - intros [l ->]. simpl. induction l; simpl; auto.
Qed.

Lemma obj_get_elem ps k v : obj_get ps k = Some v -> (k, v) ∈ ps.
Proof.
  induction ps as [|[k' v'] ps IH]; simpl; [done|].
  case_bool_decide; [intros [= <-]; subst; left|intros H'; right; auto].
Qed.

(** A property of a well-formed object is well formed. *)
Lemma prop_wf v k x : json_wf v = true -> prop v k = Some x -> json_wf x = true.
Proof.
  destruct v as [| | | | | |ps]; try done. simpl. intros [_ Hps]%andb_prop Hx%obj_get_elem.
  apply list_elem_of_In in Hx. apply (proj1 (forallb_forall _ _) Hps) in Hx.
  by apply andb_prop in Hx as [_ ?].
Qed.

(** A property of a value whose numbers are safe has safe numbers. *)
Lemma prop_safe v k x : json_safe v = true -> prop v k = Some x -> json_safe x = true.
Proof.
  destruct v as [| | | | | |ps]; try done. simpl. intros Hps Hx%obj_get_elem.
  apply list_elem_of_In in Hx. exact (proj1 (forallb_forall _ _) Hps _ Hx).
Qed.

Lemma zParse_fields v :
  zParse v = Ok tt <->
  exists name version repo license author homepage keywords,
    pkg_fields v name version repo license author homepage keywords.
Proof.
  unfold zParse, pkg_fields. split.
  - destruct (zTargetType v) eqn:E; [intros _|done].
    destruct v as [| | | | | |ps]; try done. unfold zTargetType in E.
    repeat (apply andb_prop in E as [E ?]).
    repeat match goal with
    | H : z_string _ = true |- _ => apply z_string_spec in H as [? ?]
    | H : z_record_unknown _ = true |- _ => apply z_record_spec in H as [? ?]
    | H : z_array_string _ = true |- _ => apply z_array_string_spec in H as [? ?]
    end.
    by eexists _, _, _, _, _, _, _.
  - intros (name & version & repo & license & author & homepage & keywords & H1 & H2 & H3 & H4 & H5 & H6 & H7).
    destruct v as [| | | | | |ps]; try done. unfold zTargetType.
    rewrite H1, H2, H3, H4, H5, H6, H7. simpl. clear. by induction keywords.
Qed.

(** The descriptor once the schema has passed. *)
Lemma distPackageJson_form pj name version repo license author homepage keywords :
  pkg_fields pj name version repo license author homepage keywords ->
  distPackageJson pj =
  JObj [(lit "name", JStr name); (lit "version", JStr version); (lit "repository", JObj repo);
        (lit "license", JStr license); (lit "author", JStr author); (lit "homepage", JStr homepage);
        (lit "keywords", JArr (map JStr keywords));
        (lit "publishConfig", JObj [(lit "access", JStr (lit "public"))])].
Proof.
  intros (H1 & H2 & H3 & H4 & H5 & H6 & H7). unfold distPackageJson, dist_fields.
  simpl. by rewrite H1, H2, H3, H4, H5, H6, H7.
Qed.

Lemma distPackageJson_wf pj name version repo license author homepage keywords :
  json_wf pj = true -> pkg_fields pj name version repo license author homepage keywords ->
  json_wf (distPackageJson pj) = true.
Proof.
  intros Hwf Hf. rewrite (distPackageJson_form _ _ _ _ _ _ _ _ Hf).
  destruct Hf as (H1 & H2 & H3 & H4 & H5 & H6 & H7).
  apply (prop_wf _ _ _ Hwf) in H1, H2, H3, H4, H5, H6, H7.
  simpl in H1, H2, H4, H5, H6. change (json_wf (JArr (map JStr keywords))) with
    (forallb json_wf (map JStr keywords)) in H7.
  cbn [json_wf] in H3. cbn [json_wf map fst forallb snd].
  rewrite H1, H2, H3, H4, H5, H6, H7. vm_compute. reflexivity.
Qed.

Lemma prop_dist pj name version repo license author homepage keywords :
  pkg_fields pj name version repo license author homepage keywords ->
  (forall k, k ∈ dist_fields -> prop (distPackageJson pj) k = prop pj k) /\
  prop (distPackageJson pj) "publishConfig" = Some (JObj [(lit "access", JStr (lit "public"))]).
Proof.
  intros Hf. rewrite (distPackageJson_form _ _ _ _ _ _ _ _ Hf).
  destruct Hf as (H1 & H2 & H3 & H4 & H5 & H6 & H7). split; [|done].
  intros k Hk. unfold dist_fields in Hk.
  repeat (apply elem_of_cons in Hk as [->|Hk]; [by rewrite ?H1, ?H2, ?H3, ?H4, ?H5, ?H6, ?H7|]).
  by apply elem_of_nil in Hk.
Qed.

(** The descriptor has safe numbers when [repository] has: its other
    fields are strings. *)
Lemma distPackageJson_safe pj name version repo license author homepage keywords :
  (forall r, prop pj "repository" = Some r -> json_safe r = true) ->
  pkg_fields pj name version repo license author homepage keywords ->
  json_safe (distPackageJson pj) = true.
Proof.
  intros Hs Hf. rewrite (distPackageJson_form _ _ _ _ _ _ _ _ Hf).
  destruct Hf as (_ & _ & H3 & _). apply Hs in H3. cbn [json_safe] in H3.
  cbn [json_safe forallb snd]. rewrite H3. simpl. clear. by induction keywords.
Qed.

(** The dist descriptor is read back by [JSON.parse]. *)
Lemma dist_read_back pj name version repo license author homepage keywords :
  json_wf pj = true -> (forall r, prop pj "repository" = Some r -> json_safe r = true) ->
  pkg_fields pj name version repo license author homepage keywords ->
  json_parse (buffer_to_string (distPackageJsonBytes pj)) = Some (distPackageJson pj).
Proof.
  intros Hwf Hs Hf. pose proof (distPackageJson_wf _ _ _ _ _ _ _ _ Hwf Hf) as Hd.
  unfold distPackageJsonBytes. rewrite buffer_to_from_string by (apply ser_wf; done).
  apply stringify_read_back; [done|]. by eapply distPackageJson_safe.
Qed.

End PackageJson.
