(* ===== verification/MessagesTransform.v ===== *)
(** The [transformSourceCode] callback of [build.ts] (lines 94-133): a file
    [messages/<name>.properties] gets a comment banner naming its locale;
    every other file is returned as it is.

    The labelled block [add_comment_to_messages_properties_file] is the
    chain of early exits of [transformSourceCode]; [assert(match !== null)]
    of line 109 throws, which is an [Err] of the callback.  The new text is
    the JavaScript string [lines.join("\n")], a list of code points here,
    encoded by [Buffer.from(..., "utf8")].

    The theorems: the locale matcher accepts exactly the names
    [messages_<locale>.properties] with a non-empty locale without dot; a
    messages file of well-formed UTF-8 becomes the banner followed by its
    own bytes; a messages file with a byte that is not UTF-8 does not; and
    a [.properties] file of [messages/] with another name makes the
    callback throw. *)

From S2P Require Import Prelude NodePath Contracts Utf8.

Module MessagesTransform.
Import NodePath Utf8.

(** [s] without the prefix [p], if it starts with it. *)
Fixpoint strip_prefix (p s : string) : option string :=
  match p, s with
  | EmptyString, _ => Some s
  | String c p', String d s' => if Ascii.eqb c d then strip_prefix p' s' else None
  | String _ _, EmptyString => None
  end.

(** [basename.match(/^messages_([^.]+)\.properties$/)] and [match[1]]
    (lines 107-111): after the prefix, the text has exactly one dot, a
    non-empty locale before it and "properties" after it. *)
Definition match_locale (basename : string) : option string :=
  match strip_prefix "messages_" basename with
  | Some r =>
      match str_split "." r with
      | [locale; ext] =>
          if String.eqb ext "properties" && negb (String.eqb locale "")
          then Some locale else None
      | _ => None
      end
  | None => None
  end.

(** A JavaScript string of code units below 256, as code points. *)
Definition str_cps (s : string) : list Z :=
  map (fun c => Z.of_nat (nat_of_ascii c)) (list_ascii_of_string s).

(** [parts.join(sep)] on code-point strings. *)
Fixpoint cps_join (sep : list Z) (parts : list (list Z)) : list Z :=
  match parts with
  | [] => []
  | [x] => x
  | x :: parts' => x ++ sep ++ cps_join sep parts'
  end.

Definition newline : list Z := [10%Z].

(** The double quote and the backquote, spelled by their codes. *)
Definition dq : string := String (ascii_of_nat 34) EmptyString.

(** The seven comment lines of lines 117-123. *)
Definition banner_lines (locale : string) : list string :=
  [ "# IMPORTANT: This file contains the base translation. Modifying it directly is not recommended.";
    "# To override or add custom messages, create a file named messages_" +:+ locale +:+
      "_override.properties in the same directory.";
    "# This file will be automatically loaded and merged with the base translation.";
    "# If you're implementing theme variants, you can also create variant-specific `.properties` files.";
    "# For example let's say you have defined `themeName: [" +:+ dq +:+ "vanilla" +:+ dq +:+
      ", " +:+ dq +:+ "chocolate" +:+ dq +:+ "]` then you can create the following files:";
    "# messages_" +:+ locale +:+ "_override_vanilla.properties";
    "# messages_" +:+ locale +:+ "_override_chocolate.properties" ].

(** Lines 94-133. *)
Definition transformSourceCode (fileRelativePath : string) (sourceCode : list byte)
    : result (list byte) :=
  if negb (String.eqb (dirname fileRelativePath) "messages") then Ok sourceCode
  else
    let basename := basename fileRelativePath in
    if negb (str_ends_with basename ".properties") then Ok sourceCode
    else
      match match_locale basename with
      | None => Err (CallbackError "assert(match !== null)")
      | Some locale =>
          Ok (utf8_encode
                (cps_join newline (map str_cps (banner_lines locale) ++
                                   [str_cps ""; utf8_decode sourceCode])))
      end.

#[export] Instance transformSourceCode_transform : FileTransform := transformSourceCode.

(** The bytes put in front of a well-formed messages file. *)
Definition banner_bytes (locale : string) : list byte :=
  utf8_encode (cps_join newline (map str_cps (banner_lines locale) ++ [[]]) ++ newline).

Example match_locale_ex :
  match_locale "messages_pt_BR.properties" = Some "pt_BR" /\
  match_locale "messages.properties" = None /\
  match_locale "messages_en.x.properties" = None /\
  match_locale "messages_.properties" = None.
Proof. repeat split; reflexivity. Qed.

Example transform_other :
  transformSourceCode "html/email-test.ftl" [Byte.x41] = Ok [Byte.x41].
Proof. reflexivity. Qed.

(** ** Lemmas *)

Lemma strip_prefix_app p r : strip_prefix p (p +:+ r) = Some r.
Proof. induction p as [|c p IH]; simpl; [by destruct r | by rewrite Ascii.eqb_refl]. Qed.

Lemma strip_prefix_Some p s r : strip_prefix p s = Some r -> s = p +:+ r.
Proof.
  revert s. induction p as [|c p IH]; intros [|d s]; simpl; try congruence.
  destruct (Ascii.eqb_spec c d) as [->|]; [|done]. intros H. f_equal. by apply IH.
Qed.

Lemma str_split_properties : str_split "." "properties" = ["properties"].
Proof. reflexivity. Qed.

(** The matcher of line 107 accepts exactly [messages_<locale>.properties]
    with a non-empty locale without dot, and returns the locale. *)
Lemma match_locale_correct b locale :
  match_locale b = Some locale <->
  b = "messages_" +:+ locale +:+ ".properties" /\ locale <> "" /\ str_mem "." locale = false.
Proof.
  split.
  - unfold match_locale. destruct (strip_prefix "messages_" b) as [r|] eqn:E; [|done].
    apply strip_prefix_Some in E as ->.
    pose proof (str_join_split "." r) as Hj. pose proof (str_split_no_slash "." r) as Hn.
    destruct (str_split "." r) as [|l [|e [|]]]; try done.
    destruct (String.eqb_spec e "properties") as [->|]; [|done].
    destruct (String.eqb_spec l "") as [|Hl]; [done|]. intros [= <-].
    inversion Hn; subst. split_and!; [reflexivity|done|done].
  - intros (-> & Hne & Hdot). unfold match_locale. rewrite strip_prefix_app.
    change ".properties" with (String "." "properties").
    rewrite str_split_app, str_split_properties by done.
    rewrite String.eqb_refl. cbn [andb]. by destruct (String.eqb_spec locale "").
Qed.

Lemma cps_join_cons_cons sep x y l :
  cps_join sep (x :: y :: l) = x ++ sep ++ cps_join sep (y :: l).
Proof. done. Qed.

Lemma cps_join_snoc sep parts x :
  parts <> [] -> cps_join sep (parts ++ [x]) = cps_join sep parts ++ sep ++ x.
Proof.
  induction parts as [|y parts IH]; intros Hne; [done|].
  destruct parts as [|z parts]; [done|].
  change ((y :: z :: parts) ++ [x]) with (y :: z :: (parts ++ [x])).
  rewrite !cps_join_cons_cons. change (z :: parts ++ [x]) with ((z :: parts) ++ [x]).
  rewrite IH by done. by rewrite !app_assoc.
Qed.

(** The path [messages/messages_<locale>.properties] and its parts. *)
Lemma messages_path_parts locale :
  str_mem "/" locale = false ->
  let p := "messages/" +:+ "messages_" +:+ locale +:+ ".properties" in
  dirname p = "messages" /\ basename p = "messages_" +:+ locale +:+ ".properties" /\
  str_ends_with (basename p) ".properties" = true.
Proof.
  intros Hs p.
  assert (Hb : str_mem "/" ("messages_" +:+ locale +:+ ".properties") = false)
    by (rewrite !str_mem_app, Hs; done).
  change p with ("messages" +:+ String "/" ("messages_" +:+ locale +:+ ".properties")).
  rewrite dirname_child, basename_child by done.
  split_and!; [done | done |].
  rewrite <- str_app_assoc. apply str_ends_with_app.
Qed.

Lemma transformSourceCode_messages locale src :
  locale <> "" -> str_mem "." locale = false -> str_mem "/" locale = false ->
  transformSourceCode ("messages/" +:+ "messages_" +:+ locale +:+ ".properties") src =
  Ok (utf8_encode (cps_join newline (map str_cps (banner_lines locale) ++ [[]]) ++
                   newline) ++ utf8_encode (utf8_decode src)).
Proof.
  intros Hne Hdot Hs. destruct (messages_path_parts locale Hs) as (Hd & Hb & He).
  unfold transformSourceCode. rewrite Hd, Hb. rewrite Hb in He. rewrite He.
  rewrite String.eqb_refl. cbn [negb].
  rewrite (proj2 (match_locale_correct _ locale)) by done.
  change (str_cps "") with (@nil Z).
  rewrite (app_assoc _ [[]] [utf8_decode src]), cps_join_snoc by (by destruct (banner_lines _)).
  by rewrite app_assoc, utf8_encode_app.
Qed.

(** A file not directly in [messages/], or not named [*.properties], is
    returned unchanged. *)
Lemma transformSourceCode_unchanged p src :
  dirname p <> "messages" \/ str_ends_with (basename p) ".properties" = false ->
  transformSourceCode p src = Ok src.
Proof.
  intros Hp. unfold transformSourceCode.
  destruct (String.eqb_spec (dirname p) "messages") as [Hd|Hd]; [|done].
  destruct Hp as [Hn | Hn]; [done | by rewrite Hn].
Qed.

Lemma utf8_encode_ascii c :
  (byte_to_Z c <= 0x7F)%Z -> utf8_encode [byte_to_Z c] = [c].
Proof.
  intros Hc. pose proof (byte_to_Z_range c). unfold utf8_encode.
  cbn [map concat app]. unfold encode_cp.
  destruct (Z.ltb_spec (byte_to_Z c) 0x80); [|lia]. cbn [map app].
  by rewrite byte_of_to_Z.
Qed.

(** ** Theorems *)

(** C4: the file [messages/messages_<locale>.properties] of well-formed
    UTF-8 content becomes the seven-line banner naming the locale, an empty
    line, and then exactly the original bytes. *)
Theorem transform_messages_banner locale src :
  locale <> "" -> str_mem "." locale = false -> str_mem "/" locale = false ->
  valid_utf8 src ->
  transformSourceCode ("messages/" +:+ "messages_" +:+ locale +:+ ".properties") src =
  Ok (banner_bytes locale ++ src).
Proof.
  intros Hne Hdot Hs Hv. rewrite transformSourceCode_messages by done.
  by rewrite utf8_reencode_valid.
Qed.

Lemma transform_messages_banner_witness :
  valid_utf8 [Byte.x6b; Byte.x3d; Byte.x76] /\
  transformSourceCode "messages/messages_en.properties" [Byte.x6b; Byte.x3d; Byte.x76] =
  Ok (banner_bytes "en" ++ [Byte.x6b; Byte.x3d; Byte.x76]).
Proof.
  assert (Hv : valid_utf8 [Byte.x6b; Byte.x3d; Byte.x76]).
  { exists [0x6B; 0x3D; 0x76]%Z. split; [repeat constructor | reflexivity]. }
  split; [exact Hv|].
  exact (transform_messages_banner "en" _ ltac:(done) ltac:(done) ltac:(done) Hv).
Defined.

(** C5: a byte of a messages file that is not UTF-8 (a non-ASCII byte
    before an ASCII one, as in an ISO-8859-1 file) is not kept: the output
    has the three bytes of U+FFFD in its place. *)
Theorem transform_messages_stray_byte locale b c rest :
  locale <> "" -> str_mem "." locale = false -> str_mem "/" locale = false ->
  (0x80 <= byte_to_Z b)%Z -> (byte_to_Z c <= 0x7F)%Z ->
  transformSourceCode ("messages/" +:+ "messages_" +:+ locale +:+ ".properties")
                      (b :: c :: rest) =
  Ok (banner_bytes locale ++ [Byte.xef; Byte.xbf; Byte.xbd; c] ++
      utf8_encode (utf8_decode rest)).
Proof.
  intros Hne Hdot Hs Hb Hc. rewrite transformSourceCode_messages by done.
  rewrite decode_stray_byte by done. f_equal. unfold banner_bytes. f_equal.
  change (0xFFFD%Z :: byte_to_Z c :: utf8_decode rest)
    with ([0xFFFD%Z] ++ [byte_to_Z c] ++ utf8_decode rest).
  by rewrite !utf8_encode_app, utf8_encode_ascii.
Qed.

Lemma transform_messages_stray_byte_witness :
  transformSourceCode "messages/messages_fr.properties" [Byte.xe9; Byte.x3d] =
  Ok (banner_bytes "fr" ++ [Byte.xef; Byte.xbf; Byte.xbd; Byte.x3d]).
Proof.
  exact (transform_messages_stray_byte "fr" Byte.xe9 Byte.x3d [] ltac:(done) ltac:(done)
           ltac:(done) ltac:(vm_compute; done) ltac:(vm_compute; done)).
Defined.

(** C6: a [.properties] file directly in [messages/] whose name is not
    [messages_<locale>.properties] with a non-empty locale without dot (for
    instance [messages.properties]) makes the callback throw: the assertion
    of line 109 fails and the whole copy is aborted. *)
Theorem transform_messages_bad_name name src :
  name <> "" -> str_mem "/" name = false -> str_ends_with name ".properties" = true ->
  (forall locale, name = "messages_" +:+ locale +:+ ".properties" ->
                  locale = "" \/ str_mem "." locale = true) ->
  transformSourceCode ("messages/" +:+ name) src = Err (CallbackError "assert(match !== null)").
Proof.
  intros Hne Hs He Hbad. unfold transformSourceCode.
  change ("messages/" +:+ name) with ("messages" +:+ String "/" name).
  rewrite dirname_child, basename_child by done. rewrite String.eqb_refl, He. cbn [negb].
  destruct (match_locale name) as [locale|] eqn:Em; [|done].
  apply match_locale_correct in Em as (Hn & Hl & Hd).
  destruct (Hbad locale Hn) as [|Hd']; congruence.
Qed.

Lemma transform_messages_bad_name_witness :
  transformSourceCode "messages/messages.properties" [] =
  Err (CallbackError "assert(match !== null)").
Proof.
  apply transform_messages_bad_name; [done | done | reflexivity |].
  intros locale Hn. exfalso.
  apply (f_equal String.length) in Hn. rewrite !str_length_app in Hn. simpl in Hn. lia.
Defined.

End MessagesTransform.
