(* ===== verification/FileSystem.v ===== *)
(** The file system the pipeline works on (specification, sections 4 and
    6), and the monad its operations are written in.

    A path is a list of segments from the root; the tree is a [gmap] from
    paths to nodes, and the root directory is implicit.  The state of the
    world also records the URLs fetched, so that the theorems can count
    network requests.  An operation [io A] runs on the world and returns a
    result and the world after it: a failing operation keeps the writes it
    made before failing, as real file-system calls do.

    [mkdir_p] is [fs.mkdirSync(p, { recursive: true })], [write_file] is
    [fs.writeFileSync] (ENOENT, ENOTDIR, EISDIR as in Node), [read_file]
    is [fs.readFileSync].  The invariant [fs_wf] says that the parent of
    every node is a directory; both writers preserve it. *)

From S2P Require Import Prelude Contracts.

Module FileSystem.

Inductive node :=
| Dir
| File (data : list byte).

#[export] Instance byte_eq_dec : EqDecision byte := Byte.byte_eq_dec.
#[export] Instance node_eq_dec : EqDecision node.
Proof. solve_decision. Defined.

Record world := World {
  files : gmap (list string) node;
  fetched : list string;
}.

Definition io (A : Type) := world -> result A * world.

Definition io_ret {A} (a : A) : io A := fun w => (Ok a, w).

Definition io_bind {A B} (c : io A) (k : A -> io B) : io B :=
  fun w => match c w with
           | (Ok a, w') => k a w'
           | (Err e, w') => (Err e, w')
           end.

Definition io_fail {A} (e : pipeline_error) : io A := fun w => (Err e, w).

Notation "x <-- c ;; k" := (io_bind c (fun x => k))
  (at level 100, c at next level, right associativity) : kc_scope.

Definition get_node (p : list string) : io (option node) :=
  fun w => (Ok (files w !! p), w).

Definition put_node (p : list string) (n : node) : io unit :=
  fun w => (Ok tt, World (<[p := n]> (files w)) (fetched w)).

(** [fs.mkdirSync(p, { recursive: true })]: each missing ancestor is
    created in turn; a file in the way is ENOTDIR. *)
Fixpoint mkdir_p_go (parent : list string) (segs : list string) : io unit :=
  match segs with
  | [] => io_ret tt
  | s :: segs' =>
      let d := parent ++ [s] in
      n <-- get_node d ;;
      match n with
      | Some (File _) => io_fail (IOError d NotADirectory)
      | Some Dir => mkdir_p_go d segs'
      | None => _ <-- put_node d Dir ;; mkdir_p_go d segs'
      end
  end.

Definition mkdir_p (p : list string) : io unit := mkdir_p_go [] p.

(** [fs.writeFileSync(p, data)]: the parent must be a directory and [p]
    must not be one. *)
Definition write_file (p : list string) (data : list byte) : io unit :=
  match p with
  | [] => io_fail (IOError [] IsADirectory)
  | _ =>
      n <-- get_node p ;;
      match n with
      | Some Dir => io_fail (IOError p IsADirectory)
      | _ =>
          let parent := removelast p in
          pn <-- get_node parent ;;
          match parent, pn with
          | [], _ | _, Some Dir => put_node p (File data)
          | _, Some (File _) => io_fail (IOError parent NotADirectory)
          | _, None => io_fail (IOError parent NoSuchEntry)
          end
      end
  end.

(** [fs.readFileSync(p)]. *)
Definition read_file (p : list string) : io (list byte) :=
  n <-- get_node p ;;
  match n with
  | Some (File d) => io_ret d
  | Some Dir => io_fail (IOError p IsADirectory)
  | None => io_fail (IOError p NoSuchEntry)
  end.

(** The parent of every node is the root or a directory. *)
Definition fs_wf (m : gmap (list string) node) : Prop :=
  forall p s, is_Some (m !! (p ++ [s])) -> p = [] \/ m !! p = Some Dir.

(** [m'] differs from [m] only by new directories. *)
Definition adds_dirs (m m' : gmap (list string) node) : Prop :=
  forall q, m' !! q <> m !! q -> m !! q = None /\ m' !! q = Some Dir.

(** Every node in which [m'] differs from [m] satisfies [R]. *)
Definition changes_within (R : list string -> Prop) (m m' : gmap (list string) node) : Prop :=
  forall q, m' !! q <> m !! q -> R q.

(** A decision procedure for [fs_wf] on a concrete tree. *)
Definition fs_wf_b (m : gmap (list string) node) : bool :=
  bool_decide (map_Forall (fun k _ => removelast k = [] \/ m !! removelast k = Some Dir) m).

Example mkdir_nested :
  fst (mkdir_p ["a"; "b"] (World ∅ [])) = Ok tt /\
  files (snd (mkdir_p ["a"; "b"] (World ∅ []))) !! ["a"] = Some Dir.
Proof. split; reflexivity. Qed.

(** ** Lemmas *)

Lemma adds_dirs_refl m : adds_dirs m m.
Proof. by intros q []. Qed.

Lemma adds_dirs_trans m1 m2 m3 : adds_dirs m1 m2 -> adds_dirs m2 m3 -> adds_dirs m1 m3.
Proof.
  intros H12 H23 q Hq.
  destruct (decide (m2 !! q = m1 !! q)) as [E12|E12];
    destruct (decide (m3 !! q = m2 !! q)) as [E23|E23].
  - congruence.
  - destruct (H23 q E23). split; congruence.
  - destruct (H12 q E12). split; congruence.
  - destruct (H12 q E12), (H23 q E23). split; congruence.
Qed.

Lemma adds_dirs_insert m d : m !! d = None -> adds_dirs m (<[d := Dir]> m).
Proof.
  intros Hd q Hq. destruct (decide (d = q)) as [<-|Hne].
  - by rewrite lookup_insert_eq.
  - by rewrite lookup_insert_ne in Hq.
Qed.

(** A directory added under a directory keeps the tree well formed. *)
Lemma fs_wf_insert_child m parent s n :
  fs_wf m -> (parent = [] \/ m !! parent = Some Dir) ->
  (forall s', m !! (parent ++ [s] ++ [s']) = None \/ n = Dir) ->
  fs_wf (<[parent ++ [s] := n]> m).
Proof.
  intros Hwf Hpar Hchild p s' Hp.
  destruct (decide (parent ++ [s] = p ++ [s'])) as [E|Hne].
  - apply app_inj_tail in E as [<- <-]. destruct Hpar as [|Hpar]; [by left|].
    right. rewrite lookup_insert_ne; [done|]. intros E.
    apply (f_equal length) in E. rewrite length_app in E. simpl in E. lia.
  - rewrite lookup_insert_ne in Hp by done.
    destruct (Hwf p s' Hp) as [|Hd]; [by left|]. right.
    destruct (decide (parent ++ [s] = p)) as [<-|Hne']; [|by rewrite lookup_insert_ne].
    rewrite lookup_insert_eq. destruct (Hchild s') as [Hn | ->]; [|done].
    rewrite <- app_assoc in Hp. rewrite Hn in Hp. by destruct Hp.
Qed.

Lemma mkdir_p_go_fetched parent segs w : fetched (mkdir_p_go parent segs w).2 = fetched w.
Proof.
  revert parent w. induction segs as [|s segs IH]; intros parent w; [done|].
  cbn [mkdir_p_go]. unfold io_bind, get_node, put_node.
  destruct (files w !! (parent ++ [s])) as [[|]|]; simpl; [apply IH | done | by rewrite IH].
Qed.

(** [mkdir_p] only adds directories, and keeps the tree well formed. *)
Lemma mkdir_p_go_adds_dirs parent segs w :
  fs_wf (files w) -> (parent = [] \/ files w !! parent = Some Dir) ->
  adds_dirs (files w) (files (mkdir_p_go parent segs w).2) /\
  fs_wf (files (mkdir_p_go parent segs w).2).
Proof.
  revert parent w. induction segs as [|s segs IH]; intros parent w Hwf Hpar.
  - split; [apply adds_dirs_refl | done].
  - cbn [mkdir_p_go]. unfold io_bind, get_node, put_node.
    destruct (files w !! (parent ++ [s])) as [[|]|] eqn:E; cbn [fst snd].
    + by apply IH; [|right].
    + split; [apply adds_dirs_refl | done].
    + set (w1 := World (<[parent ++ [s] := Dir]> (files w)) (fetched w)).
      destruct (IH (parent ++ [s]) w1) as [H1 H2].
      * apply fs_wf_insert_child; auto.
      * right. apply lookup_insert_eq.
      * split; [|done]. eapply adds_dirs_trans; [|exact H1]. by apply adds_dirs_insert.
Qed.

(** [mkdir_p] touches only the ancestors it walks through. *)
Lemma mkdir_p_go_changes parent segs w q :
  files (mkdir_p_go parent segs w).2 !! q <> files w !! q ->
  exists k, 0 < k <= length segs /\ q = parent ++ take k segs.
Proof.
  revert parent w. induction segs as [|s segs IH]; intros parent w Hq; [done|].
  cbn [mkdir_p_go] in Hq. unfold io_bind, get_node, put_node in Hq.
  destruct (files w !! (parent ++ [s])) as [[|]|] eqn:E; cbn [fst snd] in Hq.
  - destruct (IH _ _ Hq) as (k & Hk & ->). exists (S k). simpl. split; [lia|].
    by rewrite <- app_assoc.
  - done.
  - destruct (decide (files (mkdir_p_go (parent ++ [s]) segs
        (World (<[parent ++ [s]:=Dir]> (files w)) (fetched w))).2 !! q =
        <[parent ++ [s]:=Dir]> (files w) !! q)) as [Hs|Hs].
    + rewrite Hs in Hq. destruct (decide (parent ++ [s] = q)) as [<-|Hne].
      * exists 1. simpl. split; [lia | done].
      * by rewrite lookup_insert_ne in Hq.
    + destruct (IH _ _ Hs) as (k & Hk & ->). exists (S k). simpl. split; [lia|].
      by rewrite <- app_assoc.
Qed.

(** Every ancestor of a node of a well-formed tree is a directory. *)
Lemma fs_wf_ancestors m p n k :
  fs_wf m -> m !! p = Some n -> 0 < k < length p -> m !! take k p = Some Dir.
Proof.
  intros Hwf. revert n k. induction p as [|s p IH] using rev_ind; intros n k Hp Hk;
    [simpl in Hk; lia|].
  rewrite length_app in Hk. simpl in Hk.
  destruct (Hwf p s ltac:(by rewrite Hp)) as [->|Hd]; [simpl in Hk; lia|].
  rewrite take_app_le by lia.
  destruct (decide (k = length p)) as [->|Hne]; [by rewrite take_ge|].
  apply (IH Dir); [done | lia].
Qed.

(** The directories [mkdir_p_go] leaves below an existing [parent ++ [s]]
    and that directory itself. *)
Lemma mkdir_p_go_dirs_cons parent s segs w :
  fs_wf (files w) -> files w !! (parent ++ [s]) = Some Dir ->
  (forall k, 0 < k <= length segs ->
     files (mkdir_p_go (parent ++ [s]) segs w).2 !! ((parent ++ [s]) ++ take k segs) = Some Dir) ->
  forall k, 0 < k <= length (s :: segs) ->
    files (mkdir_p_go (parent ++ [s]) segs w).2 !! (parent ++ take k (s :: segs)) = Some Dir.
Proof.
  intros Hwf E Hdirs [|k] Hk; [lia|]. destruct k as [|k].
  - change (parent ++ take 1 (s :: segs)) with (parent ++ [s]).
    destruct (decide (files (mkdir_p_go (parent ++ [s]) segs w).2 !! (parent ++ [s])
                             = files w !! (parent ++ [s]))) as [E'|E']; [congruence|].
    destruct (proj1 (mkdir_p_go_adds_dirs (parent ++ [s]) segs w Hwf (or_intror E)) _ E').
    congruence.
  - change (take (S (S k)) (s :: segs)) with ([s] ++ take (S k) segs).
    rewrite app_assoc. apply Hdirs. simpl in Hk. lia.
Qed.

Lemma mkdir_p_go_ok parent segs w :
  fs_wf (files w) -> (parent = [] \/ files w !! parent = Some Dir) ->
  (forall k d, 0 < k <= length segs -> files w !! (parent ++ take k segs) <> Some (File d)) ->
  (mkdir_p_go parent segs w).1 = Ok tt /\
  forall k, 0 < k <= length segs ->
            files (mkdir_p_go parent segs w).2 !! (parent ++ take k segs) = Some Dir.
Proof.
  revert parent w. induction segs as [|s segs IH]; intros parent w Hwf Hpar Hnf.
  - split; [done|]. simpl. lia.
  - assert (Hs : forall d, files w !! (parent ++ [s]) <> Some (File d))
      by (intros d; apply (Hnf 1 d); simpl; lia).
    assert (Hrest : forall m', adds_dirs (files w) m' ->
              forall k d, 0 < k <= length segs ->
              m' !! ((parent ++ [s]) ++ take k segs) <> Some (File d)).
    { intros m' Had k d Hk Hf. destruct (decide (m' !! ((parent ++ [s]) ++ take k segs) =
        files w !! ((parent ++ [s]) ++ take k segs))) as [E|E].
      - apply (Hnf (S k) d); [simpl; lia|]. cbn [take].
        replace (parent ++ s :: take k segs) with ((parent ++ [s]) ++ take k segs)
          by (by rewrite <- app_assoc). by rewrite <- E.
      - destruct (Had _ E). congruence. }
    cbn [mkdir_p_go]. unfold io_bind, get_node, put_node.
    destruct (files w !! (parent ++ [s])) as [[|d0]|] eqn:E; cbn [fst snd].
    + destruct (IH (parent ++ [s]) w Hwf (or_intror E)) as [Hok Hdirs].
      { apply Hrest, adds_dirs_refl. }
      split; [done|]. by apply mkdir_p_go_dirs_cons.
    + by destruct (Hs d0).
    + set (w1 := World (<[parent ++ [s] := Dir]> (files w)) (fetched w)).
      assert (Hwf1 : fs_wf (files w1)) by (apply fs_wf_insert_child; auto).
      assert (Hd1 : files w1 !! (parent ++ [s]) = Some Dir) by apply lookup_insert_eq.
      destruct (IH (parent ++ [s]) w1 Hwf1 (or_intror Hd1)) as [Hok Hdirs].
      { apply Hrest, adds_dirs_insert, E. }
      split; [done|]. by apply mkdir_p_go_dirs_cons.
Qed.

(** [writeFileSync] either writes the file at [p] (when [p] is not a
    directory and its parent is the root or a directory) or fails without
    changing the world. *)
Lemma write_file_cases (p : list string) (data : list byte) (w : world) :
  (p <> [] /\ files w !! p <> Some Dir /\
   (removelast p = [] \/ files w !! removelast p = Some Dir) /\
   write_file p data w = (Ok tt, World (<[p := File data]> (files w)) (fetched w))) \/
  exists e, write_file p data w = (Err e, w).
Proof.
  unfold write_file, io_bind, get_node, put_node, io_fail.
  destruct p as [|s p]; [right; eauto|].
  destruct (_ !! (s :: p)) as [[|d]|] eqn:E; [right; eauto| |];
    destruct (removelast (s :: p)) as [|x q] eqn:Er;
    try (left; split_and!; [done | congruence | by left | done]);
    destruct (_ !! (x :: q)) as [[|d']|] eqn:Ep;
    try (left; split_and!; [done | congruence | by right | done]); right; eauto.
Qed.

Lemma write_file_ok (p : list string) (data : list byte) (w : world) :
  p <> [] -> files w !! p <> Some Dir ->
  (removelast p = [] \/ files w !! removelast p = Some Dir) ->
  write_file p data w = (Ok tt, World (<[p := File data]> (files w)) (fetched w)).
Proof.
  intros Hp Hnd Hpar. unfold write_file, io_bind, get_node, put_node, io_fail.
  destruct p as [|s p]; [done|].
  destruct (_ !! (s :: p)) as [[|d]|]; [done| |];
    (destruct Hpar as [Hr | Hr]; [by rewrite Hr|];
     destruct (removelast (s :: p)); [done | by rewrite Hr]).
Qed.

(** Writing a file where [write_file] succeeds keeps the tree well formed. *)
Lemma fs_wf_write (m : gmap (list string) node) (p : list string) data :
  fs_wf m -> p <> [] -> m !! p <> Some Dir ->
  (removelast p = [] \/ m !! removelast p = Some Dir) ->
  fs_wf (<[p := File data]> m).
Proof.
  intros Hwf Hp Hnd Hpar.
  destruct (exists_last Hp) as (par & s & ->). rewrite removelast_last in Hpar.
  apply fs_wf_insert_child; [done | done |]. intros s'. left.
  rewrite app_assoc. destruct (m !! ((par ++ [s]) ++ [s'])) eqn:E; [|done].
  destruct (Hwf (par ++ [s]) s' ltac:(by rewrite E)); [destruct par; discriminate | congruence].
Qed.

Lemma adds_dirs_file m m' q d :
  adds_dirs m m' -> m !! q = Some (File d) -> m' !! q = Some (File d).
Proof.
  intros Had Hq. destruct (decide (m' !! q = m !! q)) as [E|E]; [congruence|].
  destruct (Had q E); congruence.
Qed.

Lemma adds_dirs_no_file m m' q d :
  adds_dirs m m' -> m' !! q = Some (File d) -> m' !! q = m !! q.
Proof.
  intros Had Hq. destruct (decide (m' !! q = m !! q)) as [E|E]; [done|].
  destruct (Had q E); congruence.
Qed.

Lemma write_file_fetched p data w : fetched (write_file p data w).2 = fetched w.
Proof. by destruct (write_file_cases p data w) as [(_ & _ & _ & ->) | (e & ->)]. Qed.

Lemma fs_wf_b_sound m : fs_wf_b m = true -> fs_wf m.
Proof.
  unfold fs_wf_b. rewrite bool_decide_eq_true. intros Hall p s [n Hn].
  destruct (Hall _ _ Hn) as [E|E]; rewrite removelast_last in E; auto.
Qed.

(** When [mkdir_p] succeeds, the directory is there. *)
Lemma mkdir_p_go_Ok parent segs w :
  (mkdir_p_go parent segs w).1 = Ok tt -> segs <> [] ->
  files (mkdir_p_go parent segs w).2 !! (parent ++ segs) = Some Dir.
Proof.
  revert parent w. induction segs as [|s segs IH]; intros parent w Hok Hne; [done|].
  cbn [mkdir_p_go] in *. unfold io_bind, get_node, put_node, io_fail in *.
  replace (parent ++ s :: segs) with ((parent ++ [s]) ++ segs) by (by rewrite <- app_assoc).
  destruct (files w !! (parent ++ [s])) as [[|d]|] eqn:E; cbn [fst snd] in *; [| done |].
  - destruct segs as [|s' segs]; [by rewrite app_nil_r | by apply IH].
  - destruct segs as [|s' segs]; [rewrite app_nil_r; apply lookup_insert_eq | by apply IH].
Qed.

(** [mkdir_p] changes nothing but the prefixes of its path. *)
Lemma mkdir_p_go_other parent segs w q :
  (forall k, 0 < k <= length segs -> q <> parent ++ take k segs) ->
  files (mkdir_p_go parent segs w).2 !! q = files w !! q.
Proof.
  intros Hq. destruct (decide (files (mkdir_p_go parent segs w).2 !! q = files w !! q)) as [|E];
    [done|].
  destruct (mkdir_p_go_changes parent segs w q E) as (k & Hk & ->). by destruct (Hq k).
Qed.

Lemma changes_within_refl R m : changes_within R m m.
Proof. by intros q []. Qed.

Lemma changes_within_trans (R : list string -> Prop) m1 m2 m3 :
  changes_within R m1 m2 -> changes_within R m2 m3 -> changes_within R m1 m3.
Proof.
  intros H12 H23 q Hq.
  destruct (decide (m2 !! q = m1 !! q)) as [E|E]; [apply H23; congruence | by apply H12].
Qed.

Lemma changes_within_mono (R S : list string -> Prop) m m' :
  (forall q, R q -> S q) -> changes_within R m m' -> changes_within S m m'.
Proof. intros HRS H q Hq. by apply HRS, H. Qed.

End FileSystem.
