(* ===== verification/Extractor.v ===== *)
(** The archive extractor (specification, section 4.3) and the scoped
    [writeFile] it hands to the per-entry callback (section 4.4).

    The archive is a list of entries in listing order, read from the
    fetched bytes by an [ArchiveFormat] (a malformed container is
    [ArchiveFormatError]).  Directory entries are not presented to the
    callback: like the extractor of the tool, which reads the entries of
    the zip one by one and passes on the files, the model creates every
    directory from the paths of the files written under it, so that a
    directory is created before any file beneath it whatever the listing
    order.  A file entry is given to the [EntryFilter]; on [WriteAt t] the
    target is resolved against the extraction root and must lie strictly
    inside it ([target_in]), otherwise the extraction stops with
    [PathTraversalError t]; the bytes are written unchanged at the target
    after its parent directories are created.

    The theorems: extraction changes nothing outside the root, whatever
    the filter answers and even when it fails half way (safety, section
    8); every file under the root comes from an entry the filter accepted,
    with the entry's bytes (provenance, hence filter completeness); when
    it succeeds every accepted entry is present at its target; a file
    entry is written with all its missing ancestors (directory ordering). *)

From S2P Require Import Prelude NodePath Contracts FileSystem.

Module Extractor.
Import NodePath FileSystem.

Record archive_entry := ArchiveEntry {
  entry_path : string;
  entry_is_dir : bool;
  entry_bytes : list byte;
}.

(** The container format: the entries of the archive, or [None] when the
    bytes are not a well-formed container. *)
Class ArchiveFormat := parse_archive : list byte -> option (list archive_entry).

(** The segments of a write target below the root [root], when the target
    resolves strictly inside it. *)
Definition target_in (root : list string) (t : string) : option (list string) :=
  match strip_common root (resolve root t) with
  | ([], (_ :: _) as rel) => Some rel
  | _ => None
  end.

(** The scoped [writeFile]: create the parent directories, then write. *)
Definition write_entry (root rel : list string) (data : list byte) : io unit :=
  _ <-- mkdir_p (root ++ removelast rel) ;;
  write_file (root ++ rel) data.

Section Extract.
Context `{EntryFilter}.

Definition extract_entry (root : list string) (e : archive_entry) : io unit :=
  if entry_is_dir e then io_ret tt else
  match on_entry (entry_path e) with
  | Skip => io_ret tt
  | WriteAt t =>
      match target_in root t with
      | None => io_fail (PathTraversalError t)
      | Some rel => write_entry root rel (entry_bytes e)
      end
  end.

(** The entries in listing order; the first failure aborts. *)
Fixpoint extract_entries (root : list string) (es : list archive_entry) : io unit :=
  match es with
  | [] => io_ret tt
  | e :: es' => _ <-- extract_entry root e ;; extract_entries root es'
  end.

Definition extract `{ArchiveFormat} (root : list string) (bytes : list byte) : io unit :=
  match parse_archive bytes with
  | None => io_fail ArchiveFormatError
  | Some es => extract_entries root es
  end.

(** The nodes an accepted entry [e] may write: its bytes at its target. *)
Definition accepted (root : list string) (e : archive_entry) (q : list string)
    (d : list byte) : Prop :=
  exists t rel, entry_is_dir e = false /\ on_entry (entry_path e) = WriteAt t /\
    target_in root t = Some rel /\ q = root ++ rel /\ entry_bytes e = d.

End Extract.

(** [m'] differs from [m] only strictly below [root]. *)
Definition confined (root : list string) (m m' : gmap (list string) node) : Prop :=
  changes_within (fun q => exists r, r <> [] /\ q = root ++ r) m m'.

(** The tree is well formed and the root is a directory. *)
Definition root_ok (root : list string) (m : gmap (list string) node) : Prop :=
  fs_wf m /\ m !! root = Some Dir.

(** The effect of an extraction step from [m] to [m']: the root stays a
    directory of a well-formed tree, nothing outside it changes, every file
    that changed satisfies [allowed], and no file disappears. *)
Definition extract_effect (root : list string) (m m' : gmap (list string) node)
    (allowed : list string -> list byte -> Prop) : Prop :=
  root_ok root m' /\ confined root m m' /\
  (forall q d, m' !! q = Some (File d) -> m' !! q <> m !! q -> allowed q d) /\
  (forall q d, m !! q = Some (File d) -> exists d', m' !! q = Some (File d')).

(** ** The examples of section 8 *)

Definition root_ex : list string := ["cache"; "k"].
Definition world_ex : world := World (<[["cache"] := Dir]> (<[root_ex := Dir]> ∅)) [].

(** Filter completeness: entries [a/x.txt] and [b/y.txt] and a filter that
    keeps the paths under [a/], renamed relative to [a]. *)
Definition under_a : EntryFilter := fun p =>
  if str_starts_with p "a/" then WriteAt (relative [] "a" p) else Skip.

(** A filter that keeps every entry at its own path. *)
Definition keep_all : EntryFilter := fun p => WriteAt p.

(** ** Lemmas *)

Lemma confined_refl root m : confined root m m.
Proof. apply changes_within_refl. Qed.

Lemma confined_trans root m1 m2 m3 :
  confined root m1 m2 -> confined root m2 m3 -> confined root m1 m3.
Proof. apply changes_within_trans. Qed.

Lemma target_in_Some root t rel :
  target_in root t = Some rel -> rel <> [] /\ resolve root t = root ++ rel.
Proof.
  unfold target_in. destruct (strip_common root (resolve root t)) as [[|] [|x r]] eqn:E;
    intros; simplify_eq. split; [done|]. by apply strip_common_prefix.
Qed.

(** A target made of ordinary segments is inside the root. *)
Lemma target_in_join root rel :
  rel <> [] -> Forall (fun x => seg_ok x = true) rel ->
  target_in root (str_join "/" rel) = Some rel.
Proof.
  intros Hne Hok. unfold target_in. rewrite resolve_join_ok by done.
  rewrite <- (app_nil_r root) at 1. rewrite strip_common_app, strip_common_nil_l.
  by destruct rel.
Qed.

(** The empty target names the root itself, which is refused. *)
Lemma target_in_empty root : target_in root "" = None.
Proof. unfold target_in. by rewrite resolve_empty, strip_common_self. Qed.

Lemma root_ancestors root m k :
  root_ok root m -> 0 < k <= length root -> m !! take k root = Some Dir.
Proof.
  intros [Hwf Hr] Hk. destruct (decide (k = length root)) as [->|Hne].
  - by rewrite take_ge.
  - eapply fs_wf_ancestors; [done | exact Hr | lia].
Qed.

Lemma mkdir_p_root root segs w :
  root_ok root (files w) ->
  root_ok root (files (mkdir_p (root ++ segs) w).2) /\
  confined root (files w) (files (mkdir_p (root ++ segs) w).2) /\
  adds_dirs (files w) (files (mkdir_p (root ++ segs) w).2).
Proof.
  intros [Hwf Hr].
  destruct (mkdir_p_go_adds_dirs [] (root ++ segs) w Hwf (or_introl eq_refl)) as [Had Hwf'].
  assert (Hkeep : forall q, files w !! q = Some Dir ->
                  files (mkdir_p (root ++ segs) w).2 !! q = Some Dir).
  { intros q Hq. destruct (decide (files (mkdir_p (root ++ segs) w).2 !! q = files w !! q))
      as [E|E]; [congruence|]. destruct (Had q E); congruence. }
  split_and!; [split; [done | by apply Hkeep] | | done].
  intros q Hq. destruct (mkdir_p_go_changes [] (root ++ segs) w q Hq) as (k & Hk & ->).
  simpl. rewrite length_app in Hk. destruct (decide (k <= length root)).
  - rewrite take_app_le in Hq |- * by lia.
    destruct (Had _ Hq) as [Hn _]. rewrite (root_ancestors root _ k) in Hn; [done | | lia].
    by split.
  - rewrite take_app_ge by lia. exists (take (k - length root) segs). split; [|done].
    intros E. apply (f_equal length) in E. rewrite length_take in E. simpl in E. lia.
Qed.

Lemma write_file_root root rel d w :
  rel <> [] -> root_ok root (files w) ->
  root_ok root (files (write_file (root ++ rel) d w).2) /\
  confined root (files w) (files (write_file (root ++ rel) d w).2).
Proof.
  intros Hne [Hwf Hr].
  assert (Hroot : root ++ rel <> root).
  { intros E. apply Hne, (app_inv_head root). by rewrite app_nil_r. }
  destruct (write_file_cases (root ++ rel) d w) as [(Hp & Hnd & Hpar & ->) | (e & ->)];
    simpl; [|split; [done | apply confined_refl]].
  split; [split; [by apply fs_wf_write | by rewrite lookup_insert_ne]|].
  intros q Hq. destruct (decide (root ++ rel = q)) as [<-|]; [by exists rel|].
  by rewrite lookup_insert_ne in Hq.
Qed.

Lemma extract_effect_refl root m A : root_ok root m -> extract_effect root m m A.
Proof. intros Hok. split_and!; [done | apply confined_refl | by intros ?? _ [] | eauto]. Qed.

Lemma extract_effect_trans root m1 m2 m3 (A B : list string -> list byte -> Prop) :
  extract_effect root m1 m2 A -> extract_effect root m2 m3 B ->
  extract_effect root m1 m3 (fun q d => A q d \/ B q d).
Proof.
  intros (_ & Hc1 & Hp1 & Hk1) (Hok & Hc2 & Hp2 & Hk2).
  split_and!; [done | by eapply confined_trans | |].
  - intros q d Hq Hne. destruct (decide (m3 !! q = m2 !! q)) as [E|E]; [|by right; apply Hp2].
    left. apply Hp1; congruence.
  - intros q d Hq. destruct (Hk1 q d Hq) as [d' Hd']. by apply (Hk2 q d').
Qed.

Lemma extract_effect_mono root m m' (A B : list string -> list byte -> Prop) :
  (forall q d, A q d -> B q d) -> extract_effect root m m' A -> extract_effect root m m' B.
Proof. intros HAB (? & ? & Hp & ?). split_and!; auto. Qed.

(** The scoped [writeFile] writes the entry's bytes at its target and, on
    the way, only directories strictly below the root. *)
Lemma write_entry_effect root rel data w :
  rel <> [] -> root_ok root (files w) ->
  extract_effect root (files w) (files (write_entry root rel data w).2)
                 (fun q d => q = root ++ rel /\ d = data) /\
  fetched (write_entry root rel data w).2 = fetched w /\
  ((write_entry root rel data w).1 = Ok tt ->
   files (write_entry root rel data w).2 !! (root ++ rel) = Some (File data)).
Proof.
  intros Hne Hok. pose proof (mkdir_p_root root (removelast rel) w Hok) as (Hok1 & Hc1 & Had).
  assert (Hf1 : fetched (mkdir_p (root ++ removelast rel) w).2 = fetched w)
    by apply mkdir_p_go_fetched.
  assert (Heff1 : extract_effect root (files w) (files (mkdir_p (root ++ removelast rel) w).2)
                    (fun q d => q = root ++ rel /\ d = data)).
  { split_and!; [done | done | | eauto using adds_dirs_file].
    intros q d Hq Hne'. by erewrite adds_dirs_no_file in Hne'. }
  unfold write_entry, io_bind.
  destruct (mkdir_p (root ++ removelast rel) w) as [[[]|e] w1] eqn:E; cbn [fst snd] in *;
    [|split_and!; [done | done | done]].
  destruct (write_file_root root rel data w1 Hne Hok1) as [Hok2 Hc2].
  rewrite <- Hf1, <- (write_file_fetched (root ++ rel) data w1).
  destruct (write_file_cases (root ++ rel) data w1) as [(_ & _ & _ & Hw) | (e & Hw)];
    rewrite Hw in Hok2, Hc2 |- *; cbn [fst snd files] in *;
    [|split_and!; [done | done | done]].
  split_and!; [|done | by rewrite lookup_insert_eq].
  assert (Heff2 : extract_effect root (files w1) (<[root ++ rel := File data]> (files w1))
                    (fun q d => q = root ++ rel /\ d = data)).
  { split_and!; [done | done | |].
    - intros q d Hq Hne'. destruct (decide (root ++ rel = q)) as [<-|Hq'];
        [rewrite lookup_insert_eq in Hq; by simplify_eq | by rewrite lookup_insert_ne in Hne'].
    - intros q d Hq. destruct (decide (root ++ rel = q)) as [<-|Hq'];
        [rewrite lookup_insert_eq; eauto | rewrite lookup_insert_ne; eauto]. }
  eapply extract_effect_mono; [|exact (extract_effect_trans _ _ _ _ _ _ Heff1 Heff2)].
  by intros q d [|].
Qed.

(** Creating [root ++ segs] in a root that is still empty succeeds, makes
    every prefix a directory, and changes only the prefixes below [root]. *)
Lemma mkdir_p_fresh root segs w :
  root_ok root (files w) -> (forall r, r <> [] -> files w !! (root ++ r) = None) ->
  (mkdir_p (root ++ segs) w).1 = Ok tt /\
  (forall k, 0 < k <= length (root ++ segs) ->
     files (mkdir_p (root ++ segs) w).2 !! take k (root ++ segs) = Some Dir) /\
  (forall q, files (mkdir_p (root ++ segs) w).2 !! q <> files w !! q ->
     exists k, length root < k <= length (root ++ segs) /\ q = take k (root ++ segs)).
Proof.
  intros Hok Hempty.
  assert (Hanc : forall k, 0 < k <= length root -> files w !! take k (root ++ segs) = Some Dir).
  { intros k Hk. rewrite take_app_le by lia. by apply root_ancestors. }
  destruct (mkdir_p_go_ok [] (root ++ segs) w (proj1 Hok) (or_introl eq_refl)) as [H1 H2].
  { intros k d Hk. simpl. destruct (decide (k <= length root)); [rewrite Hanc; [done | lia]|].
    rewrite take_app_ge by lia. rewrite Hempty; [done|].
    intros E. apply (f_equal length) in E. rewrite length_take, length_app in *. simpl in E. lia. }
  split_and!; [done | exact H2 |].
  intros q Hq. destruct (mkdir_p_go_changes [] (root ++ segs) w q Hq) as (k & Hk & ->).
  exists k. split; [|done]. destruct (decide (k <= length root)); [|lia].
  destruct (proj1 (proj2 (mkdir_p_root root segs w Hok)) _ Hq) as (r & Hr & E).
  apply (f_equal length) in E. simpl in E. rewrite length_take, !length_app in E.
  destruct r; [done | simpl in E; lia].
Qed.

Lemma take_removelast {A} k (l : list A) : k < length l -> take k (removelast l) = take k l.
Proof. apply firstn_removelast. Qed.

(** A file no allowed write touches keeps its bytes. *)
Lemma extract_effect_keeps root m m' (A : list string -> list byte -> Prop) q d :
  extract_effect root m m' A -> m !! q = Some (File d) -> (forall d', ~ A q d') ->
  m' !! q = Some (File d).
Proof.
  intros (_ & _ & Hp & Hk) Hq HA. destruct (Hk q d Hq) as [d' Hd'].
  destruct (decide (m' !! q = m !! q)) as [E|E]; [congruence|].
  destruct (HA d'). by apply (Hp q d').
Qed.

Lemma write_entry_fetched root rel data w :
  fetched (write_entry root rel data w).2 = fetched w.
Proof.
  unfold write_entry, io_bind.
  pose proof (mkdir_p_go_fetched [] (root ++ removelast rel) w) as Hf. unfold mkdir_p.
  destruct (mkdir_p_go [] (root ++ removelast rel) w) as [[] w1]; simpl in *;
    [by rewrite write_file_fetched | done].
Qed.

Section ExtractLemmas.
Context `{EntryFilter}.

Lemma extract_entry_effect root e w :
  root_ok root (files w) ->
  extract_effect root (files w) (files (extract_entry root e w).2) (accepted root e) /\
  fetched (extract_entry root e w).2 = fetched w /\
  ((extract_entry root e w).1 = Ok tt ->
   forall t, entry_is_dir e = false -> on_entry (entry_path e) = WriteAt t ->
   exists rel, target_in root t = Some rel /\
     files (extract_entry root e w).2 !! (root ++ rel) = Some (File (entry_bytes e))).
Proof.
  intros Hok. unfold extract_entry.
  destruct (entry_is_dir e) eqn:Hd; [split_and!; [by apply extract_effect_refl | done | done]|].
  destruct (on_entry (entry_path e)) as [|t] eqn:Ht;
    [split_and!; [by apply extract_effect_refl | done | done]|].
  destruct (target_in root t) as [rel|] eqn:Hr;
    [|split_and!; [by apply extract_effect_refl | done | done]].
  destruct (target_in_Some _ _ _ Hr) as [Hne _].
  destruct (write_entry_effect root rel (entry_bytes e) w Hne Hok) as (Heff & Hf & Hw).
  split_and!; [| done | intros Hok' t' _ [= <-]; eauto].
  eapply extract_effect_mono; [|exact Heff]. intros q d [-> ->]. by exists t, rel.
Qed.

Lemma extract_entries_effect root es w :
  root_ok root (files w) ->
  extract_effect root (files w) (files (extract_entries root es w).2)
                 (fun q d => exists e, e ∈ es /\ accepted root e q d) /\
  fetched (extract_entries root es w).2 = fetched w.
Proof.
  revert w. induction es as [|e es IH]; intros w Hok; [split; [by apply extract_effect_refl | done]|].
  cbn [extract_entries]. unfold io_bind.
  destruct (extract_entry_effect root e w Hok) as (Heff1 & Hf1 & _).
  destruct (extract_entry root e w) as [[[]|err] w1]; cbn [fst snd] in *.
  - destruct (IH w1 ltac:(apply Heff1)) as [Heff2 Hf2]. split; [|congruence].
    eapply extract_effect_mono; [|exact (extract_effect_trans _ _ _ _ _ _ Heff1 Heff2)].
    intros q d [Ha | (e' & He' & Ha)]; [exists e | exists e']; rewrite elem_of_cons; auto.
  - split; [|done]. eapply extract_effect_mono; [|exact Heff1].
    intros q d Ha. exists e. rewrite elem_of_cons. auto.
Qed.

Lemma extract_entries_fetched root es w : fetched (extract_entries root es w).2 = fetched w.
Proof.
  revert w. induction es as [|e es IH]; intros w; [done|]. cbn [extract_entries]. unfold io_bind.
  assert (He : fetched (extract_entry root e w).2 = fetched w).
  { unfold extract_entry. destruct (entry_is_dir e), (on_entry (entry_path e)) as [|t];
      try done; destruct (target_in root t); [apply write_entry_fetched | done]. }
  destruct (extract_entry root e w) as [[] w1]; simpl in *; [by rewrite IH | done].
Qed.

Lemma extract_fetched `{ArchiveFormat} root bytes w : fetched (extract root bytes w).2 = fetched w.
Proof. unfold extract. destruct (parse_archive bytes); [apply extract_entries_fetched | done]. Qed.

Lemma extract_effect_archive `{ArchiveFormat} root bytes w :
  root_ok root (files w) ->
  extract_effect root (files w) (files (extract root bytes w).2)
    (fun q d => exists es e, parse_archive bytes = Some es /\ e ∈ es /\ accepted root e q d).
Proof.
  intros Hok. unfold extract. destruct (parse_archive bytes) as [es|]; [|by apply extract_effect_refl].
  eapply extract_effect_mono; [|exact (proj1 (extract_entries_effect root es w Hok))].
  intros q d (e & He & Ha). eauto.
Qed.

End ExtractLemmas.

(** ** Theorems *)

Section ExtractTheorems.
Context `{EntryFilter}.

(** path-traversal safety.  Whatever the filter answers and whatever
    the entries are called, extracting into a directory [root] of a
    well-formed tree changes no node outside [root], and not [root] itself;
    this holds also when the extraction fails half way, for the writes it
    made before failing. *)
Theorem extract_entries_confined root es w :
  fs_wf (files w) -> files w !! root = Some Dir ->
  forall q, files (extract_entries root es w).2 !! q <> files w !! q ->
  exists r, r <> [] /\ q = root ++ r.
Proof. intros Hwf Hr. apply (extract_entries_effect root es w (conj Hwf Hr)). Qed.

(** provenance.  Every file the extraction creates or changes holds
    the bytes of a file entry of the archive that the filter accepted, at
    the target the filter chose, resolved below [root]: nothing else is
    written (filter completeness), and the bytes are copied unchanged. *)
Theorem extract_entries_provenance root es w q d :
  fs_wf (files w) -> files w !! root = Some Dir ->
  files (extract_entries root es w).2 !! q = Some (File d) ->
  files (extract_entries root es w).2 !! q <> files w !! q ->
  exists e t rel, e ∈ es /\ entry_is_dir e = false /\ on_entry (entry_path e) = WriteAt t /\
    target_in root t = Some rel /\ q = root ++ rel /\ entry_bytes e = d.
Proof.
  intros Hwf Hr Hq Hne.
  destruct (extract_entries_effect root es w (conj Hwf Hr)) as ((_ & _ & Hp & _) & _).
  destruct (Hp q d Hq Hne) as (e & He & t & rel & ?). exists e, t, rel. by split.
Qed.

(** when the extraction succeeds, every file entry the filter
    accepted had a target inside [root] (so a target outside it makes the
    extraction fail), and a file is present at that target. *)
Theorem extract_entries_complete root es w :
  fs_wf (files w) -> files w !! root = Some Dir ->
  (extract_entries root es w).1 = Ok tt ->
  forall e t, e ∈ es -> entry_is_dir e = false -> on_entry (entry_path e) = WriteAt t ->
  exists rel d, target_in root t = Some rel /\
    files (extract_entries root es w).2 !! (root ++ rel) = Some (File d).
Proof.
  intros Hwf Hr. revert w Hwf Hr. induction es as [|e0 es IH]; intros w Hwf Hr Hres e t He Hd Ht;
    [by apply elem_of_nil in He|].
  cbn [extract_entries] in *. unfold io_bind in *.
  destruct (extract_entry_effect root e0 w (conj Hwf Hr)) as ((Hok1 & _) & _ & Hw1).
  destruct (extract_entry root e0 w) as [[[]|err] w1]; cbn [fst snd] in *; [|done].
  destruct Hok1 as [Hwf1 Hr1]. apply elem_of_cons in He as [->|He]; [|by eapply IH].
  destruct (Hw1 eq_refl t Hd Ht) as (rel & Hrel & Hf). exists rel.
  destruct (extract_entries_effect root es w1 (conj Hwf1 Hr1)) as ((_ & _ & _ & Hk) & _).
  destruct (Hk _ _ Hf) as [d' Hd']. eauto.
Qed.

(** directory ordering.  A file entry accepted at a target inside a
    root that is still empty is written with its bytes, and every directory
    between the root and the file is created first, although the archive
    lists no directory entry. *)
Theorem extract_entry_nested root e t rel w :
  fs_wf (files w) -> files w !! root = Some Dir ->
  (forall r, r <> [] -> files w !! (root ++ r) = None) ->
  entry_is_dir e = false -> on_entry (entry_path e) = WriteAt t -> target_in root t = Some rel ->
  (extract_entry root e w).1 = Ok tt /\
  files (extract_entry root e w).2 !! (root ++ rel) = Some (File (entry_bytes e)) /\
  forall k, 0 < k < length rel ->
    files (extract_entry root e w).2 !! (root ++ take k rel) = Some Dir.
Proof.
  intros Hwf Hr Hempty Hd Ht Hrel. destruct (target_in_Some _ _ _ Hrel) as [Hne _].
  unfold extract_entry. rewrite Hd, Ht, Hrel. unfold write_entry, io_bind.
  destruct (mkdir_p_fresh root (removelast rel) w (conj Hwf Hr) Hempty) as (Hok & Hdirs & Hch).
  destruct (mkdir_p (root ++ removelast rel) w) as [r1 w1]; cbn [fst snd] in *; subst r1.
  assert (Hlen : length (removelast rel) = length rel - 1)
    by (destruct (exists_last Hne) as (l & x & ->); rewrite removelast_last, length_app; simpl; lia).
  assert (Hnew : files w1 !! (root ++ rel) = None).
  { destruct (decide (files w1 !! (root ++ rel) = files w !! (root ++ rel))) as [->|E];
      [by apply Hempty|].
    destruct (Hch _ E) as (k & Hk & Hq). apply (f_equal length) in Hq.
    rewrite length_take, !length_app in *. lia. }
  rewrite write_file_ok.
  - cbn [fst snd files]. split_and!; [done | by rewrite lookup_insert_eq |].
    intros k Hk. rewrite lookup_insert_ne.
    + rewrite <- take_removelast by lia. rewrite <- take_app_add.
      apply Hdirs. rewrite length_app, Hlen. lia.
    + intros E. apply (f_equal length) in E. rewrite !length_app, length_take in E. lia.
  - by destruct root.
  - by rewrite Hnew.
  - rewrite removelast_app by done.
    destruct (root ++ removelast rel) as [|x l] eqn:E; [by left|]. right.
    rewrite <- (take_ge (x :: l) (length (x :: l))) by done. apply Hdirs. simpl. lia.
Qed.

End ExtractTheorems.

Lemma world_ex_wf : fs_wf (files world_ex).
Proof. apply fs_wf_b_sound. vm_compute. reflexivity. Qed.

Lemma extract_entries_confined_witness :
  forall q, files (@extract_entries keep_all root_ex
                     [ArchiveEntry "x/../../k2/evil" false [x41]; ArchiveEntry "a/b" false [x42]]
                     world_ex).2 !! q <> files world_ex !! q ->
  exists r, r <> [] /\ q = root_ex ++ r.
Proof. apply (@extract_entries_confined keep_all); [exact world_ex_wf | reflexivity]. Defined.

Lemma extract_entries_provenance_witness :
  exists e t rel, e ∈ [ArchiveEntry "a/x.txt" false [x31]; ArchiveEntry "b/y.txt" false [x32]] /\
    entry_is_dir e = false /\ under_a (entry_path e) = WriteAt t /\
    target_in root_ex t = Some rel /\ root_ex ++ ["x.txt"] = root_ex ++ rel /\
    entry_bytes e = [x31].
Proof.
  apply (@extract_entries_provenance under_a root_ex
           [ArchiveEntry "a/x.txt" false [x31]; ArchiveEntry "b/y.txt" false [x32]] world_ex);
    [exact world_ex_wf | reflexivity | vm_compute; reflexivity | vm_compute; discriminate].
Defined.

Lemma extract_entries_complete_witness :
  exists rel d, target_in root_ex "x.txt" = Some rel /\
    files (@extract_entries under_a root_ex
             [ArchiveEntry "a/x.txt" false [x31]; ArchiveEntry "a/x.txt" false [x33]]
             world_ex).2 !! (root_ex ++ rel) = Some (File d).
Proof.
  apply (@extract_entries_complete under_a root_ex _ world_ex world_ex_wf eq_refl)
    with (e := ArchiveEntry "a/x.txt" false [x31]);
    [vm_compute; reflexivity | by apply elem_of_cons; left | reflexivity | reflexivity].
Defined.

Lemma extract_entry_nested_witness :
  (@extract_entry keep_all root_ex (ArchiveEntry "a/b/file.txt" false [x41]) world_ex).1 = Ok tt /\
  files (@extract_entry keep_all root_ex (ArchiveEntry "a/b/file.txt" false [x41]) world_ex).2
    !! (root_ex ++ ["a"; "b"; "file.txt"]) = Some (File [x41]) /\
  forall k, 0 < k < length ["a"; "b"; "file.txt"] ->
    files (@extract_entry keep_all root_ex (ArchiveEntry "a/b/file.txt" false [x41]) world_ex).2
      !! (root_ex ++ take k ["a"; "b"; "file.txt"]) = Some Dir.
Proof.
  apply (@extract_entry_nested keep_all root_ex (ArchiveEntry "a/b/file.txt" false [x41])
           "a/b/file.txt" ["a"; "b"; "file.txt"] world_ex);
    [exact world_ex_wf | reflexivity | | reflexivity | reflexivity | reflexivity].
  intros r Hr. destruct r as [|s r]; [done|]. unfold root_ex, world_ex. cbn [files].
  rewrite !lookup_insert_ne by (intros E; apply (f_equal length) in E; simpl in E; lia).
  apply lookup_empty.
Defined.

(** ** Examples (section 8) *)

Example extract_filter_completeness :
  let w := (@extract_entries under_a root_ex
              [ArchiveEntry "a/x.txt" false [x31]; ArchiveEntry "b/y.txt" false [x32]]
              world_ex) in
  w.1 = Ok tt /\ files w.2 = <[root_ex ++ ["x.txt"] := File [x31]]> (files world_ex).
Proof. split; [vm_compute; reflexivity | cbv zeta; apply (bool_decide_eq_true_1 (_ = _)); vm_compute; reflexivity]. Qed.

(** Directory ordering: [a/b/file.txt] without directory entries before it. *)
Example extract_nested :
  let w := (@extract_entries (fun p => WriteAt p) root_ex
              [ArchiveEntry "a/b/file.txt" false [x41]] world_ex) in
  w.1 = Ok tt /\ files w.2 !! (root_ex ++ ["a"]) = Some Dir /\
  files w.2 !! (root_ex ++ ["a"; "b"]) = Some Dir /\
  files w.2 !! (root_ex ++ ["a"; "b"; "file.txt"]) = Some (File [x41]).
Proof. split_and!; vm_compute; reflexivity. Qed.

(** A crafted name is refused, and nothing is written. *)
Example extract_traversal :
  @extract_entries (fun p => WriteAt p) root_ex
     [ArchiveEntry "../../etc/passwd" false [x41]] world_ex =
  (Err (PathTraversalError "../../etc/passwd"), world_ex).
Proof. vm_compute. reflexivity. Qed.

End Extractor.
