(* ===== verification/CodebaseTransformer.v ===== *)
(** The directory-tree transformer [transformCodebase] (specification,
    section 4.5), called by [build.ts] at lines 91-134 with the extracted
    directory as source and [dist/keycloak-theme/email] as destination.

    [crawl] lists the regular files below the source directory, as paths
    relative to it; for each of them, in the listing order, the file is read,
    given to the [FileTransform] with its relative path, and the bytes it
    returns are written at the same relative path below the destination,
    after the missing directories are created (the scoped write of the
    extractor, [Extractor.write_entry]).  An error of the transform or of
    the file system aborts the walk.

    The theorems are proved for any listing without duplicates, so they
    hold whatever order the directory walk produces: when the walk
    succeeds every listed file is present in the destination with the
    transformed bytes (so an identity transform copies the tree byte for
    byte); the walk changes nothing outside the destination; and a file
    of the destination that no listed path produces is left as it was
    (stale files remain, the open question of section 9). *)

From S2P Require Import Prelude NodePath Contracts FileSystem Extractor.

Module CodebaseTransformer.
Import NodePath FileSystem Extractor.

(** The path of [k] relative to [root], when [k] lies strictly below it. *)
Definition relative_to (root k : list string) : option (list string) :=
  match strip_common root k with
  | ([], (_ :: _) as r) => Some r
  | _ => None
  end.

(** The regular files below [src], relative to it. *)
Definition crawl (src : list string) (m : gmap (list string) node) : list (list string) :=
  omap (fun kv => match kv.2 with File _ => relative_to src kv.1 | Dir => None end)
       (map_to_list m).

Section Transform.
Context `{FileTransform}.

(** One file: read it, transform it, write the result. *)
Definition transform_step (src dst rel : list string) : io unit :=
  data <-- read_file (src ++ rel) ;;
  match transform_file (str_join "/" rel) data with
  | Ok out => write_entry dst rel out
  | Err e => io_fail e
  end.

Fixpoint transform_files (src dst : list string) (rels : list (list string)) : io unit :=
  match rels with
  | [] => io_ret tt
  | rel :: rels' => _ <-- transform_step src dst rel ;; transform_files src dst rels'
  end.

Definition transformCodebase (src dst : list string) : io unit :=
  fun w => transform_files src dst (crawl src (files w)) w.

(** The writes the walk over [rels] may make, from the tree [m] it
    started on: the transformed bytes of a listed file at its path below
    [dst]. *)
Definition produces (src dst : list string) (m : gmap (list string) node)
    (rels : list (list string)) (q : list string) (out : list byte) : Prop :=
  exists rel d, rel ∈ rels /\ m !! (src ++ rel) = Some (File d) /\
    transform_file (str_join "/" rel) d = Ok out /\ q = dst ++ rel.

End Transform.

(** Neither directory lies inside the other. *)
Definition apart (src dst : list string) : Prop :=
  forall r1 r2, src ++ r1 <> dst ++ r2.

(** A source tree [s] with one file, and a destination [d] holding a file
    of an earlier run. *)
Definition tree_ex : world :=
  World (<[["s"] := Dir]> (<[["s"; "a"] := File [x41]]>
        (<[["d"] := Dir]> (<[["d"; "old"] := File [x42]]> ∅)))) [].

(** A transform that doubles the content of every file. *)
Definition double_ex : FileTransform := fun _ d => Ok (d ++ d).

(** ** Lemmas *)

Lemma read_file_state p w : (read_file p w).2 = w.
Proof. unfold read_file, io_bind, get_node. by destruct (files w !! p) as [[|]|]. Qed.

Lemma read_file_cases p w :
  (exists d, files w !! p = Some (File d) /\ read_file p w = (Ok d, w)) \/
  exists e, read_file p w = (Err e, w).
Proof.
  unfold read_file, io_bind, get_node, io_ret, io_fail.
  destruct (files w !! p) as [[|d]|]; eauto.
Qed.

Lemma read_file_File p w d :
  files w !! p = Some (File d) -> read_file p w = (Ok d, w).
Proof. intros Hp. unfold read_file, io_bind, get_node. by rewrite Hp. Qed.

Lemma relative_to_Some root k r : relative_to root k = Some r -> r <> [] /\ k = root ++ r.
Proof.
  unfold relative_to. destruct (strip_common root k) as [[|] [|x r']] eqn:E;
    intros; simplify_eq. split; [done|]. by apply strip_common_prefix.
Qed.

Lemma crawl_spec src m rel :
  rel ∈ crawl src m -> rel <> [] /\ exists d, m !! (src ++ rel) = Some (File d).
Proof.
  unfold crawl. rewrite list_elem_of_omap. intros ([k [|d]] & Hk & Hr); [done|].
  simpl in Hr. apply relative_to_Some in Hr as [Hne ->]. apply elem_of_map_to_list in Hk. eauto.
Qed.

Lemma crawl_NoDup src m : NoDup (crawl src m).
Proof.
  unfold crawl. apply (NoDup_omap_key _ fst); [apply NoDup_fst_map_to_list|].
  intros [k1 [|d1]] [k2 [|d2]] r _ _; simpl; try done.
  intros (_ & ->)%relative_to_Some (_ & ->)%relative_to_Some. done.
Qed.

(** The reads of the walk see the source as it was: every write is below
    the destination. *)
Lemma apart_confined src dst m m' rel :
  apart src dst -> confined dst m m' -> m' !! (src ++ rel) = m !! (src ++ rel).
Proof.
  intros Hap Hc. destruct (decide (m' !! (src ++ rel) = m !! (src ++ rel))) as [|E]; [done|].
  destruct (Hc _ E) as (r & _ & Hr). by destruct (Hap rel r).
Qed.

Lemma crawl_complete src m rel d :
  rel <> [] -> m !! (src ++ rel) = Some (File d) -> rel ∈ crawl src m.
Proof.
  intros Hne Hm. unfold crawl. apply list_elem_of_omap. exists (src ++ rel, File d).
  split; [by apply elem_of_map_to_list|]. simpl. unfold relative_to.
  rewrite <- (app_nil_r src) at 1. rewrite strip_common_app, strip_common_nil_l.
  by destruct rel.
Qed.

Section TransformLemmas.
Context `{FileTransform}.

Lemma transform_step_effect src dst rel w :
  rel <> [] -> root_ok dst (files w) ->
  extract_effect dst (files w) (files (transform_step src dst rel w).2)
                 (produces src dst (files w) [rel]) /\
  ((transform_step src dst rel w).1 = Ok tt ->
   exists d out, files w !! (src ++ rel) = Some (File d) /\
     transform_file (str_join "/" rel) d = Ok out /\
     files (transform_step src dst rel w).2 !! (dst ++ rel) = Some (File out)).
Proof.
  intros Hne Hok. unfold transform_step, io_bind.
  destruct (read_file_cases (src ++ rel) w) as [(d & Hs & ->) | (e & ->)]; cbn [fst snd];
    [|split; [by apply extract_effect_refl | done]].
  destruct (transform_file (str_join "/" rel) d) as [out|e] eqn:Ht;
    [|split; [by apply extract_effect_refl | done]].
  destruct (write_entry_effect dst rel out w Hne Hok) as (Heff & _ & Hw).
  split; [|intros Hr; exists d, out; auto].
  eapply extract_effect_mono; [|exact Heff]. intros q o [-> ->].
  exists rel, d. rewrite list_elem_of_singleton. auto.
Qed.

Lemma transform_files_effect src dst rels w :
  apart src dst -> Forall (fun rel => rel <> []) rels -> root_ok dst (files w) ->
  extract_effect dst (files w) (files (transform_files src dst rels w).2)
                 (produces src dst (files w) rels).
Proof.
  intros Hap. revert w. induction rels as [|rel rels IH]; intros w Hne Hok;
    [by apply extract_effect_refl|].
  apply Forall_cons in Hne as [Hrel Hne]. cbn [transform_files]. unfold io_bind.
  destruct (transform_step_effect src dst rel w Hrel Hok) as [Heff1 _].
  destruct (transform_step src dst rel w) as [[[]|e] w1]; cbn [fst snd] in *.
  - pose proof (IH w1 Hne (proj1 Heff1)) as Heff2.
    eapply extract_effect_mono; [|exact (extract_effect_trans _ _ _ _ _ _ Heff1 Heff2)].
    intros q o [(r & d & Hr & Hd & Ho & ->) | (r & d & Hr & Hd & Ho & ->)]; exists r, d;
      rewrite elem_of_cons; [apply list_elem_of_singleton in Hr | ]; split_and!; auto.
    by rewrite <- (apart_confined src dst (files w) (files w1) r Hap (proj1 (proj2 Heff1))).
  - eapply extract_effect_mono; [|exact Heff1].
    intros q o (r & d & Hr & ?). exists r, d. rewrite elem_of_cons.
    apply list_elem_of_singleton in Hr. auto.
Qed.

End TransformLemmas.

Section TransformLemmas2.
Context `{FileTransform}.

(** When the walk succeeds, every listed file is in the destination with
    its transformed bytes. *)
Lemma transform_files_present src dst rels w :
  apart src dst -> NoDup rels -> Forall (fun rel => rel <> []) rels -> root_ok dst (files w) ->
  (transform_files src dst rels w).1 = Ok tt ->
  forall rel, rel ∈ rels -> exists d out, files w !! (src ++ rel) = Some (File d) /\
    transform_file (str_join "/" rel) d = Ok out /\
    files (transform_files src dst rels w).2 !! (dst ++ rel) = Some (File out).
Proof.
  intros Hap. revert w. induction rels as [|rel0 rels IH]; intros w Hnd Hne Hok Hres rel Hrel;
    [by apply elem_of_nil in Hrel|].
  apply NoDup_cons in Hnd as [Hnotin Hnd]. apply Forall_cons in Hne as [Hrel0 Hne].
  cbn [transform_files] in *. unfold io_bind in *.
  destruct (transform_step_effect src dst rel0 w Hrel0 Hok) as [Heff1 Hw1].
  destruct (transform_step src dst rel0 w) as [[[]|e] w1]; cbn [fst snd] in *; [|done].
  pose proof (transform_files_effect src dst rels w1 Hap Hne (proj1 Heff1)) as Heff2.
  apply elem_of_cons in Hrel as [->|Hrel].
  - destruct (Hw1 eq_refl) as (d & out & Hd & Ho & Hf). exists d, out. split_and!; [done | done |].
    eapply extract_effect_keeps; [exact Heff2 | exact Hf |].
    intros o (r & d' & Hr & _ & _ & E). apply app_inv_head in E as ->. done.
  - destruct (IH w1 Hnd Hne (proj1 Heff1) Hres rel Hrel) as (d & out & Hd & Ho & Hf).
    exists d, out. split_and!; [|done | done].
    by rewrite <- (apart_confined src dst (files w) (files w1) rel Hap (proj1 (proj2 Heff1))).
Qed.

(** After a successful walk, the files of the tree are those the listed
    paths produce below [dst] and, elsewhere, those that were there: a
    description that does not depend on the order of the listing. *)
Lemma transform_files_file src dst rels w q d :
  apart src dst -> NoDup rels -> Forall (fun rel => rel <> []) rels -> root_ok dst (files w) ->
  (transform_files src dst rels w).1 = Ok tt ->
  files (transform_files src dst rels w).2 !! q = Some (File d) <->
  (exists rel d0, rel ∈ rels /\ q = dst ++ rel /\ files w !! (src ++ rel) = Some (File d0) /\
     transform_file (str_join "/" rel) d0 = Ok d) \/
  ((forall rel, rel ∈ rels -> q <> dst ++ rel) /\ files w !! q = Some (File d)).
Proof.
  intros Hap Hnd Hne Hok Hres.
  pose proof (transform_files_effect src dst rels w Hap Hne Hok) as (_ & _ & Hallow & Hkeep).
  pose proof (transform_files_present src dst rels w Hap Hnd Hne Hok Hres) as Hpres.
  destruct (decide (Exists (fun rel => q = dst ++ rel) rels)) as [Hex|Hnex].
  - apply Exists_exists in Hex as (rel & Hrel & ->).
    destruct (Hpres rel Hrel) as (d0 & out & Hs & Ho & Hf). rewrite Hf. split.
    + intros [= ->]. left. by exists rel, d0.
    + intros [(rel' & d0' & Hrel' & E & Hs' & Ho') | [Hn _]]; [|by destruct (Hn rel Hrel)].
      apply app_inv_head in E as <-. rewrite Hs in Hs'. simplify_eq. by rewrite Ho in Ho'; simplify_eq.
  - assert (Hn : forall rel, rel ∈ rels -> q <> dst ++ rel)
      by (intros rel Hrel ->; apply Hnex, Exists_exists; by exists rel).
    assert (Hsame : forall d', files (transform_files src dst rels w).2 !! q = Some (File d') ->
                      files w !! q = Some (File d')).
    { intros d' Hq. destruct (decide (files (transform_files src dst rels w).2 !! q = files w !! q)) as [E|E];
        [congruence|]. destruct (Hallow q d' Hq E) as (rel & d0 & Hrel & _ & _ & ->). by destruct (Hn rel Hrel). }
    split.
    + intros Hq. right. split; [done|]. by apply Hsame.
    + intros [(rel & d0 & Hrel & E & _) | [_ Hq]]; [by destruct (Hn rel Hrel)|].
      destruct (Hkeep q d Hq) as [d' Hq']. rewrite Hq'. apply Hsame in Hq'. congruence.
Qed.

Lemma crawl_ok src m : NoDup (crawl src m) /\ Forall (fun rel => rel <> []) (crawl src m).
Proof. split; [apply crawl_NoDup | apply Forall_forall; intros rel Hr; exact (proj1 (crawl_spec _ _ _ Hr))]. Qed.

(** The walk makes no request. *)
Lemma transform_step_fetched src dst rel w : fetched (transform_step src dst rel w).2 = fetched w.
Proof.
  unfold transform_step, io_bind. cbv beta.
  destruct (read_file_cases (src ++ rel) w) as [(d & _ & ->) | (e & ->)]; [|done]. cbn iota.
  destruct (transform_file (str_join "/" rel) d); [apply write_entry_fetched|done].
Qed.

Lemma transform_files_fetched src dst rels w : fetched (transform_files src dst rels w).2 = fetched w.
Proof.
  revert w. induction rels as [|rel rels IH]; intros w; [done|]. cbn [transform_files].
  unfold io_bind. pose proof (transform_step_fetched src dst rel w) as Hf.
  destruct (transform_step src dst rel w) as [[[]|e] w1]; simpl in *; [by rewrite IH|done].
Qed.

End TransformLemmas2.


(** ** Theorems *)

Section TransformTheorems.
Context `{FileTransform}.

(** when [transformCodebase] succeeds, every regular file [src/p] of
    the source tree is in the destination at [dst/p], with the bytes the
    transform returned for [p] and the file's bytes: no file is dropped.
    The destination is a directory apart from the source. *)
Theorem transformCodebase_result src dst w :
  apart src dst -> fs_wf (files w) -> files w !! dst = Some Dir ->
  (transformCodebase src dst w).1 = Ok tt ->
  forall rel d, rel <> [] -> files w !! (src ++ rel) = Some (File d) ->
  exists out, transform_file (str_join "/" rel) d = Ok out /\
    files (transformCodebase src dst w).2 !! (dst ++ rel) = Some (File out).
Proof.
  intros Hap Hwf Hd Hres rel d Hne Hs. destruct (crawl_ok src (files w)) as [Hnd Hne'].
  destruct (transform_files_present src dst _ w Hap Hnd Hne' (conj Hwf Hd) Hres rel
              (crawl_complete _ _ _ _ Hne Hs)) as (d' & out & Hs' & Ho & Hf).
  rewrite Hs in Hs'. simplify_eq. eauto.
Qed.

(** [transformCodebase] writes only strictly below the destination:
    the source tree and everything else outside [dst] are left as they
    were, also when it fails. *)
Theorem transformCodebase_confined src dst w :
  apart src dst -> fs_wf (files w) -> files w !! dst = Some Dir ->
  forall q, files (transformCodebase src dst w).2 !! q <> files w !! q ->
  exists r, r <> [] /\ q = dst ++ r.
Proof.
  intros Hap Hwf Hd. destruct (crawl_ok src (files w)) as [_ Hne].
  apply (transform_files_effect src dst _ w Hap Hne (conj Hwf Hd)).
Qed.

(** stale files remain.  A file already in the destination at a path
    that the source tree does not produce keeps its bytes: the walk does
    not prune the destination (section 9). *)
Theorem transformCodebase_stale src dst w r d :
  apart src dst -> fs_wf (files w) -> files w !! dst = Some Dir ->
  files w !! (dst ++ r) = Some (File d) -> (forall d', files w !! (src ++ r) <> Some (File d')) ->
  files (transformCodebase src dst w).2 !! (dst ++ r) = Some (File d).
Proof.
  intros Hap Hwf Hd Hr Hsrc. destruct (crawl_ok src (files w)) as [_ Hne].
  eapply extract_effect_keeps; [exact (transform_files_effect src dst _ w Hap Hne (conj Hwf Hd)) | done |].
  intros o (rel & d' & Hrel & Hs & _ & E). apply app_inv_head in E as ->. by apply (Hsrc d').
Qed.

End TransformTheorems.

(** with a transform that returns every file unchanged, a successful
    [transformCodebase] produces a destination in which every file of the
    source tree has the same bytes at the same relative path. *)
Theorem transformCodebase_identity src dst w :
  apart src dst -> fs_wf (files w) -> files w !! dst = Some Dir ->
  (@transformCodebase (fun _ d => Ok d) src dst w).1 = Ok tt ->
  forall rel d, rel <> [] -> files w !! (src ++ rel) = Some (File d) ->
  files (@transformCodebase (fun _ d => Ok d) src dst w).2 !! (dst ++ rel) = Some (File d).
Proof.
  intros Hap Hwf Hd Hres rel d Hne Hs. destruct (crawl_ok src (files w)) as [Hnd Hne'].
  destruct (@transform_files_present (fun _ d => Ok d) src dst _ w Hap Hnd Hne' (conj Hwf Hd) Hres
              rel (crawl_complete _ _ _ _ Hne Hs)) as (d' & out & Hs' & Ho & Hf).
  rewrite Hs in Hs'. unfold transform_file in Ho. simplify_eq. done.
Qed.

Lemma tree_ex_wf : fs_wf (files tree_ex).
Proof. apply fs_wf_b_sound. vm_compute. reflexivity. Qed.

Lemma apart_s_d : apart ["s"] ["d"].
Proof. intros r1 r2 [=]. Qed.

Lemma transformCodebase_result_witness :
  exists out, double_ex "a" [x41] = Ok out /\
    files (@transformCodebase double_ex ["s"] ["d"] tree_ex).2 !! (["d"] ++ ["a"]) =
      Some (File out).
Proof.
  apply (@transformCodebase_result double_ex ["s"] ["d"] tree_ex apart_s_d tree_ex_wf eq_refl);
    [vm_compute; reflexivity | done | reflexivity].
Defined.

Lemma transformCodebase_confined_witness :
  forall q, files (@transformCodebase double_ex ["s"] ["d"] tree_ex).2 !! q <>
            files tree_ex !! q -> exists r, r <> [] /\ q = ["d"] ++ r.
Proof. exact (@transformCodebase_confined double_ex ["s"] ["d"] tree_ex apart_s_d tree_ex_wf eq_refl). Defined.

Lemma transformCodebase_stale_witness :
  files (@transformCodebase double_ex ["s"] ["d"] tree_ex).2 !! (["d"] ++ ["old"]) =
    Some (File [x42]).
Proof.
  apply (@transformCodebase_stale double_ex ["s"] ["d"] tree_ex ["old"] [x42] apart_s_d tree_ex_wf);
    [reflexivity | reflexivity | intros d'; vm_compute; discriminate].
Defined.

Lemma transformCodebase_identity_witness :
  files (@transformCodebase (fun _ d => Ok d) ["s"] ["d"] tree_ex).2 !! (["d"] ++ ["a"]) =
    Some (File [x41]).
Proof.
  apply (transformCodebase_identity ["s"] ["d"] tree_ex apart_s_d tree_ex_wf);
    [reflexivity | vm_compute; reflexivity | done | reflexivity].
Defined.

End CodebaseTransformer.
