(* ===== verification/Cache.v ===== *)
(** The cache store, the fetcher and the orchestrator
    [downloadAndExtractArchive] (specification, sections 4.1, 4.2, 4.4),
    called by [build.ts] at lines 68-87.

    The cache entry of a key is the directory [cacheDir/key]; it is
    complete when the sentinel file [cacheDir/key.complete] exists (section
    9).  The sentinel lies beside the directory and not inside it, so that
    the extracted tree handed to [transformCodebase] does not contain it.
    [reserve] reports a hit when the sentinel is there; otherwise it
    removes what a crashed attempt may have left in the directory and
    creates it empty.  [commit] writes the sentinel.  The network is a
    [Fetcher]: the archive served at a URL, or none ([NetworkError]); the
    world records every URL requested, so the theorems count requests.
    The proxy configuration is the fetcher's concern and is not modelled.

    The theorems: once a call has succeeded, a second call with the same
    key returns the same directory and changes nothing (no request, no
    write), whatever URL it is given; a failed call leaves no complete
    entry; a call makes at most one request; and the directory of a
    successful miss holds exactly the files of the accepted entries of
    the fetched archive. *)

From S2P Require Import Prelude NodePath Contracts FileSystem Extractor.

Module Cache.
Import NodePath FileSystem Extractor.

(** The network: the bytes served at a URL, or a failure. *)
Class Fetcher := remote : string -> option (list byte).

(** [fetch(url, proxyConfig)]: one request, recorded in the world. *)
Definition fetch `{Fetcher} (url : string) : io (list byte) :=
  fun w =>
    let w' := World (files w) (fetched w ++ [url]) in
    match remote url with
    | Some b => (Ok b, w')
    | None => (Err NetworkError, w')
    end.

Definition entry_dir (cacheDir : list string) (key : string) : list string :=
  cacheDir ++ [key].

Definition marker (cacheDir : list string) (key : string) : list string :=
  cacheDir ++ [key +:+ ".complete"].

(** The entry of [key] is complete. *)
Definition is_complete (cacheDir : list string) (key : string)
    (m : gmap (list string) node) : bool :=
  match m !! marker cacheDir key with
  | Some (File _) => true
  | _ => false
  end.

(** [fs.rmSync(p, { recursive: true, force: true })]. *)
Definition remove_tree (p : list string) : io unit :=
  fun w => (Ok tt, World (filter (fun kv => ~ prefix p kv.1) (files w)) (fetched w)).

(** [reserve(cacheKey)]: [true] on a hit; on a miss, a fresh empty
    directory. *)
Definition reserve (cacheDir : list string) (key : string) : io bool :=
  n <-- get_node (marker cacheDir key) ;;
  match n with
  | Some (File _) => io_ret true
  | _ =>
      _ <-- remove_tree (entry_dir cacheDir key) ;;
      _ <-- mkdir_p (entry_dir cacheDir key) ;;
      io_ret false
  end.

(** [commit(cacheKey)]: the sentinel is written last. *)
Definition commit (cacheDir : list string) (key : string) : io unit :=
  write_file (marker cacheDir key) [].

Section Orchestrator.
Context `{Fetcher} `{ArchiveFormat} `{EntryFilter}.

Definition downloadAndExtractArchive (url : string) (cacheDir : list string)
    (key : string) : io (list string) :=
  hit <-- reserve cacheDir key ;;
  if hit then io_ret (entry_dir cacheDir key) else
  bytes <-- fetch url ;;
  _ <-- extract (entry_dir cacheDir key) bytes ;;
  _ <-- commit cacheDir key ;;
  io_ret (entry_dir cacheDir key).

End Orchestrator.

(** The world [reserve] hands to [mkdir_p] on a miss. *)
Definition cleared (cacheDir : list string) (key : string) (w : world) : world :=
  (remove_tree (entry_dir cacheDir key) w).2.

(** A network serving one archive at "u", a container holding [a/x.txt]
    and [b/y.txt], and a world with an empty cache directory [c]. *)
Definition server_ex : Fetcher := fun u => if String.eqb u "u" then Some [x00] else None.
Definition format_ex : ArchiveFormat :=
  fun _ => Some [ArchiveEntry "a/x.txt" false [x31]; ArchiveEntry "b/y.txt" false [x32]].
Definition cache_world_ex : world := World (<[["c"] := Dir]> ∅) [].

Definition dl_ex (url : string) (w : world) : result (list string) * world :=
  @downloadAndExtractArchive server_ex format_ex under_a url ["c"] "k" w.

(** ** Lemmas *)

Lemma marker_not_below cacheDir key r : marker cacheDir key <> entry_dir cacheDir key ++ r.
Proof.
  unfold marker, entry_dir. rewrite <- app_assoc. intros E. apply app_inv_head in E.
  injection E as E _. apply (f_equal String.length) in E. rewrite str_length_app in E.
  simpl in E. lia.
Qed.

Lemma marker_not_prefix cacheDir key k :
  k <= length (entry_dir cacheDir key) -> marker cacheDir key <> take k (entry_dir cacheDir key).
Proof.
  intros Hk E. destruct (decide (k = length (entry_dir cacheDir key))) as [->|Hne].
  - rewrite take_ge in E by done. apply (marker_not_below cacheDir key []). by rewrite app_nil_r.
  - apply (f_equal length) in E. rewrite length_take in E. unfold marker, entry_dir in *.
    rewrite !length_app in *. simpl in *. lia.
Qed.

Lemma lookup_remove_tree p q w :
  files (remove_tree p w).2 !! q = if decide (prefix p q) then None else files w !! q.
Proof.
  simpl. rewrite map_lookup_filter. destruct (files w !! q) as [n|]; simpl; [|by case_decide].
  repeat case_decide; simpl; done.
Qed.

Lemma fs_wf_remove_tree p w : fs_wf (files w) -> fs_wf (files (remove_tree p w).2).
Proof.
  intros Hwf q s. rewrite !lookup_remove_tree. case_decide as Hp; [by intros []|].
  intros Hq. destruct (Hwf q s Hq) as [|Hd]; [by left|]. right.
  rewrite decide_False; [done|]. intros Hpre. apply Hp. by apply prefix_app_r.
Qed.

Lemma reserve_hit cacheDir key w :
  is_complete cacheDir key (files w) = true -> reserve cacheDir key w = (Ok true, w).
Proof.
  unfold is_complete, reserve, io_bind, get_node.
  by destruct (files w !! marker cacheDir key) as [[|]|].
Qed.

Lemma reserve_miss cacheDir key w :
  is_complete cacheDir key (files w) = false ->
  reserve cacheDir key w =
    (match (mkdir_p (entry_dir cacheDir key) (cleared cacheDir key w)).1 with
     | Ok _ => Ok false | Err e => Err e end,
     (mkdir_p (entry_dir cacheDir key) (cleared cacheDir key w)).2).
Proof.
  unfold is_complete, reserve, io_bind, get_node, io_ret. intros Hm.
  destruct (files w !! marker cacheDir key) as [[|]|]; try done;
    cbn [fst snd]; unfold cleared; simpl;
    by destruct (mkdir_p (entry_dir cacheDir key) _) as [[] ?].
Qed.

Lemma reserve_miss_world cacheDir key w :
  fs_wf (files w) ->
  fs_wf (files (mkdir_p (entry_dir cacheDir key) (cleared cacheDir key w)).2) /\
  fetched (mkdir_p (entry_dir cacheDir key) (cleared cacheDir key w)).2 = fetched w /\
  files (mkdir_p (entry_dir cacheDir key) (cleared cacheDir key w)).2 !! marker cacheDir key =
    files w !! marker cacheDir key /\
  ((mkdir_p (entry_dir cacheDir key) (cleared cacheDir key w)).1 = Ok tt ->
   files (mkdir_p (entry_dir cacheDir key) (cleared cacheDir key w)).2
     !! entry_dir cacheDir key = Some Dir /\
   forall r, r <> [] -> files (mkdir_p (entry_dir cacheDir key) (cleared cacheDir key w)).2
                          !! (entry_dir cacheDir key ++ r) = None).
Proof.
  intros Hwf. unfold mkdir_p.
  assert (Hwf0 : fs_wf (files (cleared cacheDir key w))) by by apply fs_wf_remove_tree.
  split_and!.
  - exact (proj2 (mkdir_p_go_adds_dirs [] _ _ Hwf0 (or_introl eq_refl))).
  - by rewrite mkdir_p_go_fetched.
  - rewrite mkdir_p_go_other by (intros k Hk; apply marker_not_prefix; lia).
    unfold cleared. rewrite lookup_remove_tree, decide_False; [done|].
    intros [r Hr]. by apply (marker_not_below cacheDir key r).
  - intros Hok. split; [exact (mkdir_p_go_Ok [] _ _ Hok ltac:(unfold entry_dir; by destruct cacheDir))|].
    intros r Hr. rewrite mkdir_p_go_other.
    + unfold cleared. rewrite lookup_remove_tree, decide_True; [done|]. by exists r.
    + intros k Hk E. apply (f_equal length) in E. simpl in E.
      rewrite length_take, length_app in E. destruct r; [done | simpl in E; lia].
Qed.

Lemma commit_cases cacheDir key w :
  (commit cacheDir key w =
     (Ok tt, World (<[marker cacheDir key := File []]> (files w)) (fetched w))) \/
  exists e, commit cacheDir key w = (Err e, w).
Proof.
  unfold commit. destruct (write_file_cases (marker cacheDir key) [] w) as [(_ & _ & _ & ->)|]; auto.
Qed.

Section OrchestratorLemmas.
Context `{Fetcher} `{ArchiveFormat} `{EntryFilter}.

(** The steps of a call that misses the cache, with the world after each. *)
Lemma dl_miss url cacheDir key w :
  is_complete cacheDir key (files w) = false ->
  downloadAndExtractArchive url cacheDir key w =
    let '(r1, w1) := mkdir_p (entry_dir cacheDir key) (cleared cacheDir key w) in
    match r1 with
    | Err e => (Err e, w1)
    | Ok _ =>
        let w2 := World (files w1) (fetched w1 ++ [url]) in
        match remote url with
        | None => (Err NetworkError, w2)
        | Some bytes =>
            let '(r3, w3) := extract (entry_dir cacheDir key) bytes w2 in
            match r3 with
            | Err e => (Err e, w3)
            | Ok _ =>
                let '(r4, w4) := commit cacheDir key w3 in
                match r4 with
                | Err e => (Err e, w4)
                | Ok _ => (Ok (entry_dir cacheDir key), w4)
                end
            end
        end
    end.
Proof.
  intros Hc. unfold downloadAndExtractArchive, io_bind at 1. rewrite (reserve_miss _ _ _ Hc).
  destruct (mkdir_p _ _) as [[[]|e] w1]; [|done]. cbn [fst snd].
  unfold io_bind, fetch, io_ret. destruct (remote url) as [bytes|]; [|done].
  destruct (extract _ _ _) as [[[]|e] w3]; [|done].
  by destruct (commit _ _ _) as [[[]|e] w4].
Qed.

(** A successful call leaves a complete entry and returns its directory. *)
Lemma dl_Ok url cacheDir key w dir w1 :
  downloadAndExtractArchive url cacheDir key w = (Ok dir, w1) ->
  dir = entry_dir cacheDir key /\ is_complete cacheDir key (files w1) = true.
Proof.
  destruct (is_complete cacheDir key (files w)) eqn:Hc.
  - unfold downloadAndExtractArchive, io_bind. rewrite reserve_hit by done. by intros [= <- <-].
  - rewrite dl_miss by done.
    destruct (mkdir_p (entry_dir cacheDir key) _) as [[[]|e] w1']; [|done].
    destruct (remote url) as [bytes|]; [cbv zeta|done].
    destruct (extract (entry_dir cacheDir key) bytes (World (files w1') (fetched w1' ++ [url])))
      as [[[]|e] w3]; [|done].
    destruct (commit_cases cacheDir key w3) as [-> | (e & ->)]; [|done].
    intros [= <- <-]. split; [done|]. unfold is_complete. cbn [files]. by rewrite lookup_insert_eq.
Qed.

(** A call changes nothing but its cache entry and the sentinel, when the
    cache directory exists. *)
Lemma dl_confined url cacheDir key w :
  fs_wf (files w) -> files w !! cacheDir = Some Dir ->
  changes_within (fun q => (exists r, q = entry_dir cacheDir key ++ r) \/ q = marker cacheDir key)
    (files w) (files (downloadAndExtractArchive url cacheDir key w).2).
Proof.
  intros Hwf Hcd. destruct (is_complete cacheDir key (files w)) eqn:Hc.
  { unfold downloadAndExtractArchive, io_bind. rewrite reserve_hit by done. apply changes_within_refl. }
  set (R := fun q => (exists r, q = entry_dir cacheDir key ++ r) \/ q = marker cacheDir key).
  assert (K0 : changes_within R (files w) (files (cleared cacheDir key w))).
  { intros q Hq. unfold cleared in Hq. rewrite lookup_remove_tree in Hq.
    case_decide as Hp; [destruct Hp as [r ->]; left; eauto | done]. }
  assert (Hok0 : root_ok cacheDir (files (cleared cacheDir key w))).
  { split; [by apply fs_wf_remove_tree|]. unfold cleared. rewrite lookup_remove_tree, decide_False;
      [done|]. intros [r Hr]. apply (f_equal length) in Hr. unfold entry_dir in Hr.
    rewrite !length_app in Hr. simpl in Hr. lia. }
  assert (K1 : changes_within R (files (cleared cacheDir key w))
                 (files (mkdir_p (entry_dir cacheDir key) (cleared cacheDir key w)).2)).
  { intros q Hq. left. exists []. rewrite app_nil_r.
    destruct (mkdir_p_go_changes [] _ _ q Hq) as (k & Hk & ->).
    destruct (proj1 (proj2 (mkdir_p_root cacheDir [key] _ Hok0)) _ Hq) as (r & Hr & E).
    apply (f_equal length) in E. simpl in E. unfold entry_dir in *.
    rewrite length_take, !length_app in *. simpl in *. destruct r; [done|]. simpl in E.
    rewrite take_ge; [done | rewrite length_app; simpl; lia]. }
  destruct (reserve_miss_world cacheDir key w Hwf) as (Hwf1 & _ & _ & Hok1).
  rewrite dl_miss by done.
  destruct (mkdir_p (entry_dir cacheDir key) _) as [[[]|e1] w1]; cbn [fst snd] in *;
    [|exact (changes_within_trans _ _ _ _ K0 K1)].
  destruct (Hok1 eq_refl) as [Hd1 _].
  destruct (remote url) as [bytes|]; cbv zeta; [|exact (changes_within_trans _ _ _ _ K0 K1)].
  pose proof (extract_effect_archive (entry_dir cacheDir key) bytes
                (World (files w1) (fetched w1 ++ [url])) (conj Hwf1 Hd1)) as (_ & Hconf & _).
  assert (K3 : changes_within R (files w1)
      (files (extract (entry_dir cacheDir key) bytes (World (files w1) (fetched w1 ++ [url]))).2)).
  { eapply changes_within_mono; [|exact Hconf]. intros q (r & _ & ->). left. eauto. }
  pose proof (changes_within_trans _ _ _ _ (changes_within_trans _ _ _ _ K0 K1) K3) as K03.
  destruct (extract _ _ _) as [[[]|e3] w3]; cbn [fst snd] in *; [|done].
  destruct (commit_cases cacheDir key w3) as [-> | (e4 & ->)]; [|done].
  eapply changes_within_trans; [exact K03|]. intros q Hq. cbn [fst snd files] in Hq. right.
  destruct (decide (marker cacheDir key = q)) as [<-|Hne]; [done|].
  by rewrite lookup_insert_ne in Hq.
Qed.

(** A call keeps the tree well formed. *)
Lemma dl_wf url cacheDir key w :
  fs_wf (files w) -> fs_wf (files (downloadAndExtractArchive url cacheDir key w).2).
Proof.
  intros Hwf. destruct (is_complete cacheDir key (files w)) eqn:Hc.
  { unfold downloadAndExtractArchive, io_bind. by rewrite reserve_hit. }
  destruct (reserve_miss_world cacheDir key w Hwf) as (Hwf1 & _ & _ & Hok1).
  rewrite dl_miss by done.
  destruct (mkdir_p (entry_dir cacheDir key) _) as [[[]|e1] w1]; cbn [fst snd] in *; [|done].
  destruct (Hok1 eq_refl) as [Hd1 _].
  destruct (remote url) as [bytes|]; cbv zeta; [|done].
  pose proof (extract_effect_archive (entry_dir cacheDir key) bytes
                (World (files w1) (fetched w1 ++ [url])) (conj Hwf1 Hd1)) as ((Hwf3 & _) & _).
  destruct (extract _ _ _) as [[[]|e3] w3]; cbn [fst snd] in *; [|done].
  unfold commit. destruct (write_file_cases (marker cacheDir key) [] w3)
    as [(Hp & Hnd & Hpar & ->) | (e4 & ->)]; [|done].
  by apply fs_wf_write.
Qed.

(** When a call that missed the cache succeeds, every file entry the
    filter accepted is in the entry's directory at its target. *)
Lemma dl_miss_complete url cacheDir key w dir w1 bytes es :
  fs_wf (files w) -> is_complete cacheDir key (files w) = false ->
  downloadAndExtractArchive url cacheDir key w = (Ok dir, w1) ->
  remote url = Some bytes -> parse_archive bytes = Some es ->
  forall e t, e ∈ es -> entry_is_dir e = false -> on_entry (entry_path e) = WriteAt t ->
  exists rel d, target_in dir t = Some rel /\ files w1 !! (dir ++ rel) = Some (File d).
Proof.
  intros Hwf Hc. destruct (reserve_miss_world cacheDir key w Hwf) as (Hwf1 & _ & _ & Hok1).
  rewrite dl_miss by done.
  destruct (mkdir_p (entry_dir cacheDir key) _) as [[[]|e1] w1']; cbn [fst snd] in *; [|done].
  destruct (Hok1 eq_refl) as [Hd1 _]. intros Hdl Hr Hp e t He Hd Ht. rewrite Hr in Hdl.
  cbv zeta in Hdl. unfold extract in Hdl |- *. rewrite Hp in Hdl.
  pose proof (extract_entries_complete (entry_dir cacheDir key) es
                (World (files w1') (fetched w1' ++ [url])) Hwf1 Hd1) as Hcomp.
  destruct (extract_entries _ _ _) as [[[]|e3] w3]; cbn [fst snd] in *; [|done].
  destruct (Hcomp eq_refl e t He Hd Ht) as (rel & d & Hrel & Hf).
  destruct (commit_cases cacheDir key w3) as [Hcm | (e4 & Hcm)]; rewrite Hcm in Hdl; [|done].
  injection Hdl as <- <-. exists rel, d. split; [done|]. cbn [files].
  by rewrite lookup_insert_ne by apply marker_not_below.
Qed.

End OrchestratorLemmas.

(** ** Theorems *)

Section OrchestratorTheorems.
Context `{Fetcher} `{ArchiveFormat} `{EntryFilter}.

(** idempotence.  After a call has returned a directory, a second
    call with the same cache key returns the same directory and leaves the
    world exactly as it is: no request, no write.  This holds for any URL
    given to the second call: the entry is found by its key alone. *)
Theorem downloadAndExtractArchive_idempotent url url' cacheDir key w dir w1 :
  downloadAndExtractArchive url cacheDir key w = (Ok dir, w1) ->
  downloadAndExtractArchive url' cacheDir key w1 = (Ok dir, w1).
Proof.
  intros (-> & Hc)%dl_Ok. unfold downloadAndExtractArchive, io_bind.
  by rewrite reserve_hit.
Qed.

(** no partial commit.  A call that fails leaves no complete entry
    for its key, so that a retry is not mistaken for a hit: the sentinel is
    written only after the extraction has succeeded. *)
Theorem downloadAndExtractArchive_failure_uncommitted url cacheDir key w e :
  fs_wf (files w) ->
  (downloadAndExtractArchive url cacheDir key w).1 = Err e ->
  is_complete cacheDir key (files (downloadAndExtractArchive url cacheDir key w).2) = false.
Proof.
  intros Hwf. destruct (is_complete cacheDir key (files w)) eqn:Hc.
  { unfold downloadAndExtractArchive, io_bind. by rewrite reserve_hit. }
  destruct (reserve_miss_world cacheDir key w Hwf) as (Hwf1 & _ & Hm1 & Hok1).
  rewrite dl_miss by done. unfold is_complete in *.
  destruct (mkdir_p (entry_dir cacheDir key) _) as [[[]|e1] w1]; cbn [fst snd files] in *;
    [|by rewrite Hm1].
  destruct (Hok1 eq_refl) as [Hd1 _].
  destruct (remote url) as [bytes|]; cbv zeta; cbn [fst snd files]; [|by rewrite Hm1].
  pose proof (extract_effect_archive (entry_dir cacheDir key) bytes
                (World (files w1) (fetched w1 ++ [url])) (conj Hwf1 Hd1)) as (_ & Hconf & _).
  destruct (extract (entry_dir cacheDir key) bytes (World (files w1) (fetched w1 ++ [url])))
    as [r3 w3]; cbn [fst snd files] in *.
  assert (Hm : files w3 !! marker cacheDir key = files w !! marker cacheDir key).
  { rewrite <- Hm1. destruct (decide (files w3 !! marker cacheDir key =
                                     files w1 !! marker cacheDir key)) as [|E]; [done|].
    destruct (Hconf _ E) as (r & _ & Hr). by destruct (marker_not_below cacheDir key r). }
  destruct r3 as [[]|e3]; cbn [fst snd files]; [|by rewrite Hm].
  destruct (commit_cases cacheDir key w3) as [-> | (e4 & ->)]; cbn [fst snd files];
    [done | by rewrite Hm].
Qed.

(** a call makes at most one request, for its URL, and none on a
    hit. *)
Theorem downloadAndExtractArchive_fetches_once url cacheDir key w :
  fetched (downloadAndExtractArchive url cacheDir key w).2 = fetched w \/
  fetched (downloadAndExtractArchive url cacheDir key w).2 = fetched w ++ [url].
Proof.
  destruct (is_complete cacheDir key (files w)) eqn:Hc.
  { unfold downloadAndExtractArchive, io_bind. rewrite reserve_hit by done. by left. }
  rewrite dl_miss by done.
  pose proof (mkdir_p_go_fetched [] (entry_dir cacheDir key) (cleared cacheDir key w)) as Hf1.
  unfold mkdir_p. destruct (mkdir_p_go [] _ _) as [[[]|e1] w1]; cbn [fst snd] in *;
    [|by left].
  right. destruct (remote url) as [bytes|]; cbv zeta; [|by rewrite Hf1].
  pose proof (extract_fetched (entry_dir cacheDir key) bytes
                (World (files w1) (fetched w1 ++ [url]))) as Hf3.
  destruct (extract _ _ _) as [[[]|e3] w3]; cbn [fst snd] in *; [|by rewrite Hf3, Hf1].
  unfold commit. pose proof (write_file_fetched (marker cacheDir key) [] w3) as Hf4.
  destruct (write_file _ _ _) as [[[]|e4] w4]; cbn in *; by rewrite Hf4, Hf3, Hf1.
Qed.

(** the directory a successful call that missed the cache returns
    holds only the files of the entries the filter accepted in the archive
    that was fetched, at their targets and with their bytes: whatever a
    crashed attempt left in it was removed first. *)
Theorem downloadAndExtractArchive_miss_contents url cacheDir key w dir w1 q d :
  fs_wf (files w) -> is_complete cacheDir key (files w) = false ->
  downloadAndExtractArchive url cacheDir key w = (Ok dir, w1) ->
  files w1 !! q = Some (File d) -> (exists r, q = dir ++ r) ->
  exists bytes es e, remote url = Some bytes /\ parse_archive bytes = Some es /\
    e ∈ es /\ accepted dir e q d.
Proof.
  intros Hwf Hc. destruct (reserve_miss_world cacheDir key w Hwf) as (Hwf1 & _ & _ & Hok1).
  rewrite dl_miss by done.
  destruct (mkdir_p (entry_dir cacheDir key) _) as [[[]|e1] w1']; cbn [fst snd] in *; [|done].
  destruct (Hok1 eq_refl) as [Hd1 Hempty].
  destruct (remote url) as [bytes|]; cbv zeta; [|done].
  pose proof (extract_effect_archive (entry_dir cacheDir key) bytes
                (World (files w1') (fetched w1' ++ [url])) (conj Hwf1 Hd1)) as (_ & _ & Hp & _).
  destruct (extract _ _ _) as [[[]|e3] w3]; cbn [fst snd] in *; [|done].
  destruct (commit_cases cacheDir key w3) as [-> | (e4 & ->)]; [|done].
  intros [= <- <-] Hq [r ->]. cbn [files] in Hq.
  rewrite lookup_insert_ne in Hq by apply marker_not_below.
  destruct (Hp _ _ Hq) as (es & e & Hes & He & Ha).
  - cbn [files]. destruct r as [|s r]; rewrite Hq; [rewrite app_nil_r, Hd1 | rewrite Hempty]; done.
  - by exists bytes, es, e.
Qed.

End OrchestratorTheorems.

Lemma cache_world_ex_wf : fs_wf (files cache_world_ex).
Proof. apply fs_wf_b_sound. vm_compute. reflexivity. Qed.

Lemma downloadAndExtractArchive_idempotent_witness :
  dl_ex "other" (dl_ex "u" cache_world_ex).2 = (Ok ["c"; "k"], (dl_ex "u" cache_world_ex).2).
Proof.
  apply (@downloadAndExtractArchive_idempotent server_ex format_ex under_a "u" "other" ["c"] "k"
           cache_world_ex). vm_compute. reflexivity.
Defined.

Lemma downloadAndExtractArchive_failure_uncommitted_witness :
  is_complete ["c"] "k" (files (dl_ex "v" cache_world_ex).2) = false.
Proof.
  apply (@downloadAndExtractArchive_failure_uncommitted server_ex format_ex under_a "v" ["c"] "k"
           cache_world_ex NetworkError cache_world_ex_wf). vm_compute. reflexivity.
Defined.

Lemma downloadAndExtractArchive_miss_contents_witness :
  exists bytes es e, server_ex "u" = Some bytes /\ format_ex bytes = Some es /\
    e ∈ es /\ @accepted under_a ["c"; "k"] e ["c"; "k"; "x.txt"] [x31].
Proof.
  apply (@downloadAndExtractArchive_miss_contents server_ex format_ex under_a "u" ["c"] "k"
           cache_world_ex ["c"; "k"] (dl_ex "u" cache_world_ex).2);
    [exact cache_world_ex_wf | reflexivity | vm_compute; reflexivity | vm_compute; reflexivity |
     by exists ["x.txt"]].
Defined.

End Cache.
