(* ===== verification/CacheSteps.v ===== *)
(** The orchestrator [downloadAndExtractArchive] of [Cache] as a process
    that runs one file-system call at a time, so that several
    invocations can interleave on the shared cache directory
    (specification, section 5: the cache is the only resource shared
    across invocations and processes; a step of the script is
    synchronous, and the processes interleave between calls).

    A process is at one of the control points of the call: before the
    check of the sentinel ([PReserve]), before the removal of what a
    crashed attempt left ([PClear]), before the creation of the fresh
    directory ([PMkdir]), before the request ([PFetch]), with the entries
    still to extract ([PExtract]); or it has returned, after a hit
    ([PHit]) or at the end or on a failure ([PDone]).  [proc_step] is
    one call: the sentinel check, [fs.rmSync], [fs.mkdirSync], the
    request, one entry written by the scoped [writeFile], the commit.  A
    configuration is the world and the processes, each with its URL; a
    step of [cstep] runs one call of one process.

    The file also gives an abstraction of the calls for the proofs of
    [CacheRace]: a state that keeps only the files of the entry and its
    completion flag ([astate]), a step relation [astep] on it in which
    every file-system call may fail, and the relation [refines] between a
    world and such a state.  [astep] is not the contract of the
    specification's CacheStore (section 3 never mutates a complete
    entry): it has the control points of [proc_step], and lets a removal
    follow another invocation's commit, as interleaved invocations of
    the orchestrator do.

    The lemmas: a process run alone, given [proc_rank] calls, computes
    [downloadAndExtractArchive]; every step of a process, and every
    interleaved run, is mirrored by [astep] with [refines] kept. *)

From S2P Require Import Prelude NodePath Contracts FileSystem Extractor Cache.

Module CacheSteps.
Import NodePath FileSystem Extractor Cache.

(** The control points of one call of [downloadAndExtractArchive]. *)
Inductive proc :=
| PReserve
| PClear
| PMkdir
| PFetch
| PExtract (es : list archive_entry)
| PHit
| PDone (r : result (list string)).

(** The decision [extract_entry] takes on an entry. *)
Inductive entry_action :=
| ASkip
| AFail (e : pipeline_error)
| AWrite (rel : list string) (d : list byte).

(** The abstract cache entry: the files below the entry directory and
    whether the entry is complete. *)
Record astate := AState {
  a_files : list string -> option (list byte);
  a_complete : bool;
}.

(** The file at a path, if a regular file is there. *)
Definition file_at (m : gmap (list string) node) (q : list string) : option (list byte) :=
  match m !! q with
  | Some (File d) => Some d
  | _ => None
  end.

Definition upd (f : list string -> option (list byte)) (rel : list string) (d : list byte) :
    list string -> option (list byte) :=
  fun r => if decide (r = rel) then Some d else f r.

(** A call that may fail, then the control point it leads to. *)
Definition then_ {A} (c : io A) (k : A -> proc) (w : world) : proc * world :=
  match c w with
  | (Ok a, w') => (k a, w')
  | (Err e, w') => (PDone (Err e), w')
  end.

Section Steps.
Context `{Fetcher} `{ArchiveFormat} `{EntryFilter}.
Variables (cacheDir : list string) (key : string).

Definition root : list string := entry_dir cacheDir key.

(** One call of the process at control point [p]; [None] once it has
    returned. *)
Definition proc_step (url : string) (p : proc) (w : world) : option (proc * world) :=
  match p with
  | PReserve =>
      Some (then_ (get_node (marker cacheDir key))
                  (fun n => match n with Some (File _) => PHit | _ => PClear end) w)
  | PClear => Some (then_ (remove_tree root) (fun _ => PMkdir) w)
  | PMkdir => Some (then_ (mkdir_p root) (fun _ => PFetch) w)
  | PFetch =>
      Some (then_ (fetch url)
                  (fun bytes => match parse_archive bytes with
                                | Some es => PExtract es
                                | None => PDone (Err ArchiveFormatError)
                                end) w)
  | PExtract (e :: es) => Some (then_ (extract_entry root e) (fun _ => PExtract es) w)
  | PExtract [] => Some (then_ (commit cacheDir key) (fun _ => PDone (Ok root)) w)
  | PHit | PDone _ => None
  end.

(** What a process has returned. *)
Definition proc_result (p : proc) : option (result (list string)) :=
  match p with
  | PHit => Some (Ok root)
  | PDone r => Some r
  | _ => None
  end.

(** A process run alone, with at most [fuel] calls. *)
Fixpoint run_proc (fuel : nat) (url : string) (p : proc) (w : world)
    : option (result (list string) * world) :=
  match proc_step url p w with
  | None => option_map (fun r => (r, w)) (proc_result p)
  | Some (p', w') =>
      match fuel with
      | O => None
      | S f => run_proc f url p' w'
      end
  end.

(** The calls left after the request: the entries and the commit. *)
Definition fetch_rank (url : string) : nat :=
  match remote url with
  | Some bytes =>
      match parse_archive bytes with
      | Some es => S (S (length es))
      | None => 1
      end
  | None => 1
  end.

(** The number of calls a process still makes at most. *)
Definition proc_rank (url : string) (p : proc) : nat :=
  match p with
  | PReserve => 3 + fetch_rank url
  | PClear => 2 + fetch_rank url
  | PMkdir => 1 + fetch_rank url
  | PFetch => fetch_rank url
  | PExtract es => S (length es)
  | PHit | PDone _ => 0
  end.

(** ** Interleaved invocations *)

Definition config : Type := world * list (string * proc).

(** One call of one of the processes. *)
Inductive cstep : config -> config -> Prop :=
| cstep_proc w ps i u p p' w' :
    ps !! i = Some (u, p) -> proc_step u p w = Some (p', w') ->
    cstep (w, ps) (w', <[i := (u, p')]> ps).

(** The configuration after the processes named by [sched] have each
    made their next call, in that order; a name of a process that has
    returned, or of none, is passed over. *)
Fixpoint run_schedule (sched : list nat) (c : config) : config :=
  match sched with
  | [] => c
  | i :: sched' =>
      run_schedule sched'
        match c.2 !! i with
        | Some (u, p) =>
            match proc_step u p c.1 with
            | Some (p', w') => (w', <[i := (u, p')]> c.2)
            | None => c
            end
        | None => c
        end
  end.

(** ** The abstract store *)

Definition action (e : archive_entry) : entry_action :=
  if entry_is_dir e then ASkip else
  match on_entry (entry_path e) with
  | Skip => ASkip
  | WriteAt t =>
      match target_in root t with
      | None => AFail (PathTraversalError t)
      | Some rel => AWrite rel (entry_bytes e)
      end
  end.

(** The calls as the abstraction sees them; a file-system call may fail. *)
Inductive astep (url : string) : proc -> astate -> proc -> astate -> Prop :=
| as_hit a : a_complete a = true -> astep url PReserve a PHit a
| as_miss a : a_complete a = false -> astep url PReserve a PClear a
| as_clear a : astep url PClear a PMkdir (AState (fun _ => None) (a_complete a))
| as_mkdir a : astep url PMkdir a PFetch a
| as_mkdir_fail a e : astep url PMkdir a (PDone (Err e)) a
| as_fetch a bytes es :
    remote url = Some bytes -> parse_archive bytes = Some es -> astep url PFetch a (PExtract es) a
| as_fetch_bad a bytes :
    remote url = Some bytes -> parse_archive bytes = None ->
    astep url PFetch a (PDone (Err ArchiveFormatError)) a
| as_fetch_fail a : remote url = None -> astep url PFetch a (PDone (Err NetworkError)) a
| as_skip a e es : action e = ASkip -> astep url (PExtract (e :: es)) a (PExtract es) a
| as_reject a e es err : action e = AFail err -> astep url (PExtract (e :: es)) a (PDone (Err err)) a
| as_write a e es rel d :
    action e = AWrite rel d ->
    astep url (PExtract (e :: es)) a (PExtract es) (AState (upd (a_files a) rel d) (a_complete a))
| as_write_fail a e es rel d err :
    action e = AWrite rel d -> astep url (PExtract (e :: es)) a (PDone (Err err)) a
| as_commit a : astep url (PExtract []) a (PDone (Ok root)) (AState (a_files a) true)
| as_commit_fail a err : astep url (PExtract []) a (PDone (Err err)) a.

Inductive acstep : astate * list (string * proc) -> astate * list (string * proc) -> Prop :=
| acstep_proc a ps i u p p' a' :
    ps !! i = Some (u, p) -> astep u p a p' a' ->
    acstep (a, ps) (a', <[i := (u, p')]> ps).

(** The world refines the abstract store: a well-formed tree whose files
    below the entry directory and sentinel are those of the store. *)
Definition refines (w : world) (a : astate) : Prop :=
  fs_wf (files w) /\ (forall rel, file_at (files w) (root ++ rel) = a_files a rel) /\
  is_complete cacheDir key (files w) = a_complete a.

(** The abstract store of a world. *)
Definition abstract (w : world) : astate :=
  AState (fun rel => file_at (files w) (root ++ rel)) (is_complete cacheDir key (files w)).

End Steps.

(** ** Lemmas *)

Section SoloLemmas.
Context `{Fetcher} `{ArchiveFormat} `{EntryFilter}.
Variables (cacheDir : list string) (key : string) (url : string).

Lemma run_proc_step n p w p' w' :
  proc_step cacheDir key url p w = Some (p', w') ->
  run_proc cacheDir key (S n) url p w = run_proc cacheDir key n url p' w'.
Proof. intros E. cbn [run_proc]. by rewrite E. Qed.

Lemma run_proc_done n r w : run_proc cacheDir key n url (PDone r) w = Some (r, w).
Proof. by destruct n. Qed.

(** The entries and the commit, run alone. *)
Lemma run_extract es w n :
  S (length es) <= n ->
  run_proc cacheDir key n url (PExtract es) w =
    Some ((_ <-- extract_entries (root cacheDir key) es ;; _ <-- commit cacheDir key ;;
           io_ret (root cacheDir key)) w).
Proof.
  revert w n. induction es as [|e es IH]; intros w n Hn; (destruct n as [|n]; [lia|]).
  - cbn [run_proc proc_step extract_entries]. unfold then_, io_bind, io_ret at 1.
    destruct (commit cacheDir key w) as [[[]|err] w']; apply run_proc_done.
  - cbn [run_proc proc_step extract_entries]. unfold then_, io_bind at 1 2.
    destruct (extract_entry (root cacheDir key) e w) as [[[]|err] w1]; [|apply run_proc_done].
    cbn [length] in Hn. rewrite IH by lia. done.
Qed.

(** From the request on, run alone. *)
Lemma run_fetch w n :
  fetch_rank url <= n ->
  run_proc cacheDir key n url PFetch w =
    Some ((bytes <-- fetch url ;; _ <-- extract (root cacheDir key) bytes ;;
           _ <-- commit cacheDir key ;; io_ret (root cacheDir key)) w).
Proof.
  unfold fetch_rank. intros Hn. destruct n as [|n];
    [destruct (remote url) as [b|]; [destruct (parse_archive b)|]; lia|].
  cbn [run_proc proc_step]. unfold then_, fetch, io_bind at 1 2.
  destruct (remote url) as [bytes|]; [|apply run_proc_done].
  unfold extract, io_bind at 1. destruct (parse_archive bytes) as [es|]; [|apply run_proc_done].
  rewrite run_extract by lia. done.
Qed.

End SoloLemmas.

(** ** The file-system calls seen through [file_at] *)

Lemma is_complete_file_at cacheDir key m :
  is_complete cacheDir key m = match file_at m (marker cacheDir key) with Some _ => true | None => false end.
Proof. unfold is_complete, file_at. by destruct (m !! marker cacheDir key) as [[|]|]. Qed.

Lemma is_complete_same cacheDir key m m' :
  file_at m' (marker cacheDir key) = file_at m (marker cacheDir key) ->
  is_complete cacheDir key m' = is_complete cacheDir key m.
Proof. rewrite !is_complete_file_at. by intros ->. Qed.

Lemma file_at_adds_dirs m m' q : adds_dirs m m' -> file_at m' q = file_at m q.
Proof.
  intros Had. unfold file_at. destruct (decide (m' !! q = m !! q)) as [->|E]; [done|].
  destruct (Had q E) as [-> ->]. done.
Qed.

Lemma file_at_insert_ne m p q n : p <> q -> file_at (<[p := n]> m) q = file_at m q.
Proof. intros Hne. unfold file_at. by rewrite lookup_insert_ne. Qed.

Lemma file_at_insert_file m p d : file_at (<[p := File d]> m) p = Some d.
Proof. unfold file_at. by rewrite lookup_insert_eq. Qed.

(** [mkdir_p] creates directories only. *)
Lemma mkdir_p_file_at p w :
  fs_wf (files w) ->
  fs_wf (files (mkdir_p p w).2) /\ forall q, file_at (files (mkdir_p p w).2) q = file_at (files w) q.
Proof.
  intros Hwf. destruct (mkdir_p_go_adds_dirs [] p w Hwf (or_introl eq_refl)) as [Had Hwf'].
  split; [done|]. intros q. by apply file_at_adds_dirs.
Qed.

(** [write_file] changes the file at its path only, and only on success. *)
Lemma write_file_file_at p d w :
  fs_wf (files w) ->
  fs_wf (files (write_file p d w).2) /\
  (forall q, q <> p -> file_at (files (write_file p d w).2) q = file_at (files w) q) /\
  ((write_file p d w).1 = Ok tt -> file_at (files (write_file p d w).2) p = Some d) /\
  ((write_file p d w).1 <> Ok tt -> (write_file p d w).2 = w).
Proof.
  intros Hwf. destruct (write_file_cases p d w) as [(Hp & Hnd & Hpar & ->) | (e & ->)]; cbn [fst snd files].
  - split_and!; [by apply fs_wf_write | intros q Hq; by apply file_at_insert_ne
                | intros _; apply file_at_insert_file | done].
  - split_and!; done.
Qed.

(** The scoped [writeFile] of an entry. *)
Lemma write_entry_file_at r rel d w :
  fs_wf (files w) ->
  fs_wf (files (write_entry r rel d w).2) /\
  (forall q, q <> r ++ rel -> file_at (files (write_entry r rel d w).2) q = file_at (files w) q) /\
  ((write_entry r rel d w).1 = Ok tt -> file_at (files (write_entry r rel d w).2) (r ++ rel) = Some d) /\
  ((write_entry r rel d w).1 <> Ok tt ->
   file_at (files (write_entry r rel d w).2) (r ++ rel) = file_at (files w) (r ++ rel)).
Proof.
  intros Hwf. unfold write_entry, io_bind.
  destruct (mkdir_p_file_at (r ++ removelast rel) w Hwf) as [Hwf1 Hf1].
  destruct (mkdir_p (r ++ removelast rel) w) as [[[]|e] w1]; cbn [fst snd] in *;
    [|split_and!; [done | intros q _; apply Hf1 | done | intros _; apply Hf1]].
  destruct (write_file_file_at (r ++ rel) d w1 Hwf1) as (Hwf2 & Hq & Hok & Herr).
  split_and!; [done | intros q Hne; rewrite Hq; auto | done |].
  intros Hne. rewrite (Herr Hne). apply Hf1.
Qed.

Lemma marker_not_root cacheDir key rel : marker cacheDir key <> root cacheDir key ++ rel.
Proof. apply marker_not_below. Qed.

Section RefineLemmas.
Context `{Fetcher} `{ArchiveFormat} `{EntryFilter}.
Variables (cacheDir : list string) (key : string).

Lemma refines_files w w' a : files w' = files w -> refines cacheDir key w a -> refines cacheDir key w' a.
Proof. unfold refines. by intros ->. Qed.

(** A world refines its own abstraction. *)
Lemma refines_abstract w : fs_wf (files w) -> refines cacheDir key w (abstract cacheDir key w).
Proof. done. Qed.

Lemma refines_clear w a :
  refines cacheDir key w a ->
  refines cacheDir key (remove_tree (root cacheDir key) w).2 (AState (fun _ => None) (a_complete a)).
Proof.
  intros (Hwf & Hf & Hc). split_and!; [by apply fs_wf_remove_tree | |].
  - intros rel. unfold file_at. rewrite lookup_remove_tree, decide_True; [done|]. by exists rel.
  - rewrite <- Hc. apply is_complete_same. unfold file_at. rewrite lookup_remove_tree, decide_False; [done|].
    intros [r Hr]. by apply (marker_not_root cacheDir key r).
Qed.

Lemma refines_mkdir w a p :
  refines cacheDir key w a -> refines cacheDir key (mkdir_p p w).2 a.
Proof.
  intros (Hwf & Hf & Hc). destruct (mkdir_p_file_at p w Hwf) as [Hwf' Hq].
  split_and!; [done | intros rel; by rewrite Hq | rewrite <- Hc; by apply is_complete_same].
Qed.

Lemma refines_write w a rel d :
  refines cacheDir key w a ->
  (write_entry (root cacheDir key) rel d w).1 = Ok tt ->
  refines cacheDir key (write_entry (root cacheDir key) rel d w).2 (AState (upd (a_files a) rel d) (a_complete a)).
Proof.
  intros (Hwf & Hf & Hc) Hok.
  destruct (write_entry_file_at (root cacheDir key) rel d w Hwf) as (Hwf' & Hq & Hw & _).
  split_and!; [done | |].
  - intros r. unfold upd. cbn [a_files]. case_decide as Hr; [subst; by apply Hw|].
    rewrite Hq; [apply Hf|]. by intros ?%app_inv_head.
  - rewrite <- Hc. apply is_complete_same, Hq, marker_not_root.
Qed.

Lemma refines_write_fail w a rel d :
  refines cacheDir key w a ->
  (write_entry (root cacheDir key) rel d w).1 <> Ok tt ->
  refines cacheDir key (write_entry (root cacheDir key) rel d w).2 a.
Proof.
  intros (Hwf & Hf & Hc) Hne.
  destruct (write_entry_file_at (root cacheDir key) rel d w Hwf) as (Hwf' & Hq & _ & Hw).
  split_and!; [done | |].
  - intros r. rewrite <- Hf. destruct (decide (r = rel)) as [->|Hr]; [by apply Hw|].
    apply Hq. by intros ?%app_inv_head.
  - rewrite <- Hc. apply is_complete_same, Hq, marker_not_root.
Qed.

Lemma refines_commit w a :
  refines cacheDir key w a ->
  (commit cacheDir key w).1 = Ok tt ->
  refines cacheDir key (commit cacheDir key w).2 (AState (a_files a) true).
Proof.
  intros (Hwf & Hf & Hc) Hok. unfold commit in *.
  destruct (write_file_file_at (marker cacheDir key) [] w Hwf) as (Hwf' & Hq & Hw & _).
  split_and!; [done | intros rel; rewrite Hq; [apply Hf|]; apply not_eq_sym, marker_not_root |].
  rewrite is_complete_file_at, Hw by done. done.
Qed.

Lemma commit_fail w : (commit cacheDir key w).1 <> Ok tt -> (commit cacheDir key w).2 = w.
Proof. intros Hne. destruct (commit_cases cacheDir key w) as [E | (e & E)]; rewrite E in Hne |- *; done. Qed.

(** One call of a process is a step of the abstract store. *)
Lemma proc_step_refines u p w a p' w' :
  refines cacheDir key w a -> proc_step cacheDir key u p w = Some (p', w') ->
  exists a', astep cacheDir key u p a p' a' /\ refines cacheDir key w' a'.
Proof.
  intros Hr Hs. destruct p as [| | | |[|e es]| |r]; cbn [proc_step] in Hs; try discriminate;
    unfold then_ in Hs.
  - unfold get_node in Hs. pose proof (proj2 (proj2 Hr)) as Hc. unfold is_complete in Hc.
    destruct (files w !! marker cacheDir key) as [[|d]|]; simplify_eq; exists a;
      (split; [constructor; by rewrite <- Hc | done]).
  - unfold remove_tree in Hs. simplify_eq. eexists; split; [constructor|].
    by apply refines_clear.
  - pose proof (refines_mkdir w a (root cacheDir key) Hr) as Hr'.
    destruct (mkdir_p (root cacheDir key) w) as [[[]|err] w1]; simplify_eq;
      exists a; (split; [constructor | done]).
  - unfold fetch in Hs. assert (Hr' : refines cacheDir key (World (files w) (fetched w ++ [u])) a)
      by (eapply refines_files; [|exact Hr]; done).
    destruct (remote u) as [bytes|] eqn:Eu; [destruct (parse_archive bytes) as [es|] eqn:Ep|];
      simplify_eq; exists a; split; try done; by econstructor.
  - destruct (commit cacheDir key w) as [[[]|err] w1] eqn:Ec; simplify_eq.
    + eexists; split; [constructor|]. replace w' with (commit cacheDir key w).2 by (by rewrite Ec).
      apply refines_commit; [done|]. by rewrite Ec.
    + exists a. split; [constructor|]. replace w' with (commit cacheDir key w).2 by (by rewrite Ec).
      rewrite commit_fail; [done|]. by rewrite Ec.
  - unfold extract_entry, io_ret, io_fail in Hs.
    destruct (entry_is_dir e) eqn:Hd;
      [simplify_eq; exists a; split; [constructor; unfold action; by rewrite Hd | done]|].
    destruct (on_entry (entry_path e)) as [|t] eqn:Ho;
      [simplify_eq; exists a; split; [constructor; unfold action; by rewrite Hd, Ho | done]|].
    destruct (target_in (root cacheDir key) t) as [rel|] eqn:Ht;
      [|simplify_eq; exists a; split;
        [apply as_reject; unfold action; by rewrite Hd, Ho, Ht | done]].
    assert (Ha : action cacheDir key e = AWrite rel (entry_bytes e)) by (unfold action; by rewrite Hd, Ho, Ht).
    destruct (write_entry (root cacheDir key) rel (entry_bytes e) w) as [[[]|err] w1] eqn:Ew;
      simplify_eq.
    + eexists; split; [by apply as_write|]. replace w' with (write_entry (root cacheDir key) rel (entry_bytes e) w).2 by (by rewrite Ew).
      apply refines_write; [done|]. by rewrite Ew.
    + exists a. split; [by eapply as_write_fail|]. replace w' with (write_entry (root cacheDir key) rel (entry_bytes e) w).2 by (by rewrite Ew).
      apply refines_write_fail; [done|]. by rewrite Ew.
Qed.

End RefineLemmas.

Section ConfigLemmas.
Context `{Fetcher} `{ArchiveFormat} `{EntryFilter}.
Variables (cacheDir : list string) (key : string).

(** Interleaved runs refine interleaved runs of the abstract store. *)
Lemma cstep_refines c c' a :
  cstep cacheDir key c c' -> refines cacheDir key c.1 a ->
  exists a', acstep cacheDir key (a, c.2) (a', c'.2) /\ refines cacheDir key c'.1 a'.
Proof.
  intros [w ps i u p p' w' Hi Hs] Hr.
  destruct (proc_step_refines cacheDir key u p w a p' w' Hr Hs) as (a' & Ha & Hr').
  exists a'. split; [by econstructor | done].
Qed.

Lemma rtc_cstep_refines c c' a :
  rtc (cstep cacheDir key) c c' -> refines cacheDir key c.1 a ->
  exists a', rtc (acstep cacheDir key) (a, c.2) (a', c'.2) /\ refines cacheDir key c'.1 a'.
Proof.
  intros Hsteps. revert a. induction Hsteps as [c|c1 c2 c3 H12 _ IH]; intros a Hr; [by exists a|].
  destruct (cstep_refines c1 c2 a H12 Hr) as (a2 & Ha & Hr2).
  destruct (IH a2 Hr2) as (a3 & Has & Hr3). exists a3. split; [|done]. by econstructor.
Qed.

(** A schedule is a run of the interleaved processes. *)
Lemma run_schedule_rtc sched c : rtc (cstep cacheDir key) c (run_schedule cacheDir key sched c).
Proof.
  revert c. induction sched as [|i sched IH]; intros [w ps]; [done|]. cbn [run_schedule fst snd].
  destruct (ps !! i) as [[u p]|] eqn:Hi; [|apply IH].
  destruct (proc_step cacheDir key u p w) as [[p' w']|] eqn:Hs; [|apply IH].
  eapply rtc_l; [by econstructor|]. apply IH.
Qed.

Lemma rtc_acstep_length c c' : rtc (acstep cacheDir key) c c' -> length c'.2 = length c.2.
Proof.
  induction 1 as [c|c1 c2 c3 H12 _ IH]; [done|]. rewrite IH.
  destruct H12 as [a ps i u p p' a2 Hi _]. apply length_insert.
Qed.

(** A process run alone is a run of a configuration of one process. *)
Lemma run_proc_rtc n u p w r w' :
  run_proc cacheDir key n u p w = Some (r, w') ->
  exists p', rtc (cstep cacheDir key) (w, [(u, p)]) (w', [(u, p')]) /\ proc_result cacheDir key p' = Some r.
Proof.
  revert p w. induction n as [|n IH]; intros p w; cbn [run_proc];
    destruct (proc_step cacheDir key u p w) as [[p1 w1]|] eqn:Hs; try discriminate;
    try (destruct (proc_result cacheDir key p) eqn:Hr; intros [= <- <-]; exists p; split; [done | congruence]).
  intros Hrun. destruct (IH p1 w1 Hrun) as (p' & Hsteps & Hp'). exists p'. split; [|done].
  eapply rtc_l; [|exact Hsteps]. change [(u, p1)] with (<[0 := (u, p1)]> [(u, p)]). by econstructor.
Qed.

End ConfigLemmas.

Section SoloTheorems.
Context `{Fetcher} `{ArchiveFormat} `{EntryFilter}.

(** A call run alone, one file-system call at a time, returns what
    [downloadAndExtractArchive] returns, in the same world, within
    [proc_rank] calls. *)
Lemma run_proc_downloadAndExtractArchive url cacheDir key w n :
  proc_rank url PReserve <= n ->
  run_proc cacheDir key n url PReserve w = Some (downloadAndExtractArchive url cacheDir key w).
Proof.
  intros Hn. destruct n as [|[|[|n]]]; cbn [proc_rank] in Hn; [lia..|].
  unfold downloadAndExtractArchive, reserve.
  cbn [run_proc proc_step]. unfold then_, io_bind, get_node, io_ret.
  destruct (files w !! marker cacheDir key) as [[|d]|] eqn:Em;
    cbn [run_proc proc_step]; try reflexivity; unfold then_, remove_tree; cbn [run_proc proc_step];
    unfold then_, root;
    match goal with |- context [mkdir_p ?r ?w0] =>
      destruct (mkdir_p r w0) as [[[]|err] w1] eqn:Ek end; try (by destruct n);
    rewrite run_fetch by lia; reflexivity.
Qed.

End SoloTheorems.


End CacheSteps.
