(* ===== verification/Build.v ===== *)
(** The build script [src/scripts/build.ts] put together: the download of
    the Keycloak themes jar with the [onArchiveFile] callback (lines
    68-87) and the transformation of the extracted email theme into
    [dist/keycloak-theme/email] with [transformSourceCode] (lines 89-134).
    The repository root ([getThisCodebaseRootDirPath()]) and the working
    directory of the process are parameters; the version is the
    [version] field of [package.json].

    The theorems are the pipeline's guarantees for this configuration:
    what the download writes and where, what the cache entry holds, when
    the network is used, and what the destination holds after the
    transformation. *)

From S2P Require Import Prelude JsPrim Version NodePath Contracts ArchiveFilter.
From S2P Require Import Utf8 MessagesTransform FileSystem Extractor CodebaseTransformer Cache.

Module Build.
Import KeycloakVersion NodePath ArchiveFilter MessagesTransform FileSystem Extractor
  CodebaseTransformer Cache.

(** [pathJoin(getThisCodebaseRootDirPath(), "node_modules", ".cache", "scripts")]
    (line 70). *)
Definition cacheDirPath (rootDir : list string) : list string :=
  rootDir ++ ["node_modules"; ".cache"; "scripts"].

(** Line 74. *)
Definition uniqueIdOfOnArchiveFile : string := "extract_email_theme".

(** Lines 68-87. *)
Definition downloadJar `{Fetcher} `{ArchiveFormat} (cwd rootDir : list string)
    (version : string) : io (list string) :=
  @downloadAndExtractArchive _ _ (onArchiveFile_filter cwd)
    (themesJarUrl (keycloakVersion version)) (cacheDirPath rootDir) uniqueIdOfOnArchiveFile.

(** Line 89. *)
Definition distDirPath (rootDir : list string) : list string := rootDir ++ ["dist"].

(** [pathJoin(distDirPath, "keycloak-theme", "email")] (line 93). *)
Definition emailDestDir (rootDir : list string) : list string :=
  distDirPath rootDir ++ ["keycloak-theme"; "email"].

(** Lines 91-134. *)
Definition transformTheme (rootDir extractedDirPath : list string) : io unit :=
  @transformCodebase transformSourceCode_transform extractedDirPath (emailDestDir rootDir).

(** Lines 62-134. *)
Definition build `{Fetcher} `{ArchiveFormat} (cwd rootDir : list string) (version : string)
    : io unit :=
  extractedDirPath <-- downloadJar cwd rootDir version ;;
  transformTheme rootDir extractedDirPath.

(** The directory the download returns. *)
Definition extractedDir (rootDir : list string) : list string :=
  entry_dir (cacheDirPath rootDir) uniqueIdOfOnArchiveFile.

(** ** A build on a small jar (section 8) *)

(** The repository [/r] with an empty cache directory and an empty
    destination holding one file of an earlier build, run from [/r]. *)
Definition repo_ex : world :=
  World (<[["r"] := Dir]> (<[["r"; "node_modules"] := Dir]>
        (<[["r"; "node_modules"; ".cache"] := Dir]> (<[cacheDirPath ["r"] := Dir]>
        (<[["r"; "dist"] := Dir]> (<[["r"; "dist"; "keycloak-theme"] := Dir]>
        (<[emailDestDir ["r"] := Dir]>
        (<[emailDestDir ["r"] ++ ["old.ftl"] := File [x6f]]> ∅)))))))) [].

Definition version_ex : string := "260005.0.0".

(** The jar: a messages file, a template, and a file of another theme. *)
Definition jar_entries_ex : list archive_entry :=
  [ArchiveEntry "theme/base/email/messages/messages_en.properties" false [x6b; x3d; x76];
   ArchiveEntry "theme/base/email/html/x.ftl" false [x78];
   ArchiveEntry "theme/base/login/y.ftl" false [x79]].

Definition maven_ex : Fetcher := fun u =>
  if String.eqb u "https://repo1.maven.org/maven2/org/keycloak/keycloak-themes/26.0.5/keycloak-themes-26.0.5.jar"
  then Some [x50; x4b] else None.

Definition jar_format_ex : ArchiveFormat := fun b =>
  if decide (b = [x50; x4b]) then Some jar_entries_ex else None.

Definition downloaded_ex : world :=
  (@downloadJar maven_ex jar_format_ex ["r"] ["r"] version_ex repo_ex).2.

Definition built_ex : world := (@build maven_ex jar_format_ex ["r"] ["r"] version_ex repo_ex).2.

(** ** Lemmas *)

Lemma apart_extracted_dest rootDir : apart (extractedDir rootDir) (emailDestDir rootDir).
Proof.
  intros r1 r2 E. unfold extractedDir, entry_dir, cacheDirPath, emailDestDir, distDirPath in E.
  rewrite <- !app_assoc in E. apply app_inv_head in E. discriminate.
Qed.

(** A target of the callback that the extractor accepts is the entry's
    path below [theme/base/email]. *)
Lemma onArchiveFile_target cwd dir p t rel :
  Forall (fun x => seg_ok x = true) cwd ->
  onArchiveFile cwd p = WriteAt t -> target_in dir t = Some rel ->
  resolve cwd p = cwd ++ email_segments ++ rel.
Proof.
  intros Hcwd Hp Ht. destruct (onArchiveFile_WriteAt_ok cwd p t Hcwd Hp) as (rest & Hr & -> & Hok).
  destruct rest as [|s rest]; [by rewrite target_in_empty in Ht|].
  rewrite target_in_join in Ht by done. by simplify_eq.
Qed.

Lemma downloadJar_wf `{Fetcher} `{ArchiveFormat} cwd rootDir version w :
  fs_wf (files w) -> fs_wf (files (downloadJar cwd rootDir version w).2).
Proof. intros Hwf. by apply dl_wf. Qed.

(** The download leaves [dist] as it was. *)
Lemma downloadJar_keeps_dist `{Fetcher} `{ArchiveFormat} cwd rootDir version w r :
  fs_wf (files w) -> files w !! cacheDirPath rootDir = Some Dir ->
  files (downloadJar cwd rootDir version w).2 !! (distDirPath rootDir ++ r) =
  files w !! (distDirPath rootDir ++ r).
Proof.
  intros Hwf Hcd. destruct (decide (files (downloadJar cwd rootDir version w).2 !! (distDirPath rootDir ++ r) =
                                      files w !! (distDirPath rootDir ++ r))) as [E|E]; [done|].
  destruct (dl_confined _ _ _ w Hwf Hcd _ E) as [(r' & Hq) | Hq];
    unfold distDirPath, entry_dir, marker, cacheDirPath in Hq; rewrite <- !app_assoc in Hq;
    apply app_inv_head in Hq; discriminate.
Qed.

(** ** Theorems *)

Section BuildTheorems.
Context `{Fetcher} `{ArchiveFormat}.

(** C7: end to end.  When a build that finds no cached extraction
    succeeds, every file entry [theme/base/email/rel] of the fetched jar
    (made of ordinary segments, [rel] not starting with "..") ends up in
    [dist/keycloak-theme/email/rel], holding what [transformSourceCode]
    makes of the bytes of a jar entry at that path.  The cache directory
    and the destination exist beforehand. *)
Theorem build_dist_contents `{Fetcher} `{ArchiveFormat} cwd rootDir version w bytes es e rel :
  Forall (fun x => seg_ok x = true) cwd -> fs_wf (files w) ->
  files w !! cacheDirPath rootDir = Some Dir -> files w !! emailDestDir rootDir = Some Dir ->
  is_complete (cacheDirPath rootDir) uniqueIdOfOnArchiveFile (files w) = false ->
  (build cwd rootDir version w).1 = Ok tt ->
  remote (themesJarUrl (keycloakVersion version)) = Some bytes -> parse_archive bytes = Some es ->
  e ∈ es -> entry_is_dir e = false ->
  entry_path e = str_join "/" (["theme"; "base"; "email"] ++ rel) ->
  rel <> [] -> Forall (fun x => seg_ok x = true) rel ->
  str_starts_with (str_join "/" rel) ".." = false ->
  exists e' out, e' ∈ es /\
    resolve cwd (entry_path e') = cwd ++ ["theme"; "base"; "email"] ++ rel /\
    transformSourceCode (str_join "/" rel) (entry_bytes e') = Ok out /\
    files (build cwd rootDir version w).2 !! (emailDestDir rootDir ++ rel) = Some (File out).
Proof.
  intros Hcwd Hwf Hcd Hdd Hc Hres Hr Hp He Hd Hpath Hne Hok Hdot.
  unfold build, io_bind in *.
  destruct (downloadJar cwd rootDir version w) as [[dir|err] w1] eqn:Edl; [|done].
  destruct (dl_Ok _ _ _ _ _ _ Edl) as [-> _].
  assert (Hwf1 : fs_wf (files w1)) by (pose proof (downloadJar_wf cwd rootDir version w Hwf) as Hw1; by rewrite Edl in Hw1).
  assert (Hdd1 : files w1 !! emailDestDir rootDir = Some Dir).
  { pose proof (downloadJar_keeps_dist cwd rootDir version w ["keycloak-theme"; "email"] Hwf Hcd) as Hk.
    rewrite Edl in Hk. cbn [snd] in Hk. unfold emailDestDir. by rewrite Hk. }
  assert (Hacc : onArchiveFile cwd (entry_path e) = WriteAt (str_join "/" rel)).
  { unfold onArchiveFile. rewrite Hpath, relative_email by done. by rewrite Hdot. }
  destruct (dl_miss_complete _ _ _ w _ w1 bytes es Hwf Hc Edl Hr Hp e _ He Hd Hacc)
    as (rel' & d & Hrel & Hf).
  rewrite target_in_join in Hrel by done. injection Hrel as <-.
  destruct (downloadAndExtractArchive_miss_contents _ _ _ w _ w1 _ d Hwf Hc Edl Hf
              (ex_intro _ rel eq_refl))
    as (bytes' & es' & e' & Hb' & Hes' & He' & t & rel'' & Hd' & Ht & Hrel'' & Hq & Hbytes).
  unfold downloadJar in Hr. rewrite Hr in Hb'. injection Hb' as <-. rewrite Hp in Hes'.
  injection Hes' as <-. apply app_inv_head in Hq as <-.
  destruct (transformCodebase_result _ _ w1 (apart_extracted_dest rootDir) Hwf1 Hdd1 Hres rel d Hne Hf)
    as (out & Ho & Hdest).
  exists e', out. split_and!; [done | exact (onArchiveFile_target cwd _ _ t rel Hcwd Ht Hrel'') | |].
  - by rewrite Hbytes.
  - exact Hdest.
Qed.

(** C8: the download of the themes jar changes the file system only in
    [node_modules/.cache/scripts/extract_email_theme] and at its sentinel
    [extract_email_theme.complete], whatever the entries of the jar are
    called, also when it fails; the cache directory exists beforehand. *)
Theorem downloadJar_confined cwd rootDir version w :
  fs_wf (files w) -> files w !! cacheDirPath rootDir = Some Dir ->
  forall q, files (downloadJar cwd rootDir version w).2 !! q <> files w !! q ->
  (exists r, q = rootDir ++ ["node_modules"; ".cache"; "scripts"; "extract_email_theme"] ++ r) \/
  q = rootDir ++ ["node_modules"; ".cache"; "scripts"; "extract_email_theme.complete"].
Proof.
  intros Hwf Hd q Hq. unfold entry_dir, marker, cacheDirPath.
  destruct (dl_confined _ _ _ w Hwf Hd q Hq) as [(r & ->) | ->]; [left; exists r | right];
    unfold entry_dir, marker, cacheDirPath; by rewrite <- !app_assoc.
Qed.

(** C9: after a download that missed the cache, every file in the
    extracted directory, at a path [r] below it, is the bytes of a file
    entry of the fetched jar whose path is [theme/base/email/r] (resolved
    in the working directory): only the email theme is extracted, each
    file at its path relative to [theme/base/email]. *)
Theorem downloadJar_contents cwd rootDir version w dir w1 r d :
  Forall (fun x => seg_ok x = true) cwd -> fs_wf (files w) ->
  is_complete (cacheDirPath rootDir) uniqueIdOfOnArchiveFile (files w) = false ->
  downloadJar cwd rootDir version w = (Ok dir, w1) ->
  files w1 !! (dir ++ r) = Some (File d) ->
  exists bytes es e, remote (themesJarUrl (keycloakVersion version)) = Some bytes /\
    parse_archive bytes = Some es /\ e ∈ es /\ entry_is_dir e = false /\
    resolve cwd (entry_path e) = cwd ++ ["theme"; "base"; "email"] ++ r /\ entry_bytes e = d.
Proof.
  intros Hcwd Hwf Hc Hdl Hf.
  destruct (downloadAndExtractArchive_miss_contents _ _ _ w dir w1 (dir ++ r) d Hwf Hc Hdl Hf
              (ex_intro _ r eq_refl))
    as (bytes & es & e & Hb & Hes & He & t & rel & Hdir & Ht & Hrel & Hq & Hd).
  exists bytes, es, e. split_and!; [done | done | done | done | | done].
  apply app_inv_head in Hq as ->. exact (onArchiveFile_target cwd dir _ t rel Hcwd Ht Hrel).
Qed.

(** C10: once a build has downloaded and extracted the jar, a later build
    with another [version] in [package.json] returns the same directory,
    makes no request and writes nothing: the cache key of line 74 does not
    depend on the Keycloak version, so the theme of the earlier version is
    reused. *)
Theorem downloadJar_reuses_cache cwd rootDir version version' w dir w1 :
  downloadJar cwd rootDir version w = (Ok dir, w1) ->
  downloadJar cwd rootDir version' w1 = (Ok dir, w1).
Proof. apply downloadAndExtractArchive_idempotent. Qed.

(** C11: a download that fails leaves no complete cache entry, so the next
    build downloads again. *)
Theorem downloadJar_failure_uncommitted cwd rootDir version w e :
  fs_wf (files w) -> (downloadJar cwd rootDir version w).1 = Err e ->
  is_complete (cacheDirPath rootDir) uniqueIdOfOnArchiveFile
    (files (downloadJar cwd rootDir version w).2) = false.
Proof. apply downloadAndExtractArchive_failure_uncommitted. Qed.

(** C12: a build makes at most one request, for the jar of its Keycloak
    version at the Maven URL of line 69. *)
Theorem downloadJar_fetches_once cwd rootDir version w :
  fetched (downloadJar cwd rootDir version w).2 = fetched w \/
  fetched (downloadJar cwd rootDir version w).2 =
    fetched w ++ [themesJarUrl (keycloakVersion version)].
Proof. apply downloadAndExtractArchive_fetches_once. Qed.

End BuildTheorems.

(** C13: when the transformation of lines 91-134 succeeds, every file of
    the extracted directory is in [dist/keycloak-theme/email] at the same
    relative path, with the bytes [transformSourceCode] returns for it. *)
Theorem transformTheme_result rootDir w :
  fs_wf (files w) -> files w !! emailDestDir rootDir = Some Dir ->
  (transformTheme rootDir (extractedDir rootDir) w).1 = Ok tt ->
  forall rel d, rel <> [] -> files w !! (extractedDir rootDir ++ rel) = Some (File d) ->
  exists out, transformSourceCode (str_join "/" rel) d = Ok out /\
    files (transformTheme rootDir (extractedDir rootDir) w).2 !! (emailDestDir rootDir ++ rel) =
      Some (File out).
Proof.
  intros Hwf Hd Hres. exact (transformCodebase_result _ _ w (apart_extracted_dest rootDir) Hwf Hd Hres).
Qed.

(** C14: a file of the theme that is not a [.properties] file directly in
    [messages/] is copied into [dist/keycloak-theme/email] byte for byte. *)
Theorem transformTheme_copies_other rootDir w rel d :
  fs_wf (files w) -> files w !! emailDestDir rootDir = Some Dir ->
  (transformTheme rootDir (extractedDir rootDir) w).1 = Ok tt ->
  rel <> [] -> files w !! (extractedDir rootDir ++ rel) = Some (File d) ->
  dirname (str_join "/" rel) <> "messages" \/
    str_ends_with (basename (str_join "/" rel)) ".properties" = false ->
  files (transformTheme rootDir (extractedDir rootDir) w).2 !! (emailDestDir rootDir ++ rel) =
    Some (File d).
Proof.
  intros Hwf Hd Hres Hne Hs Hp.
  destruct (transformCodebase_result _ _ w (apart_extracted_dest rootDir) Hwf Hd Hres rel d Hne Hs)
    as (out & Ho & Hf).
  change (transform_file (str_join "/" rel) d) with (transformSourceCode (str_join "/" rel) d) in Ho.
  rewrite transformSourceCode_unchanged in Ho by done. by simplify_eq.
Qed.

(** C17: the theme written to [dist/keycloak-theme/email] does not
    depend on the order in which [transformCodebase] lists the extracted
    directory (section 4.5: the output must be order-independent): a
    walk over the same files in any other order that also succeeds
    leaves the same file, with the same bytes, at every path. *)
Theorem transformTheme_order_independent rootDir w rels :
  fs_wf (files w) -> files w !! emailDestDir rootDir = Some Dir ->
  rels ≡ₚ crawl (extractedDir rootDir) (files w) ->
  (transformTheme rootDir (extractedDir rootDir) w).1 = Ok tt ->
  (@transform_files transformSourceCode_transform (extractedDir rootDir) (emailDestDir rootDir) rels w).1
    = Ok tt ->
  forall q d, files (transformTheme rootDir (extractedDir rootDir) w).2 !! q = Some (File d) <->
    files (@transform_files transformSourceCode_transform (extractedDir rootDir) (emailDestDir rootDir)
             rels w).2 !! q = Some (File d).
Proof.
  intros Hwf Hd Hp Hres Hres' q d. unfold transformTheme, transformCodebase in *.
  destruct (crawl_ok (extractedDir rootDir) (files w)) as [Hnd Hne].
  rewrite (transform_files_file _ _ _ w q d (apart_extracted_dest rootDir) Hnd Hne (conj Hwf Hd) Hres).
  rewrite (transform_files_file _ _ rels w q d (apart_extracted_dest rootDir)); [|by rewrite Hp|by rewrite Hp|done|done].
  by setoid_rewrite Hp.
Qed.

(** C15: a file left in [dist/keycloak-theme/email] by an earlier build at
    a path the extracted theme does not have survives the build: the script
    does not clear the destination. *)
Theorem transformTheme_stale rootDir w r d :
  fs_wf (files w) -> files w !! emailDestDir rootDir = Some Dir ->
  files w !! (emailDestDir rootDir ++ r) = Some (File d) ->
  (forall d', files w !! (extractedDir rootDir ++ r) <> Some (File d')) ->
  files (transformTheme rootDir (extractedDir rootDir) w).2 !! (emailDestDir rootDir ++ r) =
    Some (File d).
Proof. intros Hwf Hd. by apply transformCodebase_stale; [apply apart_extracted_dest|..]. Qed.

(** C16: the transformation writes only below [dist/keycloak-theme/email]:
    the cache, the rest of [dist] and the repository are left as they were. *)
Theorem transformTheme_confined rootDir w :
  fs_wf (files w) -> files w !! emailDestDir rootDir = Some Dir ->
  forall q, files (transformTheme rootDir (extractedDir rootDir) w).2 !! q <> files w !! q ->
  exists r, r <> [] /\ q = rootDir ++ ["dist"; "keycloak-theme"; "email"] ++ r.
Proof.
  intros Hwf Hd q Hq.
  destruct (transformCodebase_confined _ _ w (apart_extracted_dest rootDir) Hwf Hd q Hq)
    as (r & Hr & ->).
  exists r. split; [done|]. unfold emailDestDir, distDirPath. by rewrite <- !app_assoc.
Qed.

Lemma repo_ex_wf : fs_wf (files repo_ex).
Proof. apply fs_wf_b_sound. vm_compute. reflexivity. Qed.

Lemma downloaded_ex_wf : fs_wf (files downloaded_ex).
Proof. apply fs_wf_b_sound. vm_compute. reflexivity. Qed.

Lemma build_dist_contents_witness :
  exists e' out, e' ∈ jar_entries_ex /\
    resolve ["r"] (entry_path e') = ["r"] ++ ["theme"; "base"; "email"] ++ ["html"; "x.ftl"] /\
    transformSourceCode (str_join "/" ["html"; "x.ftl"]) (entry_bytes e') = Ok out /\
    files built_ex !! (emailDestDir ["r"] ++ ["html"; "x.ftl"]) = Some (File out).
Proof.
  apply (@build_dist_contents maven_ex jar_format_ex ["r"] ["r"] version_ex repo_ex [x50; x4b]
           jar_entries_ex (ArchiveEntry "theme/base/email/html/x.ftl" false [x78]));
    [repeat constructor | exact repo_ex_wf | vm_compute; reflexivity | vm_compute; reflexivity |
     vm_compute; reflexivity | vm_compute; reflexivity | vm_compute; reflexivity |
     vm_compute; reflexivity | apply elem_of_cons; right; apply elem_of_cons; by left |
     reflexivity | reflexivity | done | repeat constructor | reflexivity].
Defined.

Lemma downloadJar_confined_witness :
  files downloaded_ex !! (extractedDir ["r"] ++ ["html"; "x.ftl"]) <>
    files repo_ex !! (extractedDir ["r"] ++ ["html"; "x.ftl"]) /\
  ((exists r, extractedDir ["r"] ++ ["html"; "x.ftl"] =
     ["r"] ++ ["node_modules"; ".cache"; "scripts"; "extract_email_theme"] ++ r) \/
   extractedDir ["r"] ++ ["html"; "x.ftl"] =
     ["r"] ++ ["node_modules"; ".cache"; "scripts"; "extract_email_theme.complete"]).
Proof.
  assert (Hq : files downloaded_ex !! (extractedDir ["r"] ++ ["html"; "x.ftl"]) <>
               files repo_ex !! (extractedDir ["r"] ++ ["html"; "x.ftl"]))
    by (vm_compute; discriminate).
  split; [exact Hq|].
  exact (@downloadJar_confined maven_ex jar_format_ex ["r"] ["r"] version_ex repo_ex repo_ex_wf
           ltac:(vm_compute; reflexivity) _ Hq).
Defined.

Lemma downloadJar_contents_witness :
  exists bytes es e, @remote maven_ex (themesJarUrl (keycloakVersion version_ex)) = Some bytes /\
    @parse_archive jar_format_ex bytes = Some es /\ e ∈ es /\ entry_is_dir e = false /\
    resolve ["r"] (entry_path e) = ["r"] ++ ["theme"; "base"; "email"] ++ ["html"; "x.ftl"] /\
    entry_bytes e = [x78].
Proof.
  apply (@downloadJar_contents maven_ex jar_format_ex ["r"] ["r"] version_ex repo_ex
           (extractedDir ["r"]) downloaded_ex);
    [repeat constructor | exact repo_ex_wf | vm_compute; reflexivity |
     apply pair_eta_fst; vm_compute; reflexivity | vm_compute; reflexivity].
Defined.

Lemma downloadJar_reuses_cache_witness :
  @downloadJar maven_ex jar_format_ex ["r"] ["r"] "250003.0.0" downloaded_ex =
    (Ok (extractedDir ["r"]), downloaded_ex).
Proof.
  apply (@downloadJar_reuses_cache maven_ex jar_format_ex ["r"] ["r"] version_ex _ repo_ex).
  apply pair_eta_fst. vm_compute. reflexivity.
Defined.

Lemma downloadJar_failure_uncommitted_witness :
  is_complete (cacheDirPath ["r"]) uniqueIdOfOnArchiveFile
    (files (@downloadJar maven_ex jar_format_ex ["r"] ["r"] "1.2.3" repo_ex).2) = false.
Proof.
  apply (@downloadJar_failure_uncommitted maven_ex jar_format_ex ["r"] ["r"] "1.2.3" repo_ex
           NetworkError repo_ex_wf). vm_compute. reflexivity.
Defined.

Lemma transformTheme_result_witness :
  exists out, transformSourceCode (str_join "/" ["html"; "x.ftl"]) [x78] = Ok out /\
    files (transformTheme ["r"] (extractedDir ["r"]) downloaded_ex).2
      !! (emailDestDir ["r"] ++ ["html"; "x.ftl"]) = Some (File out).
Proof.
  apply (transformTheme_result ["r"] downloaded_ex downloaded_ex_wf);
    [vm_compute; reflexivity | vm_compute; reflexivity | done | vm_compute; reflexivity].
Defined.

Lemma transformTheme_order_independent_witness :
  files (transformTheme ["r"] (extractedDir ["r"]) downloaded_ex).2
    !! (emailDestDir ["r"] ++ ["html"; "x.ftl"]) = Some (File [x78]) <->
  files (@transform_files transformSourceCode_transform (extractedDir ["r"]) (emailDestDir ["r"])
           (rev (crawl (extractedDir ["r"]) (files downloaded_ex))) downloaded_ex).2
    !! (emailDestDir ["r"] ++ ["html"; "x.ftl"]) = Some (File [x78]).
Proof.
  apply (transformTheme_order_independent ["r"] downloaded_ex _ downloaded_ex_wf);
    [vm_compute; reflexivity | symmetry; apply Permutation_rev | vm_compute; reflexivity |
     vm_compute; reflexivity].
Defined.

Lemma transformTheme_copies_other_witness :
  files (transformTheme ["r"] (extractedDir ["r"]) downloaded_ex).2
    !! (emailDestDir ["r"] ++ ["html"; "x.ftl"]) = Some (File [x78]).
Proof.
  apply (transformTheme_copies_other ["r"] downloaded_ex ["html"; "x.ftl"] [x78] downloaded_ex_wf);
    [vm_compute; reflexivity | vm_compute; reflexivity | done | vm_compute; reflexivity |
     left; vm_compute; discriminate].
Defined.

Lemma transformTheme_stale_witness :
  files (transformTheme ["r"] (extractedDir ["r"]) downloaded_ex).2
    !! (emailDestDir ["r"] ++ ["old.ftl"]) = Some (File [x6f]).
Proof.
  apply (transformTheme_stale ["r"] downloaded_ex ["old.ftl"] [x6f] downloaded_ex_wf);
    [vm_compute; reflexivity | vm_compute; reflexivity | intros d'; vm_compute; discriminate].
Defined.

Lemma transformTheme_confined_witness :
  files (transformTheme ["r"] (extractedDir ["r"]) downloaded_ex).2
    !! (emailDestDir ["r"] ++ ["html"; "x.ftl"]) <>
    files downloaded_ex !! (emailDestDir ["r"] ++ ["html"; "x.ftl"]) /\
  exists r, r <> [] /\ emailDestDir ["r"] ++ ["html"; "x.ftl"] =
                       ["r"] ++ ["dist"; "keycloak-theme"; "email"] ++ r.
Proof.
  assert (Hq : files (transformTheme ["r"] (extractedDir ["r"]) downloaded_ex).2
                 !! (emailDestDir ["r"] ++ ["html"; "x.ftl"]) <>
               files downloaded_ex !! (emailDestDir ["r"] ++ ["html"; "x.ftl"]))
    by (vm_compute; discriminate).
  split; [exact Hq|].
  exact (transformTheme_confined ["r"] downloaded_ex downloaded_ex_wf
           ltac:(vm_compute; reflexivity) _ Hq).
Defined.

(** The targeted rewrite of section 8 through the whole script: the
    messages file gets the banner, the template is copied, the login theme
    is left out, the earlier file stays. *)
Example build_ex :
  (@build maven_ex jar_format_ex ["r"] ["r"] version_ex repo_ex).1 = Ok tt /\
  files built_ex !! (emailDestDir ["r"] ++ ["messages"; "messages_en.properties"]) =
    Some (File (banner_bytes "en" ++ [x6b; x3d; x76])) /\
  files built_ex !! (emailDestDir ["r"] ++ ["html"; "x.ftl"]) = Some (File [x78]) /\
  files built_ex !! (emailDestDir ["r"] ++ ["y.ftl"]) = None /\
  files built_ex !! (emailDestDir ["r"] ++ ["old.ftl"]) = Some (File [x6f]) /\
  fetched built_ex = [themesJarUrl "26.0.5"].
Proof. split_and!; vm_compute; reflexivity. Qed.

End Build.
