(* ===== verification/CacheRace.v ===== *)
(** Concurrent builds racing on the cache entry [extract_email_theme]
    (specification, section 5).  Several invocations of
    [downloadAndExtractArchive] for the same URL run interleaved, one
    file-system call at a time ([CacheSteps.cstep]); the script passes the
    same cache key whatever the version (line 74), so two builds started
    together, in one checkout or in two that share [node_modules], race
    on that entry.

    The proofs go through the abstraction of [CacheSteps]: a run of the
    processes is mirrored by a run of [astep] ([rtc_cstep_refines]), on
    which an invariant holds.  Its ghost part gives each process the
    segment of the archive's entries it has extracted since the last
    removal of the directory; the last process to remove it extracts all
    the entries; and each file of the entry holds what the latest write
    to its path wrote, with no later entry of the writer's segment for
    that path.

    The theorems: when every invocation has returned successfully, the
    entry holds, at each path, the bytes of the last entry of the archive
    written there, whatever the interleaving; and a single download on an
    incomplete entry leaves exactly that. *)

From S2P Require Import Prelude Version NodePath Contracts ArchiveFilter FileSystem Extractor.
From S2P Require Import Cache CacheSteps Build.

Module CacheRace.
Import KeycloakVersion NodePath ArchiveFilter FileSystem Extractor Cache CacheSteps Build.

Section RaceDefs.
Context `{Fetcher} `{ArchiveFormat} `{EntryFilter}.
Variables (cacheDir : list string) (key : string).

(** The path an entry is written at, if it is written. *)
Definition tgt (e : archive_entry) : option (list string) :=
  match action cacheDir key e with
  | AWrite rel _ => Some rel
  | _ => None
  end.

Definition tgt_at (es : list archive_entry) (j : nat) : option (list string) :=
  es !! j ≫= tgt.

(** The bytes the entries leave at [t] when written in order. *)
Definition lw_step (t : list string) (acc : option (list byte)) (e : archive_entry) : option (list byte) :=
  match action cacheDir key e with
  | AWrite rel d => if decide (rel = t) then Some d else acc
  | _ => acc
  end.

Definition last_write (es : list archive_entry) (t : list string) : option (list byte) :=
  fold_left (lw_step t) es None.

(** The ghost segment [(s, k)] of a process: it has extracted the
    entries [s] to [k - 1] since the last removal. *)
Definition pos_ok (es : list archive_entry) (p : proc) (g : nat * nat) : Prop :=
  match p with
  | PReserve | PClear | PHit => g.1 = g.2
  | PMkdir | PFetch => g.1 = 0 /\ g.2 = 0
  | PExtract rs => g.1 <= g.2 /\ rs = drop g.2 es /\ g.2 <= length es
  | PDone (Ok _) => g.1 <= g.2 /\ g.2 = length es
  | PDone (Err _) => g.1 <= g.2 /\ g.2 <= length es
  end.

(** The control points of the process that removed the directory last. *)
Definition owner_state (p : proc) : Prop :=
  match p with
  | PMkdir | PFetch | PExtract _ | PDone _ => True
  | _ => False
  end.

Definition in_seg (ps : list (string * proc)) (g : nat -> nat * nat) (i j : nat) : Prop :=
  i < length ps /\ (g i).1 <= j < (g i).2.

(** The file at [t] is absent and no segment writes it, or it is what
    the entry [j] of some segment wrote, and the rest of that segment
    does not write [t]. *)
Definition path_inv (es : list archive_entry) (a : astate) (ps : list (string * proc))
    (g : nat -> nat * nat) (t : list string) : Prop :=
  (a_files a t = None /\ forall i j, in_seg ps g i j -> tgt_at es j <> Some t) \/
  (exists i j e d, in_seg ps g i j /\ es !! j = Some e /\ action cacheDir key e = AWrite t d /\
     a_files a t = Some d /\ forall j', j < j' < (g i).2 -> tgt_at es j' <> Some t).

(** The invariant of the interleaved runs of invocations for [u], whose
    archive has the entries [es]. *)
Definition race_inv (u : string) (es : list archive_entry) (c : astate * list (string * proc)) : Prop :=
  Forall (fun up => up.1 = u) c.2 /\
  exists g, (forall i up, c.2 !! i = Some up -> pos_ok es up.2 (g i)) /\
  ((Forall (fun up => up.2 = PReserve \/ up.2 = PClear) c.2 /\ a_complete c.1 = false) \/
   (exists o uo po, c.2 !! o = Some (uo, po) /\ owner_state po /\ (g o).1 = 0 /\
      forall t, path_inv es c.1 c.2 g t)).

(** The ghost segments with that of process [x] replaced. *)
Definition set_seg (g : nat -> nat * nat) (x : nat) (sk : nat * nat) : nat -> nat * nat :=
  fun i => if decide (i = x) then sk else g i.

(** Every invocation has returned successfully. *)
Definition all_ok (ps : list (string * proc)) : Prop :=
  Forall (fun up => match up.2 with PHit | PDone (Ok _) => True | _ => False end) ps.

End RaceDefs.

(** ** Concurrent builds *)

(** A call of one of the downloads of lines 68-87 run by concurrent
    builds of one repository from [cwd]. *)
Definition build_cstep `{Fetcher} `{ArchiveFormat} (cwd rootDir : list string) : config -> config -> Prop :=
  @cstep _ _ (onArchiveFile_filter cwd) (cacheDirPath rootDir) uniqueIdOfOnArchiveFile.

(** [n] builds for [version], each about to reserve the cache entry. *)
Definition build_procs (version : string) (n : nat) : list (string * proc) :=
  replicate n (themesJarUrl (keycloakVersion version), PReserve).

(** Two builds of the repository of [Build.repo_ex] started together. *)
Definition race_start_ex : config := (repo_ex, build_procs version_ex 2).

(** An interleaving of two builds: the first extracts the messages file;
    the second finds no sentinel and removes the directory; the first
    goes on to the end. *)
Definition race_schedule_ex : list nat := [0; 0; 0; 0; 0; 1; 1; 0; 0; 0].

Definition race_run_ex (sched : list nat) : config :=
  @run_schedule maven_ex jar_format_ex (onArchiveFile_filter ["r"]) (cacheDirPath ["r"])
    uniqueIdOfOnArchiveFile sched race_start_ex.

Definition messages_ex : list string := ["messages"; "messages_en.properties"].

(** The same start, then the second build runs to the end. *)
Definition race_schedule_full_ex : list nat := race_schedule_ex ++ [1; 1; 1; 1; 1; 1].

(** ** Lemmas *)

Section LastWrite.
Context `{Fetcher} `{ArchiveFormat} `{EntryFilter}.
Variables (cacheDir : list string) (key : string).

Lemma lw_fold_skip t l acc :
  (forall e, e ∈ l -> tgt cacheDir key e <> Some t) -> fold_left (lw_step cacheDir key t) l acc = acc.
Proof.
  revert acc. induction l as [|e l IH]; intros acc Hl; [done|]. cbn [fold_left].
  rewrite IH by (intros; apply Hl; set_solver). unfold lw_step. pose proof (Hl e ltac:(set_solver)) as He. unfold tgt in He.
  destruct (action cacheDir key e); try done. case_decide; congruence.
Qed.

Lemma tgt_at_drop (es : list archive_entry) j e : es !! j = Some e -> forall e', e' ∈ drop (S j) es ->
  exists j', j < j' /\ es !! j' = Some e'.
Proof.
  intros _ e' Hin. apply list_elem_of_lookup in Hin as [k Hk]. rewrite lookup_drop in Hk.
  exists (S j + k). split; [lia | done].
Qed.

(** The last entry that writes [t] decides what [t] holds. *)
Lemma last_write_last es j e t d :
  es !! j = Some e -> action cacheDir key e = AWrite t d ->
  (forall j', j < j' -> tgt_at cacheDir key es j' <> Some t) -> last_write cacheDir key es t = Some d.
Proof.
  intros Hj Ha Hlater. unfold last_write.
  rewrite <- (take_drop_middle es j e Hj), fold_left_app. cbn [fold_left].
  rewrite lw_fold_skip.
  - unfold lw_step at 1. rewrite Ha. by rewrite decide_True.
  - intros e' Hin. destruct (tgt_at_drop es j e Hj e' Hin) as (j' & Hlt & Hj').
    specialize (Hlater j' Hlt). unfold tgt_at in Hlater. by rewrite Hj' in Hlater.
Qed.

Lemma last_write_none es t :
  (forall j, tgt_at cacheDir key es j <> Some t) -> last_write cacheDir key es t = None.
Proof.
  intros Hno. unfold last_write. apply lw_fold_skip. intros e Hin.
  apply list_elem_of_lookup in Hin as [j Hj]. specialize (Hno j). unfold tgt_at in Hno.
  by rewrite Hj in Hno.
Qed.

End LastWrite.

Section RaceInv.
Context `{Fetcher} `{ArchiveFormat} `{EntryFilter}.
Variables (cacheDir : list string) (key : string) (u : string) (bytes : list byte)
  (es : list archive_entry).
Hypothesis Hu : remote u = Some bytes.
Hypothesis Hp : parse_archive bytes = Some es.

Lemma drop_cons_lookup (l : list archive_entry) k e rs : e :: rs = drop k l -> l !! k = Some e /\ rs = drop (S k) l.
Proof.
  intros E. split.
  - rewrite <- (Nat.add_0_r k), <- lookup_drop, <- E. done.
  - replace (S k) with (k + 1) by lia. by rewrite <- drop_drop, <- E.
Qed.

Lemma drop_nil_length (l : list archive_entry) k : [] = drop k l -> k <= length l -> k = length l.
Proof. intros E Hk. apply (f_equal length) in E. rewrite length_drop in E. simpl in E. lia. Qed.

Local Ltac frozen :=
  right; left; split_and!; cbn [pos_ok]; try (done || lia);
  try (intros; split_and!; intros; (done || congruence)).

(** What one step of the abstract store does to the ghost segment of the
    process that takes it: the removal; a step that writes nothing and
    keeps the segment; or the extraction of the next entry, which
    extends it. *)
Lemma astep_cases p a p' a' gx :
  astep cacheDir key u p a p' a' -> pos_ok es p gx ->
  (p = PClear /\ p' = PMkdir /\ a' = AState (fun _ => None) (a_complete a)) \/
  (a_files a' = a_files a /\ pos_ok es p' gx /\ (owner_state p -> owner_state p') /\
   (p = PReserve -> a' = a /\ (a_complete a = false -> p' = PClear)) /\ p <> PClear) \/
  (exists e rs, p = PExtract (e :: rs) /\ p' = PExtract rs /\ es !! gx.2 = Some e /\
     pos_ok es p' (gx.1, S gx.2) /\
     ((tgt cacheDir key e = None /\ a_files a' = a_files a) \/
      (exists rel d, action cacheDir key e = AWrite rel d /\ a_files a' = upd (a_files a) rel d))).
Proof.
  intros Hs Hpos. inversion Hs; subst; cbn [pos_ok owner_state] in *;
    repeat match goal with H : _ /\ _ |- _ => destruct H end;
    [frozen | frozen | by left | frozen | frozen | | frozen | frozen | | frozen | | frozen | | frozen].
  - rewrite Hu in *. simplify_eq. frozen.
    replace gx.2 with 0 by lia. by rewrite drop_0.
  - match goal with H : _ :: _ = drop _ _ |- _ => destruct (drop_cons_lookup _ _ _ _ H) as [Hj Hrs] end.
    pose proof (lookup_lt_Some _ _ _ Hj).
    right; right. eexists _, _.
    split_and!; [reflexivity | reflexivity | exact Hj | cbn; lia | done | cbn; lia |].
    left. unfold tgt. match goal with H : action _ _ _ = ASkip |- _ => by rewrite H end.
  - match goal with H : _ :: _ = drop _ _ |- _ => destruct (drop_cons_lookup _ _ _ _ H) as [Hj Hrs] end.
    pose proof (lookup_lt_Some _ _ _ Hj).
    right; right. eexists _, _.
    split_and!; [reflexivity | reflexivity | exact Hj | cbn; lia | done | cbn; lia |].
    right. eauto.
  - frozen. by apply drop_nil_length.
Qed.

Lemma in_seg_insert ps g x v i j : in_seg (<[x := v]> ps) g i j <-> in_seg ps g i j.
Proof. unfold in_seg. by rewrite length_insert. Qed.

Lemma in_seg_set ps g x s k i j :
  g x = (s, k) -> in_seg ps (set_seg g x (s, S k)) i j -> in_seg ps g i j \/ (i = x /\ j = k).
Proof.
  intros Hg [Hi Hj]. unfold set_seg in Hj. case_decide as Hix; [subst i|by left; split].
  unfold in_seg. rewrite Hg. cbn [fst snd] in *. destruct (decide (j = k)); [by right|left; split; [done|lia]].
Qed.

(** A step that writes no file keeps every path's invariant. *)
Lemma path_inv_frozen a a' ps g x v t :
  a_files a' = a_files a -> path_inv cacheDir key es a ps g t ->
  path_inv cacheDir key es a' (<[x := v]> ps) g t.
Proof.
  intros Ha [[Hn Hno] | (i & j & e & d & Hs & He & Hact & Hd & Hl)]; unfold path_inv; rewrite Ha.
  - left. split; [done|]. intros i j Hs. apply (Hno i j). by rewrite in_seg_insert in Hs.
  - right. exists i, j, e, d. by rewrite in_seg_insert.
Qed.

(** Right after a removal every path is absent and every segment empty. *)
Lemma path_inv_clear c ps g t :
  (forall i, (g i).1 = (g i).2) -> path_inv cacheDir key es (AState (fun _ => None) c) ps g t.
Proof. intros Hg. left. split; [done|]. intros i j [_ Hj]. specialize (Hg i). lia. Qed.

(** Extracting entry [k] extends the segment of process [x] by one. *)
Lemma path_inv_extend a a' ps g x v s k e t :
  x < length ps -> g x = (s, k) -> s <= k -> es !! k = Some e ->
  ((tgt cacheDir key e = None /\ a_files a' = a_files a) \/
   (exists rel d, action cacheDir key e = AWrite rel d /\ a_files a' = upd (a_files a) rel d)) ->
  path_inv cacheDir key es a ps g t ->
  path_inv cacheDir key es a' (<[x := v]> ps) (set_seg g x (s, S k)) t.
Proof.
  intros Hx Hg Hsk He Hstep Hinv.
  assert (Hdec : (exists d, action cacheDir key e = AWrite t d) \/ tgt cacheDir key e <> Some t).
  { unfold tgt. destruct (action cacheDir key e) as [| |rel d]; [by right..|].
    destruct (decide (rel = t)) as [->|Hne]; [left; eauto | right; congruence]. }
  destruct Hdec as [[d Hw]|Hnw].
  - destruct Hstep as [[Ht _] | (rel & d' & Ha & Hf)]; [unfold tgt in Ht; by rewrite Hw in Ht|].
    rewrite Hw in Ha. injection Ha as <- <-. right. exists x, k, e, d.
    split_and!; try done; [split; [by rewrite length_insert|]; unfold set_seg; rewrite decide_True; cbn; lia
      | rewrite Hf; unfold upd; by rewrite decide_True |].
    intros j'. unfold set_seg. rewrite decide_True by done. cbn. lia.
  - assert (Hk : tgt_at cacheDir key es k <> Some t) by (unfold tgt_at; by rewrite He).
    assert (Hf : a_files a' t = a_files a t).
    { destruct Hstep as [[_ ->] | (rel & d & Ha & ->)]; [done|]. unfold upd.
      rewrite decide_False; [done|]. intros ->. apply Hnw. unfold tgt. by rewrite Ha. }
    destruct Hinv as [[Hn Hno] | (i & j & e0 & d & Hs & He0 & Hact & Hd & Hl)]; unfold path_inv; rewrite Hf.
    + left. split; [done|]. intros i j Hs. apply in_seg_insert, (in_seg_set _ _ _ _ _ _ _ Hg) in Hs.
      destruct Hs as [Hs | [-> ->]]; [by apply (Hno i j) | done].
    + right. exists i, j, e0, d. split_and!; try done.
      * apply in_seg_insert. destruct Hs as [Hi Hj]. split; [done|].
        unfold set_seg. case_decide; [subst; rewrite Hg in Hj; cbn in *; lia | done].
      * intros j' Hj'. unfold set_seg in Hj'. case_decide; [subst i|by apply Hl].
        rewrite Hg in Hl. cbn in *. destruct (decide (j' = k)) as [->|]; [done|]. apply Hl. lia.
Qed.

Lemma pos_ok_reset p g : pos_ok es p g -> pos_ok es p (g.2, g.2).
Proof. destruct p as [| | | | | |[|]]; cbn; intuition lia. Qed.

(** Removing the directory empties every segment and makes the process
    that removed it the owner. *)
Lemma race_inv_clear a ps x g :
  Forall (fun up => up.1 = u) ps -> ps !! x = Some (u, PClear) ->
  (forall i up, ps !! i = Some up -> pos_ok es up.2 (g i)) ->
  race_inv cacheDir key u es (AState (fun _ => None) (a_complete a), <[x := (u, PMkdir)]> ps).
Proof.
  intros Hurl Hx Hpos. split; [by apply Forall_insert|]. cbn [fst snd].
  exists (fun i => if decide (i = x) then (0, 0) else ((g i).2, (g i).2)). cbn [fst snd]. split.
  - intros i up Hi. case_decide as Hix; [subst; rewrite list_lookup_insert_eq in Hi;
      [by injection Hi as <- | eapply lookup_lt_Some; eauto]|].
    rewrite list_lookup_insert_ne in Hi by done. by apply pos_ok_reset, Hpos.
  - right. exists x, u, PMkdir. split_and!.
    + rewrite list_lookup_insert_eq; [done|]. eapply lookup_lt_Some; eauto.
    + done.
    + by rewrite decide_True.
    + intros t. apply path_inv_clear. intros i. by case_decide.
Qed.

(** Every step of the abstract store keeps the invariant. *)
Lemma race_inv_step c c' :
  race_inv cacheDir key u es c -> acstep cacheDir key c c' -> race_inv cacheDir key u es c'.
Proof.
  intros [Hurl (g & Hpos & Hcase)] Hs. destruct Hs as [a ps x u' p p' a' Hx Hst]. cbn [fst snd] in *.
  assert (u' = u) as -> by (rewrite Forall_lookup in Hurl; exact (Hurl x _ Hx)).
  assert (Hlt : x < length ps) by (eapply lookup_lt_Some; eauto).
  assert (Hxx : <[x := (u, p')]> ps !! x = Some (u, p')) by (by rewrite list_lookup_insert_eq).
  destruct (astep_cases _ _ _ _ (g x) Hst (Hpos x _ Hx))
    as [(-> & -> & ->) | [(Hf & Hpos' & Hown & Hres & Hncl) | (e & rs & -> & -> & He & Hpos' & Hw)]].
  - by apply race_inv_clear with g.
  - split; [by apply Forall_insert|]. exists g. cbn [fst snd]. split.
    { intros i up Hi. destruct (decide (i = x)) as [->|Hix];
        [rewrite Hxx in Hi; by injection Hi as <- | rewrite list_lookup_insert_ne in Hi by done; eauto]. }
    destruct Hcase as [[Hall Hc] | (o & uo & po & Ho & Hos & Hg0 & Hpi)].
    + left. rewrite Forall_lookup in Hall. destruct (Hall x _ Hx) as [Hq | Hq]; cbn in Hq; [|done].
      destruct (Hres Hq) as [-> Hq']. rewrite (Hq' Hc). split; [|done].
      apply Forall_insert; [by apply Forall_lookup | by right].
    + right. destruct (decide (o = x)) as [->|Hox].
      * rewrite Hx in Ho. injection Ho as <- <-. exists x, u, p'. split_and!; auto.
        intros t. by apply path_inv_frozen with a.
      * exists o, uo, po. rewrite list_lookup_insert_ne by done.
        split_and!; auto. intros t. by apply path_inv_frozen with a.
  - split; [by apply Forall_insert|].
    pose proof (Hpos x _ Hx) as Hpx. cbn [pos_ok snd] in Hpx.
    exists (set_seg g x ((g x).1, S (g x).2)). cbn [fst snd]. split.
    { intros i up Hi. unfold set_seg. destruct (decide (i = x)) as [->|Hix];
        [rewrite Hxx in Hi; by injection Hi as <- | rewrite list_lookup_insert_ne in Hi by done; eauto]. }
    destruct Hcase as [[Hall _] | (o & uo & po & Ho & Hos & Hg0 & Hpi)].
    + rewrite Forall_lookup in Hall. destruct (Hall x _ Hx) as [Hq | Hq]; cbn in Hq; discriminate.
    + right. exists o. destruct (decide (o = x)) as [->|Hox].
      * exists u, (PExtract rs). split_and!; [done | done | unfold set_seg; by rewrite decide_True |].
        intros t. apply path_inv_extend with a e; auto; [apply surjective_pairing | lia].
      * exists uo, po. rewrite list_lookup_insert_ne by done.
        split_and!; [done | done | unfold set_seg; by rewrite decide_False |].
        intros t. apply path_inv_extend with a e; auto; [apply surjective_pairing | lia].
Qed.

Lemma race_inv_init a n :
  a_complete a = false -> race_inv cacheDir key u es (a, replicate n (u, PReserve)).
Proof.
  intros Hc. split; [by apply Forall_replicate|]. exists (fun _ => (0, 0)). cbn [fst snd]. split.
  - intros i up Hi. apply lookup_replicate in Hi as [-> _]. done.
  - left. split; [|done]. apply Forall_replicate. by left.
Qed.

Lemma race_inv_rtc c c' :
  rtc (acstep cacheDir key) c c' -> race_inv cacheDir key u es c -> race_inv cacheDir key u es c'.
Proof. induction 1; eauto using race_inv_step. Qed.

Lemma tgt_at_ge j : length es <= j -> tgt_at cacheDir key es j = None.
Proof. intros Hj. unfold tgt_at. by rewrite lookup_ge_None_2. Qed.

(** When every invocation has returned successfully, each path of the
    entry holds what the archive's last entry for it wrote. *)
Lemma race_inv_final a ps :
  race_inv cacheDir key u es (a, ps) -> all_ok ps -> ps <> [] ->
  forall t, a_files a t = last_write cacheDir key es t.
Proof.
  intros [_ (g & Hpos & Hcase)] Hok Hne t. cbn [fst snd] in *. unfold all_ok in Hok. rewrite Forall_lookup in Hok.
  destruct Hcase as [[Hall _] | (o & uo & po & Ho & Hos & Hg0 & Hpi)].
  - destruct ps as [|up ps]; [done|]. rewrite Forall_lookup in Hall.
    specialize (Hok 0 up eq_refl). destruct (Hall 0 up eq_refl) as [Hq|Hq]; by rewrite Hq in Hok.
  - assert (Hdone : forall i j, in_seg ps g i j -> (g i).2 = length es).
    { intros i j [Hi Hj]. destruct (lookup_lt_is_Some_2 ps i Hi) as [[ui pi] Hpi'].
      specialize (Hok i _ Hpi'). specialize (Hpos i _ Hpi'). cbn in Hok, Hpos.
      destruct pi as [| | | | | |[|]]; try done; cbn in Hpos; lia. }
    specialize (Hok o _ Ho). specialize (Hpos o _ Ho). cbn in Hok, Hpos.
    assert (Hlen : (g o).2 = length es) by (destruct po as [| | | | | |[|]]; try done; apply Hpos).
    destruct (Hpi t) as [[Hn Hno] | (i & j & e & d & Hs & He & Ha & Hd & Hl)]; rewrite ?Hn, ?Hd.
    + symmetry. apply last_write_none. intros j. destruct (decide (j < length es)) as [Hj|Hj];
        [|rewrite tgt_at_ge; [done | lia]].
      apply (Hno o j). split; [by eapply lookup_lt_Some | lia].
    + symmetry. apply (last_write_last _ _ es j e); [done | done |]. intros j' Hj'.
      pose proof (Hdone i j Hs) as Hi. destruct (decide (j' < length es)) as [Hlt|Hge];
        [apply Hl; lia | rewrite tgt_at_ge; [done | lia]].
Qed.

End RaceInv.

Section RaceLemmas.
Context `{Fetcher} `{ArchiveFormat} `{EntryFilter}.
Variables (cacheDir : list string) (key : string).

(** Interleaved invocations for one URL, from a world whose entry is not
    complete: once they have all returned successfully, the entry holds
    the last write of the archive at every path. *)
Lemma race_converges u bytes es n w0 c :
  fs_wf (files w0) -> is_complete cacheDir key (files w0) = false ->
  remote u = Some bytes -> parse_archive bytes = Some es -> 0 < n ->
  rtc (cstep cacheDir key) (w0, replicate n (u, PReserve)) c -> all_ok c.2 ->
  forall t, file_at (files c.1) (root cacheDir key ++ t) = last_write cacheDir key es t.
Proof.
  intros Hwf Hc Hu Hp Hn Hr Hok t.
  destruct (rtc_cstep_refines cacheDir key _ _ (abstract cacheDir key w0) Hr
              (refines_abstract cacheDir key w0 Hwf)) as (a' & Ha & (_ & Hf & _)).
  rewrite Hf. eapply race_inv_final; [|exact Hok|].
  - eapply race_inv_rtc; [exact Hu | exact Hp | exact Ha |]. by apply race_inv_init.
  - apply rtc_acstep_length in Ha. cbn [snd] in Ha. rewrite length_replicate in Ha.
    intros E. rewrite E in Ha. simpl in Ha. lia.
Qed.

End RaceLemmas.


Lemma all_ok_single u p cacheDir key r :
  proc_result cacheDir key p = Some (Ok r) -> all_ok [(u, p)].
Proof.
  intros Hr. unfold all_ok. apply Forall_singleton. cbn.
  destruct p as [| | | | | |[|]]; cbn in Hr; try discriminate Hr; done.
Qed.

(** ** Theorems *)

Section BuildRaceTheorems.
Context `{Fetcher} `{ArchiveFormat}.

(** C33: when several builds for one version race on the cache entry,
    from a well-formed tree whose entry is not complete, and all of them
    have returned the directory, whatever the interleaving of their
    calls, every path of the extracted directory holds what the last
    entry of the jar kept by [onArchiveFile] for that path holds, and no
    file is there that no entry writes. *)
Theorem concurrent_builds_converge cwd rootDir version n w0 c bytes es :
  fs_wf (files w0) -> is_complete (cacheDirPath rootDir) uniqueIdOfOnArchiveFile (files w0) = false ->
  remote (themesJarUrl (keycloakVersion version)) = Some bytes -> parse_archive bytes = Some es -> 0 < n ->
  rtc (build_cstep cwd rootDir) (w0, build_procs version n) c -> all_ok c.2 ->
  forall t, file_at (files c.1) (extractedDir rootDir ++ t) =
            @last_write (onArchiveFile_filter cwd) (cacheDirPath rootDir) uniqueIdOfOnArchiveFile es t.
Proof. intros. by eapply race_converges. Qed.

(** C34: a download that succeeds on a cache entry that was not complete
    leaves at every path of the extracted directory what the jar's last
    entry for that path holds, and nothing else. *)
Theorem downloadJar_last_write cwd rootDir version w w' dir bytes es :
  fs_wf (files w) -> is_complete (cacheDirPath rootDir) uniqueIdOfOnArchiveFile (files w) = false ->
  remote (themesJarUrl (keycloakVersion version)) = Some bytes -> parse_archive bytes = Some es ->
  downloadJar cwd rootDir version w = (Ok dir, w') ->
  forall t, file_at (files w') (extractedDir rootDir ++ t) =
            @last_write (onArchiveFile_filter cwd) (cacheDirPath rootDir) uniqueIdOfOnArchiveFile es t.
Proof.
  intros Hwf Hc Hu Hp Hd t.
  assert (Hrun : @run_proc _ _ (onArchiveFile_filter cwd) (cacheDirPath rootDir) uniqueIdOfOnArchiveFile
                   (proc_rank (themesJarUrl (keycloakVersion version)) PReserve)
                   (themesJarUrl (keycloakVersion version)) PReserve w = Some (Ok dir, w')).
  { rewrite run_proc_downloadAndExtractArchive by done. unfold downloadJar in Hd. by rewrite Hd. }
  destruct (run_proc_rtc _ _ _ _ _ _ _ _ Hrun) as (p' & Hr & Hres).
  apply (race_converges _ _ (themesJarUrl (keycloakVersion version)) bytes es 1 w
           (w', [(themesJarUrl (keycloakVersion version), p')]));
    [done | done | done | done | lia | exact Hr | by eapply all_ok_single].
Qed.

End BuildRaceTheorems.

(** ** Witnesses *)

Lemma race_full_all_ok : all_ok (race_run_ex race_schedule_full_ex).2.
Proof. unfold all_ok. vm_compute. repeat constructor. Qed.

Lemma concurrent_builds_converge_witness :
  fs_wf (files repo_ex) /\
  is_complete (cacheDirPath ["r"]) uniqueIdOfOnArchiveFile (files repo_ex) = false /\
  @remote maven_ex (themesJarUrl (keycloakVersion version_ex)) = Some [x50; x4b] /\
  @parse_archive jar_format_ex [x50; x4b] = Some jar_entries_ex /\ 0 < 2 /\
  rtc (@build_cstep maven_ex jar_format_ex ["r"] ["r"]) (repo_ex, build_procs version_ex 2)
      (race_run_ex race_schedule_full_ex) /\
  all_ok (race_run_ex race_schedule_full_ex).2 /\
  file_at (files (race_run_ex race_schedule_full_ex).1) (extractedDir ["r"] ++ messages_ex) =
    @last_write (onArchiveFile_filter ["r"]) (cacheDirPath ["r"]) uniqueIdOfOnArchiveFile jar_entries_ex messages_ex.
Proof.
  assert (H1 : is_complete (cacheDirPath ["r"]) uniqueIdOfOnArchiveFile (files repo_ex) = false)
    by (vm_compute; reflexivity).
  assert (H2 : @remote maven_ex (themesJarUrl (keycloakVersion version_ex)) = Some [x50; x4b])
    by (vm_compute; reflexivity).
  assert (H3 : @parse_archive jar_format_ex [x50; x4b] = Some jar_entries_ex) by (vm_compute; reflexivity).
  assert (H4 : rtc (@build_cstep maven_ex jar_format_ex ["r"] ["r"]) (repo_ex, build_procs version_ex 2)
                   (race_run_ex race_schedule_full_ex)) by apply run_schedule_rtc.
  split_and!; [exact repo_ex_wf | exact H1 | exact H2 | exact H3 | lia | exact H4 | exact race_full_all_ok |].
  exact (@concurrent_builds_converge maven_ex jar_format_ex ["r"] ["r"] version_ex 2 repo_ex _ _ _
           repo_ex_wf H1 H2 H3 ltac:(lia) H4 race_full_all_ok messages_ex).
Defined.

Lemma downloadJar_last_write_witness :
  fs_wf (files repo_ex) /\
  is_complete (cacheDirPath ["r"]) uniqueIdOfOnArchiveFile (files repo_ex) = false /\
  @remote maven_ex (themesJarUrl (keycloakVersion version_ex)) = Some [x50; x4b] /\
  @parse_archive jar_format_ex [x50; x4b] = Some jar_entries_ex /\
  @downloadJar maven_ex jar_format_ex ["r"] ["r"] version_ex repo_ex = (Ok (extractedDir ["r"]), downloaded_ex) /\
  file_at (files downloaded_ex) (extractedDir ["r"] ++ messages_ex) =
    @last_write (onArchiveFile_filter ["r"]) (cacheDirPath ["r"]) uniqueIdOfOnArchiveFile jar_entries_ex messages_ex.
Proof.
  assert (H1 : is_complete (cacheDirPath ["r"]) uniqueIdOfOnArchiveFile (files repo_ex) = false)
    by (vm_compute; reflexivity).
  assert (H2 : @remote maven_ex (themesJarUrl (keycloakVersion version_ex)) = Some [x50; x4b])
    by (vm_compute; reflexivity).
  assert (H3 : @parse_archive jar_format_ex [x50; x4b] = Some jar_entries_ex) by (vm_compute; reflexivity).
  assert (H4 : @downloadJar maven_ex jar_format_ex ["r"] ["r"] version_ex repo_ex =
                 (Ok (extractedDir ["r"]), downloaded_ex)) by (apply pair_eta_fst; vm_compute; reflexivity).
  split_and!; [exact repo_ex_wf | exact H1 | exact H2 | exact H3 | exact H4 |].
  exact (@downloadJar_last_write maven_ex jar_format_ex ["r"] ["r"] version_ex repo_ex _ _ _ _
           repo_ex_wf H1 H2 H3 H4 messages_ex).
Defined.

End CacheRace.
