(* ===== verification/Main.v ===== *)
(** The whole of [build.ts] (lines 17-164): read and parse [package.json]
    (lines 51-53), check it against the zod schema (line 55), build the
    email theme for the version it names (lines 62-134, [Build.build]),
    write the dist [package.json] (lines 136-157), and copy [README.md]
    and [LICENSE] into [dist] (lines 159-164).  The console message of
    line 166 and the exit code of the process are in [Console].

    [fs.cpSync(src, dest)] on a file reads the source, creates the parent
    of the destination ([mkdirSync(dirname(dest), { recursive: true })]
    in Node's implementation) and writes the destination; a missing
    source or a directory is an error, as [read_file] makes it.

    The theorems: a [package.json] that is not JSON or does not fit the
    schema stops the script before it touches the network or the file
    system; after a successful run, [dist/package.json] read back with
    [JSON.parse] is the descriptor with the seven fields of the source and
    [publishConfig], [dist/README.md] and [dist/LICENSE] are byte copies of
    the repository's files, and the only request is for the jar of the
    version [package.json] names. *)

From S2P Require Import Prelude Contracts ArchiveFilter FileSystem Extractor CodebaseTransformer Cache.
From S2P Require Import Version Utf8 MessagesTransform Utf16 Json JsonParse PackageJson Build.

Module Main.
Import ArchiveFilter MessagesTransform FileSystem Extractor CodebaseTransformer Cache KeycloakVersion Utf16 Json JsonParse
  PackageJson Build.

(** [pathJoin(getThisCodebaseRootDirPath(), "package.json")] (line 52). *)
Definition packageJsonPath (rootDir : list string) : list string := rootDir ++ ["package.json"].

(** Lines 51-53: [JSON.parse(fs.readFileSync(...).toString("utf8"))]. *)
Definition readPackageJson (rootDir : list string) : io json :=
  bytes <-- read_file (packageJsonPath rootDir) ;;
  match json_parse (buffer_to_string bytes) with
  | Some v => io_ret v
  | None => io_fail SyntaxError
  end.

(** A synchronous call that may throw, in the [io] monad. *)
Definition io_of_result {A} (r : result A) : io A := fun w => (r, w).

(** Lines 136-157. *)
Definition writeDistPackageJson (rootDir : list string) (pj : json) : io unit :=
  write_file (distDirPath rootDir ++ ["package.json"]) (distPackageJsonBytes pj).

(** [fs.cpSync(src, dest)] for a file. *)
Definition cpSync (src dst : list string) : io unit :=
  d <-- read_file src ;;
  _ <-- mkdir_p (removelast dst) ;;
  write_file dst d.

(** Lines 159-164: the loop over [["README.md", "LICENSE"]]. *)
Fixpoint copyFiles (rootDir : list string) (names : list string) : io unit :=
  match names with
  | [] => io_ret tt
  | n :: names' =>
      _ <-- cpSync (rootDir ++ [n]) (distDirPath rootDir ++ [n]) ;;
      copyFiles rootDir names'
  end.

Definition copiedFiles : list string := ["README.md"; "LICENSE"].

(** Lines 17-166. *)
Definition main `{Fetcher} `{ArchiveFormat} (cwd rootDir : list string) : io unit :=
  pj <-- readPackageJson rootDir ;;
  _ <-- io_of_result (zParse pj) ;;
  _ <-- build cwd rootDir (version_of pj) ;;
  _ <-- writeDistPackageJson rootDir pj ;;
  copyFiles rootDir copiedFiles.

(** ** A run on a small repository *)

(** The repository of [Build.repo_ex] with a [package.json] (the text
    [JSON.stringify] writes for [PackageJson.package_json_ex]), a README
    and a LICENSE. *)
Definition pkg_bytes_ex : list byte := buffer_from_string (stringify package_json_ex).

Definition main_world_ex (pkg : list byte) : world :=
  World (<[packageJsonPath ["r"] := File pkg]> (<[["r"; "README.md"] := File [x52]]>
        (<[["r"; "LICENSE"] := File [x4c]]> (files repo_ex)))) [].

(** A [package.json] without [keywords]. *)
Definition bad_pkg_bytes_ex : list byte :=
  buffer_from_string (stringify (JObj [(lit "name", JStr (lit "x")); (lit "version", JStr (lit "1"))])).

Definition main_ex : result unit * world :=
  @main maven_ex jar_format_ex ["r"] ["r"] (main_world_ex pkg_bytes_ex).

Example main_ex_result :
  fst main_ex = Ok tt /\
  fetched (snd main_ex) =
    ["https://repo1.maven.org/maven2/org/keycloak/keycloak-themes/26.0.5/keycloak-themes-26.0.5.jar"] /\
  files (snd main_ex) !! (distDirPath ["r"] ++ ["LICENSE"]) = Some (File [x4c]) /\
  option_map (fun n => match n with File d => json_parse (buffer_to_string d) | Dir => None end)
    (files (snd main_ex) !! (distDirPath ["r"] ++ ["package.json"])) =
  Some (Some (distPackageJson package_json_ex)).
Proof. split_and!; vm_compute; reflexivity. Qed.

(** ** Lemmas *)

Lemma readPackageJson_cases rootDir w :
  (exists bytes pj, files w !! packageJsonPath rootDir = Some (File bytes) /\
     json_parse (buffer_to_string bytes) = Some pj /\ readPackageJson rootDir w = (Ok pj, w)) \/
  (exists e, readPackageJson rootDir w = (Err e, w)).
Proof.
  unfold readPackageJson, io_bind.
  destruct (read_file_cases (packageJsonPath rootDir) w) as [(d & Hd & ->) | (e & ->)];
    [|right; by exists e].
  destruct (json_parse (buffer_to_string d)) as [pj|] eqn:E; [left; by exists d, pj|right; by eexists].
Qed.

(** A path no prefix of [l] equals: one at least as long, other than [l]. *)
Lemma not_take {A} (q l : list A) : q <> l -> (length l <= length q)%nat -> forall k, q <> take k l.
Proof.
  intros Hne Hl k E. destruct (Nat.le_ge_cases (length l) k) as [Hk|Hk].
  - rewrite take_ge in E by done. done.
  - subst q. rewrite length_take in Hl. destruct (Nat.eq_dec k (length l)) as [->|].
    + apply Hne. by rewrite take_ge.
    + lia.
Qed.

Lemma cpSync_other src dst w q :
  q <> dst -> q <> removelast dst -> (length (removelast dst) <= length q)%nat ->
  files (cpSync src dst w).2 !! q = files w !! q.
Proof.
  intros Hd Hr Hl. unfold cpSync, io_bind.
  destruct (read_file_cases src w) as [(d & _ & ->) | (e & ->)]; [|done]. cbv beta iota.
  unfold mkdir_p. pose proof (mkdir_p_go_other [] (removelast dst) w q) as Hm.
  destruct (mkdir_p_go [] (removelast dst) w) as [[[]|e] w1]; cbn [fst snd] in *.
  - destruct (write_file_cases dst d w1) as [(_ & _ & _ & ->) | (e & ->)]; cbn [fst snd files].
    + rewrite lookup_insert_ne by done. apply Hm. intros k _. by apply not_take.
    + apply Hm. intros k _. by apply not_take.
  - apply Hm. intros k _. by apply not_take.
Qed.

Lemma cpSync_Ok src dst w :
  (cpSync src dst w).1 = Ok tt ->
  exists d, files w !! src = Some (File d) /\ files (cpSync src dst w).2 !! dst = Some (File d).
Proof.
  unfold cpSync, io_bind.
  destruct (read_file_cases src w) as [(d & Hs & ->) | (e & ->)]; [|done]. cbv beta iota.
  destruct (mkdir_p (removelast dst) w) as [[[]|e] w1]; [|done].
  destruct (write_file_cases dst d w1) as [(_ & _ & _ & ->) | (e & ->)]; [|done].
  intros _. exists d. split; [done|]. apply lookup_insert_eq.
Qed.

Lemma cpSync_fetched src dst w : fetched (cpSync src dst w).2 = fetched w.
Proof.
  unfold cpSync, io_bind, mkdir_p.
  destruct (read_file_cases src w) as [(d & _ & ->) | (e & ->)]; [|done]. cbv beta iota.
  pose proof (mkdir_p_go_fetched [] (removelast dst) w) as Hf.
  destruct (mkdir_p_go [] (removelast dst) w) as [[[]|e] w1]; cbn [fst snd] in *; [|done].
  by rewrite write_file_fetched.
Qed.

(** The copies change the destination files and the directories above
    them only. *)
Lemma copyFiles_other rootDir names w q :
  Forall (fun n => q <> distDirPath rootDir ++ [n]) names -> q <> distDirPath rootDir ->
  (length (distDirPath rootDir) <= length q)%nat ->
  files (copyFiles rootDir names w).2 !! q = files w !! q.
Proof.
  intros Hn Hd Hl. revert w. induction Hn as [|n names Hq _ IH]; intros w; [done|].
  cbn [copyFiles]. unfold io_bind.
  pose proof (cpSync_other (rootDir ++ [n]) (distDirPath rootDir ++ [n]) w q Hq) as Hc.
  rewrite removelast_last in Hc.
  destruct (cpSync _ _ w) as [[[]|e] w1]; cbn [fst snd] in *; [rewrite IH|]; by apply Hc.
Qed.

Lemma copyFiles_fetched rootDir names w : fetched (copyFiles rootDir names w).2 = fetched w.
Proof.
  revert w. induction names as [|n names IH]; intros w; [done|]. cbn [copyFiles]. unfold io_bind.
  pose proof (cpSync_fetched (rootDir ++ [n]) (distDirPath rootDir ++ [n]) w) as Hf.
  destruct (cpSync _ _ w) as [[[]|e] w1]; cbn [fst snd] in *; [by rewrite IH|done].
Qed.

(** After the copies succeed, each [dist/n] holds the bytes [n] had in the
    repository root. *)
Lemma copyFiles_Ok rootDir names w :
  Forall (fun n => n <> "dist") names -> (copyFiles rootDir names w).1 = Ok tt ->
  Forall (fun n => exists d, files w !! (rootDir ++ [n]) = Some (File d) /\
    files (copyFiles rootDir names w).2 !! (distDirPath rootDir ++ [n]) = Some (File d)) names.
Proof.
  revert w. induction names as [|n names IH]; intros w Hn Hok; [constructor|].
  apply Forall_cons in Hn as [Hn Hns]. cbn [copyFiles] in *. unfold io_bind in *.
  pose proof (cpSync_Ok (rootDir ++ [n]) (distDirPath rootDir ++ [n]) w) as Hc.
  assert (Hkeep : forall m, m <> "dist" ->
            files (cpSync (rootDir ++ [n]) (distDirPath rootDir ++ [n]) w).2 !! (rootDir ++ [m]) =
            files w !! (rootDir ++ [m])).
  { intros m Hm. apply cpSync_other.
    - unfold distDirPath. rewrite <- app_assoc. intros E%app_inv_head. done.
    - rewrite removelast_last. unfold distDirPath. intros E%app_inv_head. congruence.
    - rewrite removelast_last. unfold distDirPath. rewrite !length_app. simpl. lia. }
  destruct (cpSync _ _ w) as [[[]|e] w1]; cbn [fst snd] in *; [|done].
  specialize (Hc eq_refl) as (d & Hs & Hd). constructor.
  - exists d. split; [done|].
    destruct (decide (n ∈ names)) as [Hin|Hin].
    + pose proof (IH w1 Hns Hok) as Hall. rewrite Forall_forall in Hall.
      destruct (Hall n Hin) as (d' & Hs' & Hd'). rewrite Hkeep in Hs' by done.
      rewrite Hs in Hs'. by simplify_eq.
    + rewrite copyFiles_other; [done| | |].
      * apply Forall_forall. intros m Hm E. apply app_inv_head in E. simplify_eq; done.
      * intros E. apply (f_equal length) in E. rewrite length_app in E. simpl in E. lia.
      * rewrite length_app. simpl. lia.
  - apply (Forall_mp (fun m => m <> "dist")); [|exact Hns].
    eapply Forall_impl; [exact (IH w1 Hns Hok)|]. intros m (d' & Hs' & Hd') Hm.
    exists d'. split; [|done]. by rewrite <- Hkeep.
Qed.

Section BuildFacts.
Context `{Fetcher} `{ArchiveFormat}.

(** The build changes nothing outside the cache entry, its marker and the
    email theme in [dist]. *)
Lemma build_keeps cwd rootDir version w q :
  fs_wf (files w) -> files w !! cacheDirPath rootDir = Some Dir ->
  files w !! emailDestDir rootDir = Some Dir ->
  (forall r, q <> extractedDir rootDir ++ r) ->
  q <> marker (cacheDirPath rootDir) uniqueIdOfOnArchiveFile ->
  (forall r, q <> emailDestDir rootDir ++ r) ->
  files (build cwd rootDir version w).2 !! q = files w !! q.
Proof.
  intros Hwf Hcd Hdd Hq1 Hq2 Hq3. unfold build, io_bind.
  pose proof (@dl_confined _ _ (onArchiveFile_filter cwd) (themesJarUrl (keycloakVersion version)) (cacheDirPath rootDir)
                uniqueIdOfOnArchiveFile w Hwf Hcd) as Hc1.
  pose proof (@dl_wf _ _ (onArchiveFile_filter cwd) (themesJarUrl (keycloakVersion version)) (cacheDirPath rootDir)
                uniqueIdOfOnArchiveFile w Hwf) as Hw1.
  assert (Hkeep1 : forall q', (forall r, q' <> extractedDir rootDir ++ r) ->
            q' <> marker (cacheDirPath rootDir) uniqueIdOfOnArchiveFile ->
            files (downloadJar cwd rootDir version w).2 !! q' = files w !! q').
  { intros q' H1 H2. destruct (decide (files (downloadJar cwd rootDir version w).2 !! q' = files w !! q'))
      as [|E]; [done|]. destruct (Hc1 q' E) as [[r ->]| ->]; [by destruct (H1 r)|done]. }
  unfold downloadJar in Hkeep1 |- *.
  destruct (downloadAndExtractArchive _ _ _ w) as [[dir|e] w1] eqn:Edl; cbn [fst snd] in *;
    [|by apply Hkeep1].
  destruct (dl_Ok _ _ _ _ _ _ Edl) as [-> _].
  assert (Hdd1 : files w1 !! emailDestDir rootDir = Some Dir).
  { rewrite Hkeep1; [done| |].
    - intros r E. unfold extractedDir, entry_dir, cacheDirPath, emailDestDir, distDirPath in E.
      rewrite <- !app_assoc in E. apply app_inv_head in E. discriminate.
    - unfold marker, cacheDirPath, emailDestDir, distDirPath. rewrite <- !app_assoc.
      intros E%app_inv_head. discriminate. }
  pose proof (@transformCodebase_confined transformSourceCode_transform _ _ w1 (apart_extracted_dest rootDir) Hw1 Hdd1 q) as Hc2.
  unfold transformTheme. fold (extractedDir rootDir).
  destruct (decide (files (transformCodebase (extractedDir rootDir) (emailDestDir rootDir) w1).2 !! q =
                    files w1 !! q)) as [E|E].
  - rewrite E. by apply Hkeep1.
  - destruct (Hc2 E) as (r & _ & ->). by destruct (Hq3 r).
Qed.

(** The build requests the jar of its version at most once. *)
Lemma build_fetched cwd rootDir version w :
  fetched (build cwd rootDir version w).2 = fetched w \/
  fetched (build cwd rootDir version w).2 = fetched w ++ [themesJarUrl (keycloakVersion version)].
Proof.
  unfold build, downloadJar, io_bind.
  pose proof (@downloadAndExtractArchive_fetches_once _ _ (onArchiveFile_filter cwd) (themesJarUrl (keycloakVersion version))
                (cacheDirPath rootDir) uniqueIdOfOnArchiveFile w) as Hf.
  destruct (downloadAndExtractArchive _ _ _ w) as [[dir|e] w1]; cbn [fst snd] in *; [|done].
  unfold transformTheme, transformCodebase. by rewrite transform_files_fetched.
Qed.

End BuildFacts.

(** A write that succeeds puts the file in place, and only it. *)
Lemma write_file_Ok p d w w' :
  write_file p d w = (Ok tt, w') -> files w' = <[p := File d]> (files w).
Proof.
  destruct (write_file_cases p d w) as [(_ & _ & _ & E) | (e & E)]; rewrite E; by intros [= <-].
Qed.

Section MainLemmas.
Context `{Fetcher} `{ArchiveFormat}.

(** [main] once [package.json] has been read. *)
Lemma main_read cwd rootDir w pj :
  readPackageJson rootDir w = (Ok pj, w) ->
  main cwd rootDir w =
  match zParse pj with
  | Ok _ => (_ <-- build cwd rootDir (version_of pj) ;;
             _ <-- writeDistPackageJson rootDir pj ;;
             copyFiles rootDir copiedFiles) w
  | Err e => (Err e, w)
  end.
Proof. intros E. unfold main, io_bind at 1. rewrite E. unfold io_of_result, io_bind. by destruct (zParse pj). Qed.

(** A successful run, step by step. *)
Lemma main_Ok cwd rootDir w :
  (main cwd rootDir w).1 = Ok tt ->
  exists bytes pj w2 w3, files w !! packageJsonPath rootDir = Some (File bytes) /\
    json_parse (buffer_to_string bytes) = Some pj /\ readPackageJson rootDir w = (Ok pj, w) /\
    zParse pj = Ok tt /\ build cwd rootDir (version_of pj) w = (Ok tt, w2) /\
    writeDistPackageJson rootDir pj w2 = (Ok tt, w3) /\
    (copyFiles rootDir copiedFiles w3).1 = Ok tt /\
    main cwd rootDir w = copyFiles rootDir copiedFiles w3.
Proof.
  intros Hok. destruct (readPackageJson_cases rootDir w) as [(bytes & pj & Hf & Hp & Er) | (e & Er)];
    [|unfold main, io_bind in Hok; by rewrite Er in Hok].
  rewrite (main_read _ _ _ _ Er) in Hok |- *.
  destruct (zParse pj) as [[]|e] eqn:Ez; [|done]. unfold io_bind in Hok |- *.
  destruct (build cwd rootDir (version_of pj) w) as [[[]|e] w2] eqn:Eb; [|done].
  destruct (writeDistPackageJson rootDir pj w2) as [[[]|e] w3] eqn:Ew; [|done].
  exists bytes, pj, w2, w3. split_and!; done.
Qed.

End MainLemmas.

(** ** Theorems *)

Section MainTheorems.
Context `{Fetcher} `{ArchiveFormat}.

(** C27: a [package.json] that [JSON.parse] rejects stops the script with a
    [SyntaxError], and one that does not fit the schema with a [ZodError],
    before any request or write: the world is left as it was. *)
Theorem main_rejects_package_json cwd rootDir w bytes :
  files w !! packageJsonPath rootDir = Some (File bytes) ->
  match json_parse (buffer_to_string bytes) with
  | None => main cwd rootDir w = (Err SyntaxError, w)
  | Some pj => zTargetType pj = false -> main cwd rootDir w = (Err ZodError, w)
  end.
Proof.
  intros Hf. destruct (json_parse (buffer_to_string bytes)) as [pj|] eqn:Hp.
  - intros Hz. assert (Er : readPackageJson rootDir w = (Ok pj, w)).
    { unfold readPackageJson, io_bind. rewrite (read_file_File _ _ _ Hf). cbv beta iota. by rewrite Hp. }
    unfold main, io_bind at 1. rewrite Er. unfold io_of_result, io_bind, zParse. by rewrite Hz.
  - unfold main, readPackageJson, io_bind. rewrite (read_file_File _ _ _ Hf). cbv beta iota.
    by rewrite Hp.
Qed.

(** C25: after a successful run, [dist/package.json] read back with
    [JSON.parse] is the object [{ name, version, repository, license,
    author, homepage, keywords, publishConfig: { access: "public" } }]
    with the values of the repository's [package.json], in that order,
    when the numbers in its [repository] are ones a double holds exactly
    (no -0, at most 15 significant digits, in the normal range): Node
    would print another number as the nearest double, or [null]. *)
Theorem main_dist_package_json cwd rootDir w bytes pj :
  files w !! packageJsonPath rootDir = Some (File bytes) ->
  json_parse (buffer_to_string bytes) = Some pj ->
  (forall r, prop pj "repository" = Some r -> json_safe r = true) ->
  (main cwd rootDir w).1 = Ok tt ->
  exists out name version repo license author homepage keywords,
    pkg_fields pj name version repo license author homepage keywords /\
    files (main cwd rootDir w).2 !! (distDirPath rootDir ++ ["package.json"]) = Some (File out) /\
    json_parse (buffer_to_string out) =
      Some (JObj [(lit "name", JStr name); (lit "version", JStr version);
                  (lit "repository", JObj repo); (lit "license", JStr license);
                  (lit "author", JStr author); (lit "homepage", JStr homepage);
                  (lit "keywords", JArr (map JStr keywords));
                  (lit "publishConfig", JObj [(lit "access", JStr (lit "public"))])]).
Proof.
  intros Hb Hpj Hsafe Hok.
  destruct (main_Ok cwd rootDir w Hok) as (bytes' & pj' & w2 & w3 & Hf & Hp & _ & Ez & _ & Ew & _ & Em).
  rewrite Hb in Hf. injection Hf as <-. rewrite Hpj in Hp. injection Hp as <-.
  destruct (proj1 (zParse_fields pj) Ez)
    as (name & version & repo & license & author & homepage & keywords & Hfl).
  pose proof (parse_result_wf _ _ (buffer_to_string_units bytes) Hpj) as Hwf.
  unfold writeDistPackageJson in Ew. apply write_file_Ok in Ew.
  exists (distPackageJsonBytes pj), name, version, repo, license, author, homepage, keywords.
  split_and!; try done.
  - rewrite Em, copyFiles_other, Ew; [apply lookup_insert_eq| | |].
    + repeat constructor; intros E%app_inv_head; discriminate.
    + intros E. apply (f_equal length) in E. rewrite length_app in E. simpl in E. lia.
    + rewrite length_app. simpl. lia.
  - rewrite (dist_read_back pj name version repo license author homepage keywords Hwf Hsafe Hfl).
    by rewrite (distPackageJson_form _ _ _ _ _ _ _ _ Hfl).
Qed.

(** C26: after a successful run, [dist/README.md] and [dist/LICENSE] hold
    the bytes of the repository's [README.md] and [LICENSE]: the build
    before them writes only in the cache and in [dist/keycloak-theme].
    The cache directory and the destination exist beforehand. *)
Theorem main_copies_readme_license cwd rootDir w :
  fs_wf (files w) -> files w !! cacheDirPath rootDir = Some Dir ->
  files w !! emailDestDir rootDir = Some Dir ->
  (main cwd rootDir w).1 = Ok tt ->
  Forall (fun n => exists d, files w !! (rootDir ++ [n]) = Some (File d) /\
    files (main cwd rootDir w).2 !! (distDirPath rootDir ++ [n]) = Some (File d)) copiedFiles.
Proof.
  intros Hwf Hcd Hdd Hok.
  destruct (main_Ok cwd rootDir w Hok) as (bytes & pj & w2 & w3 & _ & _ & _ & _ & Eb & Ew & Hc & Em).
  unfold writeDistPackageJson in Ew. apply write_file_Ok in Ew.
  rewrite Em. apply (Forall_mp (fun n => n <> "dist" /\ n <> "node_modules"));
    [|repeat constructor; done].
  eapply Forall_impl; [apply copyFiles_Ok; [repeat constructor; done|exact Hc]|].
  intros n (d & Hs & Hd) [Hn1 Hn2]. exists d. split; [|done].
  rewrite <- Hs, Ew. rewrite lookup_insert_ne
    by (unfold distDirPath; rewrite <- app_assoc; intros E%app_inv_head; simplify_eq; done).
  pose proof (build_keeps cwd rootDir (version_of pj) w (rootDir ++ [n]) Hwf Hcd Hdd) as Hk.
  rewrite Eb in Hk. symmetry. apply Hk.
  - intros r. unfold extractedDir, entry_dir, cacheDirPath. rewrite <- !app_assoc.
    intros E%app_inv_head. simplify_eq; done.
  - unfold marker, cacheDirPath. rewrite <- !app_assoc. intros E%app_inv_head. simplify_eq; done.
  - intros r. unfold emailDestDir, distDirPath. rewrite <- !app_assoc.
    intros E%app_inv_head. simplify_eq; done.
Qed.

(** C28: a run makes at most one request, for the themes jar of the
    version [package.json] names. *)
Theorem main_fetches_once cwd rootDir w :
  fetched (main cwd rootDir w).2 = fetched w \/
  exists pj, readPackageJson rootDir w = (Ok pj, w) /\
    fetched (main cwd rootDir w).2 = fetched w ++ [themesJarUrl (keycloakVersion (version_of pj))].
Proof.
  destruct (readPackageJson_cases rootDir w) as [(bytes & pj & _ & _ & Er) | (e & Er)];
    [|left; unfold main, io_bind; by rewrite Er].
  rewrite (main_read _ _ _ _ Er). destruct (zParse pj); [|by left].
  unfold io_bind. pose proof (build_fetched cwd rootDir (version_of pj) w) as Hb.
  destruct (build cwd rootDir (version_of pj) w) as [[[]|e] w2]; cbn [fst snd] in Hb |- *;
    [|destruct Hb; [by left|right; eauto]].
  unfold writeDistPackageJson. pose proof (write_file_fetched (distDirPath rootDir ++ ["package.json"])
                                             (distPackageJsonBytes pj) w2) as Hw.
  destruct (write_file _ _ w2) as [[[]|e] w3]; cbn [fst snd] in Hw |- *;
    [rewrite copyFiles_fetched|]; rewrite Hw; destruct Hb; [by left|right; eauto|by left|right; eauto].
Qed.

(** C29: a [package.json] saved with a UTF-8 byte order mark, which
    [toString("utf8")] keeps as U+FEFF, is not JSON text for [JSON.parse]:
    the script stops with a [SyntaxError] before any request or write. *)
Theorem main_rejects_bom cwd rootDir w rest :
  files w !! packageJsonPath rootDir = Some (File (Byte.xef :: Byte.xbb :: Byte.xbf :: rest)) ->
  main cwd rootDir w = (Err SyntaxError, w).
Proof.
  intros Hf. unfold main, readPackageJson, io_bind. rewrite (read_file_File _ _ _ Hf). cbv beta iota.
  rewrite buffer_to_string_bom. reflexivity.
Qed.

End MainTheorems.

(** ** Witnesses *)

Lemma main_world_ex_wf : fs_wf (files (main_world_ex pkg_bytes_ex)).
Proof. apply fs_wf_b_sound. vm_compute. reflexivity. Qed.

Lemma main_rejects_package_json_witness :
  files (main_world_ex bad_pkg_bytes_ex) !! packageJsonPath ["r"] = Some (File bad_pkg_bytes_ex) /\
  match json_parse (buffer_to_string bad_pkg_bytes_ex) with
  | None => @main maven_ex jar_format_ex ["r"] ["r"] (main_world_ex bad_pkg_bytes_ex) =
              (Err SyntaxError, main_world_ex bad_pkg_bytes_ex)
  | Some pj => zTargetType pj = false ->
      @main maven_ex jar_format_ex ["r"] ["r"] (main_world_ex bad_pkg_bytes_ex) =
        (Err ZodError, main_world_ex bad_pkg_bytes_ex)
  end.
Proof.
  assert (H : files (main_world_ex bad_pkg_bytes_ex) !! packageJsonPath ["r"] = Some (File bad_pkg_bytes_ex))
    by (vm_compute; reflexivity).
  split; [exact H|exact (@main_rejects_package_json maven_ex jar_format_ex ["r"] ["r"] _ _ H)].
Defined.

Lemma main_dist_package_json_witness :
  files (main_world_ex pkg_bytes_ex) !! packageJsonPath ["r"] = Some (File pkg_bytes_ex) /\
  json_parse (buffer_to_string pkg_bytes_ex) = Some package_json_ex /\
  (forall r, prop package_json_ex "repository" = Some r -> json_safe r = true) /\
  (@main maven_ex jar_format_ex ["r"] ["r"] (main_world_ex pkg_bytes_ex)).1 = Ok tt /\
  exists out name version repo license author homepage keywords,
    pkg_fields package_json_ex name version repo license author homepage keywords /\
    files (@main maven_ex jar_format_ex ["r"] ["r"] (main_world_ex pkg_bytes_ex)).2
      !! (distDirPath ["r"] ++ ["package.json"]) = Some (File out) /\
    json_parse (buffer_to_string out) =
      Some (JObj [(lit "name", JStr name); (lit "version", JStr version);
                  (lit "repository", JObj repo); (lit "license", JStr license);
                  (lit "author", JStr author); (lit "homepage", JStr homepage);
                  (lit "keywords", JArr (map JStr keywords));
                  (lit "publishConfig", JObj [(lit "access", JStr (lit "public"))])]).
Proof.
  assert (H1 : files (main_world_ex pkg_bytes_ex) !! packageJsonPath ["r"] = Some (File pkg_bytes_ex))
    by (vm_compute; reflexivity).
  assert (H2 : json_parse (buffer_to_string pkg_bytes_ex) = Some package_json_ex) by (vm_compute; reflexivity).
  assert (H3 : forall r, prop package_json_ex "repository" = Some r -> json_safe r = true)
    by (intros r Hr; vm_compute in Hr; injection Hr as <-; vm_compute; reflexivity).
  assert (H : (@main maven_ex jar_format_ex ["r"] ["r"] (main_world_ex pkg_bytes_ex)).1 = Ok tt)
    by (vm_compute; reflexivity).
  split_and!; [exact H1|exact H2|exact H3|exact H|].
  exact (@main_dist_package_json maven_ex jar_format_ex ["r"] ["r"] _ _ _ H1 H2 H3 H).
Defined.

Lemma main_copies_readme_license_witness :
  fs_wf (files (main_world_ex pkg_bytes_ex)) /\
  files (main_world_ex pkg_bytes_ex) !! cacheDirPath ["r"] = Some Dir /\
  files (main_world_ex pkg_bytes_ex) !! emailDestDir ["r"] = Some Dir /\
  (@main maven_ex jar_format_ex ["r"] ["r"] (main_world_ex pkg_bytes_ex)).1 = Ok tt /\
  Forall (fun n => exists d, files (main_world_ex pkg_bytes_ex) !! (["r"] ++ [n]) = Some (File d) /\
    files (@main maven_ex jar_format_ex ["r"] ["r"] (main_world_ex pkg_bytes_ex)).2
      !! (distDirPath ["r"] ++ [n]) = Some (File d)) copiedFiles.
Proof.
  assert (H1 : files (main_world_ex pkg_bytes_ex) !! cacheDirPath ["r"] = Some Dir)
    by (vm_compute; reflexivity).
  assert (H2 : files (main_world_ex pkg_bytes_ex) !! emailDestDir ["r"] = Some Dir)
    by (vm_compute; reflexivity).
  assert (H3 : (@main maven_ex jar_format_ex ["r"] ["r"] (main_world_ex pkg_bytes_ex)).1 = Ok tt)
    by (vm_compute; reflexivity).
  split_and!; [exact main_world_ex_wf|exact H1|exact H2|exact H3|].
  exact (@main_copies_readme_license maven_ex jar_format_ex ["r"] ["r"] _ main_world_ex_wf H1 H2 H3).
Defined.

Lemma main_rejects_bom_witness :
  files (main_world_ex (Byte.xef :: Byte.xbb :: Byte.xbf :: pkg_bytes_ex)) !! packageJsonPath ["r"] =
    Some (File (Byte.xef :: Byte.xbb :: Byte.xbf :: pkg_bytes_ex)) /\
  @main maven_ex jar_format_ex ["r"] ["r"] (main_world_ex (Byte.xef :: Byte.xbb :: Byte.xbf :: pkg_bytes_ex)) =
    (Err SyntaxError, main_world_ex (Byte.xef :: Byte.xbb :: Byte.xbf :: pkg_bytes_ex)).
Proof.
  assert (H : files (main_world_ex (Byte.xef :: Byte.xbb :: Byte.xbf :: pkg_bytes_ex)) !! packageJsonPath ["r"] =
                Some (File (Byte.xef :: Byte.xbb :: Byte.xbf :: pkg_bytes_ex))) by (vm_compute; reflexivity).
  split; [exact H|exact (@main_rejects_bom maven_ex jar_format_ex ["r"] ["r"] _ _ H)].
Defined.

End Main.
