(* ===== verification/Console.v ===== *)
(** The end of [build.ts]: the console message of line 166 and the
    script as the process Node runs (lines 17 and 167).

    [console.log(chalk.green(`\n\nDone for keycloak version ${keycloakVersion}`))]
    writes one line to standard output.  The output is a trace, the list
    of the strings written so far, beside the world: [cio] is the [io]
    monad of [FileSystem] with the trace added, and [lift] runs an [io]
    call in it without writing.  [chalk.green] is chalk's [applyStyle]
    for the green style: at colour level 0 or on the empty string the
    text is returned as it is; otherwise an inner close code is followed
    by the open code again ([stringReplaceAll]), each line break is
    wrapped in close and open codes ([stringEncaseCRLFWithFirstIndex]),
    and the whole is put between the open and the close code.  The level
    chalk detects from the terminal and the environment is a parameter.

    The script is the async function of line 17 called at line 167: a
    rejected promise is an unhandled rejection, and Node exits with code
    1 after printing it on standard error (which is not modelled); a
    fulfilled one ends the process with code 0.

    The theorem: the script writes exactly what [Main.main] writes to the
    file system, and prints the message, once and last, exactly when
    [main] succeeds; with the escape codes removed the message is the text
    of line 166 with the Keycloak version of [package.json]. *)

From S2P Require Import Prelude Contracts JsPrim Version FileSystem Extractor Cache PackageJson Build Main.
From Stdlib Require Import DecimalString.

Module Console.
Import KeycloakVersion FileSystem Extractor Cache PackageJson Build Main.

(** ** Standard output beside the world *)

Definition cio (A : Type) : Type := world * list string -> result A * (world * list string).

Definition lift {A} (c : io A) : cio A :=
  fun '(w, out) => let '(r, w') := c w in (r, (w', out)).

Definition cbind {A B} (c : cio A) (k : A -> cio B) : cio B :=
  fun s => match c s with
           | (Ok a, s') => k a s'
           | (Err e, s') => (Err e, s')
           end.

Notation "x <~ c ;; k" := (cbind c (fun x => k))
  (at level 100, c at next level, right associativity) : kc_scope.
Local Open Scope kc_scope.

Definition lf : string := String "010" EmptyString.
Definition crlf : string := String "013" lf.

(** [console.log(s)] with one string argument: [s] and a line feed. *)
Definition console_log (s : string) : cio unit :=
  fun '(w, out) => (Ok tt, (w, out ++ [s +:+ lf])).

(** ** chalk.green *)

Definition esc : ascii := "027".
Definition green_open : string := String esc "[32m".
Definition green_close : string := String esc "[39m".

(** chalk's [stringReplaceAll(string, substring, replacer)]: each
    occurrence of [substring], from the left and not overlapping, is
    followed by [replacer]; each step consumes a character at least, so
    the length of the string is enough fuel for a non-empty [substring]. *)
Fixpoint replace_all_go (fuel : nat) (sub rep s : string) : string :=
  match fuel with
  | O => s
  | S f =>
      match s with
      | EmptyString => EmptyString
      | String c s' =>
          if String.prefix sub s
          then sub +:+ rep +:+
               replace_all_go f sub rep
                 (String.substring (String.length sub) (String.length s - String.length sub) s)
          else String c (replace_all_go f sub rep s')
      end
  end.

Definition replace_all (sub rep s : string) : string := replace_all_go (String.length s) sub rep s.

(** chalk's [stringEncaseCRLFWithFirstIndex(string, prefix, postfix)]:
    each line feed, with the carriage return before it if there is one,
    becomes [prefix], the line break and [postfix]. *)
Fixpoint encase_crlf (pre post s : string) : string :=
  match s with
  | EmptyString => EmptyString
  | String c s' =>
      if Ascii.eqb c "010" then pre +:+ lf +:+ post +:+ encase_crlf pre post s'
      else if Ascii.eqb c "013" then
        match s' with
        | String d s'' =>
            if Ascii.eqb d "010"
            then pre +:+ crlf +:+ post +:+ encase_crlf pre post s''
            else String c (encase_crlf pre post s')
        | EmptyString => String c EmptyString
        end
      else String c (encase_crlf pre post s')
  end.

(** [chalk.green(s)] at colour [level] (chalk's [applyStyle]). *)
Definition chalk_green (level : nat) (s : string) : string :=
  match s with
  | EmptyString => s
  | _ =>
      if (level =? 0)%nat then s else
      let s1 := if str_mem esc s then replace_all green_close green_open s else s in
      let s2 := if str_mem "010" s1 then encase_crlf green_close green_open s1 else s1 in
      green_open +:+ s2 +:+ green_close
  end.

(** The template literal of line 166. *)
Definition done_message (keycloakVersion : string) : string :=
  String "010" (String "010" ("Done for keycloak version " +:+ keycloakVersion)).

(** ** The script *)

(** Lines 17-167: the body of [main], then the message of line 166. *)
Definition script `{Fetcher} `{ArchiveFormat} (level : nat) (cwd rootDir : list string) : cio unit :=
  pj <~ lift (readPackageJson rootDir) ;;
  _ <~ lift (io_of_result (zParse pj)) ;;
  _ <~ lift (build cwd rootDir (version_of pj)) ;;
  _ <~ lift (writeDistPackageJson rootDir pj) ;;
  _ <~ lift (copyFiles rootDir copiedFiles) ;;
  console_log (chalk_green level (done_message (keycloakVersion (version_of pj)))).

(** The exit code of the process: an unhandled rejection exits with 1. *)
Definition exit_code (r : result unit) : nat :=
  match r with
  | Ok _ => 0
  | Err _ => 1
  end.

(** A run of [node build.js] on the world [w] with nothing printed yet:
    the exit code, the world after and the lines printed. *)
Definition run_script `{Fetcher} `{ArchiveFormat} (level : nat) (cwd rootDir : list string) (w : world)
    : nat * world * list string :=
  let '(r, (w', out)) := script level cwd rootDir (w, []) in (exit_code r, w', out).

(** The text without SGR escape sequences ([ESC [ ... m]); [in_code]
    says whether an open sequence is being skipped. *)
Fixpoint strip_sgr (in_code : bool) (s : string) : string :=
  match s with
  | EmptyString => EmptyString
  | String c s' =>
      if in_code then strip_sgr (negb (Ascii.eqb c "m")) s'
      else if Ascii.eqb c esc then strip_sgr true s' else String c (strip_sgr false s')
  end.

(** The run of [Main.main_ex], in colour. *)
Definition run_script_ex : nat * world * list string :=
  @run_script maven_ex jar_format_ex 1 ["r"] ["r"] (main_world_ex pkg_bytes_ex).

(** ** Lemmas *)

Lemma strip_sgr_no_esc s t : str_mem esc s = false -> strip_sgr false (s +:+ t) = s +:+ strip_sgr false t.
Proof.
  induction s as [|c s IH]; [done|]. cbn [str_mem]. intros [Hc Hs]%orb_false_iff.
  cbn [String.append strip_sgr]. rewrite Hc. by rewrite IH.
Qed.

Lemma strip_sgr_codes t :
  strip_sgr false (green_close +:+ t) = strip_sgr false t /\
  strip_sgr false (green_open +:+ t) = strip_sgr false t.
Proof. split; reflexivity. Qed.

Lemma strip_sgr_cons c t : c <> esc -> strip_sgr false (String c t) = String c (strip_sgr false t).
Proof. intros Hc. cbn [strip_sgr]. destruct (Ascii.eqb_spec c esc); done. Qed.

(** A line break wrapped in the close and open codes strips to itself. *)
Lemma strip_sgr_break b t : str_mem esc b = false ->
  strip_sgr false (green_close +:+ b +:+ green_open +:+ t) = b +:+ strip_sgr false t.
Proof. intros Hb. rewrite (proj1 (strip_sgr_codes _)), strip_sgr_no_esc by done. by rewrite (proj2 (strip_sgr_codes _)). Qed.

Lemma strip_encase_len n s t : (String.length s <= n)%nat -> str_mem esc s = false ->
  strip_sgr false (encase_crlf green_close green_open s +:+ t) = s +:+ strip_sgr false t.
Proof.
  revert s. induction n as [|n IH]; intros [|c s] Hl Hm; try done; [simpl in Hl; lia|].
  cbn [str_mem] in Hm. apply orb_false_iff in Hm as [Hc Hs]. cbn [String.length] in Hl. cbn [encase_crlf].
  assert (Hce : c <> esc) by (intros ->; done).
  destruct (Ascii.eqb_spec c "010") as [->|Hn].
  { rewrite !str_app_assoc, (strip_sgr_break lf) by done.
    cbn [String.append]. rewrite IH; [done|lia|done]. }
  destruct (Ascii.eqb_spec c "013") as [->|Hr].
  - destruct s as [|d s']; [reflexivity|].
    destruct (Ascii.eqb_spec d "010") as [->|Hd].
    + cbn [str_mem] in Hs. apply orb_false_iff in Hs as [_ Hs']. cbn [String.length] in Hl.
      rewrite !str_app_assoc, (strip_sgr_break crlf) by done.
      cbn [String.append]. rewrite IH; [done|lia|done].
    + cbn [String.append]. rewrite strip_sgr_cons by done. f_equal. apply IH; [simpl in *; lia|exact Hs].
  - cbn [String.append]. rewrite strip_sgr_cons by done. f_equal. apply IH; [lia|exact Hs].
Qed.

Lemma strip_encase s t : str_mem esc s = false ->
  strip_sgr false (encase_crlf green_close green_open s +:+ t) = s +:+ strip_sgr false t.
Proof. apply strip_encase_len with (n := String.length s). lia. Qed.

(** What chalk adds to a text without escape codes strips away. *)
Lemma chalk_green_strip level s t : str_mem esc s = false ->
  strip_sgr false (chalk_green level s +:+ t) = s +:+ strip_sgr false t.
Proof.
  intros Hs. destruct s as [|c s']; [done|]. unfold chalk_green.
  destruct (level =? 0)%nat; [by apply strip_sgr_no_esc|]. rewrite Hs, !str_app_assoc, (proj2 (strip_sgr_codes _)).
  destruct (str_mem "010" (String c s')).
  - by rewrite strip_encase, (proj1 (strip_sgr_codes _)).
  - by rewrite strip_sgr_no_esc, (proj1 (strip_sgr_codes _)).
Qed.

Lemma str_mem_esc_uint d : str_mem esc (NilEmpty.string_of_uint d) = false.
Proof. induction d; cbn [NilEmpty.string_of_uint str_mem]; rewrite ?IHd; reflexivity. Qed.

Lemma str_mem_esc_number n : str_mem esc (js_number_to_string n) = false.
Proof.
  destruct n as [z|]; [|reflexivity]. unfold js_number_to_string, NilZero.string_of_int, NilZero.string_of_uint.
  destruct (Z.to_int z) as [d|d]; destruct d; try reflexivity;
    cbn [str_mem]; rewrite ?str_mem_esc_uint; reflexivity.
Qed.

Lemma str_mem_esc_done_message v : str_mem esc (done_message (keycloakVersion v)) = false.
Proof.
  unfold done_message, keycloakVersion. destruct (keycloakVersionFields v) as [[a b] c].
  cbn [str_mem]. rewrite !str_mem_app, !str_mem_esc_number. reflexivity.
Qed.

Section ScriptLemmas.
Context `{Fetcher} `{ArchiveFormat}.

Lemma lift_run {A} (c : io A) w out : lift c (w, out) = ((c w).1, ((c w).2, out)).
Proof. unfold lift. by destruct (c w). Qed.

(** The script fails where [main] fails, with the output untouched, and
    otherwise ends as [main] ends, with the message of line 166. *)
Lemma script_cases level cwd rootDir w out :
  (exists e w', main cwd rootDir w = (Err e, w') /\ script level cwd rootDir (w, out) = (Err e, (w', out))) \/
  (exists pj w', readPackageJson rootDir w = (Ok pj, w) /\ main cwd rootDir w = (Ok tt, w') /\
     script level cwd rootDir (w, out) =
       (Ok tt, (w', out ++ [chalk_green level (done_message (keycloakVersion (version_of pj))) +:+ lf]))).
Proof.
  unfold script, main, cbind, io_bind. rewrite lift_run.
  destruct (readPackageJson_cases rootDir w) as [(bytes & pj & _ & _ & Er) | (e & Er)];
    rewrite Er; cbn [fst snd]; [|left; by eexists _, _].
  rewrite lift_run. unfold io_of_result. destruct (zParse pj) as [[]|e]; cbn [fst snd]; [|left; by eexists _, _].
  rewrite lift_run. destruct (build cwd rootDir (version_of pj) w) as [[[]|e] w2]; cbn [fst snd];
    [|left; by eexists _, _].
  rewrite lift_run. destruct (writeDistPackageJson rootDir pj w2) as [[[]|e] w3]; cbn [fst snd];
    [|left; by eexists _, _].
  rewrite lift_run. destruct (copyFiles rootDir copiedFiles w3) as [[[]|e] w4]; cbn [fst snd];
    [right; by exists pj, w4|left; by eexists _, _].
Qed.

End ScriptLemmas.

(** ** Theorems *)

(** C35: a run of the script leaves the file system (and the requests
    made) as [Main.main] leaves them; when [main] succeeds it exits with 0
    and prints one line, [chalk.green] of the message of line 166 with the
    Keycloak version of [package.json], which read without its escape
    codes, at any colour level, is that message; when [main] fails it
    exits with 1 and prints nothing. *)
Theorem run_script_console `{Fetcher} `{ArchiveFormat} level cwd rootDir w :
  let '(code, w', out) := run_script level cwd rootDir w in
  w' = (main cwd rootDir w).2 /\
  match (main cwd rootDir w).1 with
  | Ok _ => code = 0 /\ exists pj, readPackageJson rootDir w = (Ok pj, w) /\
      out = [chalk_green level (done_message (keycloakVersion (version_of pj))) +:+ lf] /\
      strip_sgr false (String.concat EmptyString out) = done_message (keycloakVersion (version_of pj)) +:+ lf
  | Err _ => code = 1 /\ out = []
  end.
Proof.
  unfold run_script.
  destruct (script_cases level cwd rootDir w []) as [(e & w' & Em & Es) | (pj & w' & Er & Em & Es)];
    rewrite Es, Em; cbn [fst snd exit_code]; [done|].
  split_and!; [done..|exists pj; split_and!; [done..|]].
  cbn [app String.concat]. rewrite chalk_green_strip by apply str_mem_esc_done_message. done.
Qed.

(** The message as a colour terminal receives it: each of the two
    leading line feeds is wrapped in the close and open codes. *)
Example run_script_ex_output :
  run_script_ex.1.1 = 0 /\
  run_script_ex.2 =
    [green_open +:+ green_close +:+ lf +:+ green_open +:+ green_close +:+ lf +:+ green_open +:+
     "Done for keycloak version 26.0.5" +:+ green_close +:+ lf].
Proof. split; vm_compute; reflexivity. Qed.

(** An inner close code is followed by the open code again, so the rest
    of the text stays green. *)
Example chalk_green_reopen :
  chalk_green 1 ("a" +:+ green_close +:+ "b") =
  green_open +:+ "a" +:+ green_close +:+ green_open +:+ "b" +:+ green_close.
Proof. vm_compute. reflexivity. Qed.

End Console.
